(* ===== verification/_CoqProject ===== *)
-Q . S2P
Prelude.v
Concurrency.v
GoStrings.v
GoTime.v
GoFlag.v
GoEncoding.v
GoError.v
Json.v
JsonDecode.v
GoFloat.v
Binary64.v
Netip.v
NetipText.v
NetworkPolicy.v
HostKey.v
Config.v
Auth.v
Limiter.v
WsProtocol.v
SshClient.v
WsHandler.v
Metrics.v
WsConcurrent.v
WsTeardown.v
WsMessages.v
Tunnel.v
TunnelConcurrent.v
TunnelTeardown.v
Vault.v
VaultSecrecy.v
HttpServer.v
CliError.v
CliOptions.v
CliUrl.v
CliTunnel.v
CliSession.v
CliOutput.v
CliTerm.v
CliConcurrent.v
SessionSystem.v
CliTunnelConcurrent.v
TunnelSystem.v
Doh.v
PrivateConnect.v
CliHttp.v
CliRun.v
CliServer.v
CliDial.v
CliRefusal.v
Themes.v
Main.v
CmdLine.v
ServerLife.v
