(* ===== verification/Prelude.v ===== *)
(** * A verification development for go-webssh

    go-webssh is a Go server and a terminal client for it.  A browser or the
    client logs in over HTTP, opens a WebSocket and gets an interactive SSH
    session, or a raw TCP tunnel, to a host the server's policy allows; private
    keys are kept in an encrypted vault.  This library models the logic of both
    programs as Rocq functions and proves what makes them correct, each by
    itself and against the other.  Every definition names the Go function it
    translates, by its own name or in its comment.

    ** How the parts interact

    A configuration is read once and gives the network policy, the limits, the
    host key policy and the key of the vault; the start of the server puts these
    together.  Authentication turns a cookie into a user.  The two WebSocket
    endpoints check origin and session, take a slot of their limit, read one
    connect message, check it, ask the network policy about the target and dial:
    the terminal endpoint through the SSH client and its host key callback, the
    tunnel endpoint directly.  The vault keeps stored credentials, which the
    HTTP handlers serve.

    The client parses its command line into options, builds its URLs and its
    Origin from the server's URL, logs in, fetches a stored credential if it is
    told to, opens a WebSocket with the login's cookie and relays standard input
    and output.  In private mode it finds the server's address by DNS over HTTPS
    and dials it without naming the server.

    ** The files

    Shared ground: this file (results of fallible functions with their binds,
    64-bit integers with wrap-around, byte strings, the tactics [bool_facts],
    [ok_path], [in_list] and [cases], the hint databases [gows] and [gostr]).

    Go's standard library, as far as the source uses it, executable, with the
    lemmas the rest needs:
    - GoStrings: strings, strconv (Atoi, Itoa), trimming, cutting, case;
    - GoTime: time.Duration and time.ParseDuration with its overflow checks;
    - GoFlag: the flag package and strconv.ParseInt, with the grammar of command
      lines that [Parse] accepts;
    - GoEncoding: encoding/hex, encoding/base64, with their round trips;
    - GoError: error values with codes and causes;
    - Json, JsonDecode: encoding/json.  The printer, the parser, decoding into structs
      field by field, and the round trip of a clean document;
    - GoFloat: the shortest text of a float as encoding/json prints it, and that it
      reads back; Binary64: every operation on floats gives a binary64 value;
    - Netip: net/netip and net.SplitHostPort, JoinHostPort; NetipText: a printed
      address parses to itself, and [net.IP].

    Concurrency: what a goroutine goes through to write under a lock, shared by
    the models of goroutines.

    The program:
    - NetworkPolicy (internal/security/network_policy.go): [NewNetworkPolicy],
      [ResolveAllowedHostPort], [ValidateHostPort]; the DNS resolver is a
      parameter.
    - HostKey (internal/security/hostkey.go): [NewHostKeyCallback] and the
      classification of its errors.
    - Config (internal/config/config.go, the flags of cmd/webssh/main.go):
      [Default], [Load], [ApplyEnv], [ApplyFlags], [Validate], [configure].
    - Auth (internal/auth/auth.go): session store, signed tokens, sealed
      remember-me cookies, [Login], [Logout], [SessionFromRequest].  A run of
      the server is a list of [Event]s.
    - Limiter (reserveSession in internal/ws/handler.go, reserveTunnel in
      internal/ws/tunnel.go): the compare-and-swap loops as a small-step
      relation over any number of interleaved requests.
    - WsProtocol (internal/ws/protocol.go): the messages and their JSON.
    - SshClient (internal/sshclient/client.go): [Connect] as the sequence of
      calls it makes into the SSH library.
    - WsHandler (internal/ws/handler.go): [ServeHTTP], the session's frames and
      cleanup as a list of effects.
    - Metrics (internal/sshclient/metrics.go, streamMetrics): the probe's ten
      numbers, the usage computed from two samples, and its message.
    - WsConcurrent (run, copyOutput, streamMetrics, writeJSON and cleanup of
      internal/ws/handler.go): the session's goroutines as a small-step system
      over the lock, the channels and the fields they share; WsTeardown: what
      every schedule of them guarantees, and what can go wrong; WsMessages: the
      text of every message they send, and the inputs of the frames they read.
    - Tunnel (internal/ws/tunnel.go): [ServeTunnelHTTP], [connect], both copy
      loops, [writeAll].
    - TunnelConcurrent (run, keepAlive and the copy loops of internal/ws/tunnel.go):
      the tunnel's goroutines in the same style; TunnelTeardown: that they refine
      the loops of Tunnel, and how a tunnel ends.
    - Vault (internal/vault/vault.go): [Open] and the master key, the store's
      operations, the migration of records sealed by an older version;
      VaultSecrecy: stores that differ only in private keys and passphrases.
    - HttpServer (internal/httpserver/server.go): the routes and the handlers
      over Auth and Vault, composed into [serve].
    - Themes (themes/catalog.go): theme files, the catalogue, its names.
    - Main (cmd/webssh/main.go, internal/logging): [start], the composition of
      configuration, vault, policy, host keys and themes.
    - CmdLine (cmd/webssh/main.go, cmd/webssh-cli/main.go): the flags of both
      programs, up to [start] and to the actions of CliRun.
    - ServerLife (cmd/webssh/main.go, [Start] and [Shutdown] of
      internal/httpserver/server.go): the server's process from its listener to
      its end, with the connections it serves.

    The client (internal/cli, cmd/webssh-cli):
    - CliError: the errors it looks inside, and the server's error messages.
    - CliOptions (cli.go): options, destinations, identity files, [matchSaved].
    - CliUrl (cli.go): [newClient], the proxy, the Origin, the endpoints' URLs.
    - CliTunnel (tunnel.go): [RunTunnel], both copy loops, against Tunnel;
      CliTunnelConcurrent: the goroutines of [relayTunnel]; TunnelSystem: they and
      those of TunnelConcurrent as one system.
    - CliSession (session.go): [relay] and its loops, against WsHandler;
      CliOutput: against the orders in which WsConcurrent writes; CliConcurrent: the
      goroutines of [relay]; SessionSystem: they and those of WsConcurrent as
      one system.
    - CliTerm (term.go, term_windows.go, session.go, cli.go): raw mode, hidden
      input, window sizes, the terminal around [relay], prompts.
    - Doh (doh.go): [lookup] over the DNS providers, and the queries it sends.
    - PrivateConnect (private.go, private_dial.go): the TLS configuration, the
      dialer and the transports of private connections.
    - CliHttp (cli.go, private.go): requests and answers, [http.Client.Do] with its
      redirects, the WebSocket's handshake.
    - CliRun (cli.go, cmd/webssh-cli): [Run] as effects, in private mode too; the
      options of the tunnel mode, what [main] does.
    - CliServer: the client's reading of what HttpServer serves.
    - CliDial (cli.go): the handshake against Auth and WsHandler; CliRefusal: what
      the client shows of the server's errors, and its login.

    The database, the session store and the network policy are records; the
    operations on them are functions from the state before to the state after
    and an answer, composed as the code composes them.  Effects are in order, the
    attempts that fail and the refusals among them.  What comes from outside
    (random bytes, the clock, frames, answers of a library) is an argument.  Where
    goroutines share state (the limits, both ends of a session and of a tunnel, the
    server's process) a step lets one of them do its next atomic action, and
    theorems are about every schedule.  In the two systems a step may also hand
    a side the next message that the other side sent.

    ** What is shown

    - What the server connects to: a session or a tunnel dials only for an
      authenticated request of the right origin, after the connect message
      passed its checks and the policy accepted the target
      ([session_dials_allowed], [tunnel_dials_validated], [ServeHTTP_guarded]);
      and what the policy accepts ([default_policy_targets_safe],
      [resolved_name_all_checked], [deny_entries_only_remove]).
    - Resources: every session and tunnel gives its slot back exactly once and
      closes what it opened ([session_slot_balanced], [session_closes_ssh],
      [tunnel_slot_balanced], [Connect_releases]); the limits hold under any
      interleaving, refine an atomic semaphore, refuse only when full, and the
      loops end ([slots_within_limit], [slots_refine_semaphore],
      [slots_exact_admission], [slots_loop_terminates]).
    - Goroutines: one writer at a time ([session_one_writer]), output in order
      ([session_output_in_order], [tunnel_streams]), everything taken down once
      and in a fixed order ([session_taken_down], [tunnel_taken_down]), no
      deadlock ([session_can_end]) and nothing left running ([tunnel_taken_down]).
    - Who is let in: provenance, lifetime and owner of sessions, the round trip
      of sealed cookies ([session_provenance], [session_lifetime],
      [authenticated_is_owner], [sealed_session_roundtrip]).
    - What reaches the shell or the target: typed bytes in order, a fixed
      attach command with a safe name, relayed bytes unchanged
      ([typed_text_arrives], [session_types_safe_attach], [relay_faithful],
      [writeAll_total]).
    - The vault: it is a finite map of credentials under any run of its
      operations ([vault_refines]), migration loses nothing
      ([migration_exact]), the master key is chosen once ([open_keeps_key]),
      listings are complete ([ListSummaries_complete]).
    - The HTTP server: no session, no vault ([credentials_guarded]); what is
      saved is served ([saved_credential_served]); but for the endpoint that serves
      one credential and the migration, answers do not depend on secrets, shown as
      a two-run property ([secrets_stay_in_vault]).
    - The whole server: what a start guarantees, and that starting again gives
      the same server ([start_sound], [restart_same]); and how it stops
      ([server_stops]).
    - Both ends of a connection composed, under every schedule of the goroutines
      of both: what is typed reaches the shell ([typed_in_order]), what the shell
      prints is shown ([shown_in_order]), the exit status is the shell's
      ([exit_status_true]); a tunnel carries the bytes of both directions
      ([tunnel_carries]) and reports success only when it was
      ([tunnel_success_true]).
    - Both ends composed loop by loop: the handshake of a logged-in client is
      accepted ([client_handshake_accepted], [client_origin_accepted]); the bytes
      and the outcome of a tunnel ([tunnel_end_to_end], [tunnel_request_agrees],
      [tunnel_outcome_reported]); input, output, exit status, window and pings of a
      session ([session_input_end_to_end], [session_exit_end_to_end],
      [resize_reaches_shell], [ping_comes_back]); refusals are shown
      ([refusals_reported]) and logins agree ([client_login_agrees]); a stored
      credential opens the connection it describes ([saved_list_agrees],
      [saved_credential_connects]).
    - The client by itself: it talks to its server only, redirects apart, and in
      private mode to the DNS providers and the server's address, and closes what
      it opens ([Run_stays_on_server]), its goroutines ([client_session],
      [client_tunnel]), its command line ([Parse_accepts_lines],
      [command_line_spelling], [proxy_command_tunnels], [server_line_starts],
      [ParseDestination_roundtrip], [matchSaved_spec],
      [tunnel_options_precedence]), the terminal it gives back
      ([relay_restores_terminal], [console_restored]) and the lines it reads from it
      ([hidden_input_edits]), DNS answers and the
      progress of a lookup ([lookup_sound], [lookup_finds]), private connections
      ([private_connection_safe], [private_dial_agrees]).
    - Themes and metrics: well-formed and overlaid ([Load_overlay],
      [orderedNames_spec]); the probe read back exactly and the bounds of what is
      reported ([probe_roundtrip], [stream_bounds]).
    - Formats and errors: messages survive the wire ([requests_roundtrip],
      [answers_roundtrip]), error codes ([Connect_error_codes],
      [host_key_rejection_reported]), floats ([json_float_roundtrip]), configuration ([Validate_Ok],
      [Validate_complete], [configure_precedence]), bounds
      ([UnmarshalYAML_seconds], [ping_interval_bounds]).
    - Where the code does less than it seems to: a zone disarms the deny list
      ([zone_disarms_deny_list]), a logout leaves sealed cookies valid
      ([logout_spares_sealed]), a tunnel whose confirmation cannot be written
      leaves its target open ([tunnel_leaks_unconfirmed]); the client's Origin
      for a URL with an explicit default port is refused by its own server
      ([client_origin_accepted]); chunks of standard input can be too long for
      the server or split a character ([stdin_chunk_limits]); counters that
      restart wrap around ([stream_bounds]); the closing message can overtake the
      last output ([session_output_lost]); a frame at the end of a session, or
      a late start of the goroutine that waits for the shell, can dereference nil
      and end the server ([session_nil_dereference]); a target
      that half-closes cuts off the client ([tunnel_half_close_one_way]); prompts
      on a pipe take more than their line ([prompts_lose_input]); an interrupt does
      not end a session that waits for a frame ([client_session]); the server's
      shutdown cuts off open WebSockets ([server_stops]).

    ** Fuel

    Recursion over text uses the length of the text as fuel ([TrimSpace],
    [ParseDuration]; twice the length in the JSON scanner, which calls itself at
    most twice per byte): every step consumes at least a byte.  [Itoa] has 20
    digits, more than a 64-bit integer needs.  [writeAll] and the
    compare-and-swap loops are not given fuel in their statements:
    [writeAll_total] shows that as many rounds as there are bytes are enough,
    [slots_loop_terminates] bounds the steps of a run, [tunnel_taken_down] those
    after a tunnel's end.  The client's loops recurse over the reads, frames or
    providers they are given.  The digits of a float are at most 1500, and the
    search for the shortest has as many rounds: a binary64 value has no more
    than 1100 significant decimal digits, and [json_float_roundtrip] shows that
    the text it ends with reads back.

    ** What is a parameter, and what is left out

    Cryptography (the class [Crypto] of Auth: sizes of digests, and a
    deterministic authenticated cipher that opens exactly what it sealed),
    argon2, the JSON text of times (class [TimeText] of Vault), the resolver,
    golang.org/x/crypto/ssh (the record [SshLib]), knownhosts, yaml.Unmarshal,
    the file system and bbolt's commits.  For the client: url.Parse (the model
    starts at its result), strconv.Quote, the Unicode tables of case folding
    outside ASCII, the cookie jar, the answers to single HTTP requests (following
    redirects is modelled), the DNS providers, crypto/tls
    and crypto/x509 (a handshake's state and the verification of a certificate),
    the bits of terminal modes, and spellings of floats that are no JSON numbers.  Section variables and
    classes hold their documented behaviour; the witnesses run the theorems on
    concrete instances.

    Not modelled, because nothing of them is logic of this program: usage texts;
    log output; deadlines
    (a goroutine's read or write may fail at any time; where a deadline decides,
    in [lookup] and in [Shutdown], it is a duration or a step of the clock); asset
    contents; wiping secrets from memory, which has no effect a caller sees; the
    files term_stub.go and termios_*.go of internal/cli, which hold constants and
    refusals.  A WebSocket is its messages in order; a message that is lost with
    the connection is a read or write that fails. *)

From stdpp Require Export base tactics numbers list strings gmap.
From Stdlib Require Export ZArith Lia Ascii.

#[global] Open Scope Z_scope.

(** ** Go results

    A Go function that returns [(T, error)] is modelled by [result E T]: the
    value of the non-error return, or the error.  (The zero value that Go
    returns next to a non-nil error is never read by the callers modelled
    here; where it is, the model returns a pair.) *)

Inductive result (E A : Type) : Type :=
| Ok (a : A)
| Err (e : E).
Arguments Ok {E A} a.
Arguments Err {E A} e.

Definition res_bind {E A B} (r : result E A) (f : A -> result E B) : result E B :=
  match r with
  | Ok a => f a
  | Err e => Err e
  end.

Definition res_map {E A B} (f : A -> B) (r : result E A) : result E B :=
  res_bind r (fun a => Ok (f a)).

Definition map_err {E F A} (f : E -> F) (r : result E A) : result F A :=
  match r with
  | Ok a => Ok a
  | Err e => Err (f e)
  end.

Definition of_option {E A} (e : E) (o : option A) : result E A :=
  match o with
  | Some a => Ok a
  | None => Err e
  end.

Definition is_ok {E A} (r : result E A) : bool :=
  match r with
  | Ok _ => true
  | Err _ => false
  end.

Declare Scope go_scope.
Delimit Scope go_scope with go.
Notation "'let!' x ':=' r 'in' k" := (res_bind r (fun x => k))
  (at level 10, x pattern, r at level 100, k at level 200) : go_scope.
(** The early returns [if !c { return e }] and [if c { return e }]. *)
Notation "'require!' c 'else' e 'in' k" := (if c then k else Err e)
  (at level 10, c at level 100, e at level 100, k at level 200) : go_scope.
Notation "'reject!' c 'with' e 'in' k" := (if c then Err e else k)
  (at level 10, c at level 100, e at level 100, k at level 200) : go_scope.
Infix "=?s" := String.eqb (at level 70, no associativity) : go_scope.
#[global] Open Scope go_scope.

Lemma res_bind_Ok {E A B} (r : result E A) (f : A -> result E B) b :
  res_bind r f = Ok b <-> exists a, r = Ok a /\ f a = Ok b.
Proof.
  destruct r as [a|e]; simpl; split.
  - eauto.
  - intros (? & [= <-] & ?). done.
  - done.
  - by intros (? & ? & ?).
Qed.

Lemma res_bind_Err {E A B} (r : result E A) (f : A -> result E B) e :
  res_bind r f = Err e <-> r = Err e \/ exists a, r = Ok a /\ f a = Err e.
Proof.
  destruct r as [a|e']; simpl; split.
  - eauto.
  - intros [?|(? & [= <-] & ?)]; done.
  - intros [= ->]. by left.
  - by intros [[= ->]|(? & ? & ?)].
Qed.

#[global] Instance result_eq_dec `{EqDecision E, EqDecision A} : EqDecision (result E A).
Proof. solve_decision. Defined.

(** ** Machine integers

    Go's [int] and [time.Duration] are 64-bit two's complement on the
    platforms the program is built for (amd64, arm64). *)

Definition int64_min : Z := - 2 ^ 63.
Definition int64_max : Z := 2 ^ 63 - 1.
Definition in_int64 (z : Z) : bool := (int64_min <=? z) && (z <=? int64_max).
Definition wrap64 (z : Z) : Z := (z + 2 ^ 63) mod 2 ^ 64 - 2 ^ 63.

Lemma in_int64_spec z : in_int64 z = true <-> int64_min <= z <= int64_max.
Proof. unfold in_int64. rewrite andb_true_iff, !Z.leb_le. tauto. Qed.

Lemma wrap64_range z : int64_min <= wrap64 z <= int64_max.
Proof.
  unfold wrap64, int64_min, int64_max.
  pose proof (Z.mod_pos_bound (z + 2 ^ 63) (2 ^ 64) ltac:(lia)). lia.
Qed.

Lemma wrap64_id z : int64_min <= z <= int64_max -> wrap64 z = z.
Proof.
  unfold wrap64, int64_min, int64_max. intros H.
  rewrite Z.mod_small by lia. lia.
Qed.

(** ** Characters and byte strings

    A Go string is a sequence of bytes: the model uses [string], whose
    characters are the bytes.  [len] is Go's [len(s)]. *)

Definition len (s : string) : Z := Z.of_nat (String.length s).

Definition byte_of (c : ascii) : Z := Z.of_N (N_of_ascii c).
Definition chr (b : Z) : ascii := ascii_of_N (Z.to_N b).

Lemma byte_of_range c : 0 <= byte_of c < 256.
Proof.
  unfold byte_of. pose proof (N_ascii_bounded c). lia.
Qed.

Lemma chr_byte_of c : chr (byte_of c) = c.
Proof. unfold chr, byte_of. rewrite N2Z.id. apply ascii_N_embedding. Qed.

Lemma byte_of_chr b : 0 <= b < 256 -> byte_of (chr b) = b.
Proof.
  intros H. unfold chr, byte_of. rewrite N_ascii_embedding by lia. lia.
Qed.

Lemma byte_of_inj c d : byte_of c = byte_of d -> c = d.
Proof. intros H. rewrite <- (chr_byte_of c), <- (chr_byte_of d). by f_equal. Qed.

(** The double quote and the back slash, by their codes. *)
Definition dquote : ascii := "034"%char.
Definition bslash : ascii := "092"%char.

(** A text written with single quotes for double quotes. *)
Fixpoint q (s : string) : string :=
  match s with
  | EmptyString => ""
  | String c t => String (if Ascii.eqb c "'"%char then dquote else c) (q t)
  end.

(** Characters of a string as a list, and back. *)
Definition chars (s : string) : list ascii := String.list_ascii_of_string s.
Definition of_chars (l : list ascii) : string := String.string_of_list_ascii l.

Lemma of_chars_chars s : of_chars (chars s) = s.
Proof. apply String.string_of_list_ascii_of_string. Qed.

Lemma chars_of_chars l : chars (of_chars l) = l.
Proof. apply String.list_ascii_of_string_of_list_ascii. Qed.

Lemma length_chars s : length (chars s) = String.length s.
Proof. induction s; simpl; congruence. Qed.

Lemma str_app_cons c s t : String c s +:+ t = String c (s +:+ t).
Proof. reflexivity. Qed.

Lemma str_app_nil_l t : "" +:+ t = t.
Proof. reflexivity. Qed.

Lemma str_length_app s t :
  String.length (s +:+ t) = (String.length s + String.length t)%nat.
Proof. induction s as [|c s IH]; [done|]. rewrite str_app_cons. simpl. by rewrite IH. Qed.

Lemma len_app s t : len (s +:+ t) = len s + len t.
Proof. unfold len. rewrite str_length_app. lia. Qed.

Lemma len_nonneg s : 0 <= len s.
Proof. unfold len. lia. Qed.

Lemma len_0 s : len s = 0 <-> s = "".
Proof. unfold len. destruct s; simpl; split; intros; try done; lia. Qed.

Lemma str_app_nil_r s : s +:+ "" = s.
Proof. induction s as [|c s IH]; [done|]. by rewrite str_app_cons, IH. Qed.

Lemma str_app_assoc s t u : (s +:+ t) +:+ u = s +:+ (t +:+ u).
Proof. induction s as [|c s IH]; [done|]. by rewrite !str_app_cons, IH. Qed.

(** ** Tactics shared by the development *)

(** Turn boolean comparisons in the context into propositions. *)
Ltac bool_facts :=
  repeat match goal with
  | H : (_ && _)%bool = true |- _ => apply andb_true_iff in H; destruct H
  | H : (_ || _)%bool = false |- _ => apply orb_false_iff in H; destruct H
  | H : negb _ = true |- _ => apply negb_true_iff in H
  | H : negb _ = false |- _ => apply negb_false_iff in H
  | H : (_ <=? _) = true |- _ => apply Z.leb_le in H
  | H : (_ <=? _) = false |- _ => apply Z.leb_gt in H
  | H : (_ <? _) = true |- _ => apply Z.ltb_lt in H
  | H : (_ <? _) = false |- _ => apply Z.ltb_ge in H
  | H : (_ =? _) = true |- _ => apply Z.eqb_eq in H
  | H : (_ =? _) = false |- _ => apply Z.eqb_neq in H
  | H : (_ =?s _) = true |- _ => apply String.eqb_eq in H
  | H : (_ =?s _) = false |- _ => apply String.eqb_neq in H
  | H : bool_decide _ = true |- _ => apply bool_decide_eq_true in H
  | H : bool_decide _ = false |- _ => apply bool_decide_eq_false in H
  end.

(** Follow the successful path of a chain of binds and early returns in [H]. *)
Ltac ok_path H :=
  repeat match type of H with
  | res_bind _ _ = Ok _ =>
      apply res_bind_Ok in H;
      let a := fresh "a" in let Ha := fresh "Ha" in destruct H as (a & Ha & H)
  | (if ?c then Err _ else _) = Ok _ =>
      let E := fresh "Ec" in destruct c eqn:E; [discriminate H|]
  | (if ?c then _ else Err _) = Ok _ =>
      let E := fresh "Ec" in destruct c eqn:E; [|discriminate H]
  end.

(** Which element of an explicit list [H] is about. *)
Ltac in_list H :=
  lazymatch type of H with
  | _ ∈ [] => exfalso; exact (not_elem_of_nil _ H)
  | _ ∈ _ :: _ => apply elem_of_cons in H; destruct H as [H|H]; [|in_list H]
  | _ ∈ _ ++ _ => apply elem_of_app in H; destruct H as [H|H]; in_list H
  | _ => idtac
  end.

(** Case analysis on every [match] and [if] of the goal. *)
Ltac cases := repeat (case_match; simplify_eq/=; try done).

(** Facts about results, strings and machine integers that close routine
    goals. *)
Create HintDb gows.
#[export] Hint Resolve len_nonneg wrap64_range byte_of_range : gows.
Create Rewrite HintDb gostr.
#[export] Hint Rewrite str_length_app len_app str_app_nil_r chr_byte_of of_chars_chars
  chars_of_chars length_chars : gostr.
