(* ===== verification/Concurrency.v ===== *)
(** * A lock in a system of goroutines

    What the models of concurrent writers share: the three moments of a write
    under a mutex, and when a step keeps the lock's invariant. *)

From S2P Require Import Prelude.

(** A write of one message under [writeMu]: before [Lock], between [Lock] and
    the call, and before [Unlock]. *)
Inductive Writing : Type := Locking | Sending | Unlocking.

(** Between [Lock] and [Unlock]. *)
Definition mid_write (w : Writing) : bool := match w with Locking => false | _ => true end.

(** A step keeps the lock's invariant if it moves one thread only, and that
    thread takes a free lock, gives back its own, or leaves it alone. *)
Lemma lock_update {T} `{EqDecision T} (me : T) (h h' : T -> bool) (mu mu' : option T) :
  (forall t, h t = true <-> mu = Some t) -> (forall t, t <> me -> h' t = h t) ->
  (mu' = mu /\ h' me = h me) \/ (mu = None /\ mu' = Some me /\ h' me = true)
    \/ (h me = true /\ mu' = None /\ h' me = false) ->
  forall t, h' t = true <-> mu' = Some t.
Proof.
  intros Hmu Hother Hme t. destruct (decide (t = me)) as [->|Hne].
  - destruct Hme as [[-> ->]|[(_ & -> & ->)|(_ & -> & ->)]]; [apply Hmu|done|done].
  - rewrite (Hother t Hne). destruct Hme as [[-> _]|[(-> & -> & _)|(Hm & -> & _)]]; [apply Hmu| |].
    + rewrite Hmu. by split; intros ?; simplify_eq.
    + apply Hmu in Hm. rewrite Hmu, Hm. by split; intros ?; simplify_eq.
Qed.
