(* ===== verification/GoStrings.v ===== *)
(** * Go's [strings] and [strconv] on byte strings

    The part of Go's standard library the program relies on for text:
    prefixes, suffixes, searching, splitting, trimming, case mapping and
    decimal integers.  The definitions follow the documented behaviour of the
    Go functions of the same name, on bytes; every other file reads text
    through them.

    [ToLower] maps the ASCII letters and the two other code points whose lower
    case is ASCII (U+0130 and U+212A); other bytes stay.  It therefore answers
    exactly as Go does every question the program asks of a lowered string,
    each of which compares it with (or looks for) an ASCII literal. *)

From S2P Require Import Prelude.

(** ** Slicing: [s[n:]] and [s[:n]] *)

Fixpoint str_drop (n : nat) (s : string) : string :=
  match n, s with
  | O, _ => s
  | S n', String _ t => str_drop n' t
  | S _, EmptyString => EmptyString
  end.

Fixpoint str_take (n : nat) (s : string) : string :=
  match n, s with
  | S n', String c t => String c (str_take n' t)
  | _, _ => EmptyString
  end.

(** ** Prefixes, suffixes, searching *)

Fixpoint HasPrefix (s prefix : string) {struct prefix} : bool :=
  match prefix, s with
  | EmptyString, _ => true
  | String c p, String d t => Ascii.eqb d c && HasPrefix t p
  | String _ _, EmptyString => false
  end.

Definition HasSuffix (s suffix : string) : bool :=
  (String.length suffix <=? String.length s)%nat
  && (str_drop (String.length s - String.length suffix) s =?s suffix).

Definition TrimPrefix (s prefix : string) : string :=
  if HasPrefix s prefix then str_drop (String.length prefix) s else s.

Definition TrimSuffix (s suffix : string) : string :=
  if HasSuffix s suffix then str_take (String.length s - String.length suffix) s else s.

(** [strings.Index], [None] for -1. *)
Fixpoint Index (s sub : string) : option nat :=
  if HasPrefix s sub then Some O
  else match s with
       | EmptyString => None
       | String _ t => option_map S (Index t sub)
       end.

Definition Contains (s sub : string) : bool :=
  match Index s sub with Some _ => true | None => false end.

(** The position of the first and of the last occurrence of a byte. *)
Fixpoint IndexByte (s : string) (c : ascii) : option nat :=
  match s with
  | EmptyString => None
  | String d t => if Ascii.eqb d c then Some O else option_map S (IndexByte t c)
  end.

Fixpoint LastIndexByte (s : string) (c : ascii) : option nat :=
  match s with
  | EmptyString => None
  | String d t =>
      match LastIndexByte t c with
      | Some i => Some (S i)
      | None => if Ascii.eqb d c then Some O else None
      end
  end.

Definition ContainsByte (s : string) (c : ascii) : bool :=
  match IndexByte s c with Some _ => true | None => false end.

(** [strings.Cut] at a one-byte separator: what is before and after it. *)
Definition CutByte (s : string) (c : ascii) : option (string * string) :=
  match IndexByte s c with
  | Some i => Some (str_take i s, str_drop (S i) s)
  | None => None
  end.

(** [strings.Split] at a one-byte separator. *)
Fixpoint Split (s : string) (c : ascii) : list string :=
  match s with
  | EmptyString => [""]
  | String d t => match Split t c with
                  | part :: parts => if Ascii.eqb d c then "" :: part :: parts else String d part :: parts
                  | [] => []
                  end
  end.

(** [strings.Split(s, sep)[0]] for a one-byte separator. *)
Definition SplitFirst (s : string) (c : ascii) : string :=
  match CutByte s c with Some (a, _) => a | None => s end.

(** [strings.ContainsFunc] on bytes.  A rune predicate that rejects every rune
    outside ASCII gives the same answer on bytes, since each byte of an encoded
    non-ASCII rune, and each invalid byte, is rejected too. *)
Fixpoint ContainsFunc (f : ascii -> bool) (s : string) : bool :=
  match s with
  | EmptyString => false
  | String c t => f c || ContainsFunc f t
  end.

(** ** [strings.TrimSpace] *)

(** The UTF-8 encodings of the runes [unicode.IsSpace] accepts. *)
Definition space_runes : list string :=
  map (fun bs => of_chars (map chr bs))
    ([[9]; [10]; [11]; [12]; [13]; [32]; [194; 133]; [194; 160]; [225; 154; 128];
      [226; 128; 168]; [226; 128; 169]; [226; 128; 175]; [226; 129; 159]; [227; 128; 128]]
     ++ map (fun b => [226; 128; b]) [128; 129; 130; 131; 132; 133; 134; 135; 136; 137; 138]).

Definition leading_space (s : string) : option string :=
  List.find (fun r => HasPrefix s r) space_runes.
Definition trailing_space (s : string) : option string :=
  List.find (fun r => HasSuffix s r) space_runes.

Fixpoint trim_left (fuel : nat) (s : string) : string :=
  match fuel with
  | O => s
  | S f => match leading_space s with
           | Some r => trim_left f (str_drop (String.length r) s)
           | None => s
           end
  end.

Fixpoint trim_right (fuel : nat) (s : string) : string :=
  match fuel with
  | O => s
  | S f => match trailing_space s with
           | Some r => trim_right f (str_take (String.length s - String.length r) s)
           | None => s
           end
  end.

(** Every removed rune takes at least one byte: the length is enough fuel. *)
Definition TrimSpace (s : string) : string :=
  let t := trim_left (String.length s) s in
  trim_right (String.length t) t.

(** ** Case *)

Definition lower_byte (c : ascii) : ascii :=
  let b := byte_of c in
  if (65 <=? b) && (b <=? 90) then chr (b + 32) else c.

Fixpoint ToLower (s : string) : string :=
  match s with
  | EmptyString => EmptyString
  | String a t =>
      match t with
      | String b u =>
          if (byte_of a =? 196) && (byte_of b =? 176) then String "i"%char (ToLower u)
          else match u with
               | String c v =>
                   if (byte_of a =? 226) && (byte_of b =? 132) && (byte_of c =? 170)
                   then String "k"%char (ToLower v)
                   else String (lower_byte a) (ToLower t)
               | EmptyString => String (lower_byte a) (ToLower t)
               end
      | EmptyString => String (lower_byte a) EmptyString
      end
  end.

Fixpoint ascii_lower (s : string) : string :=
  match s with
  | EmptyString => EmptyString
  | String c t => String (lower_byte c) (ascii_lower t)
  end.

Fixpoint is_ascii (s : string) : bool :=
  match s with
  | EmptyString => true
  | String c t => (byte_of c <? 128) && is_ascii t
  end.

(** [strings.EqualFold(s, lit)] for a literal of ASCII letters other than k and
    s, the only ones that fold to runes outside ASCII. *)
Definition EqualFoldASCII (s lit : string) : bool := ascii_lower s =?s ascii_lower lit.

(** ** Decimal integers *)

Definition digit_of (c : ascii) : option Z :=
  let b := byte_of c in
  if (48 <=? b) && (b <=? 57) then Some (b - 48) else None.

Fixpoint digits_val (s : string) (acc : Z) : option Z :=
  match s with
  | EmptyString => Some acc
  | String c t => match digit_of c with
                  | Some d => digits_val t (acc * 10 + d)
                  | None => None
                  end
  end.

(** [strconv.Atoi]: an optional sign, at least one digit, in the range of a
    64-bit [int]. *)
Definition Atoi (s : string) : option Z :=
  let unsigned (neg : bool) (u : string) :=
    if u =?s "" then None
    else match digits_val u 0 with
         | Some v => let z := if neg then - v else v in
                     if in_int64 z then Some z else None
         | None => None
         end in
  match s with
  | String c t => if Ascii.eqb c "-"%char then unsigned true t
                  else if Ascii.eqb c "+"%char then unsigned false t
                  else unsigned false s
  | EmptyString => None
  end.

Definition digit_chr (d : Z) : ascii := chr (48 + d).

Fixpoint itoa_go (fuel : nat) (z : Z) (acc : string) : string :=
  match fuel with
  | O => acc
  | S f => let acc' := String (digit_chr (z mod 10)) acc in
           if z <? 10 then acc' else itoa_go f (z / 10) acc'
  end.

(** [strconv.Itoa].  A 64-bit integer has at most 19 digits: 20 is enough
    fuel. *)
Definition Itoa (z : Z) : string :=
  if z <? 0 then String "-"%char (itoa_go 20 (- z) "") else itoa_go 20 z "".

(** ** Lemmas: slicing *)

Lemma str_drop_app s t : str_drop (String.length s) (s +:+ t) = t.
Proof. induction s as [|c s IH]; [done|]. by rewrite str_app_cons. Qed.

Lemma str_take_app s t : str_take (String.length s) (s +:+ t) = s.
Proof. induction s as [|c s IH]; [by destruct t|]. rewrite str_app_cons. simpl. by rewrite IH. Qed.

Lemma str_take_drop n s : str_take n s +:+ str_drop n s = s.
Proof.
  revert s; induction n as [|n IH]; intros [|c s]; try done. simpl.
  by rewrite str_app_cons, IH.
Qed.

Lemma str_take_short n s : (String.length s <= n)%nat -> str_take n s = s.
Proof.
  revert n; induction s as [|c s IH]; intros n Hn; [by destruct n|].
  destruct n as [|n]; cbn [String.length] in Hn; [lia|]. cbn [str_take]. by rewrite IH by lia.
Qed.

Lemma str_length_take n s : String.length (str_take n s) = Nat.min n (String.length s).
Proof. revert s; induction n as [|n IH]; intros [|c s]; simpl; try done. by rewrite IH. Qed.

Lemma str_length_drop n s : String.length (str_drop n s) = (String.length s - n)%nat.
Proof. revert s; induction n as [|n IH]; intros [|c s]; simpl; try done. Qed.

Lemma str_app_inj_l s t u : s +:+ t = s +:+ u -> t = u.
Proof. induction s as [|c s IH]; [done|]. rewrite !str_app_cons. intros [= ?]. auto. Qed.

(** ** Lemmas: prefixes and suffixes *)

Lemma HasPrefix_spec s p : HasPrefix s p = true <-> exists t, s = p +:+ t.
Proof.
  revert s; induction p as [|c p IH]; intros s; simpl.
  - split; [|done]. intros _. by exists s.
  - destruct s as [|d s].
    + split; [done|]. by intros [t Ht].
    + rewrite andb_true_iff, Ascii.eqb_eq, IH. split.
      * intros [-> [t ->]]. by exists t.
      * intros [t Ht]. rewrite str_app_cons in Ht. injection Ht as -> ->. eauto.
Qed.

Lemma HasSuffix_spec s p : HasSuffix s p = true <-> exists t, s = t +:+ p.
Proof.
  unfold HasSuffix. rewrite andb_true_iff, Nat.leb_le, String.eqb_eq. split.
  - intros [Hl Hd]. exists (str_take (String.length s - String.length p) s).
    rewrite <- (str_take_drop (String.length s - String.length p) s) at 1.
    by rewrite Hd.
  - intros [t ->]. rewrite str_length_app. split; [lia|].
    replace (String.length t + String.length p - String.length p)%nat
      with (String.length t) by lia.
    apply str_drop_app.
Qed.

Lemma HasPrefix_app s t p : HasPrefix s p = true -> HasPrefix (s +:+ t) p = true.
Proof.
  rewrite !HasPrefix_spec. intros [u ->]. exists (u +:+ t). apply str_app_assoc.
Qed.

Lemma HasPrefix_take n s p : HasPrefix (str_take n s) p = true -> HasPrefix s p = true.
Proof. intros H. rewrite <- (str_take_drop n s). by apply HasPrefix_app. Qed.

Lemma IndexByte_Some s c i :
  IndexByte s c = Some i -> s = str_take i s +:+ String c (str_drop (S i) s).
Proof.
  revert i; induction s as [|d s IH]; intros i; simpl; [done|].
  destruct (Ascii.eqb d c) eqn:E.
  - intros [= <-]. apply Ascii.eqb_eq in E as ->. by destruct s.
  - destruct (IndexByte s c) as [j|] eqn:Ej; [|done]. intros [= <-]. simpl.
    rewrite str_app_cons. f_equal. rewrite (IH j eq_refl) at 1. by destruct s.
Qed.

Lemma IndexByte_take s c i : IndexByte s c = Some i -> IndexByte (str_take i s) c = None.
Proof.
  revert i; induction s as [|d s IH]; intros i; simpl; [done|].
  destruct (Ascii.eqb d c) eqn:E; [by intros [= <-]|].
  destruct (IndexByte s c) as [j|]; [|done]. intros [= <-]. simpl.
  by rewrite E, (IH j eq_refl).
Qed.

Lemma IndexByte_app_absent s c t :
  IndexByte s c = None -> IndexByte (s +:+ String c t) c = Some (String.length s).
Proof.
  induction s as [|d s IH]; intros H.
  - rewrite str_app_nil_l. simpl. by rewrite Ascii.eqb_refl.
  - rewrite str_app_cons. simpl in *. destruct (Ascii.eqb d c); [done|].
    destruct (IndexByte s c); [done|]. by rewrite IH.
Qed.

Lemma CutByte_app s c t :
  IndexByte s c = None -> CutByte (s +:+ String c t) c = Some (s, t).
Proof.
  intros H. unfold CutByte. rewrite IndexByte_app_absent by done.
  rewrite str_take_app.
  replace (S (String.length s)) with (String.length (s +:+ String c ""))
    by (rewrite str_length_app; simpl; lia).
  replace (s +:+ String c t) with ((s +:+ String c "") +:+ t)
    by (by rewrite str_app_assoc, str_app_cons, str_app_nil_l).
  by rewrite str_drop_app.
Qed.

Lemma IndexByte_app_None s t c :
  IndexByte (s +:+ t) c = None <-> IndexByte s c = None /\ IndexByte t c = None.
Proof.
  induction s as [|d s IH].
  - rewrite str_app_nil_l. simpl. tauto.
  - rewrite str_app_cons. simpl. destruct (Ascii.eqb d c); [split; [done|by intros [??]]|].
    destruct (IndexByte (s +:+ t) c), (IndexByte s c), (IndexByte t c); simpl;
      naive_solver congruence.
Qed.

Lemma LastIndexByte_app s c t :
  IndexByte t c = None -> LastIndexByte (s +:+ String c t) c = Some (String.length s).
Proof.
  intros Ht. induction s as [|d s IH].
  - rewrite str_app_nil_l. simpl. rewrite Ascii.eqb_refl.
    enough (LastIndexByte t c = None) as -> by done.
    induction t as [|d t IH]; [done|]. simpl in *.
    destruct (Ascii.eqb d c); [done|]. destruct (IndexByte t c); [done|]. by rewrite IH.
  - rewrite str_app_cons. simpl. by rewrite IH.
Qed.

(** ** Lemmas: trimming *)

Lemma space_runes_nonempty r : r ∈ space_runes -> (1 <= String.length r)%nat.
Proof.
  assert (Forall (fun r => 1 <= String.length r)%nat space_runes) as H.
  { apply Forall_forall. intros x Hx. unfold space_runes in Hx.
    apply list_elem_of_In in Hx. simpl in Hx.
    repeat (destruct Hx as [<-|Hx]; [simpl; lia|]). done. }
  intros Hr. rewrite Forall_forall in H. auto.
Qed.

Lemma leading_space_Some s r :
  leading_space s = Some r -> HasPrefix s r = true /\ (1 <= String.length r)%nat.
Proof.
  intros H. apply List.find_some in H as [Hin Hp]. split; [done|].
  apply space_runes_nonempty. by apply list_elem_of_In.
Qed.

Lemma trailing_space_Some s r :
  trailing_space s = Some r -> HasSuffix s r = true /\ (1 <= String.length r)%nat.
Proof.
  intros H. apply List.find_some in H as [Hin Hp]. split; [done|].
  apply space_runes_nonempty. by apply list_elem_of_In.
Qed.

Definition no_space_ends (s : string) : Prop :=
  leading_space s = None /\ trailing_space s = None.

Lemma trim_left_ends fuel s :
  (String.length s <= fuel)%nat -> leading_space (trim_left fuel s) = None.
Proof.
  revert s; induction fuel as [|f IH]; intros s Hf; simpl.
  - destruct s; [done|]. simpl in Hf. lia.
  - destruct (leading_space s) as [r|] eqn:E; [|done]. apply leading_space_Some in E as [_ Hr].
    apply IH. rewrite str_length_drop. lia.
Qed.

Lemma trim_right_ends fuel s :
  (String.length s <= fuel)%nat -> trailing_space (trim_right fuel s) = None.
Proof.
  revert s; induction fuel as [|f IH]; intros s Hf; simpl.
  - destruct s; [done|]. simpl in Hf. lia.
  - destruct (trailing_space s) as [r|] eqn:E; [|done]. apply trailing_space_Some in E as [_ Hr].
    apply IH. rewrite str_length_take. lia.
Qed.

Lemma leading_space_take n s : leading_space s = None -> leading_space (str_take n s) = None.
Proof.
  intros H. unfold leading_space.
  destruct (List.find _ space_runes) as [r|] eqn:E; [|done].
  apply List.find_some in E as [Hin Hp]. apply HasPrefix_take in Hp.
  pose proof (List.find_none _ _ H r Hin) as Hn. simpl in Hn. congruence.
Qed.

Lemma trim_right_leading fuel s :
  leading_space s = None -> leading_space (trim_right fuel s) = None.
Proof.
  revert s; induction fuel as [|f IH]; intros s H; simpl; [done|].
  destruct (trailing_space s); [|done]. by apply IH, leading_space_take.
Qed.

(** The result of [TrimSpace] neither starts nor ends with a space. *)
Lemma TrimSpace_ends s : no_space_ends (TrimSpace s).
Proof.
  unfold TrimSpace. split.
  - by apply trim_right_leading, trim_left_ends.
  - by apply trim_right_ends.
Qed.

Lemma TrimSpace_id s : no_space_ends s -> TrimSpace s = s.
Proof.
  intros [Hl Ht]. unfold TrimSpace.
  assert (trim_left (String.length s) s = s) as ->.
  { destruct s; [done|]. simpl String.length. cbn [trim_left]. by rewrite Hl. }
  destruct s; [done|]. simpl String.length. cbn [trim_right]. by rewrite Ht.
Qed.

Lemma TrimSpace_idemp s : TrimSpace (TrimSpace s) = TrimSpace s.
Proof. apply TrimSpace_id, TrimSpace_ends. Qed.

Lemma chars_app s t : chars (s +:+ t) = chars s ++ chars t.
Proof.
  induction s as [|c s IH]; [done|]. rewrite str_app_cons.
  change (chars (String c (s +:+ t))) with (c :: chars (s +:+ t)). by rewrite IH.
Qed.

(** A byte that occurs in no space rune survives trimming. *)
Definition no_space_byte (c : ascii) : bool :=
  forallb (fun r => negb (existsb (Ascii.eqb c) (chars r))) space_runes.

Lemma no_space_byte_rune c r : no_space_byte c = true -> r ∈ space_runes -> c ∉ chars r.
Proof.
  unfold no_space_byte. intros H Hr Hc.
  rewrite forallb_forall in H. apply list_elem_of_In in Hr. apply H in Hr.
  apply negb_true_iff, not_true_iff_false in Hr. apply Hr, existsb_exists.
  exists c. split; [by apply list_elem_of_In|apply Ascii.eqb_refl].
Qed.

Lemma trim_left_keeps c fuel s :
  no_space_byte c = true -> c ∈ chars s -> c ∈ chars (trim_left fuel s).
Proof.
  intros Hb. revert s; induction fuel as [|f IH]; intros s Hs; simpl; [done|].
  destruct (leading_space s) as [r|] eqn:E; [|done]. apply List.find_some in E as [Hin Hp].
  apply IH. apply HasPrefix_spec in Hp as [t ->]. rewrite str_drop_app.
  rewrite chars_app in Hs. apply elem_of_app in Hs as [Hs|Hs]; [|done].
  exfalso. eapply no_space_byte_rune; [exact Hb| |exact Hs]. by apply list_elem_of_In.
Qed.

Lemma trim_right_keeps c fuel s :
  no_space_byte c = true -> c ∈ chars s -> c ∈ chars (trim_right fuel s).
Proof.
  intros Hb. revert s; induction fuel as [|f IH]; intros s Hs; simpl; [done|].
  destruct (trailing_space s) as [r|] eqn:E; [|done]. apply List.find_some in E as [Hin Hp].
  apply IH. apply HasSuffix_spec in Hp as [t ->]. rewrite str_length_app, Nat.add_sub, str_take_app.
  rewrite chars_app in Hs. apply elem_of_app in Hs as [Hs|Hs]; [done|].
  exfalso. eapply no_space_byte_rune; [exact Hb| |exact Hs]. by apply list_elem_of_In.
Qed.

Lemma TrimSpace_keeps c s :
  no_space_byte c = true -> c ∈ chars s -> c ∈ chars (TrimSpace s).
Proof. intros Hb Hs. by apply trim_right_keeps, trim_left_keeps. Qed.

(** ** Lemmas: decimal integers *)

Definition all_digits (s : string) : Prop :=
  forall c, ContainsByte s c = true -> digit_of c <> None.

Lemma digit_of_range c d : digit_of c = Some d -> 0 <= d < 10.
Proof. unfold digit_of. case_match; [|done]. intros [= <-]. bool_facts. lia. Qed.

Lemma digit_of_digit_chr d : 0 <= d < 10 -> digit_of (digit_chr d) = Some d.
Proof.
  intros H. unfold digit_of, digit_chr. rewrite byte_of_chr by lia.
  destruct (48 <=? 48 + d) eqn:E1, (48 + d <=? 57) eqn:E2; bool_facts; simpl; try lia.
  f_equal. lia.
Qed.

Lemma ContainsByte_cons d s c :
  ContainsByte (String d s) c = Ascii.eqb d c || ContainsByte s c.
Proof.
  unfold ContainsByte. simpl. destruct (Ascii.eqb d c); [done|]. by destruct (IndexByte s c).
Qed.

Lemma all_digits_cons d s : digit_of d <> None -> all_digits s -> all_digits (String d s).
Proof.
  intros Hd Hs c. rewrite ContainsByte_cons, orb_true_iff, Ascii.eqb_eq. intros [->|H]; auto.
Qed.

Lemma itoa_go_digits fuel z acc : all_digits acc -> all_digits (itoa_go fuel z acc).
Proof.
  revert z acc; induction fuel as [|f IH]; intros z acc H; simpl; [done|].
  assert (all_digits (String (digit_chr (z mod 10)) acc)).
  { apply all_digits_cons; [|done]. rewrite digit_of_digit_chr; [done|].
    apply Z.mod_pos_bound. lia. }
  destruct (z <? 10); auto.
Qed.

Lemma itoa_go_val fuel z acc :
  0 <= z < 10 ^ Z.of_nat fuel -> digits_val (itoa_go fuel z acc) 0 = digits_val acc z.
Proof.
  revert z acc; induction fuel as [|f IH]; intros z acc Hz.
  { change (10 ^ Z.of_nat 0) with 1 in Hz. replace z with 0 by lia. done. }
  rewrite Nat2Z.inj_succ, Z.pow_succ_r in Hz by lia. simpl itoa_go.
  pose proof (Z.mod_pos_bound z 10 ltac:(lia)) as Hm.
  destruct (z <? 10) eqn:E; bool_facts.
  - rewrite Z.mod_small by lia. cbn [digits_val]. by rewrite digit_of_digit_chr by lia.
  - rewrite IH.
    + cbn [digits_val]. rewrite digit_of_digit_chr by lia. f_equal.
      pose proof (Z_div_mod_eq_full z 10). lia.
    + split; [apply Z.div_pos; lia|]. apply Z.div_lt_upper_bound; lia.
Qed.

Lemma itoa_go_nonempty fuel z acc : acc <> "" \/ (0 < fuel)%nat -> itoa_go fuel z acc <> "".
Proof.
  revert z acc; induction fuel as [|f IH]; intros z acc H; simpl.
  - destruct H; [done|lia].
  - destruct (z <? 10); [done|]. apply IH. by left.
Qed.

(** The first digit of a positive number is not 0. *)
Lemma itoa_go_head fuel z acc :
  0 < z < 10 ^ Z.of_nat fuel ->
  exists c t, itoa_go fuel z acc = String c t /\ digit_of c <> None /\ c <> "0"%char.
Proof.
  revert z acc; induction fuel as [|f IH]; intros z acc Hz.
  { change (10 ^ Z.of_nat 0) with 1 in Hz. lia. }
  rewrite Nat2Z.inj_succ, Z.pow_succ_r in Hz by lia. cbn [itoa_go].
  destruct (z <? 10) eqn:E; bool_facts.
  - eexists _, _. split; [reflexivity|]. rewrite Z.mod_small by lia.
    rewrite digit_of_digit_chr by lia. split; [done|]. intros H.
    assert (digit_of (digit_chr z) = Some 0) as H0 by (by rewrite H).
    rewrite digit_of_digit_chr in H0 by lia. injection H0 as ->. lia.
  - apply IH. split; [apply Z.div_str_pos; lia|]. apply Z.div_lt_upper_bound; lia.
Qed.

Lemma Itoa_nonempty n : Itoa n <> "".
Proof.
  unfold Itoa. destruct (n <? 0); [done|]. apply itoa_go_nonempty. right. lia.
Qed.

Lemma Itoa_digits z : 0 <= z -> all_digits (Itoa z).
Proof.
  intros Hz. unfold Itoa. destruct (z <? 0) eqn:E; bool_facts; [lia|].
  apply itoa_go_digits. by intros c.
Qed.

(** A byte that is not a digit does not occur in a printed natural number. *)
Lemma Itoa_no_byte z c : 0 <= z -> digit_of c = None -> IndexByte (Itoa z) c = None.
Proof.
  intros Hz Hc. destruct (IndexByte (Itoa z) c) eqn:E; [|done].
  exfalso. apply (Itoa_digits z Hz c); [|done]. unfold ContainsByte. by rewrite E.
Qed.

Lemma Atoi_Itoa z : 0 <= z <= int64_max -> Atoi (Itoa z) = Some z.
Proof.
  intros Hz.
  assert (digits_val (Itoa z) 0 = Some z) as Hv.
  { unfold Itoa. destruct (z <? 0) eqn:E; bool_facts; [lia|].
    rewrite itoa_go_val; [done|]. unfold int64_max in Hz. simpl. lia. }
  assert (Itoa z <> "") as Hne.
  { unfold Itoa. destruct (z <? 0) eqn:E; bool_facts; [lia|].
    apply itoa_go_nonempty. right. lia. }
  pose proof (Itoa_digits z ltac:(lia)) as Hd.
  destruct (Itoa z) as [|c t] eqn:E; [done|]. unfold Atoi.
  assert (digit_of c <> None) as Hc.
  { apply Hd. rewrite ContainsByte_cons, Ascii.eqb_refl. done. }
  destruct (Ascii.eqb_spec c "-"%char) as [->|_]; [done|].
  destruct (Ascii.eqb_spec c "+"%char) as [->|_]; [done|].
  simpl (String c t =?s ""). cbv iota. rewrite Hv.
  assert (in_int64 z = true) as -> by (apply in_int64_spec; unfold int64_min; lia).
  done.
Qed.

Lemma Split_nonempty s c : Split s c <> [].
Proof.
  induction s as [|d s IH]; cbn [Split]; [done|]. destruct (Split s c); [done|]. by destruct (Ascii.eqb d c).
Qed.

Lemma Split_app s c rest :
  c ∉ chars s -> Split (s +:+ String c rest) c = s :: Split rest c.
Proof.
  induction s as [|d s IH]; intros H.
  - rewrite str_app_nil_l. cbn [Split]. rewrite Ascii.eqb_refl. destruct (Split rest c) eqn:E; [|done].
    by apply Split_nonempty in E.
  - change (chars (String d s)) with (d :: chars s) in H. apply not_elem_of_cons in H as [Hd H].
    rewrite str_app_cons. cbn [Split]. rewrite IH by done.
    destruct (Ascii.eqb_spec d c) as [->|_]; done.
Qed.

Lemma Split_one s c : c ∉ chars s -> Split s c = [s].
Proof.
  induction s as [|d s IH]; intros H; [done|]. change (chars (String d s)) with (d :: chars s) in H.
  apply not_elem_of_cons in H as [Hd H]. cbn [Split]. rewrite IH by done. by destruct (Ascii.eqb_spec d c) as [->|_].
Qed.

#[export] Hint Resolve TrimSpace_ends Itoa_digits : gows.
