(* ===== verification/GoTime.v ===== *)
(** * Go's [time.Duration] and [time.ParseDuration]

    A duration is a 64-bit count of nanoseconds.  [ParseDuration] follows the
    documented grammar, a signed sequence of decimal numbers with optional
    fraction and a unit, with Go's overflow checks; the fraction is computed in
    binary64 as Go does, with the Standard Library's [SpecFloat] (no axioms). *)

From S2P Require Import Prelude GoStrings.
From Stdlib Require Import Floats.SpecFloat.

Definition Nanosecond : Z := 1.
Definition Microsecond : Z := 1000.
Definition Millisecond : Z := 1000000.
Definition Second : Z := 1000000000.
Definition Minute : Z := 60 * Second.
Definition Hour : Z := 60 * Minute.

(** ** Binary64 *)

Definition float := spec_float.
Definition float_of_Z (z : Z) : float := binary_normalize 53 1024 z 0 false.
Definition fmul : float -> float -> float := SFmul 53 1024.
Definition fdiv : float -> float -> float := SFdiv 53 1024.

(** The conversion to an unsigned integer of a finite non-negative float:
    truncation. *)
Definition trunc_float (f : float) : Z :=
  match f with
  | S754_finite false m e => Z.shiftl (Zpos m) e
  | _ => 0
  end.

(** [int(f)] of a finite float. *)
Definition int_of_float (f : float) : Z :=
  match f with
  | S754_finite true m e => - trunc_float (S754_finite false m e)
  | _ => trunc_float f
  end.

(** [Duration.Seconds()]: whole seconds plus the rest, in binary64. *)
Definition Seconds (d : Z) : float :=
  SFadd 53 1024 (float_of_Z (Z.quot d Second))
    (fdiv (float_of_Z (Z.rem d Second)) (float_of_Z 1000000000)).

(** ** Instants

    A [time.Time] is its distance from the Unix epoch in nanoseconds. *)

Definition Unix (t : Z) : Z := t / Second.
Definition FromUnix (sec : Z) : Z := sec * Second.
Definition After (t u : Z) : bool := u <? t.

(** ** [time.ParseDuration] *)

Definition unitMap : list (string * Z) :=
  [("ns", Nanosecond); ("us", Microsecond);
   (of_chars (map chr [194; 181; 115]), Microsecond);
   (of_chars (map chr [206; 188; 115]), Microsecond);
   ("ms", Millisecond); ("s", Second); ("m", Minute); ("h", Hour)].

Definition find_unit (u : string) : option Z :=
  snd <$> List.find (fun p => fst p =?s u) unitMap.

(** [leadingInt]: the decimal prefix, [None] above 2^63. *)
Fixpoint leadingInt (s : string) (x : Z) : option (Z * string) :=
  match s with
  | EmptyString => Some (x, s)
  | String c t =>
      match digit_of c with
      | None => Some (x, s)
      | Some d => if 2 ^ 63 / 10 <? x then None
                  else let y := x * 10 + d in
                       if 2 ^ 63 <? y then None else leadingInt t y
      end
  end.

(** [leadingFraction]: the value of the digits and the power of ten to divide
    it by; digits beyond the range are dropped. *)
Fixpoint leadingFraction (s : string) (x : Z) (scale : float) (overflow : bool)
    : Z * float * string :=
  match s with
  | EmptyString => (x, scale, s)
  | String c t =>
      match digit_of c with
      | None => (x, scale, s)
      | Some d =>
          if overflow then leadingFraction t x scale true
          else if (2 ^ 63 - 1) / 10 <? x then leadingFraction t x scale true
          else let y := x * 10 + d in
               if 2 ^ 63 <? y then leadingFraction t x scale true
               else leadingFraction t y (fmul scale (float_of_Z 10)) false
      end
  end.

Definition is_unit_end (c : ascii) : bool :=
  Ascii.eqb c "."%char || match digit_of c with Some _ => true | None => false end.

Fixpoint span_unit (s : string) : string * string :=
  match s with
  | EmptyString => ("", s)
  | String c t => if is_unit_end c then ("", s)
                  else let (u, r) := span_unit t in (String c u, r)
  end.

(** One [<number><unit>] group: its value and the rest. *)
Definition parse_group (s : string) : option (Z * string) :=
  match s with
  | EmptyString => None
  | String c _ =>
      if negb (is_unit_end c) then None
      else match leadingInt s 0 with
           | None => None
           | Some (v, s1) =>
               let pre := negb (String.length s =? String.length s1)%nat in
               let '(f, scale, s2, post) :=
                 match s1 with
                 | String "."%char t =>
                     let '(f, scale, s2) := leadingFraction t 0 (float_of_Z 1) false in
                     (f, scale, s2, negb (String.length t =? String.length s2)%nat)
                 | _ => (0, float_of_Z 1, s1, false)
                 end in
               if negb pre && negb post then None
               else let (u, s3) := span_unit s2 in
                    if u =?s "" then None
                    else match find_unit u with
                         | None => None
                         | Some unit =>
                             if 2 ^ 63 / unit <? v then None
                             else let v := v * unit in
                                  let v := if 0 <? f
                                           then v + trunc_float (fmul (float_of_Z f)
                                                                   (fdiv (float_of_Z unit) scale))
                                           else v in
                                  if 2 ^ 63 <? v then None else Some (v, s3)
                         end
           end
  end.

Fixpoint parse_groups (fuel : nat) (s : string) (d : Z) : option Z :=
  match s with
  | EmptyString => Some d
  | _ => match fuel with
         | O => None
         | S f => match parse_group s with
                  | None => None
                  | Some (v, s') => if 2 ^ 63 <? d + v then None
                                    else parse_groups f s' (d + v)
                  end
         end
  end.

(** Each group consumes at least its unit: the length is enough fuel. *)
Definition ParseDuration (s0 : string) : option Z :=
  let (neg, s) := match s0 with
                  | String c t => if Ascii.eqb c "-"%char then (true, t)
                                  else if Ascii.eqb c "+"%char then (false, t) else (false, s0)
                  | EmptyString => (false, s0)
                  end in
  if s =?s "0" then Some 0
  else if s =?s "" then None
  else match parse_groups (String.length s) s 0 with
       | None => None
       | Some d => if neg then Some (- d)
                   else if 2 ^ 63 - 1 <? d then None else Some d
       end.

Example ParseDuration_examples :
  ParseDuration "1h15m30.918273645s" = Some 4530918273645
  /\ ParseDuration "-1.5h" = Some (-5400000000000)
  /\ ParseDuration "2562047h47m16.854775807s" = Some int64_max
  /\ ParseDuration "2562047h47m16.854775808s" = None
  /\ ParseDuration "30" = None
  /\ ParseDuration ".s" = None
  /\ ParseDuration "0" = Some 0.
Proof. vm_compute. tauto. Qed.

(** ** Lemmas *)

(** Parsing a run of digits that stays in range. *)
Lemma leadingInt_digits s t x v :
  0 <= x -> digits_val s x = Some v -> v <= 2 ^ 63 ->
  match t with String c _ => digit_of c = None | EmptyString => True end ->
  leadingInt (s +:+ t) x = Some (v, t).
Proof.
  intros Hx Hv Hmax Ht. revert x Hx Hv; induction s as [|c s IH]; intros x Hx Hv.
  - injection Hv as <-. rewrite str_app_nil_l. destruct t as [|c t]; [done|]. simpl. by rewrite Ht.
  - rewrite str_app_cons. simpl in *. destruct (digit_of c) as [d|] eqn:Ed; [|done].
    apply digit_of_range in Ed.
    assert (x * 10 + d <= v) as Hle.
    { clear -Hv Hx Ed. revert Hv. assert (0 <= x * 10 + d) as H by lia. revert H.
      generalize (x * 10 + d) as y. induction s as [|c s IH]; intros y Hy Hv; simpl in Hv.
      - injection Hv as <-. lia.
      - destruct (digit_of c) as [e|] eqn:Ee; [|done]. apply digit_of_range in Ee.
        apply IH in Hv; lia. }
    assert ((2 ^ 63 / 10 <? x) = false) as ->.
    { apply Z.ltb_ge. apply Z.div_le_lower_bound; lia. }
    assert ((2 ^ 63 <? x * 10 + d) = false) as -> by (apply Z.ltb_ge; lia).
    apply IH; [lia|done].
Qed.
