(* ===== verification/GoFlag.v ===== *)
(** * Command lines (Go's [flag] package)

    What the two programs of cmd/ use of the standard library's [flag]: variables
    bound to names, and [FlagSet.Parse] with its spellings, its errors and its
    exit codes, as documented and as the library's source has it; and
    [strconv.ParseInt] with base 0, which reads the numbers.  Client and server
    declare their flags as a list over the record of their variables. *)

From S2P Require Import Prelude GoStrings GoTime.

(** ** Numbers *)

Definition uint64_max : Z := 2 ^ 64 - 1.

Inductive NumError : Type := ErrSyntax | ErrRange.

(** [lower]: the byte with the bit of lower case set. *)
Definition lower_bit (c : ascii) : Z := Z.lor (byte_of c) 32.

(** The value of a digit: 0-9, then the letters. *)
Definition base_digit (c : ascii) : option Z :=
  match digit_of c with
  | Some d => Some d
  | None => let l := lower_bit c in
            if (97 <=? l) && (l <=? 122) then Some (l - 97 + 10) else None
  end.

(** The base a number announces by its prefix, and the digits after it. *)
Definition int_prefix (s : string) : Z * string :=
  match s with
  | String "0" t =>
      match t with
      | String c (String _ _ as u) =>
          let l := lower_bit c in
          if l =? 98 then (2, str_drop 1 t)
          else if l =? 111 then (8, str_drop 1 t)
          else if l =? 120 then (16, str_drop 1 t)
          else (8, t)
      | _ => (8, t)
      end
  | _ => (10, s)
  end.

(** The digits, with underscores between them: the value, and whether there was
    an underscore. *)
Fixpoint base_digits (base : Z) (s : string) (n : Z) (underscores : bool) : result NumError (Z * bool) :=
  match s with
  | EmptyString => Ok (n, underscores)
  | String c t =>
      if Ascii.eqb c "_"%char then base_digits base t n true
      else match base_digit c with
           | None => Err ErrSyntax
           | Some d =>
               if base <=? d then Err ErrSyntax
               else let n := n * base + d in
                    if uint64_max <? n then Err ErrRange else base_digits base t n underscores
           end
  end.

(** What [underscoreOK] saw last. *)
Inductive Saw : Type := SawBegin | SawDigit | SawUnderscore | SawOther.

Fixpoint underscores_between (hex : bool) (s : string) (i : Saw) : bool :=
  match s with
  | EmptyString => match i with SawUnderscore => false | _ => true end
  | String c t =>
      let l := lower_bit c in
      if match digit_of c with Some _ => true | None => hex && (97 <=? l) && (l <=? 102) end
      then underscores_between hex t SawDigit
      else if Ascii.eqb c "_"%char
      then match i with SawDigit => underscores_between hex t SawUnderscore | _ => false end
      else match i with SawUnderscore => false | _ => underscores_between hex t SawOther end
  end.

Definition underscoreOK (s : string) : bool :=
  match s with
  | String "0" (String c t) =>
      let l := lower_bit c in
      if (l =? 98) || (l =? 111) || (l =? 120) then underscores_between (l =? 120) t SawDigit
      else underscores_between false s SawBegin
  | _ => underscores_between false s SawBegin
  end.

(** [strconv.ParseUint] with base 0 and 64 bits. *)
Definition ParseUint0 (s : string) : result NumError Z :=
  if s =?s "" then Err ErrSyntax
  else let (base, digits) := int_prefix s in
       let! (n, underscores) := base_digits base digits 0 false in
       if underscores && negb (underscoreOK s) then Err ErrSyntax else Ok n.

(** [strconv.ParseInt] with base 0 and 64 bits. *)
Definition ParseInt0 (s : string) : result NumError Z :=
  let signed (neg : bool) (u : string) :=
    let! un := ParseUint0 u in
    let n := if neg : bool then - un else un in
    if in_int64 n then Ok n else Err ErrRange in
  match s with
  | EmptyString => Err ErrSyntax
  | String c t => if Ascii.eqb c "-"%char then signed true t
                  else if Ascii.eqb c "+"%char then signed false t
                  else signed false s
  end.

(** [strconv.ParseBool] *)
Definition ParseBool (s : string) : option bool :=
  if existsb (String.eqb s) ["1"; "t"; "T"; "true"; "TRUE"; "True"] then Some true
  else if existsb (String.eqb s) ["0"; "f"; "F"; "false"; "FALSE"; "False"] then Some false
  else None.

(** ** Flags *)

(** A flag's variable, by the way it is set, in the record [V] of a program's
    variables. *)
Inductive Value (V : Type) : Type :=
| BoolVar (set : bool -> V -> V)
| IntVar (set : Z -> V -> V)
| StringVar (set : string -> V -> V)
| DurationVar (set : Z -> V -> V).
Arguments BoolVar {V} set.
Arguments IntVar {V} set.
Arguments StringVar {V} set.
Arguments DurationVar {V} set.

Definition errParse : string := "parse error".

Definition numError (e : NumError) : string :=
  match e with ErrSyntax => errParse | ErrRange => "value out of range" end.

(** [Value.Set] *)
Definition Set_ {V} (v : Value V) (s : string) (vars : V) : result string V :=
  match v with
  | BoolVar set => let! b := of_option errParse (ParseBool s) in Ok (set b vars)
  | IntVar set => let! n := map_err numError (ParseInt0 s) in Ok (set n vars)
  | StringVar set => Ok (set s vars)
  | DurationVar set => let! d := of_option errParse (ParseDuration s) in Ok (set d vars)
  end.

Definition IsBoolFlag {V} (v : Value V) : bool := match v with BoolVar _ => true | _ => false end.

(** The names of a program and the arguments that are left after its flags. *)
Record FlagSet : Type := mkFlagSet { fs_given : list string; fs_args : list string }.
Definition explicit (fs : FlagSet) (name : string) : bool := existsb (String.eqb name) (fs_given fs).

Inductive FlagError : Type :=
| BadSyntax (arg : string)
| NotDefined (name : string)
| Help
| InvalidBool (value name err : string)
| NeedsArgument (name : string)
| InvalidValue (value name err : string).

(** With [ExitOnError]: asking for help is no failure. *)
Definition flag_exit_code (e : FlagError) : Z := match e with Help => 0 | _ => 2 end.

(** An argument as [parseOne] sees it. *)
Inductive Token : Type :=
| Operand
| Terminator
| Malformed
| Named (name : string) (value : option string).

Definition dash : ascii := "-"%char.

(** The name after the dashes, and what follows an equals sign. *)
Definition named (body : string) : Token :=
  match body with
  | EmptyString => Malformed
  | String c _ =>
      if Ascii.eqb c dash || Ascii.eqb c "="%char then Malformed
      else match CutByte body "="%char with
           | Some (name, value) => Named name (Some value)
           | None => Named body None
           end
  end.

Definition token (s : string) : Token :=
  match s with
  | String c (String d t as u) =>
      if negb (Ascii.eqb c dash) then Operand
      else if Ascii.eqb d dash then if t =?s "" then Terminator else named t
      else named u
  | _ => Operand
  end.

Section Parse.

Context {V : Type} (formal : list (string * Value V)).

Definition lookup_flag (name : string) : option (Value V) :=
  snd <$> List.find (fun p => fst p =?s name) formal.

(** [FlagSet.Parse]: it consumes flags until an argument is none.  A flag that is
    not boolean takes the next argument, whatever that is. *)
Fixpoint Parse (args : list string) (vars : V) (given : list string) : result FlagError (V * FlagSet) :=
  match args with
  | [] => Ok (vars, mkFlagSet given [])
  | s :: rest =>
      match token s with
      | Operand => Ok (vars, mkFlagSet given args)
      | Terminator => Ok (vars, mkFlagSet given rest)
      | Malformed => Err (BadSyntax s)
      | Named name value =>
          match lookup_flag name with
          | None => Err (if (name =?s "help") || (name =?s "h") then Help else NotDefined name)
          | Some v =>
              if IsBoolFlag v then
                let text := default "true" value in
                match Set_ v text vars with
                | Err e => Err (InvalidBool text name e)
                | Ok vars => Parse rest vars (given ++ [name])
                end
              else
                match value with
                | Some text =>
                    match Set_ v text vars with
                    | Err e => Err (InvalidValue text name e)
                    | Ok vars => Parse rest vars (given ++ [name])
                    end
                | None =>
                    match rest with
                    | [] => Err (NeedsArgument name)
                    | text :: rest =>
                        match Set_ v text vars with
                        | Err e => Err (InvalidValue text name e)
                        | Ok vars => Parse rest vars (given ++ [name])
                        end
                    end
                end
          end
      end
  end.

End Parse.

(** ** The lines that are meant *)

(** How a value is attached to a flag: [-name=text], [-name text], or [-name]
    alone for a boolean. *)
Inductive Form : Type := Joined | Separate | Alone.

Record Given : Type := mkGiven { g_name : string; g_text : string; g_double : bool; g_form : Form }.

Definition dashes (g : Given) : string := if g_double g then "--" else "-".

Definition print_given (g : Given) : list string :=
  match g_form g with
  | Joined => [dashes g +:+ (g_name g +:+ String "=" (g_text g))]
  | Separate => [dashes g +:+ g_name g; g_text g]
  | Alone => [dashes g +:+ g_name g]
  end.

Definition print_line (gs : list Given) : list string := concat (map print_given gs).

(** A name that can be written after the dashes. *)
Definition flag_name (s : string) : bool :=
  match s with
  | EmptyString => false
  | String c _ => negb (Ascii.eqb c dash)
  end && negb (ContainsByte s "=").

Section Lines.

Context {V : Type} (formal : list (string * Value V)).

(** One flag of a line sets its variable; the form fits the flag. *)
Definition gives (g : Given) (vars vars' : V) : Prop :=
  flag_name (g_name g) = true
  /\ exists v, lookup_flag formal (g_name g) = Some v
       /\ Set_ v (g_text g) vars = Ok vars'
       /\ match g_form g with
          | Joined => True
          | Separate => IsBoolFlag v = false
          | Alone => IsBoolFlag v = true /\ g_text g = "true"
          end.

(** The flags of a line, one after the other. *)
Fixpoint give_all (gs : list Given) (vars vars' : V) : Prop :=
  match gs with
  | [] => vars = vars'
  | g :: gs => exists vars1, gives g vars vars1 /\ give_all gs vars1 vars'
  end.

End Lines.

(** What may follow the flags: the operands, if the first does not look like a
    flag, or the terminator and then anything. *)
Definition operands (rest args : list string) : Prop :=
  rest = "--" :: args \/ (rest = args /\ match args with [] => True | s :: _ => token s = Operand end).

(** ** Lemmas: tokens *)

Lemma flag_name_spec s :
  flag_name s = true -> exists c t, s = String c t /\ Ascii.eqb c dash = false /\ Ascii.eqb c "=" = false /\ CutByte s "=" = None.
Proof.
  unfold flag_name. destruct s as [|c t]; [done|]. rewrite andb_true_iff, !negb_true_iff. intros [Hd He].
  exists c, t. split_and!; [done..| |].
  - rewrite ContainsByte_cons in He. by apply orb_false_iff in He as [? _].
  - unfold ContainsByte in He. unfold CutByte. by destruct (IndexByte (String c t) "=").
Qed.

Lemma named_joined name text :
  flag_name name = true -> named (name +:+ String "=" text) = Named name (Some text).
Proof.
  intros Hn. destruct (flag_name_spec name Hn) as (c & t & -> & Hd & He & Hc).
  rewrite str_app_cons. unfold named. rewrite Hd, He. cbn [orb]. rewrite <- str_app_cons.
  rewrite CutByte_app; [done|]. unfold CutByte in Hc. by destruct (IndexByte _ _).
Qed.

Lemma named_alone name : flag_name name = true -> named name = Named name None.
Proof.
  intros Hn. destruct (flag_name_spec name Hn) as (c & t & -> & Hd & He & Hc). unfold named. by rewrite Hd, He, Hc.
Qed.

(** The dashes are read. *)
Lemma token_dashes g body :
  match body with EmptyString => False | String c _ => Ascii.eqb c dash = false end ->
  token (dashes g +:+ body) = named body.
Proof.
  destruct body as [|c t]; [done|]. intros Hc. unfold dashes.
  destruct (g_double g); rewrite ?str_app_cons, str_app_nil_l; unfold token; cbn; [done|]. by rewrite Hc.
Qed.

Lemma token_joined g :
  flag_name (g_name g) = true ->
  token (dashes g +:+ (g_name g +:+ String "=" (g_text g))) = Named (g_name g) (Some (g_text g)).
Proof.
  intros Hn. rewrite token_dashes; [by apply named_joined|].
  destruct (flag_name_spec _ Hn) as (c & t & -> & Hd & _). by rewrite str_app_cons.
Qed.

Lemma token_alone g : flag_name (g_name g) = true -> token (dashes g +:+ g_name g) = Named (g_name g) None.
Proof.
  intros Hn. rewrite token_dashes; [by apply named_alone|].
  by destruct (flag_name_spec _ Hn) as (c & t & -> & Hd & _).
Qed.

(** A flag is written with one dash or two. *)
Lemma token_inv s name value :
  token s = Named name value ->
  flag_name name = true
  /\ exists double, forall form,
       s = dashes (mkGiven name "" double form)
           +:+ (name +:+ match value with Some text => String "=" text | None => "" end).
Proof.
  intros Ht.
  assert (exists double body, s = (if double : bool then "--" else "-") +:+ body /\ named body = Named name value)
    as (double & body & -> & Hn).
  { destruct s as [|c [|d t]]; try done. unfold token in Ht.
    destruct (Ascii.eqb_spec c dash) as [->|]; [|done]. cbn [negb] in Ht.
    destruct (Ascii.eqb_spec d dash) as [->|]; [destruct (t =?s ""); [done|]; by exists true, t|].
    by exists false, (String d t). }
  clear Ht. unfold named in Hn. destruct body as [|c t]; [done|].
  destruct (Ascii.eqb c dash) eqn:Ed; [done|]. destruct (Ascii.eqb c "=") eqn:Ee; [done|]. cbn [orb] in Hn.
  destruct (CutByte (String c t) "=") as [[a b]|] eqn:Ec; injection Hn as <- <-.
  - unfold CutByte in Ec. destruct (IndexByte (String c t) "=") as [i|] eqn:Ei; [|done]. injection Ec as <- <-.
    pose proof (IndexByte_take _ _ _ Ei) as Ht. pose proof (IndexByte_Some _ _ _ Ei) as Hs.
    split.
    + unfold flag_name, ContainsByte. rewrite Ht. destruct i as [|i]; [cbn in Ei; rewrite Ee in Ei; by destruct (IndexByte t "=")|]. cbn. by rewrite Ed.
    + exists double. intros form. f_equal. exact Hs.
  - unfold CutByte in Ec. destruct (IndexByte (String c t) "=") eqn:Ei; [done|]. split.
    + unfold flag_name, ContainsByte. by rewrite Ed, Ei.
    + exists double. intros form. by rewrite str_app_nil_r.
Qed.

Lemma token_terminator s : token s = Terminator -> s = "--".
Proof.
  destruct s as [|c [|d t]]; try done. unfold token.
  destruct (Ascii.eqb_spec c dash) as [->|]; [|done]. cbn [negb].
  assert (forall u, named u <> Terminator) as Hn.
  { intros [|x u]; [done|]. unfold named. destruct (_ || _); [done|]. by destruct (CutByte _ _) as [[??]|]. }
  destruct (Ascii.eqb_spec d dash) as [->|]; [|intros H; exfalso; exact (Hn _ H)].
  destruct (String.eqb_spec t "") as [->|]; [done|]. intros H; exfalso; exact (Hn _ H).
Qed.

(** ** Lemmas: parsing *)

Section Parsing.

Context {V : Type} (formal : list (string * Value V)).

(** One flag at the front of the line. *)
Lemma Parse_given g rest vars vars' given :
  gives formal g vars vars' ->
  Parse formal (print_given g ++ rest) vars given = Parse formal rest vars' (given ++ [g_name g]).
Proof.
  destruct g as [name text double form]. intros (Hn & v & Hl & Hs & Hf). cbn [g_name g_text g_form] in *.
  pose proof (token_joined (mkGiven name text double form) Hn) as Hj.
  pose proof (token_alone (mkGiven name text double form) Hn) as Ha. cbn [g_name g_text] in Hj, Ha.
  destruct form; unfold print_given; cbn [g_form g_name g_text app Parse].
  - rewrite Hj, Hl. change (default "true" (Some text)) with text. rewrite Hs. by destruct (IsBoolFlag v).
  - by rewrite Ha, Hl, Hf, Hs.
  - destruct Hf as [Hb ->]. rewrite Ha, Hl, Hb. change (default "true" None) with "true". by rewrite Hs.
Qed.

Lemma Parse_operands rest args vars given :
  operands rest args -> Parse formal rest vars given = Ok (vars, mkFlagSet given args).
Proof.
  intros [->|[-> H]]; [done|]. destruct args as [|s args]; [done|]. cbn [Parse]. by rewrite H.
Qed.

Lemma Parse_flags gs rest vars vars' given :
  give_all formal gs vars vars' ->
  Parse formal (print_line gs ++ rest) vars given = Parse formal rest vars' (given ++ map g_name gs).
Proof.
  revert vars given; induction gs as [|g gs IH]; intros vars given Hg.
  { cbn in Hg. subst. cbn. by rewrite app_nil_r. }
  destruct Hg as (vars1 & Hg & Hgs). unfold print_line. cbn [map concat]. rewrite <- app_assoc.
  rewrite (Parse_given g _ _ vars1) by done. fold (print_line gs). rewrite IH by done.
  cbn [map]. by rewrite <- app_assoc.
Qed.

Lemma Parse_line gs rest args vars vars' given :
  give_all formal gs vars vars' -> operands rest args ->
  Parse formal (print_line gs ++ rest) vars given = Ok (vars', mkFlagSet (given ++ map g_name gs) args).
Proof. intros Hg Hr. rewrite (Parse_flags gs rest vars vars') by done. by apply Parse_operands. Qed.

(** A line that parses is a line of flags. *)
Lemma Parse_inv n args vars given vars' fs :
  (length args <= n)%nat -> Parse formal args vars given = Ok (vars', fs) ->
  exists gs rest, args = print_line gs ++ rest /\ give_all formal gs vars vars'
    /\ operands rest (fs_args fs) /\ fs_given fs = given ++ map g_name gs.
Proof.
  revert args vars given; induction n as [|n IH]; intros [|s args] vars given Hlen HP; [|simpl in Hlen; lia| |].
  1,2: injection HP as <- <-; exists [], []; split_and!; [done..|by right|by rewrite app_nil_r].
  assert (forall g args1 vars1, (length args1 <= n)%nat -> s :: args = print_given g ++ args1 ->
            gives formal g vars vars1 -> Parse formal args1 vars1 (given ++ [g_name g]) = Ok (vars', fs) ->
            exists gs rest, s :: args = print_line gs ++ rest /\ give_all formal gs vars vars'
              /\ operands rest (fs_args fs) /\ fs_given fs = given ++ map g_name gs) as Hstep.
  { intros g args1 vars1 Hl Hargs Hg H1. destruct (IH _ _ _ Hl H1) as (gs & rest & -> & Hgs & Hr & Hn).
    exists (g :: gs), rest. split_and!; [by rewrite Hargs, app_assoc|by exists vars1|done|].
    rewrite Hn, <- app_assoc. done. }
  cbn [Parse] in HP. cbn [length] in Hlen. destruct (token s) as [| | |name value] eqn:Et.
  - injection HP as <- <-. exists [], (s :: args). split_and!; [done..| |by rewrite app_nil_r]. by right.
  - injection HP as <- <-. exists [], (s :: args). split_and!; [done..| |by rewrite app_nil_r].
    left. cbn [fs_args]. f_equal. by apply token_terminator.
  - done.
  - destruct (token_inv _ _ _ Et) as (Hn & double & Hd).
    destruct (lookup_flag formal name) as [v|] eqn:El; [|done].
    destruct (IsBoolFlag v) eqn:Eb; [|destruct value as [text|]; [|destruct args as [|text args]; [done|]]];
      destruct (Set_ v _ vars) as [vars1|e] eqn:Es; try done.
    + destruct value as [text|]; simpl in Es.
      * refine (Hstep (mkGiven name text double Joined) args vars1 _ _ _ HP); [lia| |by split; [|exists v]].
        by rewrite (Hd Joined).
      * refine (Hstep (mkGiven name "true" double Alone) args vars1 _ _ _ HP); [lia| |by split; [|exists v]].
        by rewrite (Hd Alone), str_app_nil_r.
    + refine (Hstep (mkGiven name text double Joined) args vars1 _ _ _ HP); [lia| |by split; [|exists v]].
      by rewrite (Hd Joined).
    + refine (Hstep (mkGiven name text double Separate) args vars1 _ _ _ HP); [simpl in Hlen; lia| |by split; [|exists v]].
      by rewrite (Hd Separate), str_app_nil_r.
Qed.

End Parsing.

(** ** Lemmas: numbers *)

Lemma digits_val_grows s n v : 0 <= n -> digits_val s n = Some v -> n <= v.
Proof.
  revert n; induction s as [|c s IH]; intros n Hn; cbn [digits_val]; [intros [= ->]; lia|].
  destruct (digit_of c) as [d|] eqn:Ed; [|done]. intros Hv. apply digit_of_range in Ed.
  apply IH in Hv; lia.
Qed.

Lemma digit_not_underscore c d : digit_of c = Some d -> Ascii.eqb c "_" = false.
Proof. intros Hd. destruct (Ascii.eqb_spec c "_") as [->|]; [vm_compute in Hd; discriminate|done]. Qed.

Lemma base_digits_decimal s n v u :
  0 <= n -> digits_val s n = Some v -> v <= uint64_max -> base_digits 10 s n u = Ok (v, u).
Proof.
  revert n; induction s as [|c s IH]; intros n Hn; cbn [digits_val base_digits]; [by intros [= ->]|].
  destruct (digit_of c) as [d|] eqn:Ed; [|done]. intros Hv Hmax.
  rewrite (digit_not_underscore c d Ed). unfold base_digit. rewrite Ed. apply digit_of_range in Ed.
  rewrite (proj2 (Z.leb_gt 10 d)) by lia.
  pose proof (digits_val_grows s (n * 10 + d) v ltac:(lia) Hv).
  rewrite (proj2 (Z.ltb_ge uint64_max (n * 10 + d))) by lia. apply IH; [lia|done..].
Qed.

(** A decimal numeral that does not begin with 0 is read in base 10. *)
Lemma ParseUint0_decimal c t v :
  c <> "0"%char -> digits_val (String c t) 0 = Some v -> v <= uint64_max -> ParseUint0 (String c t) = Ok v.
Proof.
  intros Hc Hv Hmax. unfold ParseUint0. cbn [String.eqb].
  assert (int_prefix (String c t) = (10, String c t)) as ->.
  { destruct c as [[] [] [] [] [] [] [] []]; try reflexivity. by destruct Hc. }
  rewrite (base_digits_decimal (String c t) 0 v false) by (done || lia). done.
Qed.

Lemma ParseUint0_itoa z : 0 <= z < 10 ^ 19 -> ParseUint0 (itoa_go 20 z "") = Ok z.
Proof.
  intros Hz. destruct (Z.eq_dec z 0) as [->|Hne]; [reflexivity|].
  pose proof (itoa_go_val 20 z "" ltac:(cbn; lia)) as Hv. cbn [digits_val] in Hv.
  destruct (itoa_go_head 20 z "" ltac:(cbn; lia)) as (c & t & Ht & _ & Hc). rewrite Ht in *.
  apply ParseUint0_decimal; [done..|]. unfold uint64_max. lia.
Qed.

(** A printed integer is read back. *)
Lemma ParseInt0_Itoa z : in_int64 z = true -> ParseInt0 (Itoa z) = Ok z.
Proof.
  intros Hz. pose proof Hz as Hr. apply in_int64_spec in Hr. unfold int64_min, int64_max in Hr.
  unfold Itoa. destruct (z <? 0) eqn:E; bool_facts.
  - unfold ParseInt0. cbn -[ParseUint0 itoa_go]. rewrite ParseUint0_itoa by lia. cbn -[Z.opp]. by rewrite Z.opp_involutive, Hz.
  - destruct (Z.eq_dec z 0) as [->|Hne]; [reflexivity|].
    pose proof (ParseUint0_itoa z ltac:(lia)) as Hp.
    destruct (itoa_go_head 20 z "" ltac:(cbn; lia)) as (c & t & Ht & Hd & Hc). rewrite Ht in *.
    unfold ParseInt0.
    destruct (Ascii.eqb_spec c "-") as [->|_]; [done|]. destruct (Ascii.eqb_spec c "+") as [->|_]; [done|].
    rewrite Hp. cbn. by rewrite Hz.
Qed.

(** ** Properties *)

(** Command lines: [Parse] accepts exactly the lines that consist of flags, each
    written with one dash or two, its value after an equals sign or as the next
    argument, or alone for a boolean, followed by arguments that do not look like
    a flag or by [--] and anything; its result is what the flags set, one after
    the other, the names that were given and the arguments.  After good flags, a
    name that no flag has ends the program with code 2, or with 0 if it asks for
    help. *)
Theorem Parse_accepts_lines :
  forall V (formal : list (string * Value V)) args vars,
    (forall vars' fs,
       Parse formal args vars [] = Ok (vars', fs)
       <-> exists gs rest, args = print_line gs ++ rest /\ give_all formal gs vars vars'
             /\ operands rest (fs_args fs) /\ fs_given fs = map g_name gs)
    /\ (forall gs vars' name value rest,
           give_all formal gs vars vars' -> token (hd "" rest) = Named name value -> lookup_flag formal name = None ->
           args = print_line gs ++ rest ->
           exists e, Parse formal args vars [] = Err e
             /\ flag_exit_code e = if (name =?s "help") || (name =?s "h") then 0 else 2).
Proof.
  intros V formal args vars. split.
  - intros vars' fs. split.
    + intros HP. by apply (Parse_inv formal (length args) args vars []).
    + intros (gs & rest & -> & Hg & Hr & Hn). rewrite (Parse_line formal gs rest (fs_args fs) vars vars') by done.
      destruct fs as [names args]. cbn in *. by rewrite Hn.
  - intros gs vars' name value rest Hg Ht Hl ->. rewrite (Parse_flags formal gs rest vars vars') by done.
    destruct rest as [|s rest]; [done|]. cbn [hd] in Ht. cbn [Parse]. rewrite Ht, Hl.
    eexists. split; [reflexivity|]. by destruct (_ || _).
Qed.
