(* ===== verification/GoEncoding.v ===== *)
(** * Go's [encoding/hex] and [encoding/base64]

    The text encodings of binary data the program uses, on byte strings. *)

From S2P Require Import Prelude GoStrings.

(** ** Hexadecimal *)

Definition hex_val (c : ascii) : option Z :=
  let b := byte_of c in
  if (48 <=? b) && (b <=? 57) then Some (b - 48)
  else if (97 <=? b) && (b <=? 102) then Some (b - 87)
  else if (65 <=? b) && (b <=? 70) then Some (b - 55)
  else None.

Definition hex_digit (d : Z) : ascii := if d <? 10 then chr (48 + d) else chr (87 + d).

(** [hex.DecodeString]: an even number of digits, two per byte. *)
Fixpoint HexDecode (s : string) : option string :=
  match s with
  | EmptyString => Some ""
  | String a (String b t) =>
      match hex_val a, hex_val b, HexDecode t with
      | Some x, Some y, Some r => Some (String (chr (x * 16 + y)) r)
      | _, _, _ => None
      end
  | String _ EmptyString => None
  end.

Fixpoint HexEncode (s : string) : string :=
  match s with
  | EmptyString => ""
  | String c t => String (hex_digit (byte_of c / 16))
                    (String (hex_digit (byte_of c mod 16)) (HexEncode t))
  end.

Lemma hex_val_digit d : 0 <= d < 16 -> hex_val (hex_digit d) = Some d.
Proof.
  intros H. unfold hex_val, hex_digit.
  destruct (d <? 10) eqn:E; bool_facts; rewrite byte_of_chr by lia; repeat case_match;
    bool_facts; try (f_equal; lia);
    repeat match goal with X : (_ && _)%bool = false |- _ => apply andb_false_iff in X as [X|X] end;
    bool_facts; lia.
Qed.

Lemma HexDecode_Encode s : HexDecode (HexEncode s) = Some s.
Proof.
  induction s as [|c s IH]; [done|]. cbn [HexEncode HexDecode].
  pose proof (byte_of_range c).
  rewrite !hex_val_digit, IH.
  - do 2 f_equal. rewrite <- (chr_byte_of c) at 3. f_equal.
    pose proof (Z_div_mod_eq_full (byte_of c) 16). lia.
  - apply Z.mod_pos_bound. lia.
  - split; [apply Z.div_pos; lia|]. apply Z.div_lt_upper_bound; lia.
Qed.

(** A decoded string has half the length. *)
Lemma HexDecode_length s b :
  HexDecode s = Some b -> String.length s = (2 * String.length b)%nat.
Proof.
  revert s; induction b as [|x b IH]; intros s H.
  - destruct s as [|a [|c t]]; [done|done|]. cbn [HexDecode] in H.
    destruct (hex_val a), (hex_val c), (HexDecode t); done.
  - destruct s as [|a [|c t]]; [done|done|]. cbn [HexDecode] in H.
    destruct (hex_val a), (hex_val c), (HexDecode t) as [r|] eqn:E; try done.
    injection H as <- <-. apply IH in E. simpl. lia.
Qed.

(** ** Base64, the URL alphabet without padding ([base64.RawURLEncoding]) *)

Definition b64_chr (n : Z) : ascii :=
  if n <? 26 then chr (65 + n)
  else if n <? 52 then chr (71 + n)
  else if n <? 62 then chr (n - 4)
  else if n =? 62 then "-"%char else "_"%char.

Definition b64_val (c : ascii) : option Z :=
  let b := byte_of c in
  if (65 <=? b) && (b <=? 90) then Some (b - 65)
  else if (97 <=? b) && (b <=? 122) then Some (b - 71)
  else if (48 <=? b) && (b <=? 57) then Some (b + 4)
  else if b =? 45 then Some 62
  else if b =? 95 then Some 63
  else None.

(** Three bytes make four characters; one or two left over make two or
    three. *)
Fixpoint B64Encode (s : string) : string :=
  match s with
  | EmptyString => ""
  | String a EmptyString =>
      let n := byte_of a * 16 in
      String (b64_chr (n / 64)) (String (b64_chr (n mod 64)) "")
  | String a (String b EmptyString) =>
      let n := (byte_of a * 256 + byte_of b) * 4 in
      String (b64_chr (n / 4096)) (String (b64_chr (n / 64 mod 64)) (String (b64_chr (n mod 64)) ""))
  | String a (String b (String c t)) =>
      let n := byte_of a * 65536 + byte_of b * 256 + byte_of c in
      String (b64_chr (n / 262144)) (String (b64_chr (n / 4096 mod 64))
        (String (b64_chr (n / 64 mod 64)) (String (b64_chr (n mod 64)) (B64Encode t))))
  end.

Fixpoint drop_newlines (s : string) : string :=
  match s with
  | EmptyString => ""
  | String c t => if (byte_of c =? 10) || (byte_of c =? 13) then drop_newlines t
                  else String c (drop_newlines t)
  end.

Fixpoint b64_decode (s : string) : option string :=
  match s with
  | EmptyString => Some ""
  | String a (String b EmptyString) =>
      match b64_val a, b64_val b with
      | Some w, Some x => Some (String (chr ((w * 64 + x) / 16)) "")
      | _, _ => None
      end
  | String a (String b (String c EmptyString)) =>
      match b64_val a, b64_val b, b64_val c with
      | Some w, Some x, Some y =>
          let n := (w * 4096 + x * 64 + y) / 4 in
          Some (String (chr (n / 256)) (String (chr (n mod 256)) ""))
      | _, _, _ => None
      end
  | String a (String b (String c (String d t))) =>
      match b64_val a, b64_val b, b64_val c, b64_val d, b64_decode t with
      | Some w, Some x, Some y, Some z, Some r =>
          let n := w * 262144 + x * 4096 + y * 64 + z in
          Some (String (chr (n / 65536)) (String (chr (n / 256 mod 256)) (String (chr (n mod 256)) r)))
      | _, _, _, _, _ => None
      end
  | String _ EmptyString => None
  end.

(** The decoder ignores line breaks and the unused low bits of the last
    character. *)
Definition B64Decode (s : string) : option string := b64_decode (drop_newlines s).

Lemma b64_val_chr n : 0 <= n < 64 -> b64_val (b64_chr n) = Some n.
Proof.
  intros H.
  assert (forallb (fun k => bool_decide (b64_val (b64_chr (Z.of_nat k)) = Some (Z.of_nat k))) (seq 0 64)
          = true) as Hall by (vm_compute; reflexivity).
  rewrite forallb_forall in Hall. specialize (Hall (Z.to_nat n)).
  rewrite Z2Nat.id in Hall by lia.
  eapply bool_decide_eq_true_1, Hall, in_seq. lia.
Qed.

Lemma b64_chr_no_newline n :
  0 <= n < 64 -> (byte_of (b64_chr n) =? 10) || (byte_of (b64_chr n) =? 13) = false.
Proof.
  intros H.
  assert (forallb (fun k => negb ((byte_of (b64_chr (Z.of_nat k)) =? 10)
                                  || (byte_of (b64_chr (Z.of_nat k)) =? 13))) (seq 0 64) = true)
    as Hall by (vm_compute; reflexivity).
  rewrite forallb_forall in Hall. specialize (Hall (Z.to_nat n)).
  rewrite Z2Nat.id in Hall by lia. apply negb_true_iff, Hall, in_seq. lia.
Qed.

(** Induction in steps of three bytes. *)
Lemma string_ind3 (P : string -> Prop) :
  P "" -> (forall a, P (String a "")) -> (forall a b, P (String a (String b ""))) ->
  (forall a b c t, P t -> P (String a (String b (String c t)))) -> forall s, P s.
Proof.
  intros H0 H1 H2 H3 s.
  enough (forall n s, (String.length s <= n)%nat -> P s) as H by eauto.
  clear s. intros n. induction n as [|n IH]; intros [|a [|b [|c t]]] Hn; auto; simpl in Hn; try lia.
  apply H3, IH. lia.
Qed.

Lemma chr_eq n c : n = byte_of c -> chr n = c.
Proof. intros ->. apply chr_byte_of. Qed.

Ltac b64_bounds :=
  repeat match goal with
  | |- context [byte_of ?c] => lazymatch goal with
      | _ : 0 <= byte_of c < 256 |- _ => fail
      | _ => pose proof (byte_of_range c)
      end
  end.

(** Division and remainder by constants, for [lia]. *)
Ltac zdiv := Z.to_euclidean_division_equations; lia.

Lemma b64_decode_encode s : b64_decode (B64Encode s) = Some s.
Proof.
  induction s as [|a|a b|a b c t IH] using string_ind3; [done|..];
    cbn [B64Encode b64_decode]; b64_bounds; rewrite ?IH, !b64_val_chr by zdiv;
    repeat f_equal; apply chr_eq; zdiv.
Qed.

Lemma drop_newlines_encode s : drop_newlines (B64Encode s) = B64Encode s.
Proof.
  induction s as [|a|a b|a b c t IH] using string_ind3; [done|..];
    cbn [B64Encode drop_newlines]; b64_bounds; rewrite !b64_chr_no_newline by zdiv; by rewrite ?IH.
Qed.

Lemma B64Decode_Encode s : B64Decode (B64Encode s) = Some s.
Proof. unfold B64Decode. rewrite drop_newlines_encode. apply b64_decode_encode. Qed.

(** The characters of an encoding. *)
Definition b64_char (c : ascii) : bool := match b64_val c with Some _ => true | None => false end.

Lemma B64Encode_chars s c : c ∈ chars (B64Encode s) -> b64_char c = true.
Proof.
  assert (forall n, 0 <= n < 64 -> b64_char (b64_chr n) = true) as Hc.
  { intros n Hn. unfold b64_char. by rewrite b64_val_chr. }
  induction s as [|a|a b|a b d t IH] using string_ind3; cbn [B64Encode chars
    String.list_ascii_of_string]; b64_bounds; rewrite ?elem_of_cons.
  - by intros ?%not_elem_of_nil.
  - intros [->|[->|?%not_elem_of_nil]]; [| |done]; apply Hc; zdiv.
  - intros [->|[->|[->|?%not_elem_of_nil]]]; [| | |done]; apply Hc; zdiv.
  - intros [->|[->|[->|[->|Hin]]]]; [| | | |by apply IH]; apply Hc; zdiv.
Qed.

#[export] Hint Rewrite HexDecode_Encode B64Decode_Encode : gostr.
