(* ===== verification/GoError.v ===== *)
(** * Errors with causes

    Go's [error] values where the program looks inside them: an error has a
    dynamic type, a message and possibly a wrapped cause.  The two error types
    of the program that carry a code are constructors; every other error is
    [OtherError] with its type's name ([%T]) and its message. *)

From S2P Require Import Prelude GoStrings.

#[warnings="-register-all"]
Inductive error : Type :=
| CodedError (Code Message : string) (Cause : option error)     (* sshclient.CodedError *)
| HostKeyError (Code Message : string) (Cause : option error)   (* security.HostKeyError *)
| KeyError (msg : string) (Want : nat)                          (* knownhosts.KeyError *)
| OtherError (type_name msg : string) (Cause : option error).

(** [err.Error()] *)
Definition Error (e : error) : string :=
  match e with
  | CodedError _ m _ | HostKeyError _ m _ => m
  | KeyError m _ => m
  | OtherError _ m _ => m
  end.

(** [errors.Unwrap(err)] *)
Definition Unwrap (e : error) : option error :=
  match e with
  | CodedError _ _ c | HostKeyError _ _ c | OtherError _ _ c => c
  | KeyError _ _ => None
  end.

(** The name [fmt.Sprintf("%T", err)] prints. *)
Definition type_string (e : error) : string :=
  match e with
  | CodedError _ _ _ => "*sshclient.CodedError"
  | HostKeyError _ _ _ => "*security.HostKeyError"
  | KeyError _ _ => "*knownhosts.KeyError"
  | OtherError t _ _ => t
  end.

(** The first error of the chain a test accepts ([errors.As] and the walks
    over [Unwrap] of the program). *)
Fixpoint find_in_chain {A} (test : error -> option A) (e : error) : option A :=
  match test e with
  | Some a => Some a
  | None => match e with
            | CodedError _ _ (Some c) | HostKeyError _ _ (Some c) | OtherError _ _ (Some c) =>
                find_in_chain test c
            | _ => None
            end
  end.

Lemma find_in_chain_unwrap {A} (test : error -> option A) e :
  find_in_chain test e
  = match test e with
    | Some a => Some a
    | None => match Unwrap e with Some c => find_in_chain test c | None => None end
    end.
Proof. by destruct e as [? ? [c|]|? ? [c|]| |? ? [c|]]; simpl; destruct (test _). Qed.

(** [errors.As] for the two coded types: code and message. *)
Definition as_CodedError (e : error) : option (string * string) :=
  find_in_chain (fun e => match e with CodedError c m _ => Some (c, m) | _ => None end) e.
Definition as_HostKeyError (e : error) : option (string * string) :=
  find_in_chain (fun e => match e with HostKeyError c m _ => Some (c, m) | _ => None end) e.
