(* ===== verification/Json.v ===== *)
(** * Go's [encoding/json] and [unicode/utf8]

    Every message between the browser or the command-line client and the
    server, and every stored credential, is JSON.  A document is the tree
    [json]; a number keeps its literal, as the decoder converts it only when it
    knows the target type.  [parse] follows the scanner and decoder of the
    standard library (strict grammar, nesting limit, invalid UTF-8 and lone
    surrogates replaced by U+FFFD, nothing but white space after the value) and
    [print] the encoder (compact, HTML characters escaped).

    A [json.RawMessage] is an [option json]: the tree of the text it holds,
    [None] when the field was absent.  Decoding it a second time, which the
    code does, is the conversion of that tree. *)

From S2P Require Import Prelude GoStrings GoEncoding.

(** ** UTF-8 *)

Definition cont (c : ascii) : bool := (128 <=? byte_of c) && (byte_of c <=? 191).
Definition in_range (lo hi : Z) (c : ascii) : bool := (lo <=? byte_of c) && (byte_of c <=? hi).

(** The length of the encoded rune at the start of [s], [None] if it starts
    with an invalid byte ([utf8.DecodeRune] = (RuneError, 1)). *)
Definition rune_len (s : string) : option nat :=
  match s with
  | EmptyString => None
  | String a t =>
      if byte_of a <? 128 then Some 1%nat
      else match t with
           | EmptyString => None
           | String b u =>
               if in_range 194 223 a then if cont b then Some 2%nat else None
               else match u with
                    | EmptyString => None
                    | String c v =>
                        if in_range 224 239 a then
                          let lo := if byte_of a =? 224 then 160 else 128 in
                          let hi := if byte_of a =? 237 then 159 else 191 in
                          if in_range lo hi b && cont c then Some 3%nat else None
                        else match v with
                             | EmptyString => None
                             | String d _ =>
                                 let lo := if byte_of a =? 240 then 144 else 128 in
                                 let hi := if byte_of a =? 244 then 143 else 191 in
                                 if in_range 240 244 a && in_range lo hi b && cont c && cont d
                                 then Some 4%nat else None
                             end
                    end
           end
  end.

Definition bytes (l : list Z) : string := of_chars (map chr l).

Definition EncodeRune (r : Z) : string :=
  if r <? 128 then bytes [r]
  else if r <? 2048 then bytes [192 + r / 64; 128 + r mod 64]
  else if r <? 65536 then bytes [224 + r / 4096; 128 + r / 64 mod 64; 128 + r mod 64]
  else bytes [240 + r / 262144; 128 + r / 4096 mod 64; 128 + r / 64 mod 64; 128 + r mod 64].

Definition RuneError : Z := 65533.

(** Each invalid byte replaced by U+FFFD. *)
Fixpoint to_valid (fuel : nat) (s : string) : string :=
  match fuel, s with
  | S f, String _ t =>
      match rune_len s with
      | Some n => str_take n s +:+ to_valid f (str_drop n s)
      | None => EncodeRune RuneError +:+ to_valid f t
      end
  | _, _ => ""
  end.

Definition utf8_clean (s : string) : string := to_valid (String.length s) s.

(** ** Documents *)

#[warnings="-register-all"]
Inductive json : Type :=
| JNull
| JBool (b : bool)
| JNum (lit : string)
| JStr (s : string)
| JArr (l : list json)
| JObj (m : list (string * json)).

(** ** Scanning *)

Definition is_ws (c : ascii) : bool :=
  let b := byte_of c in (b =? 32) || (b =? 9) || (b =? 10) || (b =? 13).

Fixpoint skip_ws (s : string) : string :=
  match s with
  | String c t => if is_ws c then skip_ws t else s
  | EmptyString => s
  end.

(** Four hexadecimal digits. *)
Definition hex4 (s : string) : option (Z * string) :=
  match s with
  | String a (String b (String c (String d t))) =>
      match hex_val a, hex_val b, hex_val c, hex_val d with
      | Some w, Some x, Some y, Some z => Some (w * 4096 + x * 256 + y * 16 + z, t)
      | _, _, _, _ => None
      end
  | _ => None
  end.

Definition is_surrogate (r : Z) : bool := (55296 <=? r) && (r <? 57344).

(** The rune of [\uXXXX] with value [r], followed by [t]: a high surrogate
    takes a following low one with it, any other surrogate is U+FFFD. *)
Definition unescape_rune (r : Z) (t : string) : Z * string :=
  if is_surrogate r then
    match t with
    | String a (String b t') =>
        if Ascii.eqb a bslash && Ascii.eqb b "u"%char then
          match hex4 t' with
          | Some (r2, t'') =>
              if (r <? 56320) && (56320 <=? r2) && (r2 <? 57344)
              then ((r - 55296) * 1024 + (r2 - 56320) + 65536, t'')
              else (RuneError, t)
          | None => (RuneError, t)
          end
        else (RuneError, t)
    | _ => (RuneError, t)
    end
  else (r, t).

Definition simple_escape (c : ascii) : option string :=
  if Ascii.eqb c dquote || Ascii.eqb c bslash || Ascii.eqb c "/"%char then Some (String c "")
  else if Ascii.eqb c "b"%char then Some (bytes [8])
  else if Ascii.eqb c "f"%char then Some (bytes [12])
  else if Ascii.eqb c "n"%char then Some (bytes [10])
  else if Ascii.eqb c "r"%char then Some (bytes [13])
  else if Ascii.eqb c "t"%char then Some (bytes [9])
  else None.

(** One element of a string literal: the bytes it stands for and the rest. *)
Definition str_elem (s : string) : option (string * string) :=
  match s with
  | EmptyString => None
  | String c t =>
      if Ascii.eqb c bslash then
        match t with
        | EmptyString => None
        | String e u =>
            if Ascii.eqb e "u"%char then
              match hex4 u with
              | Some (r, v) => let (r', v') := unescape_rune r v in Some (EncodeRune r', v')
              | None => None
              end
            else match simple_escape e with
                 | Some x => Some (x, u)
                 | None => None
                 end
        end
      else if byte_of c <? 32 then None
      else match rune_len s with
           | Some n => Some (str_take n s, str_drop n s)
           | None => Some (EncodeRune RuneError, t)
           end
  end.

(** The body of a string literal, after its opening quote. *)
Fixpoint parse_str (fuel : nat) (s : string) : option (string * string) :=
  match fuel, s with
  | S f, String c t =>
      if Ascii.eqb c dquote then Some ("", t)
      else match str_elem s with
           | None => None
           | Some (x, u) => match parse_str f u with
                            | Some (y, r) => Some (x +:+ y, r)
                            | None => None
                            end
           end
  | _, _ => None
  end.

Fixpoint span_digits (s : string) : string * string :=
  match s with
  | String c t => match digit_of c with
                  | Some _ => let (d, r) := span_digits t in (String c d, r)
                  | None => ("", s)
                  end
  | EmptyString => ("", "")
  end.

Definition scan_frac (s : string) : option (string * string) :=
  match s with
  | String c t =>
      if Ascii.eqb c "."%char then
        let (d, r) := span_digits t in
        if d =?s "" then None else Some (String c d, r)
      else Some ("", s)
  | EmptyString => Some ("", s)
  end.

Definition scan_exp (s : string) : option (string * string) :=
  match s with
  | String c t =>
      if Ascii.eqb c "e"%char || Ascii.eqb c "E"%char then
        let (sg, u) := match t with
                       | String d u => if Ascii.eqb d "+"%char || Ascii.eqb d "-"%char
                                       then (String d "", u) else ("", t)
                       | EmptyString => ("", t)
                       end in
        let (d, r) := span_digits u in
        if d =?s "" then None else Some (String c (sg +:+ d), r)
      else Some ("", s)
  | EmptyString => Some ("", s)
  end.

(** A leading zero is the whole integer part. *)
Definition scan_int (s : string) : option (string * string) :=
  match s with
  | String c t => if Ascii.eqb c "0"%char then Some ("0", t)
                  else let (d, r) := span_digits s in
                       if d =?s "" then None else Some (d, r)
  | EmptyString => None
  end.

Definition scan_num (s : string) : option (string * string) :=
  let (sg, s1) := match s with
                  | String c t => if Ascii.eqb c "-"%char then ("-", t) else ("", s)
                  | EmptyString => ("", s)
                  end in
  match scan_int s1 with
  | None => None
  | Some (i, s2) =>
      match scan_frac s2 with
      | None => None
      | Some (f, s3) =>
          match scan_exp s3 with
          | None => None
          | Some (e, s4) => Some (sg +:+ i +:+ f +:+ e, s4)
          end
      end
  end.

(** ** Parsing *)

Definition maxNestingDepth : Z := 10000.

Definition lit_or (s lit : string) (v : json) : option (json * string) :=
  if HasPrefix s lit then Some (v, str_drop (String.length lit) s) else None.

(** A member name and its colon. *)
Definition parse_key (s : string) : option (string * string) :=
  match skip_ws s with
  | String c t =>
      if Ascii.eqb c dquote then
        match parse_str (String.length t) t with
        | Some (k, r) => match skip_ws r with
                         | String d u => if Ascii.eqb d ":"%char then Some (k, u) else None
                         | EmptyString => None
                         end
        | None => None
        end
      else None
  | EmptyString => None
  end.

Fixpoint parse_value (fuel : nat) (depth : Z) (s : string) : option (json * string) :=
  match fuel with
  | O => None
  | S f =>
      match skip_ws s with
      | EmptyString => None
      | String c t =>
          if Ascii.eqb c dquote then
            match parse_str (String.length t) t with
            | Some (x, r) => Some (JStr x, r)
            | None => None
            end
          else if Ascii.eqb c "["%char then
            if maxNestingDepth <=? depth then None
            else match skip_ws t with
                 | String d u =>
                     if Ascii.eqb d "]"%char then Some (JArr [], u)
                     else match parse_elems f (depth + 1) t with
                          | Some (l, r) => Some (JArr l, r)
                          | None => None
                          end
                 | EmptyString => None
                 end
          else if Ascii.eqb c "{"%char then
            if maxNestingDepth <=? depth then None
            else match skip_ws t with
                 | String d u =>
                     if Ascii.eqb d "}"%char then Some (JObj [], u)
                     else match parse_members f (depth + 1) t with
                          | Some (l, r) => Some (JObj l, r)
                          | None => None
                          end
                 | EmptyString => None
                 end
          else if Ascii.eqb c "n"%char then lit_or (String c t) "null" JNull
          else if Ascii.eqb c "t"%char then lit_or (String c t) "true" (JBool true)
          else if Ascii.eqb c "f"%char then lit_or (String c t) "false" (JBool false)
          else match scan_num (String c t) with
               | Some (l, r) => Some (JNum l, r)
               | None => None
               end
      end
  end
with parse_elems (fuel : nat) (depth : Z) (s : string) : option (list json * string) :=
  match fuel with
  | O => None
  | S f =>
      match parse_value f depth s with
      | None => None
      | Some (v, r) =>
          match skip_ws r with
          | String c t =>
              if Ascii.eqb c "]"%char then Some ([v], t)
              else if Ascii.eqb c ","%char then
                match parse_elems f depth t with
                | Some (l, r') => Some (v :: l, r')
                | None => None
                end
              else None
          | EmptyString => None
          end
      end
  end
with parse_members (fuel : nat) (depth : Z) (s : string) : option (list (string * json) * string) :=
  match fuel with
  | O => None
  | S f =>
      match parse_key s with
      | None => None
      | Some (k, s') =>
          match parse_value f depth s' with
          | None => None
          | Some (v, r) =>
              match skip_ws r with
              | String c t =>
                  if Ascii.eqb c "}"%char then Some ([(k, v)], t)
                  else if Ascii.eqb c ","%char then
                    match parse_members f depth t with
                    | Some (l, r') => Some ((k, v) :: l, r')
                    | None => None
                    end
                  else None
              | EmptyString => None
              end
          end
      end
  end.

(** Two calls at most per byte: twice the length is enough fuel
    ([parse_value_fuel]). *)
Definition parse_fuel (s : string) : nat := (2 * String.length s + 2)%nat.

Definition parse (s : string) : option json :=
  match parse_value (parse_fuel s) 0 s with
  | Some (v, r) => if skip_ws r =?s "" then Some v else None
  | None => None
  end.

(** ** Printing *)

Definition esc (c : ascii) : string := String bslash (String c "").
Definition esc_u00 (b : Z) : string :=
  esc "u"%char +:+ "00" +:+ String (hex_digit (b / 16)) (String (hex_digit (b mod 16)) "").

(** How the encoder writes one ASCII byte inside a string. *)
Definition print_byte (c : ascii) : string :=
  let b := byte_of c in
  if Ascii.eqb c dquote || Ascii.eqb c bslash then esc c
  else if b =? 8 then esc "b"%char
  else if b =? 12 then esc "f"%char
  else if b =? 10 then esc "n"%char
  else if b =? 13 then esc "r"%char
  else if b =? 9 then esc "t"%char
  else if (b <? 32) || (b =? 60) || (b =? 62) || (b =? 38) then esc_u00 b
  else String c "".

(** U+2028 and U+2029 are escaped too. *)
Definition print_rune (r : string) : string :=
  match r with
  | String c "" => print_byte c
  | _ => if r =?s bytes [226; 128; 168] then esc "u"%char +:+ "2028"
         else if r =?s bytes [226; 128; 169] then esc "u"%char +:+ "2029"
         else r
  end.

Fixpoint print_body (fuel : nat) (s : string) : string :=
  match fuel, s with
  | S f, String _ t =>
      match rune_len s with
      | Some n => print_rune (str_take n s) +:+ print_body f (str_drop n s)
      | None => esc "u"%char +:+ "fffd" +:+ print_body f t
      end
  | _, _ => ""
  end.

Definition print_str (s : string) : string :=
  String dquote (print_body (String.length s) s +:+ String dquote "").

Fixpoint print (v : json) : string :=
  match v with
  | JNull => "null"
  | JBool b => if b then "true" else "false"
  | JNum lit => lit
  | JStr s => print_str s
  | JArr l =>
      "[" +:+ (fix elems (l : list json) : string :=
                 match l with
                 | [] => "]"
                 | [v] => print v +:+ "]"
                 | v :: l => print v +:+ "," +:+ elems l
                 end) l
  | JObj m =>
      "{" +:+ (fix members (m : list (string * json)) : string :=
                 match m with
                 | [] => "}"
                 | [(k, v)] => print_str k +:+ ":" +:+ print v +:+ "}"
                 | (k, v) :: m => print_str k +:+ ":" +:+ print v +:+ "," +:+ members m
                 end) m
  end.

(** [json.Encoder.Encode], and so [WriteJSON] of gorilla/websocket: the document
    and a newline. *)
Definition print_line (v : json) : string := print v +:+ String (chr 10) "".

Example print_parse :
  let v := JObj [("type", JStr "connect"); ("data", JArr [JNum "22"; JNull; JStr "a<b"])] in
  parse (print v) = Some v
  /\ parse (q " { 'type':1 , 'x':[ ] } ") = Some (JObj [("type", JNum "1"); ("x", JArr [])])
  /\ parse (q "{'a':01}") = None /\ parse "1 2" = None /\ parse "" = None
  /\ parse "[1,]" = None.
Proof. vm_compute. tauto. Qed.

(** ** Lemmas: UTF-8 *)

Lemma rune_len_pos s n : rune_len s = Some n -> (1 <= n <= String.length s)%nat.
Proof.
  destruct s as [|a [|b [|c [|d s]]]]; cbn [rune_len String.length]; repeat case_match;
    intros; simplify_eq; lia.
Qed.

(** [rune_len] looks only at the rune it finds. *)
Lemma rune_len_app s n t : rune_len s = Some n -> rune_len (str_take n s +:+ t) = Some n.
Proof.
  destruct s as [|a [|b [|c [|d s]]]]; cbn [rune_len]; repeat case_match; intros;
    simplify_eq; cbn [str_take]; rewrite !str_app_cons; cbn [rune_len];
    repeat match goal with X : ?x = _ |- context [?x] => rewrite X end; try done.
  all: destruct t as [|x [|y [|z t]]]; cbn [rune_len];
    repeat match goal with X : ?x = _ |- context [?x] => rewrite X end; done.
Qed.

Lemma rune_len_ascii c t : byte_of c < 128 -> rune_len (String c t) = Some 1%nat.
Proof. intros H. cbn [rune_len]. by rewrite (proj2 (Z.ltb_lt _ _) H). Qed.

(** A valid string is its own cleaning. *)
Fixpoint valid_utf8_go (fuel : nat) (s : string) : bool :=
  match fuel, s with
  | S f, String _ _ =>
      match rune_len s with Some n => valid_utf8_go f (str_drop n s) | None => false end
  | _, EmptyString => true
  | O, _ => false
  end.
Definition valid_utf8 (s : string) : bool := valid_utf8_go (String.length s) s.

Lemma to_valid_id fuel s : valid_utf8_go fuel s = true -> to_valid fuel s = s.
Proof.
  revert s; induction fuel as [|f IH]; intros [|c s] H; try done.
  cbn [valid_utf8_go to_valid] in *. destruct (rune_len (String c s)) as [n|] eqn:E; [|done].
  rewrite IH by done. apply str_take_drop.
Qed.

Lemma utf8_clean_id s : valid_utf8 s = true -> utf8_clean s = s.
Proof. apply to_valid_id. Qed.

(** ** Lemmas: string literals *)

(** The printed form of a rune is one element of the literal. *)
Definition elem_of_lit (p x : string) : Prop :=
  forall t, exists c u, p +:+ t = String c u /\ Ascii.eqb c dquote = false
                        /\ str_elem (p +:+ t) = Some (x, t).

Lemma print_byte_elem c : byte_of c < 128 -> elem_of_lit (print_byte c) (String c "").
Proof.
  intros Hc t. destruct c as [[] [] [] [] [] [] [] []]; try (vm_compute in Hc; discriminate Hc);
    eexists _, _; (split; [reflexivity|split; reflexivity]).
Qed.

Lemma print_rune_elem s n :
  rune_len s = Some n -> elem_of_lit (print_rune (str_take n s)) (str_take n s).
Proof.
  intros Hn. destruct s as [|c s]; [done|].
  pose proof (rune_len_pos _ _ Hn) as Hlen.
  destruct (byte_of c <? 128) eqn:Ec.
  { cbn [rune_len] in Hn. rewrite Ec in Hn. injection Hn as <-. bool_facts.
    apply print_byte_elem. done. }
  destruct n as [|[|n]]; [lia| |].
  { cbn [rune_len] in Hn. rewrite Ec in Hn. repeat case_match; simplify_eq. }
  destruct s as [|d s]; [simpl in Hlen; lia|].
  intros t. cbn [str_take print_rune]. fold (str_take n s).
  destruct (_ =?s bytes [226; 128; 168]) eqn:E1.
  { apply String.eqb_eq in E1. rewrite E1. eexists _, _. split; [reflexivity|]. by split. }
  destruct (_ =?s bytes [226; 128; 169]) eqn:E2.
  { apply String.eqb_eq in E2. rewrite E2. eexists _, _. split; [reflexivity|]. by split. }
  eexists _, _. split; [reflexivity|]. bool_facts.
  split; [apply Ascii.eqb_neq; intros ->; done|].
  pose proof (rune_len_app _ _ t Hn) as Ha. cbn [str_take] in Ha.
  rewrite !str_app_cons in *. unfold str_elem.
  destruct (Ascii.eqb_spec c bslash) as [->|_]; [done|].
  assert ((byte_of c <? 32) = false) as -> by lia.
  rewrite Ha. f_equal. f_equal; cbn [str_take str_drop].
  - do 2 f_equal. pose proof (str_take_app (str_take n s) t) as Ht.
    rewrite str_length_take in Ht. simpl in Hlen. by rewrite Nat.min_l in Ht by lia.
  - pose proof (str_drop_app (str_take n s) t) as Ht.
    rewrite str_length_take in Ht. simpl in Hlen. by rewrite Nat.min_l in Ht by lia.
Qed.

Lemma parse_str_elem fuel p x t :
  elem_of_lit p x ->
  parse_str (S fuel) (p +:+ t)
  = match parse_str fuel t with Some (y, r) => Some (x +:+ y, r) | None => None end.
Proof. intros H. destruct (H t) as (c & u & Hp & Hc & He). cbn [parse_str]. by rewrite Hp, Hc, <- Hp, He. Qed.

Lemma bad_rune_elem : elem_of_lit (esc "u"%char +:+ "fffd") (EncodeRune RuneError).
Proof. intros t. eexists _, _. split; [reflexivity|]. split; reflexivity. Qed.

Lemma elem_of_lit_length p x : elem_of_lit p x -> (1 <= String.length p)%nat.
Proof.
  intros H. destruct p as [|c p]; [|simpl; lia]. exfalso.
  destruct (H "") as (c & u & Hp & _). done.
Qed.

(** Fuel for a printed body: one unit per rune. *)
Lemma parse_print_body k fuel s rest :
  (String.length s <= k)%nat -> (String.length (print_body k s) < fuel)%nat ->
  parse_str fuel (print_body k s +:+ String dquote rest) = Some (to_valid k s, rest).
Proof.
  revert fuel s; induction k as [|k IH]; intros fuel s Hk Hf.
  - destruct s; [|simpl in Hk; lia]. destruct fuel; [simpl in Hf; lia|]. reflexivity.
  - destruct s as [|c s]; [destruct fuel; [simpl in Hf; lia|]; reflexivity|].
    cbn [print_body to_valid] in *. destruct fuel as [|fuel]; [lia|].
    destruct (rune_len (String c s)) as [n|] eqn:En.
    + pose proof (print_rune_elem _ _ En) as He. pose proof (elem_of_lit_length _ _ He).
      pose proof (rune_len_pos _ _ En). rewrite str_length_app in Hf.
      rewrite str_app_assoc, (parse_str_elem _ _ _ _ He), IH; [done| |lia].
      rewrite str_length_drop. simpl in *. lia.
    + rewrite !str_app_assoc, <- (str_app_assoc (esc _)), (parse_str_elem _ _ _ _ bad_rune_elem).
      rewrite !str_length_app in Hf. simpl in *. rewrite IH; [done|lia|lia].
Qed.

Lemma parse_str_print s rest fuel :
  (String.length (print_body (String.length s) s) < fuel)%nat ->
  parse_str fuel (print_body (String.length s) s +:+ String dquote rest) = Some (utf8_clean s, rest).
Proof. intros Hf. by apply parse_print_body. Qed.

(** ** Lemmas: numbers *)

(** What may follow a number literal. *)
Definition delim (s : string) : Prop :=
  match s with
  | EmptyString => True
  | String c _ => digit_of c = None /\ c <> "."%char /\ c <> "e"%char /\ c <> "E"%char
  end.

Definition is_num (lit : string) : bool :=
  match scan_num lit with Some (x, r) => (x =?s lit) && (r =?s "") | None => false end.

Lemma span_digits_app s d r rest :
  span_digits s = (d, r) -> delim rest -> span_digits (s +:+ rest) = (d, r +:+ rest).
Proof.
  revert d r; induction s as [|c s IH]; intros d r H Hr.
  - injection H as <- <-. rewrite !str_app_nil_l. destruct rest as [|c rest]; [done|].
    cbn [span_digits]. by destruct Hr as [-> _].
  - rewrite str_app_cons. cbn [span_digits] in *. destruct (digit_of c).
    + destruct (span_digits s) as [d' r'] eqn:E. injection H as <- <-. by rewrite (IH d' r').
    + by injection H as <- <-.
Qed.

Lemma scan_int_app s x r rest :
  scan_int s = Some (x, r) -> delim rest -> scan_int (s +:+ rest) = Some (x, r +:+ rest).
Proof.
  intros H Hr. destruct s as [|c s]; [done|]. rewrite str_app_cons. cbn [scan_int] in *.
  destruct (Ascii.eqb c "0"%char); [by injection H as <- <-|].
  destruct (span_digits (String c s)) as [d r'] eqn:E.
  pose proof (span_digits_app _ _ _ rest E Hr) as Ha. rewrite str_app_cons in Ha. rewrite Ha.
  destruct (d =?s ""); [done|]. by injection H as <- <-.
Qed.

Lemma scan_frac_app s x r rest :
  scan_frac s = Some (x, r) -> delim rest -> scan_frac (s +:+ rest) = Some (x, r +:+ rest).
Proof.
  intros H Hr. destruct s as [|c s].
  - injection H as <- <-. rewrite !str_app_nil_l. destruct rest as [|c rest]; [done|].
    cbn [scan_frac]. destruct Hr as (_ & Hc & _). by apply Ascii.eqb_neq in Hc as ->.
  - rewrite str_app_cons. cbn [scan_frac] in *. destruct (Ascii.eqb c "."%char).
    + destruct (span_digits s) as [d r'] eqn:E. rewrite (span_digits_app _ _ _ rest E Hr).
      destruct (d =?s ""); [done|]. by injection H as <- <-.
    + by injection H as <- <-.
Qed.

Lemma scan_exp_app s x r rest :
  scan_exp s = Some (x, r) -> delim rest -> scan_exp (s +:+ rest) = Some (x, r +:+ rest).
Proof.
  intros H Hr. destruct s as [|c s].
  - injection H as <- <-. rewrite !str_app_nil_l. destruct rest as [|c rest]; [done|].
    cbn [scan_exp]. destruct Hr as (_ & _ & H1 & H2). apply Ascii.eqb_neq in H1, H2.
    by rewrite H1, H2.
  - rewrite str_app_cons. cbn [scan_exp] in *.
    destruct (Ascii.eqb c "e"%char || Ascii.eqb c "E"%char); [|by injection H as <- <-].
    destruct s as [|e s]; [done|]. rewrite str_app_cons.
    destruct (Ascii.eqb e "+"%char || Ascii.eqb e "-"%char); rewrite <- ?str_app_cons;
      match type of H with context [span_digits ?u] => destruct (span_digits u) as [d r'] eqn:E end;
      rewrite (span_digits_app _ _ _ rest E Hr); (destruct (d =?s ""); [done|]);
      by injection H as <- <-.
Qed.

Lemma is_num_scan lit rest :
  is_num lit = true -> delim rest -> scan_num (lit +:+ rest) = Some (lit, rest).
Proof.
  unfold is_num. intros H Hr. destruct (scan_num lit) as [[x r]|] eqn:E; [|done]. bool_facts. subst.
  unfold scan_num in *.
  destruct lit as [|c lit]; [done|]. rewrite str_app_cons.
  destruct (Ascii.eqb c "-"%char); rewrite <- ?str_app_cons;
    repeat match type of E with
    | match ?F ?s with _ => _ end = _ => destruct (F s) as [[? ?]|] eqn:?; [|done]
    end;
    erewrite scan_int_app by done; cbv beta iota; erewrite scan_frac_app by done; cbv beta iota;
    erewrite scan_exp_app by done; apply (inj Some), pair_eq in E as [E1 ->];
    rewrite E1; done.
Qed.

Lemma is_num_head lit :
  is_num lit = true ->
  exists c t, lit = String c t /\ (c = "-"%char \/ digit_of c <> None).
Proof.
  unfold is_num. intros H. destruct (scan_num lit) as [[x r]|] eqn:E; [|done]. clear H.
  destruct lit as [|c t]; [done|]. exists c, t. split; [done|]. unfold scan_num in E.
  destruct (Ascii.eqb_spec c "-"%char) as [->|_]; [by left|right].
  destruct (scan_int (String c t)) as [[i s]|] eqn:Ei; [|done]. cbn [scan_int] in Ei.
  destruct (Ascii.eqb_spec c "0"%char) as [->|_]; [done|].
  cbn [span_digits] in Ei. by destruct (digit_of c).
Qed.

(** ** Lemmas: the round trip *)

Section JsonInd.

Context (P : json -> Prop).
Hypothesis H_null : P JNull.
Hypothesis H_bool : forall b, P (JBool b).
Hypothesis H_num : forall lit, P (JNum lit).
Hypothesis H_str : forall s, P (JStr s).
Hypothesis H_arr : forall l, Forall P l -> P (JArr l).
Hypothesis H_obj : forall m, Forall (fun kv => P (snd kv)) m -> P (JObj m).

(** Induction on documents, with the members of arrays and objects. *)
Fixpoint json_nested_ind (v : json) : P v :=
  match v with
  | JNull => H_null
  | JBool b => H_bool b
  | JNum lit => H_num lit
  | JStr s => H_str s
  | JArr l => H_arr l ((fix go (l : list json) : Forall P l :=
                          match l with
                          | [] => Forall_nil_2 P
                          | v :: l => Forall_cons_2 P v l (json_nested_ind v) (go l)
                          end) l)
  | JObj m => H_obj m ((fix go (m : list (string * json)) : Forall (fun kv => P (snd kv)) m :=
                          match m with
                          | [] => Forall_nil_2 _
                          | kv :: m => Forall_cons_2 _ kv m (json_nested_ind (snd kv)) (go m)
                          end) m)
  end.

End JsonInd.

(** Well-formed documents: the numbers are JSON number literals. *)
Fixpoint wf_json (v : json) : bool :=
  match v with
  | JNum lit => is_num lit
  | JArr l => forallb wf_json l
  | JObj m => forallb (fun kv => wf_json (snd kv)) m
  | _ => true
  end.

Fixpoint jclean (v : json) : json :=
  match v with
  | JStr s => JStr (utf8_clean s)
  | JArr l => JArr (map jclean l)
  | JObj m => JObj (map (fun kv => (utf8_clean (fst kv), jclean (snd kv))) m)
  | _ => v
  end.

Fixpoint jdepth (v : json) : Z :=
  match v with
  | JArr l => 1 + foldr (fun v d => Z.max (jdepth v) d) 0 l
  | JObj m => 1 + foldr (fun kv d => Z.max (jdepth (snd kv)) d) 0 m
  | _ => 0
  end.

Fixpoint jsize (v : json) : nat :=
  match v with
  | JArr l => S (foldr (fun v n => S (jsize v + n)) 0%nat l)
  | JObj m => S (foldr (fun kv n => S (jsize (snd kv) + n)) 0%nat m)
  | _ => 1%nat
  end.

(** A printed value starts with none of the characters the parser treats
    specially in its place. *)
Definition value_head (c : ascii) : Prop :=
  is_ws c = false /\ c <> "]"%char /\ c <> "}"%char.

Lemma digit_head c : c = "-"%char \/ digit_of c <> None ->
  value_head c /\ Ascii.eqb c dquote = false /\ Ascii.eqb c "["%char = false
  /\ Ascii.eqb c "{"%char = false /\ Ascii.eqb c "n"%char = false
  /\ Ascii.eqb c "t"%char = false /\ Ascii.eqb c "f"%char = false.
Proof.
  intros [->|H]; [by vm_compute|].
  destruct c as [[] [] [] [] [] [] [] []]; try (exfalso; apply H; reflexivity); by vm_compute.
Qed.

Lemma print_head v : wf_json v = true -> exists c t, print v = String c t /\ value_head c.
Proof.
  intros Hw. destruct v as [|[]|lit|s|l|m]; try (eexists _, _; split; [reflexivity|by vm_compute]).
  apply is_num_head in Hw as (c & t & -> & Hc). eexists _, _. split; [reflexivity|].
  by apply digit_head.
Qed.

Lemma skip_ws_head c t : is_ws c = false -> skip_ws (String c t) = String c t.
Proof. cbn [skip_ws]. by intros ->. Qed.

(** The parser reads [v] back from its printed form. *)
Definition reads (v : json) : Prop :=
  forall fuel depth rest,
    wf_json v = true -> depth + jdepth v <= maxNestingDepth -> (jsize v <= fuel)%nat -> delim rest ->
    parse_value fuel depth (print v +:+ rest) = Some (jclean v, rest).

Lemma delim_comma t : delim (String "," t).
Proof. by vm_compute. Qed.

Lemma parse_key_print k rest :
  parse_key (print_str k +:+ ":" +:+ rest) = Some (utf8_clean k, rest).
Proof.
  unfold parse_key, print_str. rewrite str_app_cons. rewrite skip_ws_head by done.
  cbn [Ascii.eqb]. change (Ascii.eqb dquote dquote) with true. cbv iota.
  rewrite str_app_assoc. rewrite !str_app_cons, str_app_nil_l.
  rewrite parse_str_print; [done|]. rewrite !str_length_app. simpl. lia.
Qed.

Lemma skip_ws_print v rest :
  wf_json v = true -> skip_ws (print v +:+ rest) = print v +:+ rest.
Proof.
  intros Hw. destruct (print_head v Hw) as (c & t & -> & Hws & _).
  rewrite str_app_cons. by apply skip_ws_head.
Qed.

(** The printed elements of an array after its bracket, and the printed
    members of an object after its brace. *)
Fixpoint print_elems (l : list json) : string :=
  match l with
  | [] => "]"
  | [v] => print v +:+ "]"
  | v :: l => print v +:+ "," +:+ print_elems l
  end.

Fixpoint print_members (m : list (string * json)) : string :=
  match m with
  | [] => "}"
  | [(k, v)] => print_str k +:+ ":" +:+ print v +:+ "}"
  | (k, v) :: m => print_str k +:+ ":" +:+ print v +:+ "," +:+ print_members m
  end.

Lemma print_arr l : print (JArr l) = "[" +:+ print_elems l.
Proof. done. Qed.

Lemma print_obj m : print (JObj m) = "{" +:+ print_members m.
Proof. done. Qed.

Lemma parse_elems_print l fuel depth rest :
  Forall reads l -> l <> [] -> forallb wf_json l = true ->
  depth + foldr (fun v d => Z.max (jdepth v) d) 0 l <= maxNestingDepth ->
  (foldr (fun v n => S (jsize v + n)) 0 l <= fuel)%nat ->
  parse_elems fuel depth (print_elems l +:+ rest) = Some (map jclean l, rest).
Proof.
  revert fuel; induction l as [|v l IH]; intros fuel HF Hne Hw Hd Hf; [done|].
  apply Forall_cons in HF as [Hv HF]. cbn [forallb foldr map] in *. bool_facts.
  destruct fuel as [|fuel]; [lia|]. cbn [parse_elems]. destruct l as [|w l].
  - cbn [print_elems]. rewrite str_app_assoc, Hv; [|done|lia|lia|by vm_compute].
    rewrite str_app_cons, skip_ws_head by done. done.
  - change (print_elems (v :: w :: l)) with (print v +:+ "," +:+ print_elems (w :: l)).
    rewrite str_app_assoc, Hv; [|done|lia|lia|rewrite str_app_assoc; apply delim_comma].
    rewrite str_app_assoc, str_app_cons, skip_ws_head, str_app_nil_l by done.
    change (Ascii.eqb "," "]") with false. change (Ascii.eqb "," ",") with true. cbv iota.
    rewrite IH; [done|done|done|done|lia|lia].
Qed.

Lemma parse_members_print m fuel depth rest :
  Forall (fun kv => reads (snd kv)) m -> m <> [] ->
  forallb (fun kv => wf_json (snd kv)) m = true ->
  depth + foldr (fun kv d => Z.max (jdepth (snd kv)) d) 0 m <= maxNestingDepth ->
  (foldr (fun kv n => S (jsize (snd kv) + n)) 0 m <= fuel)%nat ->
  parse_members fuel depth (print_members m +:+ rest)
  = Some (map (fun kv => (utf8_clean (fst kv), jclean (snd kv))) m, rest).
Proof.
  revert fuel; induction m as [|[k v] m IH]; intros fuel HF Hne Hw Hd Hf; [done|].
  apply Forall_cons in HF as [Hv HF]. cbn [forallb foldr map fst snd] in *. bool_facts.
  destruct fuel as [|fuel]; [lia|]. cbn [parse_members]. destruct m as [|w m].
  - cbn [print_members]. rewrite !str_app_assoc, parse_key_print, Hv;
      [|done|lia|lia|by vm_compute].
    rewrite str_app_cons, skip_ws_head by done. done.
  - change (print_members ((k, v) :: w :: m))
      with (print_str k +:+ ":" +:+ print v +:+ "," +:+ print_members (w :: m)).
    rewrite !str_app_assoc, parse_key_print, Hv; [|done|lia|lia|apply delim_comma].
    rewrite str_app_cons, skip_ws_head, str_app_nil_l by done.
    change (Ascii.eqb "," "}") with false. change (Ascii.eqb "," ",") with true. cbv iota.
    rewrite IH; [done|done|done|done|lia|lia].
Qed.

Lemma reads_num lit : reads (JNum lit).
Proof.
  intros fuel depth rest Hw _ Hf Hr. cbn [wf_json print jclean jsize] in *.
  destruct fuel as [|fuel]; [lia|]. cbn [parse_value].
  destruct (is_num_head _ Hw) as (c & t & -> & Hc).
  apply digit_head in Hc as ((Hws & _) & H1 & H2 & H3 & H4 & H5 & H6).
  rewrite str_app_cons, skip_ws_head by done. rewrite H1, H2, H3, H4, H5, H6.
  rewrite <- str_app_cons, is_num_scan by done. done.
Qed.

Lemma reads_str s : reads (JStr s).
Proof.
  intros fuel depth rest _ _ Hf Hr. cbn [print jclean jsize] in *.
  destruct fuel as [|fuel]; [lia|]. cbn [parse_value]. unfold print_str.
  rewrite str_app_cons, skip_ws_head by done.
  change (Ascii.eqb dquote dquote) with true. cbv iota.
  rewrite str_app_assoc, str_app_cons, str_app_nil_l, parse_str_print; [done|].
  rewrite !str_length_app. simpl. lia.
Qed.

Lemma print_elems_head v l rest :
  wf_json v = true ->
  exists c t, skip_ws (print_elems (v :: l) +:+ rest) = String c t /\ Ascii.eqb c "]"%char = false.
Proof.
  intros Hw. destruct (print_head v Hw) as (c & t & Hp & Hws & Hc & _).
  exists c. destruct l; cbn [print_elems]; rewrite Hp, !str_app_cons, skip_ws_head by done;
    eexists; (split; [reflexivity|]); by apply Ascii.eqb_neq.
Qed.

Lemma reads_all v : reads v.
Proof.
  induction v as [|b|lit|s|l IH|m IH] using json_nested_ind.
  - intros [|fuel] depth rest _ _ Hf _; [simpl in Hf; lia|]. reflexivity.
  - intros [|fuel] depth rest _ _ Hf _; [simpl in Hf; lia|]. by destruct b.
  - apply reads_num.
  - apply reads_str.
  - intros [|fuel] depth rest Hw Hd Hf _; [simpl in Hf; lia|].
    cbn [wf_json jdepth jsize jclean] in *. rewrite print_arr, str_app_assoc, str_app_cons, str_app_nil_l.
    cbn [parse_value]. rewrite skip_ws_head by done.
    change (Ascii.eqb "[" dquote) with false. change (Ascii.eqb "[" "[") with true. cbv iota.
    assert ((maxNestingDepth <=? depth) = false) as ->.
    { apply Z.leb_gt. assert (0 <= foldr (fun v d => Z.max (jdepth v) d) 0 l); [|lia].
      clear. induction l; simpl; lia. }
    destruct l as [|v l]; [done|].
    destruct (print_elems_head v l rest) as (c & t & Hs & Hc).
    { simpl in Hw. by bool_facts. }
    rewrite Hs, Hc, parse_elems_print; [done|done|done|done|lia|lia].
  - intros [|fuel] depth rest Hw Hd Hf _; [simpl in Hf; lia|].
    cbn [wf_json jdepth jsize jclean] in *. rewrite print_obj, str_app_assoc, str_app_cons, str_app_nil_l.
    cbn [parse_value]. rewrite skip_ws_head by done.
    change (Ascii.eqb "{" dquote) with false. change (Ascii.eqb "{" "[") with false.
    change (Ascii.eqb "{" "{") with true. cbv iota.
    assert ((maxNestingDepth <=? depth) = false) as ->.
    { apply Z.leb_gt. assert (0 <= foldr (fun kv d => Z.max (jdepth (snd kv)) d) 0 m); [|lia].
      clear. induction m; simpl; lia. }
    destruct m as [|[k v] m]; [done|].
    assert (exists t, skip_ws (print_members ((k, v) :: m) +:+ rest) = String dquote t) as [t Ht].
    { destruct m; cbn [print_members]; unfold print_str; rewrite !str_app_cons, skip_ws_head by done;
        by eexists. }
    rewrite Ht. change (Ascii.eqb dquote "}") with false. cbv iota.
    rewrite parse_members_print; [done|done|done|done|lia|lia].
Qed.

(** ** Lemmas: consumption and fuel *)

Abbreviation slen := String.length.

Lemma skip_ws_length s : (slen (skip_ws s) <= slen s)%nat.
Proof. induction s as [|c s IH]; simpl; [lia|]. destruct (is_ws c); simpl; lia. Qed.

Lemma hex4_length s r t : hex4 s = Some (r, t) -> (slen t <= slen s)%nat.
Proof.
  destruct s as [|a [|b [|c [|d s]]]]; try done. cbn [hex4]. repeat case_match; intros; simplify_eq.
  simpl. lia.
Qed.

Lemma unescape_rune_length r t r' t' : unescape_rune r t = (r', t') -> (slen t' <= slen t)%nat.
Proof.
  unfold unescape_rune. repeat case_match; intros; simplify_eq; try lia.
  match goal with X : hex4 _ = _ |- _ => apply hex4_length in X end. simpl. lia.
Qed.

Lemma str_elem_length s x r : str_elem s = Some (x, r) -> (slen r < slen s)%nat.
Proof.
  destruct s as [|c s]; [done|]. unfold str_elem. repeat case_match; intros; simplify_eq.
  - match goal with X : hex4 _ = _ |- _ => apply hex4_length in X end.
    match goal with X : unescape_rune _ _ = _ |- _ => apply unescape_rune_length in X end. simpl. lia.
  - simpl. lia.
  - match goal with X : rune_len _ = _ |- _ => apply rune_len_pos in X end.
    rewrite str_length_drop. simpl. lia.
  - simpl. lia.
Qed.

Lemma parse_str_length fuel s x r : parse_str fuel s = Some (x, r) -> (slen r < slen s)%nat.
Proof.
  revert s x; induction fuel as [|f IH]; intros [|c s] x H; try done. cbn [parse_str] in H.
  destruct (Ascii.eqb c dquote); [injection H as <- <-; simpl; lia|].
  destruct (str_elem (String c s)) as [[y u]|] eqn:E; [|done].
  destruct (parse_str f u) as [[z w]|] eqn:E2; [|done]. injection H as <- <-.
  apply str_elem_length in E. apply IH in E2. lia.
Qed.

Lemma span_digits_length s d r : span_digits s = (d, r) -> slen s = (slen d + slen r)%nat.
Proof.
  revert d r; induction s as [|c s IH]; intros d r H; cbn [span_digits] in H.
  - by injection H as <- <-.
  - destruct (digit_of c); [|by injection H as <- <-].
    destruct (span_digits s) as [d' r']. injection H as <- <-. simpl. by rewrite (IH d' r').
Qed.

Lemma scan_num_length s x r : scan_num s = Some (x, r) -> (slen r < slen s)%nat.
Proof.
  assert (forall s x r, scan_int s = Some (x, r) -> (slen r < slen s)%nat) as Hi.
  { intros [|c t] y u H; [done|]. cbn [scan_int] in H.
    destruct (Ascii.eqb c "0"%char); [injection H as <- <-; simpl; lia|].
    destruct (span_digits (String c t)) as [d w] eqn:E. apply span_digits_length in E.
    destruct d; [done|]. injection H as <- <-. simpl in *. lia. }
  assert (forall s x r, scan_frac s = Some (x, r) -> (slen r <= slen s)%nat) as Hf.
  { intros [|c t] y u H; cbn [scan_frac] in H; [by injection H as <- <-|].
    destruct (Ascii.eqb c "."%char); [|by injection H as <- <-].
    destruct (span_digits t) as [d w] eqn:E. apply span_digits_length in E.
    destruct (d =?s ""); [done|]. injection H as <- <-. simpl. lia. }
  assert (forall s x r, scan_exp s = Some (x, r) -> (slen r <= slen s)%nat) as He.
  { intros [|c t] y u H; cbn [scan_exp] in H; [by injection H as <- <-|].
    destruct (_ || _); [|by injection H as <- <-].
    repeat case_match; simplify_eq;
      match goal with X : span_digits _ = _ |- _ => apply span_digits_length in X end;
      simpl in *; lia. }
  unfold scan_num. repeat case_match; intros; simplify_eq;
    repeat match goal with
    | X : scan_int _ = _ |- _ => apply Hi in X
    | X : scan_frac _ = _ |- _ => apply Hf in X
    | X : scan_exp _ = _ |- _ => apply He in X
    end; simpl in *; lia.
Qed.

Lemma lit_or_length s lit v v' r :
  lit <> "" -> lit_or s lit v = Some (v', r) -> (slen r < slen s)%nat.
Proof.
  unfold lit_or. intros Hl. destruct (HasPrefix s lit) eqn:E; [|done].
  apply HasPrefix_spec in E as [t ->]. intros [= <- <-]. rewrite str_drop_app, str_length_app.
  destruct lit; [done|]. simpl. lia.
Qed.

Lemma parse_key_length s k r : parse_key s = Some (k, r) -> (slen r < slen s)%nat.
Proof.
  unfold parse_key. pose proof (skip_ws_length s). repeat case_match; intros; simplify_eq.
  match goal with X : parse_str _ _ = _ |- _ => apply parse_str_length in X end.
  match goal with X : skip_ws ?u = String _ _ |- context [slen ?r] =>
    pose proof (skip_ws_length u) as Hu; rewrite X in Hu end.
  simpl in *. lia.
Qed.

(** Fuel-free unfoldings of the three parsers, by what they call. *)
Lemma parse_length fuel :
  (forall d s v r, parse_value fuel d s = Some (v, r) -> (slen r < slen s)%nat)
  /\ (forall d s l r, parse_elems fuel d s = Some (l, r) -> (slen r < slen s)%nat)
  /\ (forall d s m r, parse_members fuel d s = Some (m, r) -> (slen r < slen s)%nat).
Proof.
  induction fuel as [|f (IHv & IHe & IHm)]; [done|]. split_and!.
  - intros d s v r H. cbn [parse_value] in H. pose proof (skip_ws_length s) as Hs.
    destruct (skip_ws s) as [|c t]; [done|]. revert H.
    repeat case_match; intros; simplify_eq; simpl in *;
      repeat match goal with
      | X : parse_str _ _ = _ |- _ => apply parse_str_length in X
      | X : parse_elems _ _ _ = _ |- _ => apply IHe in X
      | X : parse_members _ _ _ = _ |- _ => apply IHm in X
      | X : scan_num _ = _ |- _ => apply scan_num_length in X
      | X : lit_or _ _ _ = _ |- _ => apply lit_or_length in X; [|done]
      | X : skip_ws ?u = String _ ?r |- _ =>
          let Hu := fresh in pose proof (skip_ws_length u) as Hu; rewrite X in Hu; clear X
      end; simpl in *; lia.
  - intros d s l r H. cbn [parse_elems] in H.
    destruct (parse_value f d s) as [[v u]|] eqn:Ev; [|done]. apply IHv in Ev.
    pose proof (skip_ws_length u). revert H.
    repeat case_match; intros; simplify_eq;
      try match goal with X : parse_elems _ _ _ = _ |- _ => apply IHe in X end; simpl in *; lia.
  - intros d s m r H. cbn [parse_members] in H.
    destruct (parse_key s) as [[k s']|] eqn:Ek; [|done]. apply parse_key_length in Ek.
    destruct (parse_value f d s') as [[v u]|] eqn:Ev; [|done]. apply IHv in Ev.
    pose proof (skip_ws_length u). revert H.
    repeat case_match; intros; simplify_eq;
      try match goal with X : parse_members _ _ _ = _ |- _ => apply IHm in X end; simpl in *; lia.
Qed.

(** More fuel than [parse_fuel] never changes the answer. *)
Lemma parse_fuel_stable n :
  (forall s d f f', (slen s <= n)%nat -> (2 * slen s + 2 <= f)%nat -> (2 * slen s + 2 <= f')%nat ->
     parse_value f d s = parse_value f' d s)
  /\ (forall s d f f', (slen s <= n)%nat -> (2 * slen s + 3 <= f)%nat -> (2 * slen s + 3 <= f')%nat ->
     parse_elems f d s = parse_elems f' d s)
  /\ (forall s d f f', (slen s <= n)%nat -> (2 * slen s + 3 <= f)%nat -> (2 * slen s + 3 <= f')%nat ->
     parse_members f d s = parse_members f' d s).
Proof.
  induction n as [|n (IHv & IHe & IHm)].
  - split_and!; intros [|c s] d [|[|f]] [|[|f']] Hn Hf Hf'; simpl in *; try lia; done.
  - assert (forall s d f f', (slen s <= S n)%nat -> (2 * slen s + 2 <= f)%nat ->
      (2 * slen s + 2 <= f')%nat -> parse_value f d s = parse_value f' d s) as Hv.
    { intros s d [|f] [|f'] Hn Hf Hf'; try lia. cbn [parse_value].
      pose proof (skip_ws_length s) as Hs. destruct (skip_ws s) as [|c t]; [done|]. simpl in Hs.
      rewrite (IHe t (d + 1) f f'), (IHm t (d + 1) f f') by lia. done. }
    split_and!; [exact Hv| |].
    + intros s d [|f] [|f'] Hn Hf Hf'; try lia. cbn [parse_elems].
      rewrite (Hv s d f f') by lia.
      destruct (parse_value f' d s) as [[v u]|] eqn:Ev; [|done].
      apply parse_length in Ev. pose proof (skip_ws_length u) as Hu.
      destruct (skip_ws u) as [|c t]; [done|]. simpl in Hu.
      by rewrite (IHe t d f f') by lia.
    + intros s d [|f] [|f'] Hn Hf Hf'; try lia. cbn [parse_members].
      destruct (parse_key s) as [[k s']|] eqn:Ek; [|done]. apply parse_key_length in Ek.
      rewrite (Hv s' d f f') by lia.
      destruct (parse_value f' d s') as [[v u]|] eqn:Ev; [|done].
      apply parse_length in Ev. pose proof (skip_ws_length u) as Hu.
      destruct (skip_ws u) as [|c t]; [done|]. simpl in Hu.
      by rewrite (IHm t d f f') by lia.
Qed.

(** [parse] has enough fuel. *)
Lemma parse_value_fuel s d fuel :
  (parse_fuel s <= fuel)%nat -> parse_value fuel d s = parse_value (parse_fuel s) d s.
Proof.
  intros H. unfold parse_fuel in *.
  destruct (parse_fuel_stable (slen s)) as (Hv & _). apply Hv; lia.
Qed.

(** Parsing a printed document gives the document, its strings cleaned. *)
Lemma parse_print v :
  wf_json v = true -> jdepth v <= maxNestingDepth -> parse (print v) = Some (jclean v).
Proof.
  intros Hw Hd. unfold parse. rewrite <- (parse_value_fuel _ _ (parse_fuel (print v) + jsize v)%nat) by lia.
  pose proof (reads_all v (parse_fuel (print v) + jsize v)%nat 0 "" Hw ltac:(lia) ltac:(lia) I) as H.
  rewrite str_app_nil_r in H. by rewrite H.
Qed.

(** A document on a line of its own reads the same. *)
Lemma parse_print_line v :
  wf_json v = true -> jdepth v <= maxNestingDepth -> parse (print_line v) = Some (jclean v).
Proof.
  intros Hw Hd. unfold parse. rewrite <- (parse_value_fuel _ _ (parse_fuel (print_line v) + jsize v)%nat) by lia.
  pose proof (reads_all v (parse_fuel (print_line v) + jsize v)%nat 0 (String (chr 10) "") Hw ltac:(lia) ltac:(lia)
    ltac:(by vm_compute)) as H.
  change (print v +:+ String (chr 10) "") with (print_line v) in H. by rewrite H.
Qed.

#[export] Hint Resolve parse_print parse_print_line : gows.
