(* ===== verification/JsonDecode.v ===== *)
(** * [json.Unmarshal] into Go values

    Decoding a document into strings, integers, floats, booleans, raw messages
    and structs.  [None] is an error; a decoder takes the value the target
    holds before, because [null] leaves it alone and an absent field is not
    touched.

    Go keeps decoding the rest of a struct after a field of the wrong type and
    reports the error at the end.  No caller in the program looks at a target
    after an error, so the model stops at the first one. *)

From S2P Require Import Prelude GoStrings GoTime Json.
From Stdlib Require Import Floats.SpecFloat.

(** ** Numbers *)

(** The sign, digits and decimal exponent of a JSON number literal. *)
Definition split_num (lit : string) : bool * string * string * Z :=
  let (neg, s) := match lit with
                  | String c t => if Ascii.eqb c "-"%char then (true, t) else (false, lit)
                  | EmptyString => (false, lit)
                  end in
  let (ip, s1) := span_digits s in
  let (fp, s2) := match s1 with
                  | String c t => if Ascii.eqb c "."%char then span_digits t else ("", s1)
                  | EmptyString => ("", s1)
                  end in
  let ex := match s2 with
            | String _ t => match t with
                            | String d u => if Ascii.eqb d "-"%char
                                            then - default 0 (digits_val u 0)
                                            else if Ascii.eqb d "+"%char then default 0 (digits_val u 0)
                                            else default 0 (digits_val t 0)
                            | EmptyString => 0
                            end
            | EmptyString => 0
            end in
  (neg, ip, fp, ex).

(** The float nearest to [m * 10^e], rounded once: the quotient of a negative
    exponent is taken to 66 bits and a sticky bit. *)
Definition decimal_float (m e : Z) : float :=
  if 0 <=? e then float_of_Z (m * 10 ^ e)
  else
    let d := 10 ^ (- e) in
    let k := Z.max 0 (66 + Z.log2 d - Z.log2 m) in
    let n := m * 2 ^ k in
    let sticky := if n mod d =? 0 then 0 else 1 in
    binary_normalize 53 1024 (2 * (n / d) + sticky) (- k - 1) false.

Fixpoint strip_zeros (s : string) : string :=
  match s with
  | String c t => if Ascii.eqb c "0"%char then strip_zeros t else s
  | EmptyString => s
  end.

(** [strconv.ParseFloat] of a JSON literal; [None] is the range error.  With
    [n] significant digits the value is in [10^(e+n-1)..10^(e+n)]: beyond 10^310
    it is infinite, below 10^-330 it is zero. *)
Definition ParseFloatLit (lit : string) : option float :=
  let '(neg, ip, fp, ex) := split_num lit in
  let digits := strip_zeros (ip +:+ fp) in
  let e := ex - len fp in
  if digits =?s "" then Some (S754_zero neg)
  else if 310 <? e + len digits then None
  else if e + len digits <? -330 then Some (S754_zero neg)
  else match decimal_float (default 0 (digits_val digits 0)) e with
       | S754_infinity _ | S754_nan => None
       | f => Some (if neg then SFopp f else f)
       end.

Example ParseFloatLit_examples :
  ParseFloatLit "0.1" = Some (S754_finite false 7205759403792794 (-56))
  /\ ParseFloatLit "-1700000000123" = Some (S754_finite true 6963200000503808 (-12))
  /\ ParseFloatLit "1.7976931348623158e308" = Some (S754_finite false 9007199254740991 971)
  /\ ParseFloatLit "1.7976931348623159e308" = None
  /\ ParseFloatLit "1e400" = None
  /\ ParseFloatLit "4.9e-324" = Some (S754_finite false 1 (-1074))
  /\ ParseFloatLit "0e5" = Some (S754_zero false).
Proof. vm_compute. repeat split. Qed.

(** ** Values *)

Definition dec_string (v : json) (cur : string) : option string :=
  match v with
  | JStr s => Some s
  | JNull => Some cur
  | _ => None
  end.

(** A Go [int]: a literal in the range of 64 bits without fraction or
    exponent. *)
Definition dec_int (v : json) (cur : Z) : option Z :=
  match v with
  | JNum lit => Atoi lit
  | JNull => Some cur
  | _ => None
  end.

Definition dec_bool (v : json) (cur : bool) : option bool :=
  match v with
  | JBool b => Some b
  | JNull => Some cur
  | _ => None
  end.

Definition dec_float (v : json) (cur : float) : option float :=
  match v with
  | JNum lit => ParseFloatLit lit
  | JNull => Some cur
  | _ => None
  end.

(** A pointer to a value: [null] makes it nil. *)
Definition dec_ptr {A} (zero : A) (dec : json -> A -> option A) (v : json) (cur : option A)
    : option (option A) :=
  match v with
  | JNull => Some None
  | _ => Some <$> dec v (default zero cur)
  end.

(** A slice; [null] makes it nil, an array replaces it. *)
Fixpoint dec_all {A} (zero : A) (dec : json -> A -> option A) (l : list json) : option (list A) :=
  match l with
  | [] => Some []
  | v :: l => match dec v zero, dec_all zero dec l with
              | Some x, Some r => Some (x :: r)
              | _, _ => None
              end
  end.

Definition dec_slice {A} (zero : A) (dec : json -> A -> option A) (v : json) : option (list A) :=
  match v with
  | JArr l => dec_all zero dec l
  | JNull => Some []
  | _ => None
  end.

(** ** Structs *)

(** A field: its name and the decoding of a member into the struct. *)
Definition field (T : Type) : Type := (string * (json -> T -> option T))%type.

Definition mkField {T A} (name : string) (get : T -> A) (dec : json -> A -> option A)
    (set : A -> T -> T) : field T :=
  (name, fun v t => (fun a => set a t) <$> dec v (get t)).

(** Member names match a field exactly or, failing that, up to case: letters
    fold to upper case, U+017F to S and U+212A to K. *)
Definition upper_byte (c : ascii) : ascii :=
  let b := byte_of c in if (97 <=? b) && (b <=? 122) then chr (b - 32) else c.

Fixpoint foldName (s : string) : string :=
  match s with
  | String a t =>
      match t with
      | String b u =>
          if (byte_of a =? 197) && (byte_of b =? 191) then String "S" (foldName u)
          else match u with
               | String c v =>
                   if (byte_of a =? 226) && (byte_of b =? 132) && (byte_of c =? 170)
                   then String "K" (foldName v)
                   else String (upper_byte a) (foldName t)
               | EmptyString => String (upper_byte a) (foldName t)
               end
      | EmptyString => String (upper_byte a) ""
      end
  | EmptyString => ""
  end.

Definition find_field {T} (fs : list (field T)) (k : string) : option (json -> T -> option T) :=
  match List.find (fun f => fst f =?s k) fs with
  | Some f => Some (snd f)
  | None => snd <$> List.find (fun f => foldName (fst f) =?s foldName k) fs
  end.

Definition dec_members {T} (fs : list (field T)) : list (string * json) -> T -> option T :=
  fix go m t :=
    match m with
    | [] => Some t
    | (k, v) :: m => match find_field fs k with
                     | None => go m t
                     | Some d => match d v t with
                                 | Some t' => go m t'
                                 | None => None
                                 end
                     end
    end.

Definition dec_struct {T} (fs : list (field T)) (v : json) (cur : T) : option T :=
  match v with
  | JObj m => dec_members fs m cur
  | JNull => Some cur
  | _ => None
  end.

(** [json.Unmarshal(raw, &x)] of a raw message. *)
Definition unmarshal_raw {A} (dec : json -> A -> option A) (raw : option json) (zero : A) : option A :=
  match raw with
  | None => None
  | Some v => dec v zero
  end.

(** [json.Unmarshal(b, &x)] of a text. *)
Definition unmarshal {A} (dec : json -> A -> option A) (b : string) (zero : A) : option A :=
  unmarshal_raw dec (parse b) zero.

(** ** Encoding *)

Definition enc_int (z : Z) : json := JNum (Itoa z).

(** A member that is left out when its value is empty ([omitempty]). *)
Definition omitempty (k s : string) : list (string * json) :=
  if s =?s "" then [] else [(k, JStr s)].

Lemma span_digits_all s rest :
  all_digits s -> match rest with String c _ => digit_of c = None | _ => True end ->
  span_digits (s +:+ rest) = (s, rest).
Proof.
  intros Hs Hr. induction s as [|c s IH].
  - rewrite str_app_nil_l. destruct rest as [|c rest]; [done|]. cbn [span_digits]. by rewrite Hr.
  - rewrite str_app_cons. cbn [span_digits].
    assert (digit_of c <> None) as Hc.
    { apply Hs. rewrite ContainsByte_cons, Ascii.eqb_refl. done. }
    destruct (digit_of c); [|done]. rewrite IH; [done|].
    intros d Hd. apply Hs. rewrite ContainsByte_cons, Hd. apply orb_true_r.
Qed.

Lemma scan_int_go z :
  0 <= z < 10 ^ 20 -> scan_int (itoa_go 20 z "") = Some (itoa_go 20 z "", "").
Proof.
  intros Hz. destruct (decide (z = 0)) as [->|Hne]; [reflexivity|].
  destruct (itoa_go_head 20 z "") as (c & t & Hs & Hc & H0); [simpl Z.of_nat; lia|].
  assert (all_digits (itoa_go 20 z "")) as Hd by (apply itoa_go_digits; by intros ?).
  rewrite Hs in *. cbn [scan_int]. apply Ascii.eqb_neq in H0 as ->.
  pose proof (span_digits_all (String c t) "" Hd I) as Hsp. rewrite str_app_nil_r in Hsp.
  by rewrite Hsp.
Qed.

(** A printed integer is a JSON literal and decodes to itself. *)
Lemma is_num_Itoa z : in_int64 z = true -> is_num (Itoa z) = true.
Proof.
  rewrite in_int64_spec. unfold int64_min, int64_max, is_num, Itoa. intros Hz.
  destruct (z <? 0) eqn:E; bool_facts.
  - unfold scan_num. rewrite Ascii.eqb_refl, scan_int_go by lia.
    change (scan_frac "") with (Some ("", "")). cbv beta iota.
    change (scan_exp "") with (Some ("", "")). cbv beta iota.
    rewrite !str_app_nil_r. change ("-" +:+ itoa_go 20 (- z) "") with (String "-" (itoa_go 20 (- z) "")).
    by rewrite String.eqb_refl.
  - assert (exists c t, itoa_go 20 z "" = String c t /\ c <> "-"%char) as (c & t & Hs & Hc).
    { destruct (itoa_go 20 z "") as [|c t] eqn:Hi.
      - exfalso. apply (itoa_go_nonempty 20 z ""); [right; lia|done].
      - exists c, t. split; [done|]. intros ->.
        assert (all_digits (itoa_go 20 z "")) as Hd by (apply itoa_go_digits; by intros ?).
        rewrite Hi in Hd. by apply (Hd "-"%char). }
    pose proof (scan_int_go z ltac:(lia)) as Hg. rewrite Hs in *. unfold scan_num.
    apply Ascii.eqb_neq in Hc as ->. rewrite Hg. change (scan_frac "") with (Some ("", "")).
    cbv beta iota. change (scan_exp "") with (Some ("", "")). cbv beta iota.
    by rewrite !str_app_nil_r, str_app_nil_l, String.eqb_refl.
Qed.

Lemma Atoi_Itoa_int64 z : in_int64 z = true -> Atoi (Itoa z) = Some z.
Proof.
  intros Hz. pose proof (proj1 (in_int64_spec z) Hz) as Hr.
  destruct (decide (0 <= z)); [apply Atoi_Itoa; unfold int64_min in Hr; lia|].
  unfold int64_min in Hr. unfold Itoa. rewrite (proj2 (Z.ltb_lt z 0)) by lia.
  unfold Atoi. rewrite Ascii.eqb_refl.
  assert (itoa_go 20 (- z) "" <> "") as Hne by (apply itoa_go_nonempty; right; lia).
  apply String.eqb_neq in Hne. rewrite Hne, itoa_go_val; [|simpl Z.of_nat; lia].
  cbn [digits_val]. by rewrite Z.opp_involutive, Hz.
Qed.

Lemma dec_int_enc z cur : in_int64 z = true -> dec_int (enc_int z) cur = Some z.
Proof. apply Atoi_Itoa_int64. Qed.

#[export] Hint Resolve is_num_Itoa dec_int_enc : gows.

(** ** Documents the wire leaves alone *)

(** A document the wire leaves alone: its numbers are literals, its strings
    are UTF-8 and it is not nested too deeply. *)
Definition wire_clean (v : json) : Prop :=
  wf_json v = true /\ jclean v = v /\ jdepth v < maxNestingDepth.

Lemma valid_utf8_ascii s : is_ascii s = true -> valid_utf8 s = true.
Proof.
  unfold valid_utf8. induction s as [|c s IH]; [done|]. cbn [is_ascii]. intros H. bool_facts.
  cbn [String.length valid_utf8_go]. rewrite rune_len_ascii by done. cbn [str_drop]. auto.
Qed.

(** A flat member of an object, as the program's structs have them. *)
Definition clean_member (kv : string * json) : bool :=
  match snd kv with
  | JStr s => valid_utf8 s && valid_utf8 (fst kv)
  | JNum l => is_num l && valid_utf8 (fst kv)
  | JBool _ => valid_utf8 (fst kv)
  | _ => false
  end.

Lemma wire_clean_obj m :
  forallb clean_member m = true ->
  wire_clean (JObj m).
Proof.
  intros H. split_and!.
  - cbn [wf_json]. rewrite forallb_forall in H |- *. intros [k v] Hin. apply H in Hin. unfold clean_member in Hin. simpl in *.
    destruct v; bool_facts; done.
  - cbn [jclean]. f_equal. induction m as [|[k v] m IH]; [done|].
    cbn [forallb map fst snd] in *. bool_facts. rewrite IH by done. f_equal. unfold clean_member in *.
    cbn [fst snd] in *.
    destruct v; bool_facts; try done; cbn [jclean]; by rewrite !utf8_clean_id.
  - cbn [jdepth]. assert (foldr (fun kv d => Z.max (jdepth (snd kv)) d) 0 m = 0) as ->; [|done].
    induction m as [|[k v] m IH]; [done|]. cbn [forallb foldr fst snd] in *. bool_facts.
    rewrite IH by done. unfold clean_member in *. by destruct v.
Qed.

Lemma omitempty_clean k s :
  valid_utf8 k = true -> valid_utf8 s = true ->
  forallb clean_member (omitempty k s) = true.
Proof. intros Hk Hs. unfold omitempty, clean_member. destruct (s =?s ""); [done|]. simpl. by rewrite Hk, Hs. Qed.

Ltac clean_members :=
  apply wire_clean_obj; unfold enc_int; rewrite ?forallb_app; cbn [forallb app];
  rewrite ?omitempty_clean by done; unfold clean_member; cbn [snd fst];
  rewrite ?is_num_Itoa by done;
  repeat match goal with H : valid_utf8 _ = true |- _ => rewrite H; clear H end; reflexivity.

(** Parsing a printed clean document gives it back. *)
Lemma parse_print_clean v : wire_clean v -> parse (print v) = Some v.
Proof. intros (Hw & Hc & Hd). rewrite parse_print by (done || lia). by rewrite Hc. Qed.
