(* ===== verification/GoFloat.v ===== *)
(** * Printing binary64 (strconv.AppendFloat as encoding/json calls it)

    [strconv] prints a float with the smallest number of digits from which
    [ParseFloat] gives back the same float; encoding/json takes the decimal
    notation for sizes in [1e-6..1e21) and scientific notation outside. *)

From S2P Require Import Prelude GoStrings GoTime Json JsonDecode.
From Stdlib Require Import Floats.SpecFloat.

(** ** Notation *)

Fixpoint zeros (n : nat) : string := match n with O => "" | S n => String "0" (zeros n) end.

(** Digits without the zeros at their end. *)
Fixpoint trim_zeros (s : string) : string :=
  match s with
  | EmptyString => ""
  | String c t => match trim_zeros t with
                  | EmptyString => if Ascii.eqb c "0"%char then "" else String c ""
                  | t' => String c t'
                  end
  end.

(** The digits of a mantissa; a float's exact value has less than 800. *)
Definition mantissa_digits (c : Z) : string := itoa_go 1500 c "".

(** [0.ds * 10^dp], in decimal notation, *)
Definition fixed_text (ds : string) (dp : Z) : string :=
  let n := Z.to_nat dp in
  (if 0 <? dp then str_take n ds +:+ zeros (n - String.length ds) else "0")
  +:+ (if dp <? len ds then String "." (zeros (Z.to_nat (- dp)) +:+ str_drop n ds) else "").

(** and in scientific notation; encoding/json drops the zero that [strconv] puts
    before an exponent of one digit. *)
Definition exp_text (ds : string) (dp : Z) : string :=
  let x := dp - 1 in
  str_take 1 ds +:+ (if 1 <? len ds then String "." (str_drop 1 ds) else "")
  +:+ String "e" (String (if x <? 0 then "-"%char else "+"%char) (Itoa (Z.abs x))).

(** The text of [c * 10^-k]. *)
Definition decimal_text (sci : bool) (c k : Z) : string :=
  let ds := mantissa_digits c in
  (if sci then exp_text else fixed_text) (trim_zeros ds) (len ds - k).

(** ** The shortest digits *)

(** The value of a float as a quotient, and its decimal point: a [dp] with
    [10^(dp-1) <= v < 10^dp]. *)
Definition float_ratio (m : positive) (e : Z) : Z * Z :=
  if 0 <=? e then (Zpos m * 2 ^ e, 1) else (Zpos m, 2 ^ (- e)).

Definition scale10 (nd : Z * Z) (k : Z) : Z * Z :=
  let (n, d) := nd in if 0 <=? k then (n * 10 ^ k, d) else (n, d * 10 ^ (- k)).

Definition decimal_point (m : positive) (e : Z) : Z :=
  let l := Z.log2 (Zpos m) + e in
  let est := l * (if 0 <=? l then 30102 else 30103) / 100000 in
  let below p := let (n, d) := scale10 (float_ratio m e) (- p) in n <? d in
  if below est then est else if below (est + 1) then est + 1 else est + 2.

Definition same_float (f g : float) : bool :=
  match f, g with
  | S754_finite s m e, S754_finite s' m' e' => Bool.eqb s s' && Pos.eqb m m' && (e =? e')
  | _, _ => false
  end.

Definition reads_as (text : string) (f : float) : bool :=
  match ParseFloatLit text with Some g => same_float g f | None => false end.

(** Try the two decimals with [k] places around the value; of two that read
    back, the nearer, or the even one. *)
Fixpoint shortest (fuel : nat) (sci : bool) (m : positive) (e k : Z) : string :=
  match fuel with
  | O => ""
  | S fuel =>
      let (n, d) := scale10 (float_ratio m e) k in
      let c := n / d in
      let r := n mod d in
      let ok c := (0 <? c) && reads_as (decimal_text sci c k) (S754_finite false m e) in
      match ok c, ok (c + 1) with
      | true, true => decimal_text sci (if (2 * r <? d) || ((2 * r =? d) && Z.even c) then c else c + 1) k
      | true, false => decimal_text sci c k
      | false, true => decimal_text sci (c + 1) k
      | false, false => shortest fuel sci m e (k + 1)
      end
  end.

Definition finite_text (m : positive) (e : Z) : string :=
  let f := S754_finite false m e in
  let sci := SFltb f (decimal_float 1 (-6)) || SFleb (decimal_float 1 21) f in
  shortest 1500 sci m e (1 - decimal_point m e).

(** [None] is the error of a value that JSON has no number for. *)
Definition json_float (f : float) : option string :=
  match f with
  | S754_zero s => Some (if s then "-0" else "0")
  | S754_finite s m e => Some ((if s then "-" else "") +:+ finite_text m e)
  | _ => None
  end.

(** [json.Marshal] of a float. *)
Definition enc_float (f : float) : option json := JNum <$> json_float f.

Example json_float_samples :
  json_float (decimal_float 1 (-1)) = Some "0.1"
  /\ json_float (float_of_Z 1700000000120) = Some "1700000000120"
  /\ json_float (SFopp (decimal_float 15 20)) = Some "-1.5e+21"
  /\ json_float (decimal_float 99 19) = Some "990000000000000000000"
  /\ json_float (decimal_float 123 (-9)) = Some "1.23e-7"
  /\ json_float (decimal_float 123 (-8)) = Some "0.00000123"
  /\ json_float (S754_finite false 1 (-1074)) = Some "5e-324"
  /\ json_float (S754_finite false 9007199254740991 971) = Some "1.7976931348623157e+308"
  /\ json_float (S754_finite false 4503599627370496 (-52)) = Some "1"
  /\ json_float (fdiv (float_of_Z 200) (float_of_Z 3)) = Some "66.66666666666667"
  /\ json_float (S754_finite false 4503599627370496 (-96)) = Some "5.684341886080802e-14".
Proof. vm_compute. repeat split. Qed.

(** ** Lemmas: digits *)

Definition dval (s : string) : Z := default 0 (digits_val s 0).

Lemma all_digits_inv c s : all_digits (String c s) -> digit_of c <> None /\ all_digits s.
Proof.
  intros H. split.
  - apply H. by rewrite ContainsByte_cons, Ascii.eqb_refl.
  - intros d Hd. apply H. rewrite ContainsByte_cons, Hd. apply orb_true_r.
Qed.

Lemma all_digits_nil : all_digits "".
Proof. by intros c. Qed.

Lemma all_digits_app s t : all_digits s -> all_digits t -> all_digits (s +:+ t).
Proof.
  intros Hs Ht. induction s as [|c s IH]; [done|]. apply all_digits_inv in Hs as [Hc Hs].
  rewrite str_app_cons. apply all_digits_cons; auto.
Qed.

Lemma all_digits_split n s : all_digits s -> all_digits (str_take n s) /\ all_digits (str_drop n s).
Proof.
  revert n; induction s as [|c s IH]; intros [|n] H; try by split.
  apply all_digits_inv in H as [Hc Hs]. destruct (IH n Hs) as [H1 H2]. split; [by apply all_digits_cons|done].
Qed.

Lemma all_digits_zeros n : all_digits (zeros n).
Proof. induction n as [|n IH]; [apply all_digits_nil|by apply all_digits_cons]. Qed.

Lemma len_cons c s : len (String c s) = len s + 1.
Proof. unfold len. cbn [String.length]. lia. Qed.

Lemma len_zeros n : len (zeros n) = Z.of_nat n.
Proof. induction n as [|n IH]; [done|]. cbn [zeros]. rewrite len_cons, IH. lia. Qed.

Lemma digits_val_acc s a : all_digits s -> digits_val s a = Some (a * 10 ^ len s + dval s).
Proof.
  unfold dval. revert a. induction s as [|c s IH]; intros a H.
  { cbn. f_equal. change (10 ^ len "") with 1. lia. }
  apply all_digits_inv in H as [Hc Hs]. cbn [digits_val]. destruct (digit_of c) as [d|]; [|done].
  rewrite (IH (a * 10 + d) Hs), (IH (0 * 10 + d) Hs), len_cons, Z.pow_add_r by (unfold len; lia).
  cbn [default from_option id]. f_equal. lia.
Qed.

Lemma dval_app s t : all_digits s -> all_digits t -> dval (s +:+ t) = dval s * 10 ^ len t + dval t.
Proof.
  intros Hs Ht. unfold dval at 1.
  assert (forall a, digits_val (s +:+ t) a = digits_val t (a * 10 ^ len s + dval s)) as H.
  { clear Ht. unfold dval. induction s as [|c s IH]; intros a.
    - rewrite str_app_nil_l. f_equal. change (10 ^ len "") with 1. cbn. lia.
    - apply all_digits_inv in Hs as [Hc Hs]. rewrite str_app_cons. cbn [digits_val].
      destruct (digit_of c) as [d|]; [|done]. rewrite (IH Hs), (digits_val_acc s (0 * 10 + d) Hs).
      rewrite len_cons, Z.pow_add_r by (unfold len; lia). cbn [default from_option id]. f_equal. unfold dval. lia. }
  rewrite H, digits_val_acc by done. cbn [default from_option id]. lia.
Qed.

Lemma dval_zeros n : dval (zeros n) = 0.
Proof. unfold dval. induction n as [|n IH]; [done|]. exact IH. Qed.

(** Digits without a leading zero, and the range of their value. *)
Definition leading (s : string) : Prop :=
  all_digits s /\ match s with String c _ => c <> "0"%char | EmptyString => False end.

Lemma dval_bound s : all_digits s -> 0 <= dval s < 10 ^ len s.
Proof.
  induction s as [|c s IH]; intros H; [by vm_compute|]. apply all_digits_inv in H as [Hc Hs].
  specialize (IH Hs). unfold dval. cbn [digits_val]. destruct (digit_of c) as [d|] eqn:Ed; [|done].
  rewrite digits_val_acc, len_cons, Z.pow_add_r by (done || unfold len; lia). cbn [default from_option id].
  assert (0 <= d <= 9) as Hd.
  { unfold digit_of in Ed. destruct (_ && _) eqn:E; [|done]. bool_facts. injection Ed as <-. lia. }
  nia.
Qed.

Lemma leading_bound s : leading s -> 10 ^ (len s - 1) <= dval s < 10 ^ len s.
Proof.
  intros [Ha Hl]. split; [|by apply dval_bound]. destruct s as [|c s]; [done|].
  apply all_digits_inv in Ha as [Hc Hs]. pose proof (dval_bound s Hs) as Hb. unfold dval. cbn [digits_val].
  destruct (digit_of c) as [d|] eqn:Ed; [|done]. rewrite digits_val_acc, len_cons by done. cbn [default from_option id].
  assert (1 <= d) as Hd.
  { unfold digit_of in Ed. destruct (_ && _) eqn:E; [|done]. bool_facts. injection Ed as <-.
    assert (byte_of c <> 48); [|lia]. intros H48. apply Hl. by apply byte_of_inj. }
  replace (len s + 1 - 1) with (len s) by lia. nia.
Qed.

Lemma trim_zeros_app s : all_digits s -> exists n, s = trim_zeros s +:+ zeros n.
Proof.
  induction s as [|c s IH]; intros H; [by exists 0%nat|]. apply all_digits_inv in H as [_ Hs].
  destruct (IH Hs) as [n Hn]. cbn [trim_zeros]. destruct (trim_zeros s) as [|d t] eqn:E.
  - destruct (Ascii.eqb_spec c "0"%char) as [->|]; [exists (S n)|exists n]; by rewrite Hn.
  - exists n. rewrite Hn. by rewrite !str_app_cons.
Qed.

(** ** Lemmas: the text of a decimal *)

(** A number by its parts. *)
Definition number_text (ip fp : string) (x : option Z) : string :=
  ip +:+ (if fp =?s "" then "" else String "." fp)
  +:+ match x with
      | Some x => String "e" (String (if x <? 0 then "-"%char else "+"%char) (Itoa (Z.abs x)))
      | None => ""
      end.

Definition integer_part (ip : string) : Prop := ip = "0" \/ leading ip.

Lemma span_exponent x :
  Z.abs x < 10 ^ 20 ->
  span_digits (Itoa (Z.abs x)) = (Itoa (Z.abs x), "") /\ digits_val (Itoa (Z.abs x)) 0 = Some (Z.abs x)
  /\ (Itoa (Z.abs x) =?s "") = false.
Proof.
  intros Hx. split_and!.
  - pose proof (span_digits_all (Itoa (Z.abs x)) "" (Itoa_digits _ (Z.abs_nonneg x)) I) as H. by rewrite str_app_nil_r in H.
  - unfold Itoa. destruct (Z.abs x <? 0) eqn:E; bool_facts; [lia|]. rewrite itoa_go_val; [done|]. change (Z.of_nat 20) with 20. lia.
  - apply String.eqb_neq, Itoa_nonempty.
Qed.

Lemma integer_digits ip : integer_part ip -> all_digits ip /\ exists c t, ip = String c t /\ digit_of c <> None.
Proof.
  intros [->|[Ha Hl]].
  - split; [by apply (all_digits_zeros 1)|by eexists _, _].
  - split; [done|]. destruct ip as [|c t]; [done|]. exists c, t. split; [done|]. by apply all_digits_inv in Ha as [].
Qed.

Definition exponent_ok (x : option Z) : Prop := match x with Some x => Z.abs x < 10 ^ 20 | None => True end.

(** What follows the integer part, and what follows the fraction. *)
Lemma split_number ip fp x :
  integer_part ip -> all_digits fp -> exponent_ok x ->
  split_num (number_text ip fp x) = (false, ip, fp, default 0 x).
Proof.
  intros Hip Hfp Hx. apply integer_digits in Hip as (Ha & c & t & -> & Hc). unfold split_num, number_text.
  rewrite str_app_cons. assert (Ascii.eqb c "-" = false) as ->.
  { apply Ascii.eqb_neq. intros ->. done. }
  assert (forall tl, match tl with String d _ => digit_of d = None | _ => True end ->
          span_digits (String c (t +:+ tl)) = (String c t, tl)) as Hsp.
  { intros tl Htl. by apply (span_digits_all (String c t)). }
  destruct (fp =?s "") eqn:Ef; bool_facts.
  - subst. rewrite str_app_nil_l, Hsp by (by destruct x). destruct x as [x|]; [|done].
    destruct (span_exponent x Hx) as (_ & Hv & _). cbn [Ascii.eqb]. destruct (x <? 0) eqn:Es; bool_facts; cbn [Ascii.eqb Bool.eqb];
      rewrite Hv; cbn [default from_option id]; do 2 f_equal; lia.
  - rewrite str_app_cons. rewrite Hsp by done. cbn [Ascii.eqb Bool.eqb].
    rewrite span_digits_all by (done || by destruct x). destruct x as [x|]; [|done].
    destruct (span_exponent x Hx) as (_ & Hv & _). destruct (x <? 0) eqn:Es; bool_facts; cbn [Ascii.eqb Bool.eqb];
      rewrite Hv; cbn [default from_option id]; do 2 f_equal; lia.
Qed.

Lemma is_num_number ip fp x neg :
  integer_part ip -> all_digits fp -> exponent_ok x ->
  is_num ((if neg : bool then "-" else "") +:+ number_text ip fp x) = true.
Proof.
  intros Hip Hfp Hx.
  assert (forall tl, match tl with String d _ => digit_of d = None | _ => True end ->
          scan_int (ip +:+ tl) = Some (ip, tl)) as Hint.
  { intros tl Htl. destruct Hip as [->|[Ha Hl]]; [reflexivity|]. destruct ip as [|c t]; [done|].
    rewrite str_app_cons. cbn [scan_int]. apply Ascii.eqb_neq in Hl. rewrite Hl, <- str_app_cons, span_digits_all by done. done. }
  assert (exists c t, number_text ip fp x = String c t /\ Ascii.eqb c "-" = false) as (c & t & Hn & Hc).
  { destruct (integer_digits ip Hip) as (_ & c & t & -> & Hc). exists c. eexists. split; [reflexivity|].
    apply Ascii.eqb_neq. by intros ->. }
  set (tail := match x with
               | Some x => String "e" (String (if x <? 0 then "-"%char else "+"%char) (Itoa (Z.abs x)))
               | None => ""
               end).
  assert (scan_exp tail = Some (tail, "")) as He.
  { unfold tail. destruct x as [x|]; [|done]. destruct (span_exponent x Hx) as (Hs & _ & Hne).
    destruct (x <? 0); cbn [scan_exp Ascii.eqb Bool.eqb orb]; rewrite Hs, Hne; done. }
  assert (scan_frac ((if fp =?s "" then "" else String "." fp) +:+ tail) = Some (if fp =?s "" then "" else String "." fp, tail)) as Hf.
  { destruct (fp =?s "") eqn:Ef.
    - rewrite str_app_nil_l. unfold tail. by destruct x.
    - rewrite str_app_cons. cbn [scan_frac Ascii.eqb Bool.eqb].
      rewrite span_digits_all by (done || (unfold tail; by destruct x)). by rewrite Ef. }
  assert (scan_num ((if neg then "-" else "") +:+ number_text ip fp x)
          = Some ((if neg then "-" else "") +:+ number_text ip fp x, "")) as Hs.
  { assert (forall u, u = number_text ip fp x -> scan_int u = Some (ip, (if fp =?s "" then "" else String "." fp) +:+ tail)) as Hi.
    { intros u ->. apply Hint. destruct (fp =?s ""); [unfold tail; by destruct x|done]. }
    destruct neg.
    - change ("-" +:+ number_text ip fp x) with (String "-" (number_text ip fp x)). unfold scan_num.
      cbn [Ascii.eqb Bool.eqb]. by rewrite Hi, Hf, He.
    - rewrite str_app_nil_l. unfold scan_num. rewrite Hn, Hc, <- Hn, Hi, Hf, He by done. done. }
  unfold is_num. rewrite Hs. by rewrite !String.eqb_refl.
Qed.

Definition mantissa_bound : Z := 10 ^ 1500.

Lemma mantissa_leading c : 0 < c < mantissa_bound -> leading (mantissa_digits c) /\ dval (mantissa_digits c) = c.
Proof.
  unfold mantissa_bound. intros Hc. change 1500 with (Z.of_nat 1500) in Hc. split; [split|].
  - apply itoa_go_digits, all_digits_nil.
  - destruct (itoa_go_head 1500 c "" Hc) as (d & t & He & _ & Hd). unfold mantissa_digits. by rewrite He.
  - unfold dval, mantissa_digits. rewrite itoa_go_val by lia. done.
Qed.

Lemma itoa_go_length fuel z acc :
  (String.length (itoa_go fuel z acc) <= fuel + String.length acc)%nat.
Proof.
  revert z acc; induction fuel as [|f IH]; intros z acc; cbn [itoa_go]; [lia|].
  destruct (z <? 10); cbn [String.length]; [lia|]. etransitivity; [apply IH|]. cbn [String.length]. lia.
Qed.

(** The digits of a mantissa, as those printed and the zeros at their end. *)
Lemma mantissa_trimmed c :
  0 < c < mantissa_bound ->
  exists t n, trim_zeros (mantissa_digits c) = t /\ leading t /\ c = dval t * 10 ^ Z.of_nat n
              /\ len (mantissa_digits c) = len t + Z.of_nat n /\ len t + Z.of_nat n <= 1500.
Proof.
  intros Hc. destruct (mantissa_leading c Hc) as [[Ha Hl] Hv]. destruct (trim_zeros_app _ Ha) as [n Hn].
  exists (trim_zeros (mantissa_digits c)), n. set (t := trim_zeros (mantissa_digits c)) in *.
  assert (all_digits t) as Hat.
  { rewrite <- (str_take_app t (zeros n)), <- Hn. by apply all_digits_split. }
  assert (c = dval t * 10 ^ Z.of_nat n) as Hd.
  { rewrite <- Hv, Hn, dval_app, dval_zeros, len_zeros by auto using all_digits_zeros. lia. }
  split_and!; [done| |done| |].
  - split; [done|]. destruct t as [|d t]; [cbn in Hd; lia|]. intros ->. rewrite Hn in Hl. by apply Hl.
  - rewrite Hn at 1. by rewrite len_app, len_zeros.
  - pose proof (itoa_go_length 1500 c "") as Hlen. rewrite <- len_zeros, <- len_app, <- Hn. unfold len, mantissa_digits.
    cbn [String.length] in Hlen. lia.
Qed.

Lemma leading_take s n : leading s -> (0 < n)%nat -> leading (str_take n s).
Proof.
  intros [Ha Hl] Hn. destruct n as [|n]; [lia|]. split; [by apply all_digits_split|]. by destruct s.
Qed.

Lemma leading_app s t : leading s -> all_digits t -> leading (s +:+ t).
Proof. intros [Ha Hl] Ht. split; [by apply all_digits_app|]. by destruct s. Qed.

Lemma dval_split n s : all_digits s -> dval (str_take n s +:+ str_drop n s) = dval s.
Proof. intros _. by rewrite str_take_drop. Qed.

Lemma len_drop n s : (n <= String.length s)%nat -> len (str_drop n s) = len s - Z.of_nat n.
Proof. intros Hn. unfold len. rewrite str_length_drop. lia. Qed.

(** A decimal's text has the decimal's value. *)
Lemma decimal_text_number sci c k :
  0 < c < mantissa_bound -> Z.abs k <= 2000 ->
  exists ip fp x i j, decimal_text sci c k = number_text ip fp x
    /\ integer_part ip /\ all_digits fp /\ exponent_ok x /\ 0 <= i /\ 0 <= j
    /\ c * 10 ^ j = dval (ip +:+ fp) * 10 ^ i /\ default 0 x - len fp = i - j - k.
Proof.
  intros Hc Hk. unfold decimal_text. destruct (mantissa_trimmed c Hc) as (t & n & Ht & Hlead & Hd & Hlen & Hn).
  rewrite Ht, Hlen. set (dp := len t + Z.of_nat n - k). pose proof Hlead as [Ha Hne].
  assert (1 <= len t) as Ht1 by (destruct t; [done|rewrite len_cons; unfold len; lia]).
  destruct sci; [|unfold fixed_text; destruct (Z.ltb_spec 0 dp) as [H0|H0]; [destruct (Z.ltb_spec dp (len t)) as [H1|H1]|]].
  - exists (str_take 1 t), (str_drop 1 t), (Some (dp - 1)), (Z.of_nat n), 0.
    assert (len (str_drop 1 t) = len t - 1) as Hl by (apply len_drop; unfold len in *; lia).
    split_and!; [|right; apply leading_take; [done|lia]|by apply all_digits_split| |lia|lia| |].
    + unfold exp_text, number_text.
      assert ((1 <? len t) = negb (str_drop 1 t =?s "")) as ->; [|by destruct (str_drop 1 t =?s "")].
      destruct (str_drop 1 t) as [|d u]; [change (len "") with 0 in Hl; apply Z.ltb_ge; lia|].
      rewrite len_cons in Hl. apply Z.ltb_lt. pose proof (len_nonneg u). lia.
    + cbn. lia.
    + rewrite dval_split by done. lia.
    + cbn [default from_option id]. rewrite Hl. lia.
  - set (p := Z.to_nat dp). exists (str_take p t), (str_drop p t), None, (Z.of_nat n), 0.
    assert (len (str_drop p t) = len t - dp) as Hl by (rewrite len_drop; unfold len in *; lia).
    split_and!; [|right; apply leading_take; [done|lia]|by apply all_digits_split|done|lia|lia| |].
    + assert (Z.to_nat (- dp) = 0%nat /\ (p - String.length t = 0)%nat) as [-> ->] by (unfold len in *; lia).
      unfold number_text. cbn [zeros]. rewrite !str_app_nil_r, str_app_nil_l.
      destruct (str_drop p t =?s "") eqn:E; bool_facts; [|done]. rewrite E in Hl. change (len "") with 0 in Hl. lia.
    + rewrite dval_split by done. lia.
    + cbn [default from_option id]. rewrite Hl. lia.
  - set (p := Z.to_nat dp). exists (t +:+ zeros (p - String.length t)), "", None, (Z.of_nat n), (dp - len t).
    assert (Z.of_nat (p - String.length t) = dp - len t) as Hp by (unfold len in *; lia).
    split_and!; [|right; apply leading_app; [done|apply all_digits_zeros]|apply all_digits_nil|done|lia|lia| |].
    + rewrite str_take_short by (unfold len in *; lia). unfold number_text. by rewrite !str_app_nil_r.
    + rewrite str_app_nil_r, dval_app, dval_zeros, len_zeros, Hp, Hd by auto using all_digits_zeros. lia.
    + change (len "") with 0. cbn [default from_option id]. lia.
  - exists "0", (zeros (Z.to_nat (- dp)) +:+ t), None, (Z.of_nat n), 0.
    split_and!; [|by left|by apply all_digits_app; [apply all_digits_zeros|]|done|lia|lia| |].
    + assert (Z.to_nat dp = 0%nat) as -> by lia. rewrite (proj2 (Z.ltb_lt _ _)) by lia. unfold number_text.
      rewrite str_app_nil_r. destruct (zeros _ +:+ t =?s "") eqn:E; bool_facts; [|by destruct t].
      apply (f_equal len) in E. rewrite len_app in E. change (len "") with 0 in E. unfold len in *. lia.
    + assert (dval ("0" +:+ zeros (Z.to_nat (- dp)) +:+ t) = dval t) as ->; [|lia].
      change ("0" +:+ zeros (Z.to_nat (- dp)) +:+ t) with (zeros (S (Z.to_nat (- dp))) +:+ t).
      rewrite dval_app, dval_zeros by auto using all_digits_zeros. lia.
    + rewrite len_app, len_zeros. cbn [default from_option id]. lia.
Qed.

Lemma len_take n s : len (str_take n s) <= len s.
Proof. unfold len. rewrite str_length_take. lia. Qed.

Lemma len_drop_le n s : len (str_drop n s) <= len s.
Proof. unfold len. rewrite str_length_drop. lia. Qed.

Lemma len_Itoa_abs x : len (Itoa (Z.abs x)) <= 20.
Proof.
  unfold Itoa. destruct (Z.abs x <? 0) eqn:E; bool_facts; [lia|].
  pose proof (itoa_go_length 20 (Z.abs x) "") as Hl. unfold len. cbn [String.length] in Hl. lia.
Qed.

Lemma decimal_text_length sci c k : 0 < c < mantissa_bound -> Z.abs k <= 2000 -> len (decimal_text sci c k) <= 10000.
Proof.
  intros Hc Hk. unfold decimal_text. destruct (mantissa_trimmed c Hc) as (t & n & -> & _ & _ & Hlen & Hn). rewrite Hlen.
  pose proof (len_nonneg t) as H0. set (dp := len t + Z.of_nat n - k). destruct sci.
  - unfold exp_text. rewrite !len_app, !len_cons. pose proof (len_Itoa_abs (dp - 1)). pose proof (len_take 1 t).
    pose proof (len_drop_le 1 t). destruct (1 <? len t); rewrite ?len_cons; change (len "") with 0; lia.
  - unfold fixed_text. rewrite len_app. pose proof (len_take (Z.to_nat dp) t). pose proof (len_drop_le (Z.to_nat dp) t).
    destruct (0 <? dp), (dp <? len t); rewrite ?len_app, ?len_cons, ?len_app, ?len_zeros; change (len "") with 0; change (len "0") with 1; lia.
Qed.

(** ** Lemmas: exact values *)

Lemma digits2_log2 p : Zpos (digits2_pos p) = Z.log2 (Zpos p) + 1.
Proof.
  induction p as [p IH|p IH|]; cbn [digits2_pos].
  - rewrite Pos2Z.inj_succ, IH. change (Zpos p~1) with (2 * Zpos p + 1).
    rewrite Z.log2_succ_double by lia. lia.
  - rewrite Pos2Z.inj_succ, IH. change (Zpos p~0) with (2 * Zpos p).
    rewrite Z.log2_double by lia. lia.
  - reflexivity.
Qed.

Lemma iter_xO k p : Zpos (Pos.iter xO p k) = Zpos p * 2 ^ Zpos k.
Proof.
  revert p; induction k as [|k IH] using Pos.peano_ind; intros p.
  - cbn. lia.
  - rewrite Pos.iter_succ. change (Zpos (Pos.iter xO p k)~0) with (2 * Zpos (Pos.iter xO p k)).
    rewrite IH, Pos2Z.inj_succ, Z.pow_succ_r by lia. lia.
Qed.

Definition exact_record (m : Z) : shr_record := {| shr_m := m; shr_r := false; shr_s := false |}.

Lemma iter_pos_iter {A} (f : A -> A) n x : iter_pos f n x = Pos.iter f x n.
Proof.
  revert x; induction n as [n IH|n IH|]; intros x; cbn [iter_pos Pos.iter]; [|by rewrite !IH|done].
  by rewrite !IH, !Pos.iter_swap.
Qed.

Lemma shr_exact p d : Pos.iter shr_1 (exact_record (Zpos (Pos.iter xO p d))) d = exact_record (Zpos p).
Proof.
  revert p; induction d as [|d IH] using Pos.peano_ind; intros p; [done|].
  rewrite Pos.iter_succ_r, Pos.iter_succ. exact (IH p).
Qed.

Definition canonical64 (m : positive) (e : Z) : Prop := fexp 53 1024 (Zpos (digits2_pos m) + e) = e /\ e <= 971.

Lemma bounded_canonical m e : bounded 53 1024 m e = true <-> canonical64 m e.
Proof.
  unfold bounded, canonical_mantissa, canonical64. rewrite andb_true_iff, Z.eqb_eq, Z.leb_le. done.
Qed.

Lemma canonical_range m e : canonical64 m e -> -1074 <= e <= 971 /\ 0 <= Z.log2 (Zpos m) < 53.
Proof.
  unfold canonical64, fexp, emin. rewrite digits2_log2. pose proof (Z.log2_nonneg (Zpos m)). lia.
Qed.

(** Rounding leaves a canonical value alone, however it is given. *)
Lemma round_aux_exact p m e d :
  canonical64 m e -> 0 <= d -> Zpos p = Zpos m * 2 ^ d ->
  binary_round_aux 53 1024 false (Zpos p) (e - d) loc_Exact = S754_finite false m e.
Proof.
  intros [Hf He] Hd Hp. assert (Zpos (digits2_pos p) = Zpos (digits2_pos m) + d) as Hdig.
  { rewrite !digits2_log2, Hp, Z.log2_mul_pow2; lia. }
  assert (binary_round_aux 53 1024 false (Zpos p) (e - d) loc_Exact
          = (let '(mrs, e') := (exact_record (Zpos m), e) in
             let '(mrs'', e'') := shr_fexp 53 1024 (round_nearest_even (shr_m mrs) (loc_of_shr_record mrs)) e' loc_Exact in
             match shr_m mrs'' with
             | 0 => S754_zero false
             | Zpos m => if e'' <=? 971 then S754_finite false m e'' else S754_infinity false
             | _ => S754_nan
             end)) as ->.
  { unfold binary_round_aux at 1, shr_fexp at 1. cbn [Zdigits2].
    replace (Zpos (digits2_pos p) + (e - d)) with (Zpos (digits2_pos m) + e) by lia. rewrite Hf.
    replace (e - (e - d)) with d by lia. destruct d as [|d|d]; [| |lia].
    - cbn [shr shr_record_of_loc]. replace (Zpos p) with (Zpos m) by lia. replace (e - 0) with e by lia. done.
    - cbn [shr shr_record_of_loc]. rewrite <- iter_xO in Hp. injection Hp as ->.
      change {| shr_m := Zpos (Pos.iter xO m d); shr_r := false; shr_s := false |}
        with (exact_record (Zpos (Pos.iter xO m d))).
      rewrite iter_pos_iter, shr_exact. replace (e - Zpos d + Zpos d) with e by lia. done. }
  cbn [shr_m exact_record loc_of_shr_record round_nearest_even]. unfold shr_fexp. cbn [Zdigits2]. rewrite Hf.
  replace (e - e) with 0 by lia. cbn [shr shr_record_of_loc shr_m]. by rewrite (proj2 (Z.leb_le e 971)).
Qed.

Lemma normalize_exact_left p m e d :
  canonical64 m e -> 0 <= d -> p = Zpos m * 2 ^ d -> binary_normalize 53 1024 p (e - d) false = S754_finite false m e.
Proof.
  intros Hc Hd Hp. destruct p as [|p|p]; [lia| |lia]. cbn [binary_normalize]. unfold binary_round.
  assert (Zpos (digits2_pos p) = Zpos (digits2_pos m) + d) as Hdig.
  { rewrite !digits2_log2, Hp, Z.log2_mul_pow2; lia. }
  replace (Zpos (digits2_pos p) + (e - d)) with (Zpos (digits2_pos m) + e) by lia. rewrite (proj1 Hc).
  unfold shl_align. replace (e - (e - d)) with d by lia. destruct d; [|by apply round_aux_exact|lia].
  by apply round_aux_exact.
Qed.

Lemma normalize_exact_right p m e d :
  canonical64 m e -> 0 <= d -> p * 2 ^ d = Zpos m -> binary_normalize 53 1024 p (e + d) false = S754_finite false m e.
Proof.
  intros Hc Hd Hp. destruct (decide (d = 0)) as [->|Hne].
  { pose proof (normalize_exact_left p m e 0 Hc ltac:(lia) ltac:(lia)) as H. rewrite Z.sub_0_r in H. by rewrite Z.add_0_r. }
  destruct p as [|p|p]; [lia| |nia]. cbn [binary_normalize]. unfold binary_round.
  assert (Zpos (digits2_pos m) = Zpos (digits2_pos p) + d) as Hdig.
  { rewrite !digits2_log2, <- Hp, Z.log2_mul_pow2; lia. }
  replace (Zpos (digits2_pos p) + (e + d)) with (Zpos (digits2_pos m) + e) by lia. rewrite (proj1 Hc).
  unfold shl_align. destruct d as [|d|d]; [done| |lia]. replace (e - (e + Zpos d)) with (Zneg d) by lia.
  pose proof (round_aux_exact (Pos.iter xO p d) m e 0 Hc ltac:(lia)) as H. rewrite Z.sub_0_r in H.
  apply H. rewrite iter_xO. lia.
Qed.

Lemma float_ratio_pos m e : 0 < fst (float_ratio m e) /\ 0 < snd (float_ratio m e).
Proof. unfold float_ratio. destruct (0 <=? e) eqn:E; bool_facts; cbn [fst snd]; lia. Qed.

(** A decimal with a float's exact value is read as that float. *)
Lemma decimal_float_exact m e M x :
  canonical64 m e -> 0 < M ->
  (0 <= x -> fst (float_ratio m e) = snd (float_ratio m e) * (M * 10 ^ x)) ->
  (x < 0 -> fst (float_ratio m e) * 10 ^ (- x) = snd (float_ratio m e) * M) ->
  decimal_float M x = S754_finite false m e.
Proof.
  intros Hc HM H1 H2. pose proof (canonical_range m e Hc) as [He Hl]. unfold decimal_float, float_ratio in *.
  destruct (0 <=? x) eqn:Ex; bool_facts.
  - specialize (H1 Ex). unfold float_of_Z. destruct (0 <=? e) eqn:Ee; bool_facts; cbn [fst snd] in H1.
    + replace 0 with (e - e) by lia. apply normalize_exact_left; [done|lia|lia].
    + replace 0 with (e + - e) by lia. apply normalize_exact_right; [done|lia|lia].
  - specialize (H2 Ex). set (d := 10 ^ (- x)) in *. assert (0 < d) as Hd by (unfold d; lia).
    set (k := Z.max 0 (66 + Z.log2 d - Z.log2 M)).
    assert (0 <= k + e /\ M * 2 ^ k = (Zpos m * 2 ^ (e + k)) * d) as [Hk Hq].
    { destruct (0 <=? e) eqn:Ee; bool_facts; cbn [fst snd] in H2.
      - split; [lia|]. rewrite Z.pow_add_r by lia. lia.
      - assert (Z.log2 M - e <= Z.log2 (Zpos m) + Z.log2 d + 1) as Hlog.
        { pose proof (Z.log2_mul_below (2 ^ (- e)) M ltac:(lia) ltac:(lia)) as Hb.
          pose proof (Z.log2_mul_above (Zpos m) d ltac:(lia) ltac:(lia)) as Ha.
          rewrite H2 in Ha. rewrite Z.log2_pow2 in Hb by lia. lia. }
        split; [lia|]. apply (Z.mul_cancel_l _ _ (2 ^ (- e))); [lia|].
        assert (2 ^ k = 2 ^ (- e) * 2 ^ (e + k)) as Hp by (rewrite <- Z.pow_add_r by lia; f_equal; lia).
        rewrite Z.mul_assoc, <- H2, Hp. lia. }
    rewrite Hq, Z_mod_mult, Z_div_mult by lia. change (0 =? 0) with true. cbv iota.
    replace (- k - 1) with (e - (e + k + 1)) by lia. apply normalize_exact_left; [done|lia|].
    rewrite (Z.pow_add_r 2 (e + k) 1) by lia. lia.
Qed.

(** The value of digits, without leading zeros. *)
Lemma digits_val_strip s : digits_val (strip_zeros s) 0 = digits_val s 0.
Proof.
  induction s as [|c s IH]; [done|]. cbn [strip_zeros]. destruct (Ascii.eqb c "0"%char) eqn:E; [|done].
  apply Ascii.eqb_eq in E as ->. rewrite IH. reflexivity.
Qed.

Lemma strip_zeros_length s : len (strip_zeros s) <= len s.
Proof.
  unfold len. apply Nat2Z.inj_le. induction s as [|c s IH]; [done|]. cbn [strip_zeros].
  destruct (Ascii.eqb c "0"%char); cbn [String.length]; lia.
Qed.

Lemma strip_zeros_leading s : all_digits s -> 0 < dval s -> leading (strip_zeros s).
Proof.
  induction s as [|c s IH]; intros Ha Hv; [done|]. pose proof Ha as Ha'. apply all_digits_inv in Ha' as [Hc Hs].
  cbn [strip_zeros]. destruct (Ascii.eqb_spec c "0"%char) as [->|Hne]; [by apply IH|by split].
Qed.

Lemma float_ratio_range m e :
  canonical64 m e -> fst (float_ratio m e) <= 2 ^ 1024 * snd (float_ratio m e)
  /\ snd (float_ratio m e) <= 2 ^ 1074 * fst (float_ratio m e) /\ fst (float_ratio m e) <= 2 ^ 1024.
Proof.
  intros Hc. apply canonical_range in Hc as [He Hl]. unfold float_ratio.
  assert (Zpos m < 2 ^ 53) as Hm by (apply Z.log2_lt_pow2; lia).
  destruct (0 <=? e) eqn:Ee; bool_facts; cbn [fst snd].
  - assert (2 ^ e <= 2 ^ 971) as Hp by (apply Z.pow_le_mono_r; lia). assert (0 < 2 ^ e) by lia.
    assert (Zpos m * 2 ^ e <= 2 ^ 1024) as Hb.
    { change (2 ^ 1024) with (2 ^ 53 * 2 ^ 971). apply Z.mul_le_mono_nonneg; lia. }
    split_and!; [lia|nia|lia].
  - assert (2 ^ (- e) <= 2 ^ 1074) as Hp by (apply Z.pow_le_mono_r; lia). assert (0 < 2 ^ (- e)) by lia.
    assert (2 ^ 53 <= 2 ^ 1024) by (apply Z.pow_le_mono_r; lia). split_and!; [nia|nia|lia].
Qed.

(** The quotient [n / d = M * 10^x], without negative exponents. *)
Definition ratio_is (nd : Z * Z) (M x : Z) : Prop :=
  (0 <= x -> fst nd = snd nd * (M * 10 ^ x)) /\ (x < 0 -> fst nd * 10 ^ (- x) = snd nd * M).

Lemma ratio_is_moved nd c k M i j :
  0 <= k -> 0 <= i -> 0 <= j -> fst nd * 10 ^ k = snd nd * c -> c * 10 ^ j = M * 10 ^ i ->
  ratio_is nd M (i - j - k).
Proof.
  intros Hk Hi Hj H1 H2. assert (fst nd * 10 ^ (k + j) = snd nd * M * 10 ^ i) as H.
  { rewrite Z.pow_add_r by lia. rewrite Z.mul_assoc, H1, <- Z.mul_assoc, H2. lia. }
  split; intros Hx.
  - apply (Z.mul_cancel_r _ _ (10 ^ (k + j))); [lia|]. rewrite H.
    replace i with (i - j - k + (k + j)) at 1 by lia. rewrite (Z.pow_add_r 10 (i - j - k)) by lia. lia.
  - apply (Z.mul_cancel_r _ _ (10 ^ i)); [lia|]. rewrite <- H.
    replace (k + j) with (- (i - j - k) + i) by lia. rewrite (Z.pow_add_r 10 (- (i - j - k))) by lia. lia.
Qed.

(** The decimal point of a float is in the range [ParseFloat] looks at. *)
Lemma ratio_point m e M x l :
  canonical64 m e -> ratio_is (float_ratio m e) M x -> 10 ^ (l - 1) <= M < 10 ^ l -> 1 <= l ->
  -330 <= x + l <= 310.
Proof.
  intros Hc [H1 H2] HM Hl. destruct (float_ratio_range m e Hc) as (Ha & Hb & _).
  pose proof (float_ratio_pos m e) as [Hn Hd]. set (n := fst (float_ratio m e)) in *. set (d := snd (float_ratio m e)) in *.
  assert (2 ^ 1024 < 10 ^ 309) as P1 by (vm_compute; reflexivity).
  assert (2 ^ 1074 < 10 ^ 330) as P2 by (vm_compute; reflexivity).
  set (A := 2 ^ 1024) in *. set (B := 2 ^ 1074) in *. set (C := 10 ^ 309) in *. set (D := 10 ^ 330) in *.
  assert (0 < C) by (unfold C; lia). assert (0 < D) by (unfold D; lia). assert (0 < B) by (unfold B; lia).
  clearbody A B.
  split; apply Z.nlt_ge; intros Hx.
  - assert (x < 0) as Hx0 by lia. specialize (H2 Hx0).
    assert (10 ^ (- x) = 10 ^ l * 10 ^ (- x - l - 330) * D) as Hp.
    { unfold D. rewrite <- !Z.pow_add_r by lia. f_equal. lia. }
    clearbody C D. assert (0 < 10 ^ (- x - l - 330)) by lia. set (u := 10 ^ (- x - l - 330)) in *.
    assert (0 < 10 ^ l) by lia. set (v := 10 ^ l) in *. rewrite Hp in H2.
    assert (n * (v * u * D) < B * n * v) as Hlt by (rewrite H2; nia).
    assert (n * v * (u * D) < n * v * B) as Hlt2 by lia. apply Z.mul_lt_mono_pos_l in Hlt2; nia.
  - destruct (Z.le_gt_cases 0 x) as [Hx0|Hx0].
    + specialize (H1 Hx0). assert (10 ^ (l - 1) * 10 ^ x = C * 10 ^ (l - 1 + x - 309)) as Hp.
      { unfold C. rewrite <- !Z.pow_add_r by lia. f_equal. lia. }
      clearbody C D. assert (0 < 10 ^ (l - 1 + x - 309)) by lia. assert (0 < 10 ^ x) by lia.
      set (u := 10 ^ (l - 1 + x - 309)) in *. set (v := 10 ^ x) in *. set (w := 10 ^ (l - 1)) in *.
      assert (C * u <= M * v) by (rewrite <- Hp; nia). assert (d * (C * u) <= d * A) as Hle by (rewrite H1 in Ha; nia).
      apply Z.mul_le_mono_pos_l in Hle; nia.
    + specialize (H2 Hx0). assert (10 ^ (l - 1) = C * 10 ^ (l + x - 310) * 10 ^ (- x)) as Hp.
      { unfold C. rewrite <- !Z.pow_add_r by lia. f_equal. lia. }
      clearbody C D. assert (0 < 10 ^ (l + x - 310)) by lia. assert (0 < 10 ^ (- x)) by lia.
      set (u := 10 ^ (l + x - 310)) in *. set (v := 10 ^ (- x)) in *. set (w := 10 ^ (l - 1)) in *.
      assert (d * (C * u * v) <= A * d * v) by (rewrite <- Hp; nia). assert (d * v * (C * u) <= d * v * A) as Hle by lia.
      apply Z.mul_le_mono_pos_l in Hle; nia.
Qed.

Lemma ParseFloatLit_exact sci c k m e :
  canonical64 m e -> 0 < c < mantissa_bound -> 0 <= k <= 2000 ->
  fst (float_ratio m e) * 10 ^ k = snd (float_ratio m e) * c ->
  ParseFloatLit (decimal_text sci c k) = Some (S754_finite false m e).
Proof.
  intros Hc Hb Hk Hv. destruct (decimal_text_number sci c k Hb ltac:(lia)) as (ip & fp & x & i & j & -> & Hip & Hfp & Hx & Hi & Hj & Hval & Hexp).
  unfold ParseFloatLit. rewrite split_number by done. cbn [fst snd].
  destruct (integer_digits ip Hip) as [Hda _]. pose proof (all_digits_app _ _ Hda Hfp) as Hd.
  set (M := dval (ip +:+ fp)) in *. assert (0 < M) as HM by (assert (0 < c * 10 ^ j) by nia; nia).
  pose proof (strip_zeros_leading _ Hd HM) as Hlead. pose proof (leading_bound _ Hlead) as Hbd.
  assert (dval (strip_zeros (ip +:+ fp)) = M) as Hs by (unfold dval; by rewrite digits_val_strip).
  rewrite Hs in Hbd. pose proof (proj2 Hlead) as Hne. set (ds := strip_zeros (ip +:+ fp)) in *.
  assert (1 <= len ds) as Hl1 by (destruct ds; [done|rewrite len_cons; unfold len; lia]).
  assert ((ds =?s "") = false) as -> by (apply String.eqb_neq; by intros ->).
  rewrite Hexp. pose proof (ratio_is_moved _ _ _ _ _ _ (proj1 Hk) Hi Hj Hv Hval) as Hr.
  pose proof (ratio_point m e M _ (len ds) Hc Hr Hbd Hl1) as Hp.
  rewrite (proj2 (Z.ltb_ge _ _)) by lia. rewrite (proj2 (Z.ltb_ge _ _)) by lia.
  change (default 0 (digits_val ds 0)) with (dval ds). rewrite Hs.
  rewrite (decimal_float_exact m e M _ Hc HM (proj1 Hr) (proj2 Hr)). done.
Qed.

(** ** Lemmas: the search *)

Lemma same_float_eq f g : same_float f g = true -> f = g.
Proof.
  unfold same_float. destruct f as [| | |s m e], g as [| | |s' m' e']; try done. intros H. bool_facts.
  repeat match goal with
         | X : Bool.eqb _ _ = true |- _ => apply Bool.eqb_prop in X
         | X : Pos.eqb _ _ = true |- _ => apply Pos.eqb_eq in X
         end. by subst.
Qed.

Lemma reads_as_eq text f : reads_as text f = true -> ParseFloatLit text = Some f.
Proof. unfold reads_as. destruct (ParseFloatLit text); [|done]. by intros ->%same_float_eq. Qed.

Lemma shortest_found sci m e kx :
  (let (n, d) := scale10 (float_ratio m e) kx in
   0 < n / d /\ reads_as (decimal_text sci (n / d) kx) (S754_finite false m e) = true) ->
  forall fuel k, k <= kx < k + Z.of_nat fuel ->
  exists c k', k <= k' <= kx /\ 0 < c <= fst (scale10 (float_ratio m e) k') / snd (scale10 (float_ratio m e) k') + 1
    /\ shortest fuel sci m e k = decimal_text sci c k'
    /\ ParseFloatLit (shortest fuel sci m e k) = Some (S754_finite false m e).
Proof.
  intros Hx fuel. induction fuel as [|fuel IH]; intros k Hk; [lia|]. cbn [shortest].
  destruct (scale10 (float_ratio m e) k) as [n d] eqn:Es.
  set (ok := fun c => (0 <? c) && reads_as (decimal_text sci c k) (S754_finite false m e)).
  assert (forall c, ok c = true -> c = n / d \/ c = n / d + 1 ->
    exists c' k', k <= k' <= kx /\ 0 < c' <= fst (scale10 (float_ratio m e) k') / snd (scale10 (float_ratio m e) k') + 1
      /\ decimal_text sci c k = decimal_text sci c' k' /\ ParseFloatLit (decimal_text sci c k) = Some (S754_finite false m e)) as Hok.
  { intros c Hc Hr. exists c, k. unfold ok in Hc. bool_facts. rewrite Es. cbn [fst snd].
    split_and!; [lia|lia|lia|lia|done|by apply reads_as_eq]. }
  change ((0 <? n / d) && reads_as (decimal_text sci (n / d) k) (S754_finite false m e)) with (ok (n / d)).
  change ((0 <? n / d + 1) && reads_as (decimal_text sci (n / d + 1) k) (S754_finite false m e)) with (ok (n / d + 1)).
  destruct (ok (n / d)) eqn:E1, (ok (n / d + 1)) eqn:E2; [destruct (_ || _)| | |]; auto.
  destruct (decide (k = kx)) as [->|Hne].
  - rewrite Es in Hx. unfold ok in E1. destruct Hx as [Hc Hr]. rewrite Hr, (proj2 (Z.ltb_lt _ _)) in E1; done.
  - destruct (IH (k + 1)) as (c & k' & Hk' & H); [lia|]. exists c, k'. split; [lia|done].
Qed.

Lemma decimal_point_range m e : canonical64 m e -> -330 <= decimal_point m e <= 310.
Proof.
  intros Hc. apply canonical_range in Hc as [He Hl]. unfold decimal_point.
  set (l := Z.log2 (Zpos m) + e). assert (-1074 <= l < 1024) as Hr by lia. clearbody l.
  assert (-326 <= l * (if 0 <=? l then 30102 else 30103) / 100000 <= 308) as Hest.
  { split; [apply Z.div_le_lower_bound|apply Z.lt_succ_r, Z.div_lt_upper_bound]; destruct (0 <=? l) eqn:E; bool_facts; lia. }
  repeat case_match; lia.
Qed.

(** The number of places of the exact value. *)
Lemma exact_places m e :
  canonical64 m e -> exists kx, 0 <= kx <= 1074 /\ 1 - decimal_point m e <= kx
    /\ let (n, d) := scale10 (float_ratio m e) kx in n = d * (n / d) /\ 0 < n / d.
Proof.
  intros Hc. pose proof (canonical_range m e Hc) as [He _]. pose proof (decimal_point_range m e Hc).
  exists (Z.max 0 (Z.max (- e) (1 - decimal_point m e))). set (kx := Z.max _ _). split; [lia|]. split; [lia|].
  unfold scale10. pose proof (float_ratio_pos m e) as [Hn Hd]. unfold float_ratio in *.
  assert ((0 <=? kx) = true) as -> by (apply Z.leb_le; lia).
  destruct (0 <=? e) eqn:Ee; bool_facts; cbn [fst snd] in *.
  - rewrite Z.div_1_r. split; [lia|]. assert (0 < 10 ^ kx) by lia. nia.
  - assert (Zpos m * 10 ^ kx = (Zpos m * 5 ^ (- e) * 10 ^ (kx + e)) * 2 ^ (- e)) as Hp.
    { replace (10 ^ kx) with (10 ^ (kx + e) * 10 ^ (- e)) by (rewrite <- Z.pow_add_r by lia; f_equal; lia).
      change 10 with (5 * 2) at 2. rewrite Z.pow_mul_l. lia. }
    rewrite Hp, Z_div_mult by lia. split; [lia|]. assert (0 < 5 ^ (- e)) by lia. assert (0 < 10 ^ (kx + e)) by lia. nia.
Qed.

Lemma scale10_range m e k :
  canonical64 m e -> k <= 1074 ->
  0 <= fst (scale10 (float_ratio m e) k) / snd (scale10 (float_ratio m e) k) + 1 < mantissa_bound.
Proof.
  intros Hc Hk. destruct (float_ratio_range m e Hc) as (_ & _ & Ha). pose proof (float_ratio_pos m e) as [Hn Hd].
  unfold scale10. destruct (float_ratio m e) as [n d]. cbn [fst snd] in *.
  assert (forall a b, 0 < a <= 2 ^ 1024 * 10 ^ 1074 -> 0 < b -> 0 <= a / b + 1 < mantissa_bound) as Hq.
  { intros a b Hab Hb. assert (0 <= a / b <= a) as [H0 H1].
    { split; [apply Z.div_pos; lia|]. apply Z.div_le_upper_bound; [lia|]. nia. }
    assert (2 ^ 1024 * 10 ^ 1074 + 1 < mantissa_bound) as Hm by (vm_compute; reflexivity).
    set (x := 2 ^ 1024 * 10 ^ 1074) in *. clearbody x. unfold mantissa_bound in *. set (y := 10 ^ 1500) in *. clearbody y. lia. }
  destruct (0 <=? k) eqn:Ek; bool_facts; cbn [fst snd]; apply Hq.
  - assert (10 ^ k <= 10 ^ 1074) as Hp by (apply Z.pow_le_mono_r; lia). assert (0 < 10 ^ k) by lia.
    split; [nia|]. apply Z.mul_le_mono_nonneg; lia.
  - done.
  - split; [done|]. transitivity (2 ^ 1024); [done|]. vm_compute. discriminate.
  - assert (0 < 10 ^ (- k)) by lia. nia.
Qed.

(** The text of a finite float: a number that is read as the float. *)
Lemma finite_text_spec m e :
  canonical64 m e ->
  ParseFloatLit (finite_text m e) = Some (S754_finite false m e)
  /\ len (finite_text m e) <= 10000
  /\ exists ip fp x, finite_text m e = number_text ip fp x /\ integer_part ip /\ all_digits fp /\ exponent_ok x.
Proof.
  intros Hc. destruct (exact_places m e Hc) as (kx & Hkx & Hk0 & Hex). pose proof (decimal_point_range m e Hc) as Hdp.
  pose proof (scale10_range m e kx Hc ltac:(lia)) as Hb. unfold finite_text.
  set (sci := SFltb _ _ || SFleb _ _).
  destruct (shortest_found sci m e kx) with (fuel := 1500%nat) (k := 1 - decimal_point m e) as (c & k & Hk & Hcb & Ht & Hp).
  - destruct (scale10 (float_ratio m e) kx) as [n d] eqn:Es. destruct Hex as [Hd Hpos]. split; [done|].
    unfold reads_as. rewrite (ParseFloatLit_exact sci (n / d) kx m e Hc).
    + cbn [same_float]. by rewrite Bool.eqb_reflx, Pos.eqb_refl, Z.eqb_refl.
    + cbn [fst snd] in Hb. split; lia.
    + lia.
    + unfold scale10 in Es. destruct (float_ratio m e) as [n0 d0]. rewrite (proj2 (Z.leb_le 0 kx)) in Es by lia.
      injection Es as <- <-. exact Hd.
  - change (Z.of_nat 1500) with 1500. lia.
  - split; [done|]. rewrite Ht. pose proof (scale10_range m e k Hc ltac:(lia)) as Hb'.
    split; [apply decimal_text_length; lia|].
    destruct (decimal_text_number sci c k) as (ip & fp & x & _ & _ & -> & ? & ? & ? & _); [lia|lia|].
    exists ip, fp, x. split_and!; [reflexivity|assumption..].
Qed.

Lemma ParseFloatLit_neg s f :
  match s with String c _ => c <> "-"%char | EmptyString => True end ->
  ParseFloatLit s = Some f -> (exists m e, f = S754_finite false m e) ->
  ParseFloatLit ("-" +:+ s) = Some (SFopp f).
Proof.
  intros Hs H (m & e & ->). assert (exists ip fp ex, split_num s = (false, ip, fp, ex)
    /\ split_num ("-" +:+ s) = (true, ip, fp, ex)) as (ip & fp & ex & H1 & H2).
  { change ("-" +:+ s) with (String "-" s). unfold split_num. cbn [Ascii.eqb Bool.eqb].
    destruct s as [|c s]; [by exists "", "", 0|]. apply Ascii.eqb_neq in Hs. rewrite Hs.
    destruct (span_digits (String c s)) as [ip s1]. destruct (match s1 with | EmptyString => _ | _ => _ end) as [fp s2].
    eexists ip, fp, _. split; reflexivity. }
  unfold ParseFloatLit in *. rewrite H1 in H. rewrite H2. destruct (_ =?s ""); [discriminate H|].
  destruct (310 <? _); [discriminate H|]. destruct (_ <? -330); [discriminate H|].
  destruct (decimal_float _ _); try discriminate H. by injection H as -> -> ->.
Qed.

(** ** Properties *)

Definition valid_float (f : float) : bool :=
  match f with S754_finite _ m e => bounded 53 1024 m e | S754_zero _ => true | _ => false end.

(** A finite float is printed as a JSON number, and [ParseFloat] reads that
    number as the same float. *)
Theorem json_float_roundtrip :
  forall f, valid_float f = true ->
    exists text, json_float f = Some text /\ is_num text = true /\ ParseFloatLit text = Some f /\ len text <= 10001.
Proof.
  intros [[]| | |s m e] Hf; try done; [eexists; split_and!; [reflexivity..|vm_compute; discriminate]..|]. apply bounded_canonical in Hf.
  destruct (finite_text_spec m e Hf) as (Hp & Hlen & ip & fp & x & Ht & Hip & Hfp & Hx).
  eexists. split; [reflexivity|]. rewrite Ht in *. split; [by apply is_num_number|].
  split; [|rewrite len_app; destruct s; [change (len "-") with 1|change (len "") with 0]; lia].
  destruct s; [|by rewrite str_app_nil_l]. apply (ParseFloatLit_neg _ (S754_finite false m e)); [|done|by eexists _, _].
  destruct (integer_digits ip Hip) as (_ & c & t & -> & Hc). unfold number_text. rewrite str_app_cons. by intros ->.
Qed.

Lemma json_float_roundtrip_witness :
  ParseFloatLit "-1.5e+21" = Some (SFopp (decimal_float 15 20)).
Proof.
  destruct (json_float_roundtrip (SFopp (decimal_float 15 20))) as (text & H1 & _ & H2 & _); [vm_compute; reflexivity|].
  vm_compute in H1. injection H1 as <-. exact H2.
Defined.
