(* ===== verification/Binary64.v ===== *)
(** * The results of binary64 arithmetic are binary64 values

    Rounding gives a canonical mantissa and an exponent in range, an infinity or
    a NaN: with the operations of GoTime and the printing of GoFloat, a float
    that the program computes and that is finite can be printed and read back. *)

From S2P Require Import Prelude GoStrings GoTime Json JsonDecode GoFloat.
From Stdlib Require Import Floats.SpecFloat.

Definition valid64 (f : float) : Prop := valid_binary 53 1024 f = true.

(** ** Shifting *)

Definition digits (m : Z) : Z := Zdigits2 m.

Lemma digits_nonneg m : 0 <= digits m.
Proof. by destruct m. Qed.

Lemma digits_pos m : 0 < m -> digits m = Z.log2 m + 1.
Proof. intros Hm. destruct m; try lia. apply digits2_log2. Qed.

Lemma digits_bound m : 0 <= m -> m < 2 ^ digits m.
Proof.
  intros Hm. destruct (decide (m = 0)) as [->|]; [reflexivity|].
  rewrite digits_pos by lia. pose proof (Z.log2_spec m ltac:(lia)). unfold Z.succ in *. lia.
Qed.

Lemma digits_unique m d : 0 < d -> 2 ^ (d - 1) <= m < 2 ^ d -> digits m = d.
Proof.
  intros Hd Hm. assert (0 < 2 ^ (d - 1)) by lia. rewrite digits_pos by lia.
  rewrite (Z.log2_unique m (d - 1)); [lia|lia|]. unfold Z.succ. by replace (d - 1 + 1) with d by lia.
Qed.

Lemma shr_1_m r : 0 <= shr_m r -> shr_m (shr_1 r) = shr_m r / 2.
Proof.
  rewrite <- Z.div2_div. destruct r as [[|[p|p|]|p] b c]; cbn; intros Hm; try done; lia.
Qed.

Lemma shr_iter_m r n : 0 <= shr_m r -> shr_m (Pos.iter shr_1 r n) = shr_m r / 2 ^ Zpos n.
Proof.
  intros Hm. induction n as [|n IH] using Pos.peano_ind; [by apply shr_1_m|].
  rewrite Pos.iter_succ, shr_1_m, IH.
  - rewrite Z.div_div by lia. rewrite Pos2Z.inj_succ, Z.pow_succ_r by lia. f_equal. lia.
  - rewrite IH. apply Z.div_pos; lia.
Qed.

Lemma shr_m_of_loc m l : shr_m (shr_record_of_loc m l) = m.
Proof. by destruct l as [|[]]. Qed.

Lemma digits_shifted m n : 0 <= m -> 0 <= n -> digits (m / 2 ^ n) = Z.max 0 (digits m - n).
Proof.
  intros Hm Hn. destruct (decide (m = 0)) as [->|].
  { rewrite Z.div_0_l by lia. cbn. lia. }
  pose proof (Z.log2_spec m ltac:(lia)) as Hl. rewrite (digits_pos m) by lia.
  destruct (Z.lt_ge_cases (Z.log2 m) n) as [Hlt|Hge].
  - rewrite Z.div_small; [cbn; lia|]. split; [done|]. eapply Z.lt_le_trans; [apply Hl|]. apply Z.pow_le_mono_r; lia.
  - assert (0 < m / 2 ^ n) as Hq.
    { apply Z.div_str_pos. split; [lia|]. etransitivity; [apply Z.pow_le_mono_r; [lia|exact Hge]|apply Hl]. }
    rewrite digits_pos by done. rewrite <- Z.shiftr_div_pow2, Z.log2_shiftr by lia. lia.
Qed.

(** One of the two shifts of a rounding. *)
Lemma shr_fexp_spec m e l :
  0 <= m -> e <= fexp 53 1024 (digits m + e) ->
  exists r, shr_fexp 53 1024 m e l = (r, fexp 53 1024 (digits m + e))
            /\ shr_m r = m / 2 ^ (fexp 53 1024 (digits m + e) - e).
Proof.
  intros Hm He. unfold shr_fexp, shr. fold (digits m). set (x := fexp 53 1024 (digits m + e)) in *.
  destruct (x - e) as [|p|p] eqn:Ep; [| |lia].
  - eexists. split; [f_equal; lia|]. rewrite shr_m_of_loc, Z.pow_0_r, Z.div_1_r. done.
  - eexists. split; [f_equal; lia|]. rewrite iter_pos_iter, shr_iter_m; rewrite shr_m_of_loc; done.
Qed.

Lemma round_nearest_cases m l : round_nearest_even m l = m \/ round_nearest_even m l = m + 1.
Proof. destruct l as [|[]]; cbn; auto. destruct (Z.even m); auto. Qed.

(** ** Rounding *)

Lemma fexp_eq x : fexp 53 1024 x = Z.max (x - 53) (-1074).
Proof. reflexivity. Qed.

Lemma round_aux_valid s m e l :
  0 <= m -> e <= fexp 53 1024 (digits m + e) -> valid64 (binary_round_aux 53 1024 s m e l).
Proof.
  intros Hm He. unfold binary_round_aux. destruct (shr_fexp_spec m e l Hm He) as (r & -> & Hr).
  set (e1 := fexp 53 1024 (digits m + e)) in *. set (m1 := shr_m r) in *.
  assert (0 <= m1) as Hm1 by (rewrite Hr; apply Z.div_pos; lia).
  pose proof (digits_shifted m (e1 - e) Hm ltac:(lia)) as Hd1. rewrite <- Hr in Hd1.
  set (m2 := round_nearest_even m1 (loc_of_shr_record r)) in *.
  assert (m2 = m1 \/ m2 = m1 + 1) as Hm2 by apply round_nearest_cases.
  assert (e1 = Z.max (digits m + e - 53) (-1074)) as He1 by apply fexp_eq.
  assert (digits m2 = digits m1 \/ digits m2 = digits m1 + 1 /\ m2 = 2 ^ digits m1) as Hd2.
  { destruct Hm2 as [-> | ->]; [by left|]. pose proof (digits_bound m1 Hm1) as Hb. pose proof (digits_nonneg m1).
    destruct (decide (m1 + 1 = 2 ^ digits m1)) as [He2|Hne].
    - right. split; [|done]. rewrite He2. apply digits_unique; [lia|].
      replace (digits m1 + 1 - 1) with (digits m1) by lia. rewrite Z.pow_add_r by lia. lia.
    - left. destruct (decide (m1 = 0)) as [->|Hz]; [by destruct Hne|]. apply digits_unique.
      + rewrite digits_pos by lia. pose proof (Z.log2_nonneg m1). lia.
      + split; [|lia]. rewrite digits_pos by lia. pose proof (Z.log2_spec m1 ltac:(lia)).
        replace (Z.log2 m1 + 1 - 1) with (Z.log2 m1) by lia. lia. }
  destruct (shr_fexp_spec m2 e1 loc_Exact) as (r2 & -> & Hr2); [lia|rewrite fexp_eq; lia|].
  set (e2 := fexp 53 1024 (digits m2 + e1)) in *. assert (e2 = Z.max (digits m2 + e1 - 53) (-1074)) as He2 by apply fexp_eq.
  assert (digits (shr_m r2) = Z.max 0 (digits m2 - (e2 - e1))) as Hd3.
  { rewrite Hr2. apply digits_shifted; [lia|]. rewrite He2. lia. }
  destruct (shr_m r2) as [|p|p] eqn:Ep; [done| |].
  - destruct (e2 <=? 1024 - 53) eqn:Ee; [|done]. unfold valid64, valid_binary, bounded, canonical_mantissa.
    rewrite Ee, andb_true_r. apply Z.eqb_eq. fold (Zdigits2 (Zpos p)). fold (digits (Zpos p)). rewrite Hd3, fexp_eq.
    assert (0 < digits (Zpos p)) by (rewrite digits_pos by lia; pose proof (Z.log2_nonneg (Zpos p)); lia). lia.
  - exfalso. pose proof (Z.div_pos m2 (2 ^ (e2 - e1))). lia.
Qed.

Lemma binary_round_valid s m e : valid64 (binary_round 53 1024 s m e).
Proof.
  unfold binary_round, shl_align. set (x := fexp 53 1024 (Zpos (digits2_pos m) + e)).
  assert (x = Z.max (Zpos (digits2_pos m) + e - 53) (-1074)) as Hx by apply fexp_eq.
  destruct (x - e) as [|d|d] eqn:Ed; [apply round_aux_valid; [lia|]; fold x; cbn [digits Zdigits2]..|].
  - unfold digits. cbn [Zdigits2]. fold x. lia.
  - unfold digits. cbn [Zdigits2]. fold x. lia.
  - apply round_aux_valid; [lia|]. rewrite digits_pos, iter_xO, Z.log2_mul_pow2, fexp_eq by lia.
    rewrite digits2_log2 in Hx. lia.
Qed.

Lemma binary_normalize_valid m e s : valid64 (binary_normalize 53 1024 m e s).
Proof. destruct m; [done|apply binary_round_valid..]. Qed.

(** ** Operations *)

Lemma valid64_canonical s m e : valid64 (S754_finite s m e) <-> canonical64 m e.
Proof. apply bounded_canonical. Qed.

Lemma canonical_cases m e : canonical64 m e -> 1 <= digits (Zpos m) <= 53 /\ -1074 <= e /\ (digits (Zpos m) = 53 \/ e = -1074).
Proof.
  intros [Hf _]. rewrite fexp_eq in Hf. change (Zpos (digits2_pos m)) with (digits (Zpos m)) in Hf.
  pose proof (digits_pos (Zpos m) ltac:(lia)). pose proof (Z.log2_nonneg (Zpos m)). lia.
Qed.

Lemma fmul_valid x y : valid64 x -> valid64 y -> valid64 (fmul x y).
Proof.
  destruct x as [| | |sx mx ex], y as [| | |sy my ey]; intros Hx Hy; try done.
  apply valid64_canonical, canonical_cases in Hx, Hy. apply round_aux_valid; [lia|].
  assert (digits (Zpos mx) + digits (Zpos my) - 1 <= digits (Zpos (mx * my))) as Hd.
  { rewrite Pos2Z.inj_mul, !digits_pos by lia. pose proof (Z.log2_mul_below (Zpos mx) (Zpos my)). lia. }
  rewrite fexp_eq. lia.
Qed.

Lemma fdiv_valid x y : valid64 x -> valid64 y -> valid64 (fdiv x y).
Proof.
  destruct x as [| | |sx mx ex], y as [| | |sy my ey]; intros Hx Hy; try done. clear Hx Hy.
  unfold fdiv, SFdiv, SFdiv_core_binary. fold (digits (Zpos mx)) (digits (Zpos my)).
  set (e := Z.min _ _). set (s := ex - ey - e). assert (0 <= s) as Hs by (unfold s, e; lia).
  assert (match s with Z0 => Zpos mx | Zpos _ => Z.shiftl (Zpos mx) s | Zneg _ => 0 end = Zpos mx * 2 ^ s) as ->.
  { destruct s; [lia|apply Z.shiftl_mul_pow2; lia|lia]. }
  destruct (Z.div_eucl (Zpos mx * 2 ^ s) (Zpos my)) as [q r] eqn:Eq.
  assert (q = Zpos mx * 2 ^ s / Zpos my) as Hq by (unfold Z.div; by rewrite Eq).
  assert (0 <= q) as Hq0 by (rewrite Hq; apply Z.div_pos; lia).
  apply round_aux_valid; [done|].
  assert (digits (Zpos mx) + s - digits (Zpos my) <= digits q) as Hd.
  { pose proof (digits_nonneg q). destruct (Z.le_gt_cases (digits (Zpos mx) + s - digits (Zpos my)) 0); [lia|].
    set (k := digits (Zpos mx) + s - digits (Zpos my) - 1) in *.
    assert (2 ^ k <= q) as Hk.
    { rewrite Hq. apply Z.div_le_lower_bound; [lia|]. pose proof (digits_bound (Zpos my) ltac:(lia)) as Hb.
      transitivity (2 ^ digits (Zpos my) * 2 ^ k); [apply Z.mul_le_mono_nonneg_r; lia|].
      rewrite <- Z.pow_add_r by (unfold k; pose proof (digits_nonneg (Zpos my)); lia).
      replace (digits (Zpos my) + k) with (Z.log2 (Zpos mx) + s) by (unfold k; rewrite (digits_pos (Zpos mx)); lia).
      rewrite Z.pow_add_r by (try apply Z.log2_nonneg; lia). pose proof (Z.log2_spec (Zpos mx) ltac:(lia)).
      apply Z.mul_le_mono_nonneg_r; lia. }
    assert (0 < 2 ^ k) by (unfold k; lia). rewrite (digits_pos q) by lia.
    assert (k <= Z.log2 q) by (apply Z.log2_le_pow2; lia). unfold k in *. lia. }
  rewrite fexp_eq. assert (e <= fexp 53 1024 (digits (Zpos mx) + ex - (digits (Zpos my) + ey))) as He by (unfold e; lia).
  rewrite fexp_eq in He. unfold s in *. lia.
Qed.

Lemma float_of_Z_valid z : valid64 (float_of_Z z).
Proof. apply binary_normalize_valid. Qed.

Lemma decimal_float_valid m e : valid64 (decimal_float m e).
Proof. unfold decimal_float. destruct (0 <=? e); apply binary_normalize_valid. Qed.

Lemma SFopp_valid f : valid64 f -> valid64 (SFopp f).
Proof. by destruct f. Qed.

Lemma Seconds_valid d : valid64 (Seconds d).
Proof.
  unfold Seconds. set (x := float_of_Z _). set (y := fdiv _ _).
  assert (valid64 x /\ valid64 y) as [Hx Hy] by (split; [apply float_of_Z_valid|apply fdiv_valid; apply float_of_Z_valid]).
  clearbody x y. destruct x as [[]|[]| |sx mx ex], y as [[]|[]| |sy my ey]; try done. apply binary_normalize_valid.
Qed.

(** What [ParseFloat] answers for a number is finite. *)
Lemma ParseFloatLit_valid s f : ParseFloatLit s = Some f -> valid_float f = true.
Proof.
  unfold ParseFloatLit. destruct (split_num s) as [[[neg ip] fp] ex]. intros H. repeat case_match; simplify_eq; try done.
  - match goal with X : decimal_float ?m ?e = _ |- _ => pose proof (decimal_float_valid m e) as Hv; rewrite X in Hv end.
    exact Hv.
  - match goal with X : decimal_float ?m ?e = _ |- _ => pose proof (decimal_float_valid m e) as Hv; rewrite X in Hv end.
    exact Hv.
Qed.

(** ** As JSON *)

(** A float is printed as a number, or not at all. *)
Lemma enc_float_number f v : valid64 f -> enc_float f = Some v -> exists lit, v = JNum lit /\ is_num lit = true.
Proof.
  intros Hf Hv. assert (valid_float f = true) as Hvf by (by destruct f).
  destruct (json_float_roundtrip f Hvf) as (text & Ht & Hn & _ & _). unfold enc_float in Hv. rewrite Ht in Hv.
  injection Hv as <-. by exists text.
Qed.
