(* ===== verification/Netip.v ===== *)
(** * Go's [net/netip] and the host:port functions of [net]

    The IP addresses, prefixes and address literals the network policy is
    written with.  An [Addr] is the zero value, a 32-bit IPv4 address or a
    128-bit IPv6 address with a zone (the empty zone for none); the parsers,
    the classifiers and the printers follow the documented behaviour of the
    Go functions of the same name, bit operations included. *)

From S2P Require Import Prelude GoStrings.

(** ** Addresses *)

Inductive Addr : Type :=
| AddrZero
| Addr4 (a : Z)
| Addr6 (a : Z) (zone : string).

#[export] Instance Addr_eq_dec : EqDecision Addr.
Proof. solve_decision. Defined.

Definition IsValid (ip : Addr) : bool :=
  match ip with AddrZero => false | _ => true end.

Definition Is4 (ip : Addr) : bool :=
  match ip with Addr4 _ => true | _ => false end.

Definition Is6 (ip : Addr) : bool :=
  match ip with Addr6 _ _ => true | _ => false end.

Definition Is4In6 (ip : Addr) : bool :=
  match ip with Addr6 a _ => Z.shiftr a 32 =? 65535 | _ => false end.

Definition BitLen (ip : Addr) : Z :=
  match ip with AddrZero => 0 | Addr4 _ => 32 | Addr6 _ _ => 128 end.

Definition hasZone (ip : Addr) : bool :=
  match ip with Addr6 _ z => negb (z =?s "") | _ => false end.

Definition withoutZone (ip : Addr) : Addr :=
  match ip with Addr6 a _ => Addr6 a "" | _ => ip end.

Definition WithZone (ip : Addr) (zone : string) : Addr :=
  match ip with Addr6 a _ => Addr6 a zone | _ => ip end.

(** [Unmap] drops the prefix of an IPv4-mapped address, and its zone. *)
Definition Unmap (ip : Addr) : Addr :=
  match ip with
  | Addr6 a _ => if Is4In6 ip then Addr4 (Z.land a (Z.ones 32)) else ip
  | _ => ip
  end.

(** Byte [i] of an IPv4 address, byte 0 and 16-bit field [i] of an IPv6 one. *)
Definition v4 (a i : Z) : Z := Z.land (Z.shiftr a (8 * (3 - i))) 255.
Definition v6_0 (a : Z) : Z := Z.land (Z.shiftr a 120) 255.
Definition v6u16 (a i : Z) : Z := Z.land (Z.shiftr a (16 * (7 - i))) 65535.

Definition IsUnspecified (ip : Addr) : bool :=
  match ip with
  | Addr4 a => a =? 0
  | Addr6 a z => (a =? 0) && (z =?s "")
  | AddrZero => false
  end.

Definition IsLoopback (ip : Addr) : bool :=
  match Unmap ip with
  | Addr4 a => v4 a 0 =? 127
  | Addr6 a _ => a =? 1
  | AddrZero => false
  end.

Definition IsLinkLocalUnicast (ip : Addr) : bool :=
  match Unmap ip with
  | Addr4 a => (v4 a 0 =? 169) && (v4 a 1 =? 254)
  | Addr6 a _ => Z.land (v6u16 a 0) 65472 =? 65152
  | AddrZero => false
  end.

Definition IsLinkLocalMulticast (ip : Addr) : bool :=
  match Unmap ip with
  | Addr4 a => (v4 a 0 =? 224) && (v4 a 1 =? 0) && (v4 a 2 =? 0)
  | Addr6 a _ => Z.land (v6u16 a 0) 65295 =? 65282
  | AddrZero => false
  end.

Definition IsPrivate (ip : Addr) : bool :=
  match Unmap ip with
  | Addr4 a => (v4 a 0 =? 10)
               || ((v4 a 0 =? 172) && (Z.land (v4 a 1) 240 =? 16))
               || ((v4 a 0 =? 192) && (v4 a 1 =? 168))
  | Addr6 a _ => Z.land (v6_0 a) 254 =? 252
  | AddrZero => false
  end.

(** Big-endian values of a sequence of digits in base [B]. *)
Definition be_val (B : Z) (ds : list Z) : Z := fold_left (fun acc d => acc * B + d) ds 0.
Definition be_bytes : list Z -> Z := be_val 256.
Definition be_groups : list Z -> Z := be_val 65536.

(** [AddrFromSlice]: 4 or 16 bytes. *)
Definition AddrFromSlice (bs : string) : option Addr :=
  match String.length bs with
  | 4%nat => Some (Addr4 (be_bytes (map byte_of (chars bs))))
  | 16%nat => Some (Addr6 (be_bytes (map byte_of (chars bs))) "")
  | _ => None
  end.

(** ** Parsing address literals *)

(** [parseIPv4Fields]: [start] holds before the first byte, [dot] when the
    previous byte was a dot; [val] and [digLen] describe the current field,
    [fields] holds the finished ones, last first. *)
Fixpoint parseIPv4Fields_go (s : string) (start dot : bool) (val : Z) (digLen : nat)
    (fields : list Z) : option (list Z) :=
  match s with
  | EmptyString =>
      if (length fields <? 3)%nat then None else Some (rev (val :: fields))
  | String c t =>
      match digit_of c with
      | Some d =>
          if (digLen =? 1)%nat && (val =? 0) then None
          else let val' := val * 10 + d in
               if 255 <? val' then None
               else parseIPv4Fields_go t false false val' (S digLen) fields
      | None =>
          if Ascii.eqb c "."%char then
            if start || (t =?s "") || dot then None
            else if (length fields =? 3)%nat then None
            else parseIPv4Fields_go t false true 0 0 (val :: fields)
          else None
      end
  end.

Definition parseIPv4Fields (s : string) : option (list Z) :=
  parseIPv4Fields_go s true false 0 0 [].

Definition parseIPv4 (s : string) : option Addr :=
  option_map (fun fs => Addr4 (be_bytes fs)) (parseIPv4Fields s).

Definition hex_of (c : ascii) : option Z :=
  let b := byte_of c in
  if (48 <=? b) && (b <=? 57) then Some (b - 48)
  else if (97 <=? b) && (b <=? 102) then Some (b - 97 + 10)
  else if (65 <=? b) && (b <=? 70) then Some (b - 65 + 10)
  else None.

(** The digits of one group: their value, their number (more than four is an
    error) and the rest of the text. *)
Fixpoint scan_hex (s : string) (off : nat) (acc : Z) : option (Z * nat * string) :=
  match s with
  | EmptyString => Some (acc, off, s)
  | String c t =>
      match hex_of c with
      | Some d => if (3 <? off)%nat then None else scan_hex t (S off) (acc * 16 + d)
      | None => Some (acc, off, s)
      end
  end.

(** The loop of [parseIPv6]: [groups] are the 16-bit groups read so far (the
    Go loop keeps their bytes), [ellipsis] the number of groups before the
    [::].  Each round stores at least one group, and eight end it. *)
Fixpoint parseIPv6_loop (fuel : nat) (s : string) (groups : list Z) (ellipsis : option nat)
    : option (string * list Z * option nat) :=
  match fuel with
  | O => Some (s, groups, ellipsis)
  | S f =>
      if (8 <=? length groups)%nat then Some (s, groups, ellipsis)
      else
        match scan_hex s 0 0 with
        | None => None
        | Some (_, O, _) => None
        | Some (acc, _, rest) =>
            if HasPrefix rest "." then
              if (match ellipsis with None => true | _ => false end)
                 && negb (length groups =? 6)%nat then None
              else if (6 <? length groups)%nat then None
              else match parseIPv4Fields s with
                   | Some [a; b; c; d] =>
                       Some (EmptyString, groups ++ [a * 256 + b; c * 256 + d], ellipsis)
                   | _ => None
                   end
            else
              let groups' := groups ++ [acc] in
              match rest with
              | EmptyString => Some (EmptyString, groups', ellipsis)
              | String c t =>
                  if negb (Ascii.eqb c ":"%char) then None
                  else match t with
                       | EmptyString => None
                       | String c' t' =>
                           if Ascii.eqb c' ":"%char then
                             match ellipsis with
                             | Some _ => None
                             | None =>
                                 match t' with
                                 | EmptyString => Some (EmptyString, groups', Some (length groups'))
                                 | _ => parseIPv6_loop f t' groups' (Some (length groups'))
                                 end
                             end
                           else parseIPv6_loop f t groups' ellipsis
                       end
              end
        end
  end.

(** The zone is what follows the first percent sign, and must not be empty. *)
Definition split_zone (s : string) : option (string * string) :=
  match CutByte s "%"%char with
  | Some (a, z) => if z =?s "" then None else Some (a, z)
  | None => Some (s, EmptyString)
  end.

(** A leading ellipsis. *)
Definition split_ellipsis (s : string) : string * option nat :=
  if HasPrefix s "::" then (str_drop 2 s, Some 0%nat) else (s, None).

(** The end of [parseIPv6]: the whole text must be used, and the ellipsis
    stands for at least one group. *)
Definition expand_ellipsis (groups : list Z) (ellipsis : option nat) : option (list Z) :=
  if (length groups <? 8)%nat then
    option_map (fun e => take e groups ++ replicate (8 - length groups) 0 ++ drop e groups)
      ellipsis
  else match ellipsis with Some _ => None | None => Some groups end.

Definition parseIPv6 (s : string) : option Addr :=
  match split_zone s with
  | None => None
  | Some (body, zone) =>
      if body =?s "::" then Some (Addr6 0 zone)
      else
        let '(t, ellipsis) := split_ellipsis body in
        match parseIPv6_loop 8 t [] ellipsis with
        | Some (EmptyString, groups, ellipsis') =>
            option_map (fun gs => Addr6 (be_groups gs) zone) (expand_ellipsis groups ellipsis')
        | _ => None
        end
  end.

(** [ParseAddr] dispatches on the first dot, colon or percent sign. *)
Fixpoint ParseAddr_kind (s : string) : option ascii :=
  match s with
  | EmptyString => None
  | String c t =>
      if Ascii.eqb c "."%char || Ascii.eqb c ":"%char || Ascii.eqb c "%"%char
      then Some c else ParseAddr_kind t
  end.

Definition ParseAddr (s : string) : option Addr :=
  match ParseAddr_kind s with
  | Some c => if Ascii.eqb c "."%char then parseIPv4 s
              else if Ascii.eqb c ":"%char then parseIPv6 s
              else None
  | None => None
  end.

(** ** Prefixes *)

(** [p_bits] is [Prefix.Bits()]: -1 for an invalid prefix. *)
Record Prefix : Type := mkPrefix { p_ip : Addr; p_bits : Z }.

#[export] Instance Prefix_eq_dec : EqDecision Prefix.
Proof. solve_decision. Defined.

Definition PrefixFrom (ip : Addr) (bits : Z) : Prefix :=
  mkPrefix (withoutZone ip)
    (if IsValid ip && (0 <=? bits) && (bits <=? BitLen ip) then bits else -1).

Definition ParsePrefix (s : string) : option Prefix :=
  match LastIndexByte s "/"%char with
  | None => None
  | Some i =>
      match ParseAddr (str_take i s) with
      | None => None
      | Some ip =>
          if hasZone ip then None
          else
            let bitsStr := str_drop (S i) s in
            let bad := match bitsStr with
                       | String c (String _ _) =>
                           negb ((49 <=? byte_of c) && (byte_of c <=? 57))
                       | _ => false
                       end in
            if bad then None
            else match Atoi bitsStr with
                 | None => None
                 | Some bits =>
                     let maxBits := if Is6 ip then 128 else 32 in
                     if (bits <? 0) || (maxBits <? bits) then None
                     else Some (PrefixFrom ip bits)
                 end
      end
  end.

Definition mask6 (n : Z) : Z := Z.shiftl (Z.ones n) (128 - n).

(** [Prefix.Contains]: families must agree, and an address with a zone is in
    no prefix. *)
Definition Contains (p : Prefix) (ip : Addr) : bool :=
  if (p_bits p <? 0) || hasZone ip then false
  else match p_ip p, ip with
       | Addr4 pa, Addr4 a => Z.shiftr (Z.lxor a pa) (32 - p_bits p) =? 0
       | Addr6 pa _, Addr6 a _ => Z.land (Z.lxor a pa) (mask6 (p_bits p)) =? 0
       | _, _ => false
       end.

(** ** Printing *)

Definition string4 (a : Z) : string :=
  Itoa (v4 a 0) +:+ "." +:+ Itoa (v4 a 1) +:+ "." +:+ Itoa (v4 a 2) +:+ "." +:+ Itoa (v4 a 3).

Definition hex_chr (d : Z) : ascii := if d <? 10 then chr (48 + d) else chr (87 + d).

Fixpoint hex_go (fuel : nat) (z : Z) (acc : string) : string :=
  match fuel with
  | O => acc
  | S f => let acc' := String (hex_chr (z mod 16)) acc in
           if z <? 16 then acc' else hex_go f (z / 16) acc'
  end.

(** [appendHex] of a 16-bit group: at most four digits. *)
Definition appendHex (z : Z) : string := hex_go 4 z "".

Definition groups6 (a : Z) : list Z := map (v6u16 a) [0; 1; 2; 3; 4; 5; 6; 7].

Fixpoint zero_run (gs : list Z) : nat :=
  match gs with
  | g :: t => if g =? 0 then S (zero_run t) else O
  | [] => O
  end.

(** The first longest run of at least two zero groups: start and length. *)
Definition zero_range (gs : list Z) : nat * nat :=
  fold_left (fun best i => let l := zero_run (drop i gs) in
                           if (2 <=? l)%nat && (snd best <? l)%nat then (i, l) else best)
    (seq 0 8) (255%nat, 0%nat).

Fixpoint join_groups (gs : list Z) : string :=
  match gs with
  | [] => EmptyString
  | [g] => appendHex g
  | g :: t => appendHex g +:+ ":" +:+ join_groups t
  end.

Definition string6 (a : Z) : string :=
  let gs := groups6 a in
  let '(start, n) := zero_range gs in
  if (n =? 0)%nat then join_groups gs
  else join_groups (take start gs) +:+ "::" +:+ join_groups (drop (start + n) gs).

Definition zone_suffix (z : string) : string :=
  if z =?s "" then EmptyString else String "%"%char z.

Definition AddrString (ip : Addr) : string :=
  match ip with
  | AddrZero => "invalid IP"
  | Addr4 a => string4 a
  | Addr6 a z =>
      if Is4In6 ip then "::ffff:" +:+ string4 (Z.land a (Z.ones 32)) +:+ zone_suffix z
      else string6 a +:+ zone_suffix z
  end.

(** ** [net.JoinHostPort] and [net.SplitHostPort] *)

Definition JoinHostPort (host port : string) : string :=
  if ContainsByte host ":"%char then "[" +:+ host +:+ "]:" +:+ port
  else host +:+ ":" +:+ port.

(** The two results of [SplitHostPort], [None] for its error. *)
Definition SplitHostPort (hostport : string) : option (string * string) :=
  match LastIndexByte hostport ":"%char with
  | None => None
  | Some i =>
      let finish (host : string) (j k : nat) :=
        if ContainsByte (str_drop j hostport) "["%char then None
        else if ContainsByte (str_drop k hostport) "]"%char then None
        else Some (host, str_drop (S i) hostport) in
      if HasPrefix hostport "[" then
        match IndexByte hostport "]"%char with
        | None => None
        | Some e =>
            if (S e =? i)%nat
            then finish (str_take (e - 1) (str_drop 1 hostport)) 1%nat (S e)
            else None
        end
      else
        let host := str_take i hostport in
        if ContainsByte host ":"%char then None else finish host 0%nat 0%nat
  end.

(** ** Well-formed addresses *)

Definition wf_addr (ip : Addr) : Prop :=
  match ip with
  | AddrZero => True
  | Addr4 a => 0 <= a < 2 ^ 32
  | Addr6 a _ => 0 <= a < 2 ^ 128
  end.

Definition digits_in (B : Z) : list Z -> Prop := Forall (fun d => 0 <= d < B).

Lemma digits_in_cons B d ds : 0 <= d < B -> digits_in B ds -> digits_in B (d :: ds).
Proof. intros. by apply Forall_cons. Qed.

Lemma digits_in_nil B : digits_in B [].
Proof. apply Forall_nil. exact I. Qed.

#[local] Hint Resolve digits_in_cons digits_in_nil : gows.

Lemma be_val_app B ds es :
  be_val B (ds ++ es) = fold_left (fun acc d => acc * B + d) es (be_val B ds).
Proof. apply fold_left_app. Qed.

Lemma be_val_range B ds :
  0 < B -> digits_in B ds -> 0 <= be_val B ds < B ^ Z.of_nat (length ds).
Proof.
  intros HB. induction ds as [|d ds IH] using rev_ind; intros H; [cbn; lia|].
  apply Forall_app in H as [H1 H2]. apply Forall_cons in H2 as [Hd _].
  specialize (IH H1). rewrite be_val_app, length_app. simpl.
  rewrite Nat2Z.inj_add, Z.pow_add_r by lia. change (Z.of_nat 1) with 1. nia.
Qed.

Lemma digits_bytes s : digits_in 256 (map byte_of (chars s)).
Proof.
  apply Forall_forall. intros b Hb. apply list_elem_of_In, in_map_iff in Hb as (c & <- & _).
  apply byte_of_range.
Qed.

Lemma AddrFromSlice_wf bs ip : AddrFromSlice bs = Some ip -> wf_addr ip.
Proof.
  unfold AddrFromSlice. intros H.
  pose proof (be_val_range 256 (map byte_of (chars bs)) ltac:(lia) (digits_bytes bs)) as Hr.
  rewrite List.length_map, length_chars in Hr.
  destruct (String.length bs) as [|[|[|[|[|n]]]]] eqn:E; try done.
  - injection H as <-. exact Hr.
  - do 11 (destruct n as [|n]; [done|]). destruct n; [|done]. injection H as <-. exact Hr.
Qed.

Lemma parseIPv4Fields_go_range s start dot val digLen fields r :
  parseIPv4Fields_go s start dot val digLen fields = Some r ->
  0 <= val < 256 -> digits_in 256 fields -> (length fields <= 3)%nat ->
  digits_in 256 r /\ length r = 4%nat.
Proof.
  revert start dot val digLen fields.
  induction s as [|c s IH]; intros start dot val digLen fields H Hv Hf Hl; simpl in H.
  - destruct (length fields <? 3)%nat eqn:E; [done|]. injection H as <-.
    apply Nat.ltb_ge in E. split.
    + apply Forall_app. split; [by apply Forall_rev|]. auto with gows.
    + rewrite length_app, length_rev. simpl. lia.
  - destruct (digit_of c) as [d|] eqn:Ed.
    + apply digit_of_range in Ed. destruct (_ && _); [done|].
      destruct (255 <? val * 10 + d) eqn:E; [done|]. bool_facts. eapply IH; [done|lia|done..].
    + destruct (Ascii.eqb c "."); [|done]. destruct (_ || _); [done|].
      destruct (length fields =? 3)%nat eqn:E; [done|]. apply Nat.eqb_neq in E.
      eapply IH; [done|lia| |simpl; lia]. auto with gows.
Qed.

Lemma parseIPv4Fields_range s r :
  parseIPv4Fields s = Some r -> digits_in 256 r /\ length r = 4%nat.
Proof.
  intros H. eapply parseIPv4Fields_go_range in H; [done|lia|auto with gows|simpl; lia].
Qed.

Lemma parseIPv4_wf s ip : parseIPv4 s = Some ip -> wf_addr ip.
Proof.
  unfold parseIPv4. destruct (parseIPv4Fields s) as [fs|] eqn:E; [|done]. intros [= <-].
  apply parseIPv4Fields_range in E as [Hd Hl]. simpl.
  pose proof (be_val_range 256 fs ltac:(lia) Hd) as Hr. rewrite Hl in Hr. exact Hr.
Qed.

Lemma hex_of_range c d : hex_of c = Some d -> 0 <= d < 16.
Proof.
  unfold hex_of.
  destruct (_ && _) eqn:E1; [intros [= <-]; bool_facts; lia|].
  destruct (_ && _) eqn:E2 in |- *; [intros [= <-]; bool_facts; lia|].
  destruct (_ && _) eqn:E3 in |- *; [intros [= <-]; bool_facts; lia|]. done.
Qed.

Lemma scan_hex_range s off acc v n rest :
  scan_hex s off acc = Some (v, n, rest) ->
  (off <= 4)%nat -> 0 <= acc < 16 ^ Z.of_nat off -> 0 <= v < 65536.
Proof.
  revert off acc; induction s as [|c s IH]; intros off acc H Ho Ha; simpl in H.
  - injection H as <- <- <-. split; [lia|]. eapply Z.lt_le_trans; [apply Ha|].
    apply (Z.pow_le_mono_r 16 _ 4); lia.
  - destruct (hex_of c) as [d|] eqn:Ed.
    + destruct (3 <? off)%nat eqn:E; [done|]. apply Nat.ltb_ge in E.
      apply hex_of_range in Ed. eapply IH; [done|lia|].
      rewrite Nat2Z.inj_succ, Z.pow_succ_r by lia. lia.
    + injection H as <- <- <-. split; [lia|]. eapply Z.lt_le_trans; [apply Ha|].
      apply (Z.pow_le_mono_r 16 _ 4); lia.
Qed.

Lemma digits_in_app B ds es : digits_in B (ds ++ es) <-> digits_in B ds /\ digits_in B es.
Proof. apply Forall_app. Qed.

Lemma parseIPv6_loop_range fuel s groups ell rest gs ell' :
  parseIPv6_loop fuel s groups ell = Some (rest, gs, ell') ->
  digits_in 65536 groups -> (length groups <= 8)%nat ->
  digits_in 65536 gs /\ (length gs <= 8)%nat.
Proof.
  revert s groups ell. induction fuel as [|f IH]; intros s groups ell H Hg Hl; cbn [parseIPv6_loop] in H.
  { by injection H as <- <- <-. }
  destruct (8 <=? length groups)%nat eqn:E8; [by injection H as <- <- <-|].
  apply Nat.leb_gt in E8.
  destruct (scan_hex s 0 0) as [[[acc n] r]|] eqn:Es; [|done].
  apply scan_hex_range in Es as Hacc; [|lia|simpl; lia].
  assert (digits_in 65536 (groups ++ [acc])) as Hg'.
  { apply digits_in_app. split; [done|]. auto with gows. }
  assert (length (groups ++ [acc]) <= 8)%nat as Hl' by (rewrite length_app; simpl; lia).
  destruct n as [|n]; [done|].
  destruct (HasPrefix r "."); [|by repeat (case_match; simplify_eq; eauto)].
  destruct (_ && _); [done|]. destruct (6 <? length groups)%nat eqn:E6; [done|].
  apply Nat.ltb_ge in E6.
  destruct (parseIPv4Fields s) as [fs|] eqn:Ef; [|done].
  apply parseIPv4Fields_range in Ef as [Hf _].
  destruct fs as [|a [|b [|c [|d [|? ?]]]]]; try done. injection H as <- <- <-.
  repeat (apply Forall_cons in Hf as [? Hf]).
  rewrite length_app. split; [|simpl; lia].
  apply digits_in_app. split; [done|]. do 2 (apply digits_in_cons; [lia|]). auto with gows.
Qed.

Lemma expand_ellipsis_range groups ell gs :
  expand_ellipsis groups ell = Some gs ->
  digits_in 65536 groups -> (length groups <= 8)%nat ->
  digits_in 65536 gs /\ length gs = 8%nat.
Proof.
  unfold expand_ellipsis. intros H Hd Hl. destruct (length groups <? 8)%nat eqn:E.
  - destruct ell as [e|]; [|done]. simpl in H. injection H as <-. apply Nat.ltb_lt in E. split.
    + rewrite !digits_in_app. split_and!.
      * by apply Forall_take.
      * apply Forall_replicate. lia.
      * by apply Forall_drop.
    + rewrite !length_app, length_replicate, length_take, length_drop. lia.
  - destruct ell; [done|]. injection H as <-. apply Nat.ltb_ge in E. split; [done|lia].
Qed.

Lemma be_groups_range gs :
  digits_in 65536 gs -> length gs = 8%nat -> 0 <= be_groups gs < 2 ^ 128.
Proof.
  intros Hd Hl. pose proof (be_val_range 65536 gs ltac:(lia) Hd) as Hr.
  rewrite Hl in Hr. unfold be_groups.
  replace (2 ^ 128) with (65536 ^ Z.of_nat 8) by reflexivity. exact Hr.
Qed.

Lemma parseIPv6_wf s ip : parseIPv6 s = Some ip -> wf_addr ip.
Proof.
  unfold parseIPv6. destruct (split_zone s) as [[body zone]|]; [|done].
  destruct (body =?s "::"); [intros [= <-]; simpl; lia|].
  destruct (split_ellipsis body) as [t ell].
  destruct (parseIPv6_loop 8 t [] ell) as [[[[|? ?] gs] ell']|] eqn:E; [|done..].
  apply parseIPv6_loop_range in E as [Hd Hl]; [|auto with gows|simpl; lia].
  destruct (expand_ellipsis gs ell') as [gs'|] eqn:Ee; [|done]. intros [= <-].
  apply expand_ellipsis_range in Ee as [Hd' Hl']; [|done..]. by apply be_groups_range.
Qed.

(** Every literal the parser accepts is an address of its family's width. *)
Lemma ParseAddr_wf s ip : ParseAddr s = Some ip -> wf_addr ip.
Proof.
  unfold ParseAddr. destruct (ParseAddr_kind s); [|done].
  destruct (Ascii.eqb _ _); [apply parseIPv4_wf|].
  destruct (Ascii.eqb _ _); [apply parseIPv6_wf|done].
Qed.

Lemma ParseAddr_valid s ip : ParseAddr s = Some ip -> IsValid ip = true.
Proof.
  unfold ParseAddr, parseIPv4, parseIPv6. intros H.
  destruct (ParseAddr_kind s); [|done].
  destruct (Ascii.eqb _ _); [destruct (parseIPv4Fields s); by simplify_eq/=|].
  destruct (Ascii.eqb _ _); [|done].
  destruct (split_zone s) as [[body zone]|]; [|done].
  destruct (body =?s "::"); [by injection H as <-|].
  destruct (split_ellipsis body) as [t ell].
  destruct (parseIPv6_loop 8 t [] ell) as [[[[|? ?] gs] ell']|]; [|done..].
  by destruct (expand_ellipsis gs ell'); simplify_eq/=.
Qed.

Lemma AddrFromSlice_valid bs ip : AddrFromSlice bs = Some ip -> IsValid ip = true.
Proof. unfold AddrFromSlice. intros H. by repeat (case_match; simplify_eq). Qed.

Lemma Unmap_wf ip : wf_addr ip -> wf_addr (Unmap ip).
Proof.
  destruct ip as [|a|a z]; [exact id..|]. unfold Unmap.
  destruct (Is4In6 (Addr6 a z)); [|exact id].
  intros _. unfold wf_addr. rewrite Z.land_ones by lia. apply Z.mod_pos_bound. lia.
Qed.

Lemma Unmap_not_4in6 ip : Is4In6 (Unmap ip) = false.
Proof.
  destruct ip as [|a|a z]; [done..|]. unfold Unmap. destruct (Is4In6 (Addr6 a z)) eqn:E; done.
Qed.

Lemma Unmap_id ip : Is4In6 ip = false -> Unmap ip = ip.
Proof. destruct ip as [|a|a z]; [done..|]. unfold Unmap. by intros ->. Qed.

Lemma Unmap_Unmap ip : Unmap (Unmap ip) = Unmap ip.
Proof. apply Unmap_id, Unmap_not_4in6. Qed.

(** ** Prefix membership as equality of leading bits *)

(** [a] and [base], of width [w], agree on their first [bits] bits. *)
Definition same_block (w base bits a : Z) : Prop :=
  Z.shiftr a (w - bits) = Z.shiftr base (w - bits).

Lemma lxor_shiftr_0 a b k : Z.shiftr (Z.lxor a b) k = 0 <-> Z.shiftr a k = Z.shiftr b k.
Proof. rewrite Z.shiftr_lxor. apply Z.lxor_eq_0_iff. Qed.

Lemma Contains_4 pa bits a :
  0 <= bits -> Contains (mkPrefix (Addr4 pa) bits) (Addr4 a) = true <-> same_block 32 pa bits a.
Proof.
  intros Hb. unfold Contains, same_block, p_bits, p_ip, hasZone.
  assert ((bits <? 0) = false) as -> by (apply Z.ltb_ge; lia).
  cbn [orb]. by rewrite Z.eqb_eq, lxor_shiftr_0.
Qed.

Lemma land_mask6 x n :
  0 <= n <= 128 -> 0 <= x < 2 ^ 128 -> Z.land x (mask6 n) = 0 <-> Z.shiftr x (128 - n) = 0.
Proof.
  intros Hn Hx. unfold mask6. split; intros H.
  - apply (f_equal (fun z => Z.shiftr z (128 - n))) in H.
    rewrite Z.shiftr_land, Z.shiftr_shiftl_l, Z.sub_diag, Z.shiftl_0_r, Z.shiftr_0_l in H by lia.
    rewrite Z.land_ones in H by lia.
    rewrite Z.mod_small in H; [done|].
    rewrite Z.shiftr_div_pow2 by lia. split; [apply Z.div_pos; lia|].
    apply Z.div_lt_upper_bound; [lia|]. rewrite <- Z.pow_add_r by lia.
    replace (128 - n + n) with 128 by lia. lia.
  - apply Z.bits_inj'. intros i Hi. rewrite Z.land_spec, Z.bits_0.
    destruct (Z.ltb_spec i (128 - n)).
    + rewrite (Z.shiftl_spec_low _ _ i) by lia. apply andb_false_r.
    + replace i with (i - (128 - n) + (128 - n)) by lia.
      rewrite <- Z.shiftr_spec, H, Z.bits_0 by lia. done.
Qed.

Lemma Contains_6 pa pz bits a :
  0 <= bits <= 128 -> 0 <= pa < 2 ^ 128 -> 0 <= a < 2 ^ 128 ->
  Contains (mkPrefix (Addr6 pa pz) bits) (Addr6 a "") = true <-> same_block 128 pa bits a.
Proof.
  intros Hb Hp Ha. unfold Contains, same_block, p_bits, p_ip, hasZone.
  assert ((bits <? 0) = false) as -> by (apply Z.ltb_ge; lia).
  cbn [orb negb String.eqb]. rewrite Z.eqb_eq.
  assert (0 <= Z.lxor a pa < 2 ^ 128) as Hx.
  { split; [apply Z.lxor_nonneg; lia|].
    destruct (Z.eq_dec (Z.lxor a pa) 0) as [->|]; [lia|].
    assert (0 <= Z.lxor a pa) by (apply Z.lxor_nonneg; lia).
    apply Z.log2_lt_pow2; [lia|].
    assert (forall z, 0 <= z < 2 ^ 128 -> Z.log2 z < 128) as Hlog.
    { intros z Hz. destruct (Z.eq_dec z 0) as [->|]; [done|]. apply Z.log2_lt_pow2; lia. }
    eapply Z.le_lt_trans; [apply Z.log2_lxor; lia|].
    apply Z.max_lub_lt; apply Hlog; lia. }
  rewrite land_mask6 by lia. apply lxor_shiftr_0.
Qed.

(** An address with a zone is in no prefix at all. *)
Lemma Contains_zone p a z : z <> "" -> Contains p (Addr6 a z) = false.
Proof.
  intros Hz. unfold Contains, hasZone. apply String.eqb_neq in Hz. rewrite Hz.
  cbn [negb]. by rewrite orb_true_r.
Qed.

(** ** The classifiers as blocks

    Each is a test of the leading bits; on 16 bits both sides are compared on
    every value. *)

Fixpoint forall_bits (k : nat) (f : Z -> bool) (x : Z) : bool :=
  match k with
  | O => f x
  | S k' => forall_bits k' f (2 * x) && forall_bits k' f (2 * x + 1)
  end.

Definition forall16 (f : Z -> bool) : bool := forall_bits 16 f 0.

Lemma forall_bits_spec k f x y :
  forall_bits k f x = true ->
  x * 2 ^ Z.of_nat k <= y < (x + 1) * 2 ^ Z.of_nat k -> f y = true.
Proof.
  revert x; induction k as [|k IH]; intros x H Hy; cbn [forall_bits] in H.
  - change (2 ^ Z.of_nat 0) with 1 in Hy. replace y with x by lia. done.
  - apply andb_true_iff in H as [H1 H2]. rewrite Nat2Z.inj_succ, Z.pow_succ_r in Hy by lia.
    destruct (Z.lt_ge_cases y ((2 * x + 1) * 2 ^ Z.of_nat k)).
    + apply (IH _ H1). lia.
    + apply (IH _ H2). lia.
Qed.

Lemma forall16_spec f x : forall16 f = true -> 0 <= x < 65536 -> f x = true.
Proof.
  intros H Hx. apply (forall_bits_spec 16 f 0); [exact H|].
  change (2 ^ Z.of_nat 16) with 65536. lia.
Qed.

Lemma shiftr_range a w k : 0 <= k <= w -> 0 <= a < 2 ^ w -> 0 <= Z.shiftr a k < 2 ^ (w - k).
Proof.
  intros Hk Ha. rewrite Z.shiftr_div_pow2 by lia. split; [apply Z.div_pos; lia|].
  apply Z.div_lt_upper_bound; [lia|]. rewrite <- Z.pow_add_r by lia.
  replace (k + (w - k)) with w by lia. lia.
Qed.

Lemma v4_top a : v4 a 0 = Z.land (Z.shiftr (Z.shiftr a 16) 8) 255.
Proof. unfold v4. by rewrite Z.shiftr_shiftr by lia. Qed.

Lemma v4_second a : v4 a 1 = Z.land (Z.shiftr a 16) 255.
Proof. reflexivity. Qed.

Lemma IsPrivate_4 a :
  0 <= a < 2 ^ 32 ->
  IsPrivate (Addr4 a) =
    (Z.shiftr a 24 =? 10) || (Z.shiftr a 20 =? 2753) || (Z.shiftr a 16 =? 49320).
Proof.
  intros Ha. unfold IsPrivate, Unmap. rewrite v4_top, v4_second.
  replace (Z.shiftr a 24) with (Z.shiftr (Z.shiftr a 16) 8) by (by rewrite Z.shiftr_shiftr).
  replace (Z.shiftr a 20) with (Z.shiftr (Z.shiftr a 16) 4) by (by rewrite Z.shiftr_shiftr).
  pose proof (shiftr_range a 32 16 ltac:(lia) Ha) as Hx.
  revert Hx. generalize (Z.shiftr a 16). intros x Hx.
  apply eqb_prop.
  refine (forall16_spec (fun x => Bool.eqb _ (_ || _ || _)) x _ Hx).
  vm_compute. reflexivity.
Qed.

Lemma IsLoopback_4 a :
  0 <= a < 2 ^ 32 -> IsLoopback (Addr4 a) = (Z.shiftr a 24 =? 127).
Proof.
  intros Ha. unfold IsLoopback, Unmap. rewrite v4_top.
  replace (Z.shiftr a 24) with (Z.shiftr (Z.shiftr a 16) 8) by (by rewrite Z.shiftr_shiftr).
  pose proof (shiftr_range a 32 16 ltac:(lia) Ha) as Hx.
  revert Hx. generalize (Z.shiftr a 16). intros x Hx.
  apply eqb_prop. refine (forall16_spec (fun x => Bool.eqb (_ =? _) (_ =? _)) x _ Hx).
  vm_compute. reflexivity.
Qed.

Lemma IsLinkLocalUnicast_4 a :
  0 <= a < 2 ^ 32 -> IsLinkLocalUnicast (Addr4 a) = (Z.shiftr a 16 =? 43518).
Proof.
  intros Ha. unfold IsLinkLocalUnicast, Unmap. rewrite v4_top, v4_second.
  pose proof (shiftr_range a 32 16 ltac:(lia) Ha) as Hx.
  revert Hx. generalize (Z.shiftr a 16). intros x Hx.
  apply eqb_prop. refine (forall16_spec (fun x => Bool.eqb (_ && _) (_ =? _)) x _ Hx).
  vm_compute. reflexivity.
Qed.

Lemma v6_0_shiftr a : v6_0 a = Z.land (Z.shiftr (Z.shiftr a 112) 8) 255.
Proof. unfold v6_0. by rewrite Z.shiftr_shiftr by lia. Qed.

Lemma IsPrivate_6 a z :
  0 <= a < 2 ^ 128 -> Is4In6 (Addr6 a z) = false ->
  IsPrivate (Addr6 a z) = (Z.shiftr a 121 =? 126).
Proof.
  intros Ha H. unfold IsPrivate. rewrite Unmap_id by done. rewrite v6_0_shiftr.
  replace (Z.shiftr a 121) with (Z.shiftr (Z.shiftr a 112) 9) by (by rewrite Z.shiftr_shiftr).
  pose proof (shiftr_range a 128 112 ltac:(lia) Ha) as Hx.
  revert Hx. generalize (Z.shiftr a 112). intros x Hx.
  apply eqb_prop. refine (forall16_spec (fun x => Bool.eqb (_ =? _) (_ =? _)) x _ Hx).
  vm_compute. reflexivity.
Qed.

Lemma IsLinkLocalUnicast_6 a z :
  0 <= a < 2 ^ 128 -> Is4In6 (Addr6 a z) = false ->
  IsLinkLocalUnicast (Addr6 a z) = (Z.shiftr a 118 =? 1018).
Proof.
  intros Ha H. unfold IsLinkLocalUnicast. rewrite Unmap_id by done.
  unfold v6u16. change (16 * (7 - 0)) with 112.
  replace (Z.shiftr a 118) with (Z.shiftr (Z.shiftr a 112) 6) by (by rewrite Z.shiftr_shiftr).
  pose proof (shiftr_range a 128 112 ltac:(lia) Ha) as Hx.
  revert Hx. generalize (Z.shiftr a 112). intros x Hx.
  apply eqb_prop. refine (forall16_spec (fun x => Bool.eqb (_ =? _) (_ =? _)) x _ Hx).
  vm_compute. reflexivity.
Qed.
