(* ===== verification/NetipText.v ===== *)
(** * Addresses as text: parsing what is printed

    Every valid address parses back from its own text: dotted bytes, groups of
    hexadecimal digits with the longest run of zero groups elided, the mapped
    form of an IPv4 address inside an IPv6 one, and zones.  A [net.IP] survives
    the same round trip through [net.ParseIP]. *)

From S2P Require Import Prelude GoStrings Netip.

(** ** Dotted bytes *)

(** The digits of a byte, one by one. *)
Definition byte_text (d : Z) : string :=
  if d <? 10 then String (digit_chr d) ""
  else if d <? 100 then String (digit_chr (d / 10)) (String (digit_chr (d mod 10)) "")
  else String (digit_chr (d / 100)) (String (digit_chr (d / 10 mod 10)) (String (digit_chr (d mod 10)) "")).

Lemma Itoa_byte d : 0 <= d < 256 -> Itoa d = byte_text d.
Proof.
  intros Hd. apply String.eqb_eq, (forall_bits_spec 8 (fun d => Itoa d =?s byte_text d) 0).
  - vm_compute. reflexivity.
  - change (2 ^ Z.of_nat 8) with 256. lia.
Qed.

(** One digit of a field. *)
Lemma fields_digit x t start dot val n fields :
  0 <= x < 10 -> (n = 1%nat -> val <> 0) -> val * 10 + x <= 255 ->
  parseIPv4Fields_go (String (digit_chr x) t) start dot val n fields
  = parseIPv4Fields_go t false false (val * 10 + x) (S n) fields.
Proof.
  intros Hx Hn Hv. cbn [parseIPv4Fields_go]. rewrite digit_of_digit_chr by done.
  assert ((n =? 1)%nat && (val =? 0) = false) as ->.
  { destruct (Nat.eqb_spec n 1) as [->|]; [|done]. apply Z.eqb_neq. auto. }
  by rewrite (proj2 (Z.ltb_ge 255 _) Hv).
Qed.

Lemma fields_byte d rest start dot fields :
  0 <= d < 256 ->
  exists n, parseIPv4Fields_go (byte_text d +:+ rest) start dot 0 0 fields
            = parseIPv4Fields_go rest false false d (S n) fields.
Proof.
  intros Hd. unfold byte_text.
  destruct (d <? 10) eqn:E1; bool_facts; [|destruct (d <? 100) eqn:E2; bool_facts];
    rewrite ?str_app_cons, str_app_nil_l;
    rewrite !fields_digit by (Z.to_euclidean_division_equations; lia);
    eexists; f_equal; Z.to_euclidean_division_equations; lia.
Qed.

(** A finished field, and the dot after it. *)
Lemma fields_dot t val n fields :
  t <> "" -> length fields <> 3%nat ->
  parseIPv4Fields_go (String "."%char t) false false val n fields
  = parseIPv4Fields_go t false true 0 0 (val :: fields).
Proof.
  intros Ht Hf. cbn [parseIPv4Fields_go]. change (digit_of ".") with (@None Z). cbn [Ascii.eqb Bool.eqb orb].
  apply String.eqb_neq in Ht. rewrite Ht. cbn [orb]. by rewrite (proj2 (Nat.eqb_neq _ _) Hf).
Qed.

Definition bytes4 (a : Z) : list Z := [v4 a 0; v4 a 1; v4 a 2; v4 a 3].

Lemma v4_range a i : 0 <= v4 a i < 256.
Proof. unfold v4. change 255 with (Z.ones 8). rewrite Z.land_ones by lia. by apply Z.mod_pos_bound. Qed.

Lemma string4_bytes a :
  string4 a = byte_text (v4 a 0) +:+ String "."%char (byte_text (v4 a 1) +:+ String "."%char
                (byte_text (v4 a 2) +:+ String "."%char (byte_text (v4 a 3)))).
Proof. unfold string4. by rewrite !Itoa_byte by apply v4_range. Qed.

Lemma byte_text_nonempty d t : byte_text d +:+ t <> "".
Proof. unfold byte_text. by repeat case_match. Qed.

Lemma parseIPv4Fields_string4 a : parseIPv4Fields (string4 a) = Some (bytes4 a).
Proof.
  unfold parseIPv4Fields. rewrite string4_bytes, <-(str_app_nil_r (byte_text (v4 a 3))).
  edestruct (fields_byte (v4 a 0)) as [n0 ->]; [apply v4_range|]. rewrite fields_dot by (done || apply byte_text_nonempty).
  edestruct (fields_byte (v4 a 1)) as [n1 ->]; [apply v4_range|]. rewrite fields_dot by (done || apply byte_text_nonempty).
  edestruct (fields_byte (v4 a 2)) as [n2 ->]; [apply v4_range|]. rewrite fields_dot by (done || apply byte_text_nonempty).
  edestruct (fields_byte (v4 a 3)) as [n3 ->]; [apply v4_range|]. reflexivity.
Qed.

Lemma be_bytes4 a : 0 <= a < 2 ^ 32 -> be_bytes (bytes4 a) = a.
Proof.
  intros Ha. unfold be_bytes, be_val, bytes4, v4. cbn [fold_left]. change 255 with (Z.ones 8).
  rewrite !Z.land_ones, !Z.shiftr_div_pow2 by lia.
  change (2 ^ (8 * (3 - 0))) with 16777216. change (2 ^ (8 * (3 - 1))) with 65536.
  change (2 ^ (8 * (3 - 2))) with 256. change (2 ^ (8 * (3 - 3))) with 1. change (2 ^ 8) with 256.
  Z.to_euclidean_division_equations; lia.
Qed.

(** ** Hexadecimal groups *)

(** A text at which a group ends. *)
Definition stops (s : string) : Prop :=
  match s with String c _ => hex_of c = None | EmptyString => True end.

Lemma hex_of_hex_chr x : 0 <= x < 16 -> hex_of (hex_chr x) = Some x.
Proof.
  intros Hx.
  pose proof (forall_bits_spec 4 (fun x => match hex_of (hex_chr x) with Some y => y =? x | None => false end) 0 x
    eq_refl ltac:(change (2 ^ Z.of_nat 4) with 16; lia)) as H.
  cbv beta in H. destruct (hex_of (hex_chr x)); [|done]. bool_facts. by subst.
Qed.

(** A decimal digit is a hexadecimal one. *)
Lemma digit_chr_hex x : 0 <= x < 10 -> digit_chr x = hex_chr x.
Proof. intros Hx. unfold hex_chr. by rewrite (proj2 (Z.ltb_lt x 10)) by lia. Qed.

Lemma scan_hex_digit x t off acc :
  0 <= x < 16 -> (off <= 3)%nat -> scan_hex (String (hex_chr x) t) off acc = scan_hex t (S off) (acc * 16 + x).
Proof.
  intros Hx Ho. cbn [scan_hex]. rewrite hex_of_hex_chr by done. by rewrite (proj2 (Nat.ltb_ge 3 off) Ho).
Qed.

Lemma scan_hex_stop t off acc : stops t -> scan_hex t off acc = Some (acc, off, t).
Proof. destruct t as [|c t]; [done|]. cbn [stops scan_hex]. by intros ->. Qed.

Lemma scan_appendHex g rest :
  0 <= g < 65536 -> stops rest ->
  exists n, scan_hex (appendHex g +:+ rest) 0 0 = Some (g, S n, rest).
Proof.
  intros Hg Hr. unfold appendHex. cbn [hex_go].
  destruct (g <? 16) eqn:E1; bool_facts; [|destruct (g / 16 <? 16) eqn:E2; bool_facts;
    [|destruct (g / 16 / 16 <? 16) eqn:E3; bool_facts;
      [|destruct (g / 16 / 16 / 16 <? 16); bool_facts]]].
  all: rewrite !str_app_cons, str_app_nil_l;
    rewrite !scan_hex_digit by (lia || apply Z.mod_pos_bound; lia);
    rewrite scan_hex_stop by done; eexists; do 3 f_equal; Z.to_euclidean_division_equations; lia.
Qed.

(** The digits of a byte are also scanned as a group, whose value the parser
    then drops. *)
Lemma scan_byte d rest :
  0 <= d < 256 -> stops rest -> exists v n, scan_hex (byte_text d +:+ rest) 0 0 = Some (v, S n, rest).
Proof.
  intros Hd Hr. unfold byte_text.
  destruct (d <? 10) eqn:E1; bool_facts; [|destruct (d <? 100) eqn:E2; bool_facts];
    rewrite ?str_app_cons, str_app_nil_l;
    rewrite !digit_chr_hex by (Z.to_euclidean_division_equations; lia);
    rewrite !scan_hex_digit by (lia || (Z.to_euclidean_division_equations; lia));
    rewrite scan_hex_stop by done; by eexists _, _.
Qed.

(** The first byte of a group is a hexadecimal digit. *)
Lemma appendHex_head g : 0 <= g -> exists c t, appendHex g = String c t /\ hex_of c <> None.
Proof.
  intros Hg. unfold appendHex. cbn [hex_go].
  assert (forall z, hex_of (hex_chr (z mod 16)) <> None) as Hh
    by (intros z; rewrite hex_of_hex_chr by (apply Z.mod_pos_bound; lia); done).
  repeat case_match; eexists _, _; (split; [reflexivity|apply Hh]).
Qed.

(** ** The loop over groups *)

Definition group (g : Z) : Prop := 0 <= g < 65536.

Lemma join_groups_cons g gs :
  join_groups (g :: gs) = match gs with [] => appendHex g | _ => appendHex g +:+ ":" +:+ join_groups gs end.
Proof. by destruct gs. Qed.

Lemma join_groups_head g gs t :
  group g -> exists c u, join_groups (g :: gs) +:+ t = String c u /\ hex_of c <> None.
Proof.
  intros [Hg _]. destruct (appendHex_head g Hg) as (c & u & Hu & Hc). rewrite join_groups_cons, Hu.
  destruct gs; rewrite !str_app_cons; by eexists _, _.
Qed.

(** What the loop does after a group: [rest] follows it. *)
Lemma loop_group f g rest acc ell :
  group g -> stops rest -> HasPrefix rest "." = false -> (length acc < 8)%nat ->
  parseIPv6_loop (S f) (appendHex g +:+ rest) acc ell
  = match rest with
    | EmptyString => Some (EmptyString, acc ++ [g], ell)
    | String c t =>
        if negb (Ascii.eqb c ":"%char) then None
        else match t with
             | EmptyString => None
             | String c' t' =>
                 if Ascii.eqb c' ":"%char then
                   match ell with
                   | Some _ => None
                   | None =>
                       match t' with
                       | EmptyString => Some (EmptyString, acc ++ [g], Some (length (acc ++ [g])))
                       | _ => parseIPv6_loop f t' (acc ++ [g]) (Some (length (acc ++ [g])))
                       end
                   end
                 else parseIPv6_loop f t (acc ++ [g]) ell
             end
    end.
Proof.
  intros Hg Hs Hp Ha. destruct (scan_appendHex g rest Hg Hs) as [n Hn]. cbn [parseIPv6_loop].
  rewrite (proj2 (Nat.leb_gt 8 (length acc)) Ha), Hn, Hp. reflexivity.
Qed.

(** Groups to the end of the text. *)
Lemma loop_groups gs f acc ell :
  Forall group gs -> gs <> [] -> (length acc + length gs <= 8)%nat -> (length gs <= f)%nat ->
  parseIPv6_loop f (join_groups gs) acc ell = Some (EmptyString, acc ++ gs, ell).
Proof.
  revert f acc. induction gs as [|g gs IH]; intros f acc HF Hne Hl Hf; [done|].
  apply Forall_cons in HF as [Hg HF]. destruct f as [|f]; [cbn in Hf; lia|]. cbn [length] in Hl, Hf.
  rewrite join_groups_cons. destruct gs as [|g' gs].
  - rewrite <-(str_app_nil_r (appendHex g)), loop_group; [done..|lia].
  - rewrite loop_group; [|done|done|done|lia].
    change (":" +:+ join_groups (g' :: gs)) with (String ":"%char (join_groups (g' :: gs))).
    apply Forall_cons in HF as HF'. destruct HF' as [Hg' _].
    destruct (join_groups_head g' gs "" Hg') as (c & u & Hu & Hc). rewrite str_app_nil_r in Hu. rewrite Hu at 1.
    cbn [Ascii.eqb Bool.eqb negb]. destruct (Ascii.eqb_spec c ":"%char) as [->|_]; [done|].
    rewrite IH; [by rewrite <-app_assoc|done|done|rewrite length_app; cbn in *; lia|lia].
Qed.

(** Groups, an ellipsis, and groups. *)
Lemma loop_ellipsis gs hs f acc :
  Forall group gs -> Forall group hs -> gs <> [] ->
  (length acc + length gs + length hs <= 8)%nat -> (length gs + length hs <= f)%nat ->
  parseIPv6_loop f (join_groups gs +:+ "::" +:+ join_groups hs) acc None
  = Some (EmptyString, acc ++ gs ++ hs, Some (length acc + length gs)%nat).
Proof.
  revert f acc. induction gs as [|g gs IH]; intros f acc HF HF2 Hne Hl Hf; [done|].
  apply Forall_cons in HF as [Hg HF]. destruct f as [|f]; [cbn in Hf; lia|]. cbn [length] in Hl, Hf.
  rewrite join_groups_cons. destruct gs as [|g' gs].
  - rewrite loop_group; [|done|done|done|lia].
    change ("::" +:+ join_groups hs) with (String ":"%char (String ":"%char (join_groups hs))).
    cbn [Ascii.eqb Bool.eqb negb]. rewrite length_app. destruct hs as [|h hs]; [done|].
    apply Forall_cons in HF2 as HF'. destruct HF' as [Hh _].
    destruct (join_groups_head h hs "" Hh) as (c & u & Hu & _). rewrite str_app_nil_r in Hu. rewrite Hu at 1.
    rewrite loop_groups; [by rewrite <-app_assoc|done|done|rewrite length_app; cbn in *; lia|cbn in *; lia].
  - rewrite str_app_assoc, loop_group; [|done|done|done|lia].
    rewrite str_app_assoc.
    change (":" +:+ ?t) with (String ":"%char t).
    apply Forall_cons in HF as HF'. destruct HF' as [Hg' _].
    destruct (join_groups_head g' gs ("::" +:+ join_groups hs) Hg') as (c & u & Hu & Hc). rewrite Hu at 1.
    cbn [Ascii.eqb Bool.eqb negb]. destruct (Ascii.eqb_spec c ":"%char) as [->|_]; [done|].
    rewrite IH; [|done|done|done|rewrite length_app; cbn in *; lia|cbn in *; lia].
    rewrite <-app_assoc, length_app. cbn [length]. do 3 f_equal. lia.
Qed.

(** ** The characters of an address *)

Definition addr_char (c : ascii) : bool :=
  bool_decide (is_Some (hex_of c)) || Ascii.eqb c "."%char || Ascii.eqb c ":"%char.
Definition addr_chars (s : string) : bool := forallb addr_char (chars s).

Lemma addr_chars_app s t : addr_chars (s +:+ t) = addr_chars s && addr_chars t.
Proof. unfold addr_chars. by rewrite chars_app, forallb_app. Qed.

Lemma addr_chars_lacks s c : addr_chars s = true -> addr_char c = false -> IndexByte s c = None.
Proof.
  unfold addr_chars. induction s as [|d s IH]; intros Hs Hc; [done|].
  cbn [chars String.list_ascii_of_string forallb] in Hs. fold (chars s) in Hs. bool_facts. cbn [IndexByte].
  destruct (Ascii.eqb d c) eqn:E; [apply Ascii.eqb_eq in E; congruence|]. by rewrite IH.
Qed.

Lemma digits_addr_chars s : all_digits s -> addr_chars s = true.
Proof.
  induction s as [|d s IH]; intros H; [done|]. unfold addr_chars in *. cbn [chars String.list_ascii_of_string forallb].
  fold (chars s). rewrite IH.
  2:{ intros c Hc. apply H. by rewrite ContainsByte_cons, Hc, orb_true_r. }
  assert (digit_of d <> None) as Hd by (apply H; by rewrite ContainsByte_cons, Ascii.eqb_refl).
  rewrite andb_true_r. clear -Hd. destruct d as [[] [] [] [] [] [] [] []]; try reflexivity; by destruct Hd.
Qed.

Lemma string4_chars a : addr_chars (string4 a) = true /\ IndexByte (string4 a) ":"%char = None /\ string4 a <> "".
Proof.
  assert (forall i, 0 <= v4 a i) as Hv by (intros i; unfold v4; apply Z.land_nonneg; right; lia).
  unfold string4. split_and!.
  - rewrite !addr_chars_app, !(digits_addr_chars (Itoa _)) by (apply Itoa_digits, Hv). done.
  - rewrite !IndexByte_app_None. split_and!; try (apply Itoa_no_byte; [apply Hv|done]); done.
  - pose proof (Itoa_nonempty (v4 a 0)). by destruct (Itoa (v4 a 0)).
Qed.

Lemma hex_go_chars fuel z acc : 0 <= z -> addr_chars acc = true -> addr_chars (hex_go fuel z acc) = true.
Proof.
  revert z acc; induction fuel as [|f IH]; intros z acc Hz Ha; [done|]. cbn [hex_go].
  assert (addr_chars (String (hex_chr (z mod 16)) acc) = true) as Hacc.
  { unfold addr_chars in *. cbn [chars String.list_ascii_of_string forallb]. fold (chars acc). rewrite Ha, andb_true_r.
    unfold addr_char. rewrite hex_of_hex_chr by (apply Z.mod_pos_bound; lia). by rewrite bool_decide_eq_true_2. }
  destruct (z <? 16); [done|]. apply IH; [|done]. apply Z.div_pos; lia.
Qed.

Lemma join_groups_chars gs : Forall (fun g => 0 <= g) gs -> addr_chars (join_groups gs) = true.
Proof.
  induction 1 as [|g gs Hg _ IH]; [done|]. assert (addr_chars (appendHex g) = true) as Hh by (by apply hex_go_chars).
  cbn [join_groups]. destruct gs; [done|]. by rewrite !addr_chars_app, Hh, IH.
Qed.

Lemma string6_chars a : 0 <= a -> addr_chars (string6 a) = true.
Proof.
  intros Ha. unfold string6. assert (Forall (fun g => 0 <= g) (groups6 a)) as HF.
  { unfold groups6. rewrite Forall_map, Forall_forall. intros i _. unfold v6u16. apply Z.land_nonneg. right. lia. }
  destruct (zero_range (groups6 a)) as [start n]. destruct (n =? 0)%nat; [by apply join_groups_chars|].
  rewrite !addr_chars_app, !join_groups_chars; [done|by apply Forall_drop|by apply Forall_take].
Qed.

Lemma ParseAddr_kind_colon s : ParseAddr_kind s = Some ":"%char -> ContainsByte s ":"%char = true.
Proof.
  induction s as [|c s IH]; [done|]. cbn [ParseAddr_kind]. rewrite ContainsByte_cons.
  destruct (_ || _); [by intros [= ->]|]. intros H. by rewrite IH, orb_true_r.
Qed.

Lemma kind_skip s off acc v n rest :
  scan_hex s off acc = Some (v, n, rest) -> ParseAddr_kind s = ParseAddr_kind rest.
Proof.
  revert off acc. induction s as [|c s IH]; intros off acc; cbn [scan_hex]; [by intros [= _ _ <-]|].
  destruct (hex_of c) eqn:Ec; [|by intros [= _ _ <-]]. destruct (3 <? off)%nat; [done|]. intros <-%IH.
  cbn [ParseAddr_kind]. destruct c as [[] [] [] [] [] [] [] []]; try reflexivity; vm_compute in Ec; discriminate.
Qed.

(** What decides how the text of an address is parsed: the first dot or colon. *)
Lemma kind_string4 a t : ParseAddr_kind (string4 a +:+ t) = Some "."%char.
Proof.
  rewrite string4_bytes, str_app_assoc, str_app_cons.
  edestruct (scan_byte (v4 a 0)) as (v & n & Hs%kind_skip); [apply v4_range| |rewrite Hs]; done.
Qed.

Lemma kind_groups gs t :
  Forall group gs -> stops t -> ParseAddr_kind t = Some ":"%char ->
  ParseAddr_kind (join_groups gs +:+ t) = Some ":"%char.
Proof.
  intros HF Hs Ht. destruct gs as [|g gs]; [done|]. apply Forall_cons in HF as [Hg _]. rewrite join_groups_cons.
  destruct gs as [|g' gs].
  - edestruct (scan_appendHex g t) as [n Hn%kind_skip]; [done..|]. by rewrite Hn.
  - rewrite !str_app_assoc. edestruct (scan_appendHex g) as [n Hn%kind_skip]; [done| |rewrite Hn]; done.
Qed.

(** ** Groups of an address *)

Lemma groups6_group a : Forall group (groups6 a).
Proof.
  unfold groups6. rewrite Forall_map, Forall_forall. intros i _. unfold group, v6u16.
  change 65535 with (Z.ones 16). rewrite Z.land_ones by lia. by apply Z.mod_pos_bound.
Qed.

Lemma be_groups6 a : 0 <= a < 2 ^ 128 -> be_groups (groups6 a) = a.
Proof.
  intros Ha. unfold be_groups, be_val, groups6, v6u16. cbn [map fold_left].
  change 65535 with (Z.ones 16). rewrite !Z.land_ones by lia.
  assert (forall i j, 0 <= i <= 6 -> j = i + 1 ->
    Z.shiftr a (16 * (7 - i)) = Z.shiftr a (16 * (7 - j)) / 65536) as Hstep.
  { intros i j Hi ->. rewrite <-(Z.shiftr_div_pow2 _ 16), Z.shiftr_shiftr by lia. f_equal. lia. }
  assert (0 <= Z.shiftr a (16 * (7 - 0)) < 65536) as H0 by (apply (shiftr_range a 128 112); lia).
  rewrite (Hstep 0 1) in H0 by lia. rewrite (Hstep 0 1) by lia.
  pose proof (Hstep 1 2 ltac:(lia) eq_refl) as S1. pose proof (Hstep 2 3 ltac:(lia) eq_refl) as S2.
  pose proof (Hstep 3 4 ltac:(lia) eq_refl) as S3. pose proof (Hstep 4 5 ltac:(lia) eq_refl) as S4.
  pose proof (Hstep 5 6 ltac:(lia) eq_refl) as S5. pose proof (Hstep 6 7 ltac:(lia) eq_refl) as S6. clear Hstep.
  change (Z.shiftr a (16 * (7 - 7))) with a in *. change (2 ^ 16) with 65536.
  set (q1 := Z.shiftr a (16 * (7 - 1))) in *.
  set (q2 := Z.shiftr a (16 * (7 - 2))) in *. set (q3 := Z.shiftr a (16 * (7 - 3))) in *.
  set (q4 := Z.shiftr a (16 * (7 - 4))) in *. set (q5 := Z.shiftr a (16 * (7 - 5))) in *.
  set (q6 := Z.shiftr a (16 * (7 - 6))) in *. clearbody q1 q2 q3 q4 q5 q6.
  Z.to_euclidean_division_equations; lia.
Qed.

(** The elided run is one of zeros, within the groups, and at least two long. *)
Lemma zero_run_spec gs : gs = replicate (zero_run gs) 0 ++ drop (zero_run gs) gs.
Proof.
  induction gs as [|g gs IH]; [done|]. cbn [zero_run]. destruct (Z.eqb_spec g 0) as [->|]; [|done].
  cbn [replicate drop app]. by rewrite <-IH.
Qed.

Lemma zero_range_spec gs start n :
  zero_range gs = (start, n) ->
  n = 0%nat \/ ((2 <= n)%nat /\ n = zero_run (drop start gs)).
Proof.
  unfold zero_range. generalize (seq 0 8). intros l.
  assert (forall best, snd best = 0%nat \/ ((2 <= snd best)%nat /\ snd best = zero_run (drop (fst best) gs)) ->
    fold_left (fun best i => let l := zero_run (drop i gs) in
      if (2 <=? l)%nat && (snd best <? l)%nat then (i, l) else best) l best = (start, n) ->
    n = 0%nat \/ ((2 <= n)%nat /\ n = zero_run (drop start gs))) as Hind; [|apply Hind; by left].
  induction l as [|i l IH]; intros best Hb; cbn [fold_left]; [by intros ->|]. apply IH. cbv zeta.
  destruct (2 <=? zero_run (drop i gs))%nat eqn:E; cbn [andb]; [|done].
  apply Nat.leb_le in E. destruct (_ <? _)%nat; [|done]. right. by split.
Qed.

(** Replacing the run and filling it in again gives the groups back. *)
Lemma expand_run gs start n :
  length gs = 8%nat -> (2 <= n)%nat -> n = zero_run (drop start gs) ->
  (start + n <= 8)%nat
  /\ expand_ellipsis (take start gs ++ drop (start + n) gs) (Some start) = Some gs.
Proof.
  intros Hl Hn Hz. pose proof (zero_run_spec (drop start gs)) as Hr. rewrite <-Hz, drop_drop in Hr.
  assert (start + n <= 8)%nat as Hsum.
  { apply (f_equal length) in Hr. rewrite length_app, length_replicate, !length_drop in Hr. lia. }
  split; [done|]. unfold expand_ellipsis.
  assert (length (take start gs) = start) as Ht by (rewrite length_take; lia).
  assert (length (take start gs ++ drop (start + n) gs) = (8 - n)%nat) as Hlen
    by (rewrite length_app, Ht, length_drop; lia).
  rewrite Hlen, (proj2 (Nat.ltb_lt (8 - n) 8)) by lia. cbn [option_map].
  rewrite take_app_le, take_take, Nat.min_id by lia.
  rewrite drop_app_le, drop_ge, app_nil_l by lia. replace (8 - (8 - n))%nat with n by lia.
  f_equal. rewrite <-Hr. apply take_drop.
Qed.

(** ** Parsing what is printed *)

Lemma split_zone_suffix s z : IndexByte s "%"%char = None -> split_zone (s +:+ zone_suffix z) = Some (s, z).
Proof.
  intros Hs. unfold split_zone, zone_suffix. destruct (z =?s "") eqn:E; bool_facts.
  - rewrite str_app_nil_r, E. unfold CutByte. by rewrite Hs.
  - rewrite CutByte_app by done. apply String.eqb_neq in E. by rewrite E.
Qed.

(** A text that starts with a digit has no leading ellipsis. *)
Lemma no_leading_ellipsis s :
  (exists c u, s = String c u /\ hex_of c <> None) -> (s =?s "::") = false /\ split_ellipsis s = (s, None).
Proof.
  intros (c & u & -> & Hc). assert (c <> ":"%char) as Hne by (by intros ->). apply Ascii.eqb_neq in Hne.
  assert (Ascii.eqb ":"%char c = false) as Hne' by (by rewrite Ascii.eqb_sym).
  unfold split_ellipsis. split; [by cbn [String.eqb]; rewrite Hne|].
  unfold HasPrefix. cbn. by rewrite ?Hne, ?Hne'.
Qed.

Lemma string6_cases a :
  let gs := groups6 a in
  string6 a = join_groups gs
  \/ exists start n, (2 <= n)%nat /\ n = zero_run (drop start gs)
       /\ string6 a = join_groups (take start gs) +:+ "::" +:+ join_groups (drop (start + n) gs).
Proof.
  intros gs. unfold string6. fold gs. destruct (zero_range gs) as [start n] eqn:Ez.
  apply zero_range_spec in Ez as [->|[Hn Hz]]; [by left|right]. exists start, n.
  destruct (Nat.eqb_spec n 0); [lia|]. by split_and!.
Qed.

Lemma kind_string6 a t : ParseAddr_kind (string6 a +:+ t) = Some ":"%char.
Proof.
  pose proof (groups6_group a) as HF. destruct (string6_cases a) as [->|(start & n & _ & _ & ->)].
  - unfold groups6 in *. cbn [map] in *. rewrite join_groups_cons, !str_app_assoc.
    apply Forall_cons in HF as [Hg _]. edestruct (scan_appendHex _ (":" +:+ join_groups (tail (groups6 a)) +:+ t) Hg) as [k Hk%kind_skip]; [done|].
    unfold groups6 in Hk. cbn [map tail] in Hk. by rewrite Hk.
  - rewrite !str_app_assoc. apply kind_groups; [by apply Forall_take|done..].
Qed.

(** The body of an IPv6 text without zone: the groups it stands for. *)
Lemma parse_body a :
  0 <= a < 2 ^ 128 ->
  (string6 a = "::" /\ a = 0)
  \/ (string6 a <> "::"
      /\ exists gs ell, (let '(t, e) := split_ellipsis (string6 a) in parseIPv6_loop 8 t [] e)
                        = Some (EmptyString, gs, ell)
           /\ expand_ellipsis gs ell = Some (groups6 a)).
Proof.
  intros Ha. pose proof (groups6_group a) as HF. assert (length (groups6 a) = 8%nat) as Hl by done.
  destruct (string6_cases a) as [->|(start & n & Hn & Hz & ->)].
  - right. destruct (no_leading_ellipsis (join_groups (groups6 a))) as [H1 H2].
    { pose proof (Forall_inv HF) as Hg. destruct (join_groups_head _ (tail (groups6 a)) "" Hg) as (c & u & Hu & Hc).
      exists c, u. split; [|done]. by rewrite str_app_nil_r in Hu. }
    split; [by apply String.eqb_neq|]. exists (groups6 a), None. rewrite H2. split; [|done].
    by rewrite loop_groups by (done || lia).
  - destruct (expand_run _ _ _ Hl Hn Hz) as [Hsum Hexp].
    assert (Forall group (take start (groups6 a)) /\ Forall group (drop (start + n) (groups6 a))) as [HF1 HF2]
      by (split; [by apply Forall_take|by apply Forall_drop]).
    assert (length (drop (start + n) (groups6 a)) = (8 - (start + n))%nat) as Hd by (by rewrite length_drop, Hl).
    assert (length (take start (groups6 a)) = start) as Ht by (rewrite length_take; lia).
    destruct start as [|start].
    + cbn [take join_groups]. rewrite str_app_nil_l. cbn [Nat.add] in *.
      destruct (drop n (groups6 a)) as [|g gs] eqn:Eg.
      * left. split; [done|]. cbn in Hd. assert (n = 8%nat) as E8 by lia.
        rewrite <-(be_groups6 a) by done. rewrite (zero_run_spec (groups6 a)). change (drop 0 (groups6 a)) with (groups6 a) in Hz. rewrite <-Hz, Eg.
        by rewrite E8.
      * right. apply Forall_cons in HF2 as HF'. destruct HF' as [Hg _].
        destruct (join_groups_head g gs "" Hg) as (c & u & Hu & _). rewrite str_app_nil_r in Hu.
        split; [by rewrite Hu|]. exists (g :: gs), (Some 0%nat). unfold split_ellipsis.
        change (HasPrefix ("::" +:+ ?t) "::") with true. change (str_drop 2 ("::" +:+ ?t)) with t. cbv iota.
        rewrite loop_groups by (done || (rewrite ?Hd; cbn; lia)). split; [done|]. exact Hexp.
    + right. destruct (take (S start) (groups6 a)) as [|g gs] eqn:Eg; [done|].
      destruct (no_leading_ellipsis (join_groups (g :: gs) +:+ "::" +:+ join_groups (drop (S start + n) (groups6 a)))) as [H1 H2].
      { apply join_groups_head. by apply Forall_cons in HF1 as [? _]. }
      split; [by apply String.eqb_neq|]. do 2 eexists. rewrite H2, loop_ellipsis by (done || (rewrite ?Ht, ?Hd; cbn [length]; lia)).
      split; [done|]. rewrite Ht. exact Hexp.
Qed.

Lemma parseIPv6_string6 a z :
  0 <= a < 2 ^ 128 -> parseIPv6 (string6 a +:+ zone_suffix z) = Some (Addr6 a z).
Proof.
  intros Ha. unfold parseIPv6. rewrite split_zone_suffix.
  2:{ apply addr_chars_lacks; [apply string6_chars; lia|done]. }
  destruct (parse_body a Ha) as [[-> ->]|(Hne & gs & ell & Hloop & Hexp)]; [done|].
  apply String.eqb_neq in Hne. rewrite Hne. destruct (split_ellipsis (string6 a)) as [t e]. rewrite Hloop, Hexp.
  cbn [option_map]. by rewrite be_groups6.
Qed.

(** An IPv4-mapped address prints its last four bytes in decimal. *)
Lemma parseIPv6_mapped a z :
  0 <= a < 2 ^ 128 -> Z.shiftr a 32 = 65535 ->
  parseIPv6 ("::ffff:" +:+ string4 (Z.land a (Z.ones 32)) +:+ zone_suffix z) = Some (Addr6 a z).
Proof.
  intros Ha Hs. set (b := Z.land a (Z.ones 32)).
  assert (a = 65535 * 2 ^ 32 + b /\ 0 <= b < 2 ^ 32) as [Hab Hb].
  { unfold b. rewrite Z.land_ones by lia. rewrite Z.shiftr_div_pow2 in Hs by lia.
    split; [|by apply Z.mod_pos_bound]. rewrite <-Hs. pose proof (Z_div_mod_eq_full a (2 ^ 32)). lia. }
  unfold parseIPv6. rewrite <-str_app_assoc, split_zone_suffix.
  2:{ apply addr_chars_lacks; [|done]. rewrite addr_chars_app. by destruct (string4_chars b) as [-> _]. }
  change (("::ffff:" +:+ string4 b) =?s "::") with false. unfold split_ellipsis.
  change (HasPrefix ("::ffff:" +:+ string4 b) "::") with true.
  change (str_drop 2 ("::ffff:" +:+ string4 b)) with (appendHex 65535 +:+ ":" +:+ string4 b). cbv iota.
  rewrite loop_group by (done || cbn; lia).
  change (":" +:+ string4 b) with (String ":"%char (string4 b)). cbn [Ascii.eqb Bool.eqb negb app].
  destruct (scan_byte (v4 b 0) (String "."%char (byte_text (v4 b 1) +:+ String "."%char
    (byte_text (v4 b 2) +:+ String "."%char (byte_text (v4 b 3)))))) as (v & n & Hscan); [apply v4_range|done|].
  rewrite <-string4_bytes in Hscan.
  destruct (string4 b) as [|c t] eqn:E4; [by destruct (string4_chars b) as (_ & _ & ?)|].
  destruct (string4_chars b) as (_ & Hcol & _). rewrite E4 in Hcol. cbn [IndexByte] in Hcol.
  destruct (Ascii.eqb c ":"%char); [done|]. rewrite <-E4 in *. cbn [parseIPv6_loop length Nat.leb].
  rewrite Hscan, parseIPv4Fields_string4.
  pose proof (be_bytes4 b Hb) as Hval.
  change (HasPrefix (String "." ?t) ".") with true. unfold bytes4 in *. cbn [Nat.leb Nat.ltb andb app].
  unfold expand_ellipsis. cbn [length Nat.ltb Nat.leb option_map take drop Nat.sub replicate app].
  do 2 f_equal. unfold be_groups. unfold be_bytes, be_val in *. cbn [fold_left] in *. lia.
Qed.

(** A printed address parses to itself. *)
Lemma ParseAddr_AddrString ip : wf_addr ip -> IsValid ip = true -> ParseAddr (AddrString ip) = Some ip.
Proof.
  intros Hw Hv. unfold ParseAddr. destruct ip as [|a|a z]; [done|..]; cbn [AddrString wf_addr] in *.
  - rewrite <-(str_app_nil_r (string4 a)), kind_string4, str_app_nil_r. cbn [Ascii.eqb Bool.eqb].
    unfold parseIPv4. rewrite parseIPv4Fields_string4. cbn [option_map]. by rewrite be_bytes4.
  - destruct (Is4In6 (Addr6 a z)) eqn:E.
    + cbn [Is4In6] in E. bool_facts. rewrite <-(parseIPv6_mapped a z) by done. reflexivity.
    + rewrite kind_string6. by apply parseIPv6_string6.
Qed.

(** ** [net.IP] *)

(** [net.ParseIP]: an address without zone.  A [net.IP] does not tell an IPv4
    address from the same address mapped into IPv6, so the model keeps the
    unmapped one, and [To4] is not nil exactly for an IPv4 address. *)
Definition ParseIP (s : string) : option Addr :=
  match ParseAddr s with
  | Some a => if hasZone a then None else Some (Unmap a)
  | None => None
  end.

(** The addresses that are values of [net.IP]. *)
Record net_IP (ip : Addr) : Prop := {
  ni_valid : IsValid ip = true;
  ni_wf : wf_addr ip;
  ni_zone : hasZone ip = false;
  ni_unmapped : Is4In6 ip = false }.

Lemma ParseIP_net s ip : ParseIP s = Some ip -> net_IP ip.
Proof.
  unfold ParseIP. intros H. destruct (ParseAddr s) as [a|] eqn:E; [|done]. destruct (hasZone a) eqn:Ez; [done|].
  injection H as <-. pose proof (ParseAddr_valid _ _ E) as Hv. apply ParseAddr_wf in E. constructor.
  - unfold Unmap. by destruct a; repeat case_match.
  - by apply Unmap_wf.
  - unfold Unmap. by destruct a; repeat case_match.
  - apply Unmap_not_4in6.
Qed.

Lemma net_IP_zone a z : net_IP (Addr6 a z) -> z = "".
Proof. intros [_ _ Hz _]. cbn in Hz. by destruct (z =?s "") eqn:E; bool_facts. Qed.

(** A [net.IP] survives printing and parsing. *)
Lemma ParseIP_AddrString ip : net_IP ip -> ParseIP (AddrString ip) = Some ip.
Proof.
  intros [Hv Hw Hz H46]. unfold ParseIP. rewrite ParseAddr_AddrString by done. rewrite Hz.
  by rewrite Unmap_id.
Qed.

#[export] Hint Resolve ParseIP_net ParseIP_AddrString v4_range groups6_group : gows.
