(* ===== verification/NetworkPolicy.v ===== *)
(** * The network policy (internal/security/network_policy.go)

    Which SSH and tunnel targets the server may dial.  A policy is an allow
    list, a deny list and a switch for private ranges; a host is a literal or a
    name that the resolver of the environment turns into addresses, all of
    which must pass.

    The resolver ([net.DefaultResolver.LookupIPAddr] under the policy's
    timeout) is the parameter [LookupIPAddr] of the section: the bytes of the
    addresses a name has, [None] for a failed or timed out lookup.  The zone of
    a resolved address is dropped, since the code reads only its [IP]. *)

From S2P Require Import Prelude GoStrings Netip.

(** ** The policy and its construction *)

Record PolicyError : Type := mkPolicyError { pe_Code : string; pe_Message : string }.

Record NetworkPolicy : Type := mkNetworkPolicy {
  AllowPrivateRanges : bool;
  DenyPrefixes : list Prefix;
  AllowPrefixes : list Prefix
}.

(** The errors of [NewNetworkPolicy], with the entry they quote. *)
Inductive PolicyConfigError : Type :=
| BadDefault (entry : string)
| InvalidDeny (entry : string)
| InvalidAllow (entry : string).

Definition parsePrefixOrIP (s : string) : option Prefix :=
  if GoStrings.Contains s "/" then ParsePrefix s
  else match ParseAddr s with
       | None => None
       | Some addr => Some (PrefixFrom addr (if Is6 addr then 128 else 32))
       end.

Definition hard_defaults : list string :=
  ["127.0.0.0/8"; "::1/128"; "0.0.0.0/8"; "169.254.0.0/16"].

Definition private_defaults : list string :=
  ["10.0.0.0/8"; "172.16.0.0/12"; "192.168.0.0/16"; "fc00::/7"; "fe80::/10"].

Fixpoint add_defaults (ds : list string) (seen : gset string) (acc : list Prefix)
    : result PolicyConfigError (gset string * list Prefix) :=
  match ds with
  | [] => Ok (seen, acc)
  | d :: rest =>
      let! pref := of_option (BadDefault d) (ParsePrefix d) in
      add_defaults rest ({[d]} ∪ seen) (acc ++ [pref])
  end.

Fixpoint add_deny (deny : list string) (seen : gset string) (acc : list Prefix)
    : result PolicyConfigError (list Prefix) :=
  match deny with
  | [] => Ok acc
  | d0 :: rest =>
      let d := TrimSpace d0 in
      if (d =?s "") || bool_decide (d ∈ seen) then add_deny rest seen acc
      else
        let! pref := of_option (InvalidDeny d) (parsePrefixOrIP d) in
        add_deny rest ({[d]} ∪ seen) (acc ++ [pref])
  end.

Fixpoint add_allow (allow : list string) (acc : list Prefix)
    : result PolicyConfigError (list Prefix) :=
  match allow with
  | [] => Ok acc
  | a0 :: rest =>
      let a := TrimSpace a0 in
      if a =?s "" then add_allow rest acc
      else
        let! pref := of_option (InvalidAllow a) (parsePrefixOrIP a) in
        add_allow rest (acc ++ [pref])
  end.

(** [pref, _ := netip.ParsePrefix(d)]: the zero prefix on an error. *)
Definition ParsePrefix_or_zero (d : string) : Prefix :=
  default (mkPrefix AddrZero (-1)) (ParsePrefix d).

Definition NewNetworkPolicy (allowPrivate : bool) (deny allow : list string)
    : result PolicyConfigError NetworkPolicy :=
  let! (seen, acc) := add_defaults hard_defaults ∅ [] in
  let! denied := add_deny deny seen acc in
  let! allowed := add_allow allow [] in
  Ok (mkNetworkPolicy allowPrivate
        (if allowPrivate then denied
         else denied ++ map ParsePrefix_or_zero private_defaults)
        allowed).

(** ** Checking one address *)

Definition network_denied : PolicyError :=
  mkPolicyError "NETWORK_DENIED" "target host is blocked by network policy".

Definition checkAddr (p : NetworkPolicy) (addr : Addr) : option PolicyError :=
  if existsb (fun pref => Netip.Contains pref addr) (AllowPrefixes p) then None
  else if existsb (fun pref => Netip.Contains pref addr) (DenyPrefixes p) then Some network_denied
  else if negb (IsValid addr) || IsUnspecified addr || IsLoopback addr
          || IsLinkLocalUnicast addr || IsLinkLocalMulticast addr then Some network_denied
  else if negb (AllowPrivateRanges p) && IsPrivate addr then Some network_denied
  else None.

(** ** Resolving a destination *)

Section Resolve.

Context (LookupIPAddr : string -> option (list string)).

(** The loop over the resolved addresses; [resolved] is the first of them once
    it is set. *)
Fixpoint check_resolved (p : NetworkPolicy) (ips : list string) (resolved : option Addr)
    : result PolicyError (option Addr) :=
  match ips with
  | [] => Ok resolved
  | ip :: rest =>
      match AddrFromSlice ip with
      | None => Err network_denied
      | Some addr0 =>
          let addr := Unmap addr0 in
          match checkAddr p addr with
          | Some e => Err e
          | None => check_resolved p rest (match resolved with
                                           | Some _ => resolved
                                           | None => Some addr
                                           end)
          end
      end
  end.

(** [host[1 : len(host)-1]] when [host] is bracketed. *)
Definition strip_brackets (host : string) : string :=
  if HasPrefix host "[" && HasSuffix host "]"
  then str_take (String.length host - 2) (str_drop 1 host) else host.

Definition is_localhost (host : string) : bool :=
  let lower := ToLower host in
  (lower =?s "localhost") || HasSuffix lower ".localhost".

Definition ResolveAllowedHostPort (p : NetworkPolicy) (host0 : string) (port : Z)
    : result PolicyError string :=
  reject! (port <? 1) || (65535 <? port)
    with mkPolicyError "INVALID_PORT" "port must be between 1 and 65535" in
  let host := TrimSpace host0 in
  reject! host =?s "" with mkPolicyError "INVALID_HOST" "host is required" in
  reject! GoStrings.Contains host "://"
    with mkPolicyError "INVALID_HOST" "host must not include URL scheme" in
  let host := strip_brackets host in
  reject! is_localhost host with network_denied in
  match ParseAddr host with
  | Some ip0 =>
      let ip := Unmap ip0 in
      match checkAddr p ip with
      | Some e => Err e
      | None => Ok (JoinHostPort (AddrString ip) (Itoa port))
      end
  | None =>
      match LookupIPAddr host with
      | None => Err (mkPolicyError "INVALID_HOST" "failed to resolve host")
      | Some ips =>
          reject! (length ips =? 0)%nat
            with mkPolicyError "INVALID_HOST" "host resolved to no addresses" in
          let! resolved := check_resolved p ips None in
          Ok (JoinHostPort (AddrString (default AddrZero resolved)) (Itoa port))
      end
  end.

Definition ValidateHostPort (p : NetworkPolicy) (host : string) (port : Z)
    : option PolicyError :=
  match ResolveAllowedHostPort p host port with
  | Ok _ => None
  | Err e => Some e
  end.

End Resolve.

(** ** What a policy always contains *)

Lemma add_deny_extends deny seen acc r :
  add_deny deny seen acc = Ok r -> acc ⊆ r.
Proof.
  revert seen acc; induction deny as [|d0 deny IH]; intros seen acc H; simpl in H.
  - by injection H as <-.
  - destruct (_ || _); [by eapply IH|].
    apply res_bind_Ok in H as (pref & _ & H). apply IH in H.
    intros x Hx. apply H, elem_of_app. by left.
Qed.

Definition hard_prefixes : list Prefix := map ParsePrefix_or_zero hard_defaults.
Definition private_prefixes : list Prefix := map ParsePrefix_or_zero private_defaults.

Lemma zero_net_hard : mkPrefix (Addr4 0) 8 ∈ hard_prefixes.
Proof. apply list_elem_of_In. vm_compute. tauto. Qed.

Lemma add_defaults_Ok ds seen acc :
  forallb (fun d => match ParsePrefix d with Some _ => true | None => false end) ds = true ->
  exists seen', add_defaults ds seen acc = Ok (seen', acc ++ map ParsePrefix_or_zero ds).
Proof.
  revert seen acc; induction ds as [|d ds IH]; intros seen acc H; simpl in *.
  - exists seen. by rewrite app_nil_r.
  - unfold ParsePrefix_or_zero at 1. destruct (ParsePrefix d) as [pref|]; [|done]. simpl.
    destruct (IH ({[d]} ∪ seen) (acc ++ [pref]) H) as [seen' ->].
    exists seen'. by rewrite <- app_assoc.
Qed.

Lemma add_defaults_hard :
  exists seen, add_defaults hard_defaults ∅ [] = Ok (seen, hard_prefixes).
Proof. apply add_defaults_Ok. vm_compute. reflexivity. Qed.

Lemma NewNetworkPolicy_shape ap deny allow p :
  NewNetworkPolicy ap deny allow = Ok p ->
  AllowPrivateRanges p = ap
  /\ hard_prefixes ⊆ DenyPrefixes p
  /\ (ap = false -> private_prefixes ⊆ DenyPrefixes p)
  /\ add_allow allow [] = Ok (AllowPrefixes p).
Proof.
  unfold NewNetworkPolicy. destruct add_defaults_hard as [seen ->]. simpl.
  intros H. apply res_bind_Ok in H as (denied & Hd & H).
  apply res_bind_Ok in H as (allowed & Ha & H). injection H as <-. simpl.
  apply add_deny_extends in Hd. fold private_prefixes.
  split_and!; [done| | |done].
  - intros x Hx. apply Hd in Hx. destruct ap; [done|]. apply elem_of_app. by left.
  - intros -> x Hx. apply elem_of_app. by right.
Qed.

(** ** What an address that passed looks like *)

Lemma checkAddr_None p addr :
  checkAddr p addr = None ->
  existsb (fun pref => Netip.Contains pref addr) (AllowPrefixes p) = true
  \/ existsb (fun pref => Netip.Contains pref addr) (DenyPrefixes p) = false
     /\ IsValid addr = true /\ IsUnspecified addr = false /\ IsLoopback addr = false
     /\ IsLinkLocalUnicast addr = false /\ IsLinkLocalMulticast addr = false
     /\ (AllowPrivateRanges p = false -> IsPrivate addr = false).
Proof.
  unfold checkAddr. destruct (existsb _ (AllowPrefixes p)); [by left|]. intros H. right.
  destruct (existsb _ (DenyPrefixes p)); [done|].
  destruct (_ || _) eqn:E in H; [done|].
  destruct (_ && _) eqn:E2 in H; [done|].
  bool_facts. split_and!; try done. intros Hp. rewrite Hp in E2. done.
Qed.

Lemma existsb_false_elem {A} (f : A -> bool) l x :
  existsb f l = false -> x ∈ l -> f x = false.
Proof.
  intros H Hx. destruct (f x) eqn:E; [|done].
  exfalso. apply not_true_iff_false in H. apply H, existsb_exists. exists x.
  split; [by apply list_elem_of_In|done].
Qed.

(** What the addresses behind a default policy satisfy, by the leading bits of
    the address.  A zoned unspecified IPv6 address is the one case left open:
    it is neither loopback nor, for Go, unspecified. *)
Definition safe_target (allowPrivate : bool) (ip : Addr) : Prop :=
  match ip with
  | AddrZero => False
  | Addr4 a =>
      0 <= a < 2 ^ 32
      /\ Z.shiftr a 24 <> 0 /\ Z.shiftr a 24 <> 127 /\ Z.shiftr a 16 <> 43518
      /\ (allowPrivate = false ->
          Z.shiftr a 24 <> 10 /\ Z.shiftr a 20 <> 2753 /\ Z.shiftr a 16 <> 49320)
  | Addr6 a z =>
      0 <= a < 2 ^ 128 /\ Z.shiftr a 32 <> 65535
      /\ a <> 1 /\ Z.shiftr a 118 <> 1018
      /\ (z = "" -> a <> 0)
      /\ (allowPrivate = false -> Z.shiftr a 121 <> 126)
  end.

Lemma checkAddr_safe p addr :
  checkAddr p addr = None -> AllowPrefixes p = [] -> hard_prefixes ⊆ DenyPrefixes p ->
  wf_addr addr -> Is4In6 addr = false -> safe_target (AllowPrivateRanges p) addr.
Proof.
  intros Hc Ha Hd Hwf H46.
  apply checkAddr_None in Hc as [Hc|(Hdeny & Hv & Hu & Hl & Hll & _ & Hp)].
  { by rewrite Ha in Hc. }
  destruct addr as [|a|a z]; [done|..].
  - cbn [wf_addr] in Hwf.
    rewrite IsLoopback_4 in Hl by done. rewrite IsLinkLocalUnicast_4 in Hll by done.
    bool_facts. split; [done|]. split; [|split; [done|split; [done|]]].
    + intros H0. pose proof (existsb_false_elem _ _ (mkPrefix (Addr4 0) 8) Hdeny) as Hz.
      specialize (Hz (Hd _ zero_net_hard)). apply not_true_iff_false in Hz. apply Hz.
      apply Contains_4; [lia|]. exact H0.
    + intros Hap. specialize (Hp Hap). rewrite IsPrivate_4 in Hp by done. bool_facts. done.
  - cbn [wf_addr] in Hwf. rewrite IsLinkLocalUnicast_6 in Hll by done.
    unfold IsLoopback in Hl. rewrite Unmap_id in Hl by done. cbv iota in Hl.
    cbn [IsUnspecified] in Hu. cbn [Is4In6] in H46. bool_facts.
    split_and!; [apply Hwf|apply Hwf|done..| |].
    + intros Hz Ha0. apply andb_false_iff in Hu as [Hu|Hu]; bool_facts; done.
    + intros Hap. specialize (Hp Hap).
      rewrite IsPrivate_6 in Hp; [by bool_facts|done|].
      cbn [Is4In6]. by apply Z.eqb_neq.
Qed.

(** ** Destinations *)

Section ResolveFacts.

Context (LookupIPAddr : string -> option (list string)).

Lemma check_resolved_Ok p ips r r' :
  check_resolved p ips r = Ok r' ->
  Forall (fun ip => exists a, AddrFromSlice ip = Some a /\ checkAddr p (Unmap a) = None) ips
  /\ r' = match r with
          | Some _ => r
          | None => head ips ≫= fun ip => Unmap <$> AddrFromSlice ip
          end.
Proof.
  revert r; induction ips as [|ip ips IH]; intros r H; simpl in H.
  - injection H as <-. split; [apply Forall_nil; exact I|]. by destruct r.
  - destruct (AddrFromSlice ip) as [a|] eqn:Ea; [|done].
    destruct (checkAddr p (Unmap a)) eqn:Ec; [done|].
    apply IH in H as [HF ->]. split.
    + apply Forall_cons. eauto.
    + destruct r; [done|]. simpl. by rewrite Ea.
Qed.

Lemma check_resolved_Err p ips r e :
  check_resolved p ips r = Err e ->
  Forall (fun ip => exists a, AddrFromSlice ip = Some a /\ checkAddr p (Unmap a) = None) ips ->
  False.
Proof.
  revert r; induction ips as [|ip ips IH]; intros r H HF; simpl in H; [done|].
  apply Forall_cons in HF as [(a & Ha & Hc) HF]. rewrite Ha, Hc in H. by eapply IH.
Qed.

Lemma passing_addr_facts ip :
  wf_addr ip -> IsValid ip = true ->
  wf_addr (Unmap ip) /\ Is4In6 (Unmap ip) = false /\ IsValid (Unmap ip) = true.
Proof.
  intros Hwf Hv. split; [by apply Unmap_wf|]. split; [apply Unmap_not_4in6|].
  destruct ip as [|a|a z]; [done..|]. unfold Unmap. by destruct (Is4In6 _).
Qed.

(** A destination that is allowed is the printed form of one address that
    passed the policy: the literal's, or the first of the resolved ones. *)
Lemma Resolve_Ok p host port s :
  ResolveAllowedHostPort LookupIPAddr p host port = Ok s ->
  1 <= port <= 65535
  /\ exists ip, s = JoinHostPort (AddrString ip) (Itoa port)
     /\ checkAddr p ip = None /\ wf_addr ip /\ Is4In6 ip = false /\ IsValid ip = true.
Proof.
  unfold ResolveAllowedHostPort. intros H. ok_path H. bool_facts. split; [lia|].
  destruct (ParseAddr (strip_brackets (TrimSpace host))) as [ip0|] eqn:Ep.
  - destruct (checkAddr p (Unmap ip0)) eqn:Ech; [done|]. injection H as <-.
    exists (Unmap ip0). split; [reflexivity|]. split; [exact Ech|].
    apply passing_addr_facts; [by eapply ParseAddr_wf|by eapply ParseAddr_valid].
  - destruct (LookupIPAddr _) as [ips|]; [|done]. ok_path H. injection H as <-.
    apply check_resolved_Ok in Ha as [HF ->].
    destruct ips as [|ip ips]; [done|]. apply Forall_cons in HF as [(a0 & Ha0 & Hc) _].
    simpl. rewrite Ha0. simpl. exists (Unmap a0). split; [reflexivity|]. split; [exact Hc|].
    apply passing_addr_facts; [by eapply AddrFromSlice_wf|by eapply AddrFromSlice_valid].
Qed.

End ResolveFacts.

(** The targets of a policy without allow entries. *)
Lemma Resolve_default :
  forall lookup ap deny p host port s,
    NewNetworkPolicy ap deny [] = Ok p ->
    ResolveAllowedHostPort lookup p host port = Ok s ->
    1 <= port <= 65535
    /\ exists ip, s = JoinHostPort (AddrString ip) (Itoa port) /\ safe_target ap ip.
Proof.
  intros lookup ap deny p host port s Hp Hs.
  apply NewNetworkPolicy_shape in Hp as (Hap & Hhard & _ & Hal).
  injection Hal as Hal. apply Resolve_Ok in Hs as (Hport & ip & -> & Hc & Hwf & H46 & _).
  split; [done|]. exists ip. split; [done|]. rewrite <- Hap. by apply checkAddr_safe.
Qed.

(** ** The policy only ever narrows

    Adding deny entries to a configuration removes destinations; it never adds
    one, nor changes the address a destination resolves to. *)

Definition stricter (p p' : NetworkPolicy) : Prop :=
  AllowPrivateRanges p = AllowPrivateRanges p'
  /\ AllowPrefixes p = AllowPrefixes p'
  /\ DenyPrefixes p ⊆ DenyPrefixes p'.

Lemma checkAddr_stricter p p' a :
  stricter p p' -> checkAddr p' a = None -> checkAddr p a = None.
Proof.
  intros (Hap & Hal & Hde). unfold checkAddr. rewrite Hal, Hap.
  destruct (existsb _ (AllowPrefixes p')); [done|].
  destruct (existsb _ (DenyPrefixes p')) eqn:E'; [done|].
  assert (existsb (fun pref => Netip.Contains pref a) (DenyPrefixes p) = false) as ->; [|done].
  destruct (existsb _ (DenyPrefixes p)) eqn:E; [|done].
  apply existsb_exists in E as (x & Hin & Hx). apply list_elem_of_In in Hin.
  by rewrite (existsb_false_elem _ _ _ E' (Hde _ Hin)) in Hx.
Qed.

Lemma check_resolved_stricter p p' ips r r' :
  stricter p p' -> check_resolved p' ips r = Ok r' -> check_resolved p ips r = Ok r'.
Proof.
  intros Hs. revert r; induction ips as [|ip ips IH]; intros r H; simpl in *; [done|].
  destruct (AddrFromSlice ip) as [a|]; [|done].
  destruct (checkAddr p' (Unmap a)) eqn:E; [done|].
  rewrite (checkAddr_stricter _ _ _ Hs E). by apply IH.
Qed.

Lemma Resolve_stricter lookup p p' host port s :
  stricter p p' -> ResolveAllowedHostPort lookup p' host port = Ok s ->
  ResolveAllowedHostPort lookup p host port = Ok s.
Proof.
  intros Hs. unfold ResolveAllowedHostPort. intros H. ok_path H.
  destruct (ParseAddr _) as [ip0|].
  - destruct (checkAddr p' (Unmap ip0)) eqn:E; [done|].
    by rewrite (checkAddr_stricter _ _ _ Hs E).
  - destruct (lookup _) as [ips|]; [|done]. ok_path H.
    by rewrite (check_resolved_stricter _ _ _ _ _ Hs Ha).
Qed.

Lemma add_deny_app deny more seen acc r :
  add_deny (deny ++ more) seen acc = Ok r ->
  exists r0, add_deny deny seen acc = Ok r0 /\ r0 ⊆ r.
Proof.
  revert seen acc; induction deny as [|d0 deny IH]; intros seen acc H; simpl in *.
  - exists acc. split; [done|]. by eapply add_deny_extends.
  - destruct (_ || _); [by apply IH|].
    destruct (parsePrefixOrIP (TrimSpace d0)) as [pref|]; [|done]. simpl in *. by apply IH.
Qed.

Lemma NewNetworkPolicy_more_deny ap deny more allow p' :
  NewNetworkPolicy ap (deny ++ more) allow = Ok p' ->
  exists p, NewNetworkPolicy ap deny allow = Ok p /\ stricter p p'.
Proof.
  unfold NewNetworkPolicy. destruct add_defaults_hard as [seen ->]. simpl.
  intros H. apply res_bind_Ok in H as (r & Hr & H).
  apply res_bind_Ok in H as (al & Hal & H). injection H as <-.
  apply add_deny_app in Hr as (r0 & -> & Hsub). simpl. rewrite Hal. simpl.
  eexists. split; [reflexivity|]. split_and!; [done..|]. simpl.
  destruct ap; [done|]. intros x. rewrite !elem_of_app. intros [?|?]; [left|right]; auto.
Qed.

(** ** Properties *)

(** A concrete environment for the witnesses: one name with one public and one
    private address, one with a public address only. *)
Definition sample_lookup (host : string) : option (list string) :=
  if host =?s "mixed.example" then Some [of_chars (map chr [8; 8; 8; 8]); of_chars (map chr [10; 0; 0; 1])]
  else if host =?s "public.example" then Some [of_chars (map chr [8; 8; 4; 4])]
  else None.

Definition sample_policy : NetworkPolicy :=
  mkNetworkPolicy false (hard_prefixes ++ private_prefixes) [].

(** C32.  Whatever the deny list and the resolver, a policy without allow
    entries lets only safe targets through: the returned dial address is
    [JoinHostPort] of one address outside 0.0.0.0/8, 127.0.0.0/8,
    169.254.0.0/16, ::1, fe80::/10 and the unspecified :: without a zone and,
    unless private ranges are allowed, outside 10/8, 172.16/12, 192.168/16 and
    fc00::/7.  IPv4-mapped IPv6 literals are judged as the IPv4 address they
    carry.  An unspecified IPv6 address with a zone is left open: the policy lets
    it through. *)
Theorem default_policy_targets_safe :
  forall lookup ap deny p host port s,
    NewNetworkPolicy ap deny [] = Ok p ->
    ResolveAllowedHostPort lookup p host port = Ok s ->
    1 <= port <= 65535
    /\ exists ip, s = JoinHostPort (AddrString ip) (Itoa port) /\ safe_target ap ip.
Proof. exact Resolve_default. Qed.

Lemma default_policy_targets_safe_witness :
  ResolveAllowedHostPort sample_lookup sample_policy "public.example" 22 = Ok "8.8.4.4:22"
  /\ exists ip, "8.8.4.4:22" = JoinHostPort (AddrString ip) (Itoa 22) /\ safe_target false ip.
Proof.
  assert (H : ResolveAllowedHostPort sample_lookup sample_policy "public.example" 22
              = Ok "8.8.4.4:22") by (vm_compute; reflexivity).
  split; [exact H|].
  refine (proj2 (default_policy_targets_safe sample_lookup false [] sample_policy
                   "public.example" 22 "8.8.4.4:22" _ H)).
  vm_compute. reflexivity.
Defined.

(** A name is allowed exactly when it has at least one address and every
    one of its addresses passes the policy; the address to dial is then the
    first of them. *)
Theorem resolved_name_all_checked :
  forall lookup p host port ips s,
    1 <= port <= 65535 ->
    TrimSpace host <> "" ->
    GoStrings.Contains (TrimSpace host) "://" = false ->
    is_localhost (strip_brackets (TrimSpace host)) = false ->
    ParseAddr (strip_brackets (TrimSpace host)) = None ->
    lookup (strip_brackets (TrimSpace host)) = Some ips ->
    ResolveAllowedHostPort lookup p host port = Ok s <->
    Forall (fun ip => exists a, AddrFromSlice ip = Some a /\ checkAddr p (Unmap a) = None) ips
    /\ exists ip rest a, ips = ip :: rest /\ AddrFromSlice ip = Some a
       /\ s = JoinHostPort (AddrString (Unmap a)) (Itoa port).
Proof.
  intros lookup p host port ips s Hport Hne Hscheme Hlocal Hlit Hips.
  unfold ResolveAllowedHostPort. apply String.eqb_neq in Hne.
  assert ((port <? 1) || (65535 <? port) = false) as -> by lia.
  rewrite Hne, Hscheme, Hlocal, Hlit, Hips.
  destruct ips as [|ip ips]; simpl (length _ =? 0)%nat; cbv iota.
  { split; [done|]. by intros (_ & ? & ? & ? & ? & _). }
  rewrite res_bind_Ok. split.
  - intros (r & Hr & H). injection H as <-. apply check_resolved_Ok in Hr as [HF ->].
    split; [done|]. apply Forall_cons in HF as [(a & Ha & _) _].
    exists ip, ips, a. simpl. by rewrite Ha.
  - intros (HF & ip' & rest & a & [= <- <-] & Ha & ->).
    destruct (check_resolved p (ip :: ips) None) as [r|e] eqn:E.
    + exists r. split; [done|]. apply check_resolved_Ok in E as [_ ->]. simpl. by rewrite Ha.
    + exfalso. by eapply check_resolved_Err.
Qed.

Lemma resolved_name_all_checked_witness :
  ResolveAllowedHostPort sample_lookup sample_policy " [public.example] " 443 = Ok "8.8.4.4:443".
Proof.
  apply (resolved_name_all_checked sample_lookup sample_policy " [public.example] " 443
           [of_chars (map chr [8; 8; 4; 4])] "8.8.4.4:443");
    [lia|vm_compute; discriminate|vm_compute; reflexivity..|].
  split.
  - apply Forall_cons. split; [|apply Forall_nil; exact I].
    eexists. split; [reflexivity|]. vm_compute. reflexivity.
  - eexists _, _, _. split; [reflexivity|]. split; [reflexivity|]. vm_compute. reflexivity.
Defined.

(** Deny entries are antitone: a destination that a configuration with
    more deny entries allows is allowed, with the same dial address, without
    them, and that smaller configuration is itself valid. *)
Theorem deny_entries_only_remove :
  forall lookup ap deny more allow p' host port s,
    NewNetworkPolicy ap (deny ++ more) allow = Ok p' ->
    ResolveAllowedHostPort lookup p' host port = Ok s ->
    exists p, NewNetworkPolicy ap deny allow = Ok p
              /\ ResolveAllowedHostPort lookup p host port = Ok s.
Proof.
  intros lookup ap deny more allow p' host port s Hp' Hs.
  apply NewNetworkPolicy_more_deny in Hp' as (p & Hp & Hst).
  exists p. split; [done|]. by eapply Resolve_stricter.
Qed.

Lemma deny_entries_only_remove_witness :
  exists p, NewNetworkPolicy true [] ["127.0.0.1"] = Ok p
            /\ ResolveAllowedHostPort sample_lookup p "127.0.0.1" 22 = Ok "127.0.0.1:22".
Proof.
  apply (deny_entries_only_remove sample_lookup true [] ["203.0.113.0/24"] ["127.0.0.1"]
           (mkNetworkPolicy true (hard_prefixes ++ [mkPrefix (Addr4 3405803776) 24])
              [mkPrefix (Addr4 2130706433) 32]));
    vm_compute; reflexivity.
Defined.

(** A zone disarms the deny list.  [Prefix.Contains] is false for a zoned
    address, so no deny entry, default or configured, applies to an IPv6
    literal with a zone: it is allowed as soon as it is not loopback,
    link-local or (where those are refused) unique-local.  The witness is the
    zoned unspecified address, which the default policy lets through although
    the unzoned one is refused. *)
Theorem zone_disarms_deny_list :
  forall lookup p host port a z,
    1 <= port <= 65535 ->
    TrimSpace host <> "" ->
    GoStrings.Contains (TrimSpace host) "://" = false ->
    is_localhost (strip_brackets (TrimSpace host)) = false ->
    ParseAddr (strip_brackets (TrimSpace host)) = Some (Addr6 a z) ->
    z <> "" -> Is4In6 (Addr6 a z) = false -> a <> 1 ->
    IsLinkLocalUnicast (Addr6 a z) = false ->
    IsLinkLocalMulticast (Addr6 a z) = false ->
    (AllowPrivateRanges p = true \/ IsPrivate (Addr6 a z) = false) ->
    ResolveAllowedHostPort lookup p host port
    = Ok (JoinHostPort (AddrString (Addr6 a z)) (Itoa port)).
Proof.
  intros lookup p host port a z Hport Hne Hscheme Hlocal Hlit Hz H46 H1 Hll Hlm Hpriv.
  unfold ResolveAllowedHostPort. apply String.eqb_neq in Hne.
  assert ((port <? 1) || (65535 <? port) = false) as -> by lia.
  rewrite Hne, Hscheme, Hlocal, Hlit, Unmap_id by done.
  assert (checkAddr p (Addr6 a z) = None) as ->; [|done].
  unfold checkAddr. rewrite Hll, Hlm.
  assert (IsLoopback (Addr6 a z) = false) as ->.
  { unfold IsLoopback. rewrite Unmap_id by done. by apply Z.eqb_neq. }
  assert (IsUnspecified (Addr6 a z) = false) as ->.
  { cbn [IsUnspecified]. apply String.eqb_neq in Hz. rewrite Hz. apply andb_false_r. }
  assert (forall ps, existsb (fun pref => Netip.Contains pref (Addr6 a z)) ps = false) as Hno.
  { intros ps. induction ps as [|q ps IH]; [done|]. cbn [existsb].
    by rewrite Contains_zone, IH by done. }
  rewrite !Hno. simpl. destruct Hpriv as [-> | ->]; [done|]. by rewrite andb_false_r.
Qed.

Lemma zone_disarms_deny_list_witness :
  ResolveAllowedHostPort sample_lookup sample_policy "::" 22 = Err network_denied
  /\ ResolveAllowedHostPort sample_lookup sample_policy "::%lo" 22 = Ok "[::%lo]:22".
Proof.
  split; [vm_compute; reflexivity|].
  rewrite (zone_disarms_deny_list sample_lookup sample_policy "::%lo" 22 0 "lo");
    try (vm_compute; reflexivity); try lia; try (vm_compute; discriminate).
  right. vm_compute. reflexivity.
Defined.
