(* ===== verification/HostKey.v ===== *)
(** * Host keys (internal/security/hostkey.go)

    Which host key callback the configured policy yields, and how the errors
    of the known-hosts callback are classified.

    Parameters: the file system ([Stat] and [WriteFile]) and
    [knownhosts.New], whose callbacks are functions from host name and key to
    an optional error. *)

From S2P Require Import Prelude GoStrings GoError.

Section HostKey.

Context {Key : Type}.

Definition HostKeyCallback : Type := string -> Key -> option error.

(** What [os.Stat] says of a path. *)
Inductive StatResult : Type := Exists | NotExist | StatError.

Context (Stat : string -> StatResult) (WriteFile_ok : string -> bool)
        (knownhosts_New : string -> option HostKeyCallback).

Definition asKeyError (e : error) : option nat :=
  find_in_chain (fun e => match e with KeyError _ want => Some want | _ => None end) e.

Definition wrapKnownHosts (cb : HostKeyCallback) : HostKeyCallback :=
  fun hostname key =>
    match cb hostname key with
    | None => None
    | Some err =>
        match asKeyError err with
        | Some want =>
            if (want =? 0)%nat
            then Some (HostKeyError "HOST_KEY_UNTRUSTED" "host key not found in known_hosts" (Some err))
            else Some (HostKeyError "HOST_KEY_CHANGED" "host key verification failed: key has changed" (Some err))
        | None => Some (HostKeyError "HOST_KEY_UNTRUSTED" "host key verification failed" (Some err))
        end
    end.

Inductive HostKeyConfigError : Type :=
| FileRequired | CreateFile | StatKnownHosts | LoadKnownHosts | UnsupportedPolicy (policy : string).

Definition InsecureIgnoreHostKey : HostKeyCallback := fun _ _ => None.

Definition NewHostKeyCallback (policy knownHostsFile : string)
    : result HostKeyConfigError HostKeyCallback :=
  let p := ToLower (TrimSpace policy) in
  if p =?s "known-hosts" then
    reject! knownHostsFile =?s "" with FileRequired in
    let! _ := match Stat knownHostsFile with
              | Exists => Ok tt
              | NotExist => require! WriteFile_ok knownHostsFile else CreateFile in Ok tt
              | StatError => Err StatKnownHosts
              end in
    let! cb := of_option LoadKnownHosts (knownhosts_New knownHostsFile) in
    Ok (wrapKnownHosts cb)
  else if p =?s "insecure-ignore" then Ok InsecureIgnoreHostKey
  else Err (UnsupportedPolicy policy).

(** The wrapped callback accepts exactly what the library's callback accepts,
    and what it rejects has one of the two host key codes. *)
Lemma wrapKnownHosts_spec cb host key :
  (wrapKnownHosts cb host key = None <-> cb host key = None)
  /\ forall e, wrapKnownHosts cb host key = Some e ->
     exists code msg err, cb host key = Some err /\ e = HostKeyError code msg (Some err)
       /\ (code = "HOST_KEY_CHANGED" <-> exists want, asKeyError err = Some (S want))
       /\ (code = "HOST_KEY_CHANGED" \/ code = "HOST_KEY_UNTRUSTED").
Proof.
  unfold wrapKnownHosts. destruct (cb host key) as [err|]; [|by split].
  split; [by repeat case_match|]. intros e H.
  destruct (asKeyError err) as [[|want]|] eqn:E; simpl in H; injection H as <-;
    eexists _, _, err; (split; [done|]); (split; [done|]); (split; [|by auto]); split; try done;
    try (intros [? ?]; congruence). by exists want.
Qed.

End HostKey.
Arguments HostKeyCallback : clear implicits.
Arguments InsecureIgnoreHostKey {Key}.
