(* ===== verification/Config.v ===== *)
(** * Configuration (internal/config/config.go)

    The configuration record, its three sources (YAML file, environment, flag)
    in the order [main] applies them, and its validation.

    Parameters: [ReadFile] is the file system and [Unmarshal] is
    [yaml.Unmarshal] into [rawConfig]; the environment is the function
    [env : string -> string], empty for an unset variable as [os.Getenv] has
    it.  A slice of [rawConfig] that the code compares with [nil] is an
    [option]; in [Config], where only its elements are read, it is a list. *)

From S2P Require Import Prelude GoStrings GoTime GoEncoding.

(** ** Data *)

Record ServerConfig : Type := mkServer {
  Listen : string; SessionSecret : string; SecureCookie : bool;
  AllowedOrigins : list string }.

Record AuthConfig : Type := mkAuth {
  Username : string; Password : string; PasswordHash : string; SessionTTL : Z }.

Record SSHConfig : Type := mkSSH {
  SSH_ConnectTimeout : Z; SSH_IdleTimeout : Z; MaxSessions : Z;
  HostKeyPolicy : string; KnownHostsFile : string }.

Record TunnelConfig : Type := mkTunnel {
  Tunnel_Enabled : bool; Tunnel_ConnectTimeout : Z; Tunnel_WriteTimeout : Z;
  Tunnel_IdleTimeout : Z; MaxConnections : Z; AllowedPorts : list Z }.

Record NetworkPolicyConfig : Type := mkNetPolicy {
  Cfg_AllowPrivateRanges : bool; Cfg_Deny : list string; Cfg_Allow : list string }.

Record CredentialsConfig : Type := mkCredentials {
  Credentials_Enabled : bool; DBFile : string; KeyFile : string; KeyHex : string }.

Record Config : Type := mkConfig {
  Server : ServerConfig; Auth : AuthConfig; SSH : SSHConfig; Tunnel : TunnelConfig;
  NetworkPolicy : NetworkPolicyConfig; Logging_Level : string;
  Credentials : CredentialsConfig; UI_ThemesDir : string }.

(** ** Durations in YAML *)

(** The part of [yaml.Node] that [UnmarshalYAML] reads. *)
Record Node : Type := mkNode { is_ScalarNode : bool; Value : string }.

Inductive DurationError : Type :=
| NotScalar
| BadDuration (value : string).

Definition UnmarshalYAML (value : Node) : result DurationError Z :=
  require! is_ScalarNode value else NotScalar in
  if Value value =?s "" then Ok 0
  else match ParseDuration (Value value) with
       | Some parsed => Ok parsed
       | None => match Atoi (Value value) with
                 | Some sec => Ok (wrap64 (sec * Second))
                 | None => Err (BadDuration (Value value))
                 end
       end.

(** ** The file's contents *)

Record rawConfig : Type := mkRaw {
  raw_Listen : string; raw_SessionSecret : string; raw_SecureCookie : bool;
  raw_AllowedOrigins : option (list string);
  raw_Username : string; raw_Password : string; raw_PasswordHash : string;
  raw_SessionTTL : Z;
  raw_SSH_ConnectTimeout : Z; raw_SSH_IdleTimeout : Z; raw_MaxSessions : Z;
  raw_HostKeyPolicy : string; raw_KnownHostsFile : string;
  raw_Tunnel_Enabled : bool; raw_Tunnel_ConnectTimeout : Z; raw_Tunnel_WriteTimeout : Z;
  raw_Tunnel_IdleTimeout : Z; raw_MaxConnections : Z; raw_AllowedPorts : option (list Z);
  raw_AllowPrivateRanges : bool; raw_Deny : option (list string); raw_Allow : option (list string);
  raw_Level : string;
  raw_Credentials_Enabled : option bool; raw_DBFile : string; raw_KeyFile : string;
  raw_ThemesDir : string }.

Definition Default : Config := {|
  Server := mkServer "127.0.0.1:8080" "" false [];
  Auth := mkAuth "admin" "" "" (12 * Hour);
  SSH := mkSSH (15 * Second) (30 * Minute) 5 "known-hosts" "./known_hosts";
  Tunnel := mkTunnel false (15 * Second) (30 * Second) (30 * Minute) 5 [22];
  NetworkPolicy := mkNetPolicy false ["127.0.0.0/8"; "169.254.0.0/16"; "::1/128"; "0.0.0.0/8"] [];
  Logging_Level := "info";
  Credentials := mkCredentials true "./credentials.db" "" "";
  UI_ThemesDir := "./themes" |}.

(** [if v != "" { x = v }] and [if d > 0 { x = d }]. *)
Definition str_or (v x : string) : string := if v =?s "" then x else v.
Definition pos_or (d x : Z) : Z := if 0 <? d then d else x.

Definition applyRaw (cfg : Config) (raw : rawConfig) : Config := {|
  Server := {|
    Listen := str_or (raw_Listen raw) (Listen (Server cfg));
    SessionSecret := str_or (raw_SessionSecret raw) (SessionSecret (Server cfg));
    SecureCookie := raw_SecureCookie raw;
    AllowedOrigins := default (AllowedOrigins (Server cfg)) (raw_AllowedOrigins raw) |};
  Auth := {|
    Username := str_or (raw_Username raw) (Username (Auth cfg));
    Password := str_or (raw_Password raw) (Password (Auth cfg));
    PasswordHash := str_or (raw_PasswordHash raw) (PasswordHash (Auth cfg));
    SessionTTL := pos_or (raw_SessionTTL raw) (SessionTTL (Auth cfg)) |};
  SSH := {|
    SSH_ConnectTimeout := pos_or (raw_SSH_ConnectTimeout raw) (SSH_ConnectTimeout (SSH cfg));
    SSH_IdleTimeout := pos_or (raw_SSH_IdleTimeout raw) (SSH_IdleTimeout (SSH cfg));
    MaxSessions := pos_or (raw_MaxSessions raw) (MaxSessions (SSH cfg));
    HostKeyPolicy := str_or (raw_HostKeyPolicy raw) (HostKeyPolicy (SSH cfg));
    KnownHostsFile := str_or (raw_KnownHostsFile raw) (KnownHostsFile (SSH cfg)) |};
  Tunnel := {|
    Tunnel_Enabled := raw_Tunnel_Enabled raw;
    Tunnel_ConnectTimeout :=
      pos_or (raw_Tunnel_ConnectTimeout raw) (Tunnel_ConnectTimeout (Tunnel cfg));
    Tunnel_WriteTimeout := pos_or (raw_Tunnel_WriteTimeout raw) (Tunnel_WriteTimeout (Tunnel cfg));
    Tunnel_IdleTimeout := pos_or (raw_Tunnel_IdleTimeout raw) (Tunnel_IdleTimeout (Tunnel cfg));
    MaxConnections := pos_or (raw_MaxConnections raw) (MaxConnections (Tunnel cfg));
    AllowedPorts := default (AllowedPorts (Tunnel cfg)) (raw_AllowedPorts raw) |};
  NetworkPolicy :=
    if bool_decide (is_Some (raw_Deny raw)) || bool_decide (is_Some (raw_Allow raw))
       || raw_AllowPrivateRanges raw
    then {| Cfg_AllowPrivateRanges := raw_AllowPrivateRanges raw;
            Cfg_Deny := default (Cfg_Deny (NetworkPolicy cfg)) (raw_Deny raw);
            Cfg_Allow := default (Cfg_Allow (NetworkPolicy cfg)) (raw_Allow raw) |}
    else NetworkPolicy cfg;
  Logging_Level := str_or (raw_Level raw) (Logging_Level cfg);
  Credentials := {|
    Credentials_Enabled := default (Credentials_Enabled (Credentials cfg)) (raw_Credentials_Enabled raw);
    DBFile := str_or (raw_DBFile raw) (DBFile (Credentials cfg));
    KeyFile := str_or (raw_KeyFile raw) (KeyFile (Credentials cfg));
    KeyHex := KeyHex (Credentials cfg) |};
  UI_ThemesDir := str_or (raw_ThemesDir raw) (UI_ThemesDir cfg) |}.

Inductive LoadError : Type := ReadError | ParseError.

Definition Load (ReadFile : string -> option string) (Unmarshal : string -> option rawConfig)
    (path : string) : result LoadError Config :=
  let cfg := Default in
  if path =?s "" then Ok cfg
  else
    let! data := of_option ReadError (ReadFile path) in
    let! raw := of_option ParseError (Unmarshal data) in
    Ok (applyRaw cfg raw).

(** ** Environment and flag *)

Definition env_bool (v : string) : bool := EqualFoldASCII v "true" || (v =?s "1").

Definition ApplyEnv (env : string -> string) (cfg : Config) : Config :=
  let str name x := str_or (env name) x in
  let bool_ name x := if env name =?s "" then x else env_bool (env name) in
  {| Server := {|
       Listen := str "GOWEBSSH_LISTEN" (Listen (Server cfg));
       SessionSecret := str "GOWEBSSH_SESSION_SECRET" (SessionSecret (Server cfg));
       SecureCookie := bool_ "GOWEBSSH_SECURE_COOKIE" (SecureCookie (Server cfg));
       AllowedOrigins := AllowedOrigins (Server cfg) |};
     Auth := {|
       Username := str "GOWEBSSH_USERNAME" (Username (Auth cfg));
       Password := str "GOWEBSSH_PASSWORD" (Password (Auth cfg));
       PasswordHash := str "GOWEBSSH_PASSWORD_HASH" (PasswordHash (Auth cfg));
       SessionTTL := SessionTTL (Auth cfg) |};
     SSH := {|
       SSH_ConnectTimeout := SSH_ConnectTimeout (SSH cfg);
       SSH_IdleTimeout := SSH_IdleTimeout (SSH cfg);
       MaxSessions := MaxSessions (SSH cfg);
       HostKeyPolicy := str "GOWEBSSH_HOST_KEY_POLICY" (HostKeyPolicy (SSH cfg));
       KnownHostsFile := str "GOWEBSSH_KNOWN_HOSTS_FILE" (KnownHostsFile (SSH cfg)) |};
     Tunnel := {|
       Tunnel_Enabled := bool_ "GOWEBSSH_TUNNEL_ENABLED" (Tunnel_Enabled (Tunnel cfg));
       Tunnel_ConnectTimeout := Tunnel_ConnectTimeout (Tunnel cfg);
       Tunnel_WriteTimeout := Tunnel_WriteTimeout (Tunnel cfg);
       Tunnel_IdleTimeout := Tunnel_IdleTimeout (Tunnel cfg);
       MaxConnections := MaxConnections (Tunnel cfg);
       AllowedPorts := AllowedPorts (Tunnel cfg) |};
     NetworkPolicy := {|
       Cfg_AllowPrivateRanges :=
         bool_ "GOWEBSSH_ALLOW_PRIVATE_RANGES" (Cfg_AllowPrivateRanges (NetworkPolicy cfg));
       Cfg_Deny := Cfg_Deny (NetworkPolicy cfg);
       Cfg_Allow := Cfg_Allow (NetworkPolicy cfg) |};
     Logging_Level := str "GOWEBSSH_LOG_LEVEL" (Logging_Level cfg);
     Credentials := {|
       Credentials_Enabled := Credentials_Enabled (Credentials cfg);
       DBFile := DBFile (Credentials cfg);
       KeyFile := str "GOWEBSSH_CREDENTIALS_KEY_FILE" (KeyFile (Credentials cfg));
       KeyHex := str "GOWEBSSH_CREDENTIALS_KEY" (KeyHex (Credentials cfg)) |};
     UI_ThemesDir := str "GOWEBSSH_THEMES_DIR" (UI_ThemesDir cfg) |}.

Definition set_Listen (v : string) (cfg : Config) : Config :=
  mkConfig (mkServer v (SessionSecret (Server cfg)) (SecureCookie (Server cfg))
              (AllowedOrigins (Server cfg)))
    (Auth cfg) (SSH cfg) (Tunnel cfg) (NetworkPolicy cfg) (Logging_Level cfg)
    (Credentials cfg) (UI_ThemesDir cfg).

Definition ApplyFlags (cfg : Config) (listen : string) : Config :=
  if listen =?s "" then cfg else set_Listen listen cfg.

(** ** Validation *)

Inductive ConfigError : Type :=
| ListenRequired | UsernameRequired | PasswordRequired | SecretRequired | SecretTooShort
| BadHostKeyPolicy (got : string) | KnownHostsFileRequired
| NoAllowedPorts | InvalidPort (port : Z) | DuplicatePort (port : Z)
| DBFileRequired | BadCredentialsKey.

Definition set_HostKeyPolicy (policy : string) (c : Config) : Config :=
  mkConfig (Server c) (Auth c)
    (mkSSH (SSH_ConnectTimeout (SSH c)) (SSH_IdleTimeout (SSH c)) (MaxSessions (SSH c))
       policy (KnownHostsFile (SSH c)))
    (Tunnel c) (NetworkPolicy c) (Logging_Level c) (Credentials c) (UI_ThemesDir c).

Definition set_KeyFile (f : string) (c : Config) : Config :=
  mkConfig (Server c) (Auth c) (SSH c) (Tunnel c) (NetworkPolicy c) (Logging_Level c)
    (mkCredentials (Credentials_Enabled (Credentials c)) (DBFile (Credentials c)) f
       (KeyHex (Credentials c)))
    (UI_ThemesDir c).

(** The defaults for the limits and times that are not positive. *)
Definition fill_limits (c : Config) : Config := {|
  Server := Server c;
  Auth := mkAuth (Username (Auth c)) (Password (Auth c)) (PasswordHash (Auth c))
            (pos_or (SessionTTL (Auth c)) (12 * Hour));
  SSH := mkSSH (pos_or (SSH_ConnectTimeout (SSH c)) (15 * Second))
           (pos_or (SSH_IdleTimeout (SSH c)) (30 * Minute))
           (pos_or (MaxSessions (SSH c)) 5)
           (HostKeyPolicy (SSH c)) (KnownHostsFile (SSH c));
  Tunnel := mkTunnel (Tunnel_Enabled (Tunnel c))
              (pos_or (Tunnel_ConnectTimeout (Tunnel c)) (15 * Second))
              (pos_or (Tunnel_WriteTimeout (Tunnel c)) (30 * Second))
              (pos_or (Tunnel_IdleTimeout (Tunnel c)) (30 * Minute))
              (pos_or (MaxConnections (Tunnel c)) 5)
              (AllowedPorts (Tunnel c));
  NetworkPolicy := NetworkPolicy c; Logging_Level := Logging_Level c;
  Credentials := Credentials c; UI_ThemesDir := UI_ThemesDir c |}.

Fixpoint check_ports (ports : list Z) (seenPorts : gset Z) : option ConfigError :=
  match ports with
  | [] => None
  | port :: rest =>
      if (port <? 1) || (65535 <? port) then Some (InvalidPort port)
      else if bool_decide (port ∈ seenPorts) then Some (DuplicatePort port)
      else check_ports rest ({[port]} ∪ seenPorts)
  end.

Definition check_key_hex (hex : string) : option ConfigError :=
  if hex =?s "" then None
  else match HexDecode (TrimSpace hex) with
       | Some decoded => if len decoded =? 32 then None else Some BadCredentialsKey
       | None => Some BadCredentialsKey
       end.

(** [if c.Credentials.Enabled { ... }] *)
Definition validate_credentials (c : Config) : Config * option ConfigError :=
  if Credentials_Enabled (Credentials c) then
    if TrimSpace (DBFile (Credentials c)) =?s "" then (c, Some DBFileRequired)
    else
      let c := if TrimSpace (KeyFile (Credentials c)) =?s ""
               then set_KeyFile (DBFile (Credentials c) +:+ ".key") c else c in
      (c, check_key_hex (KeyHex (Credentials c)))
  else (c, None).

(** [Validate] mutates its receiver: the model returns the configuration it
    leaves, also next to an error. *)
Definition Validate (c : Config) : Config * option ConfigError :=
  if Listen (Server c) =?s "" then (c, Some ListenRequired)
  else if Username (Auth c) =?s "" then (c, Some UsernameRequired)
  else if (Password (Auth c) =?s "") && (PasswordHash (Auth c) =?s "")
  then (c, Some PasswordRequired)
  else if SessionSecret (Server c) =?s "" then (c, Some SecretRequired)
  else if len (SessionSecret (Server c)) <? 16 then (c, Some SecretTooShort)
  else
    let policy := ToLower (TrimSpace (HostKeyPolicy (SSH c))) in
    if negb (policy =?s "known-hosts") && negb (policy =?s "insecure-ignore")
    then (c, Some (BadHostKeyPolicy (HostKeyPolicy (SSH c))))
    else
      let c := set_HostKeyPolicy policy c in
      if (policy =?s "known-hosts") && (TrimSpace (KnownHostsFile (SSH c)) =?s "")
      then (c, Some KnownHostsFileRequired)
      else
        let c := fill_limits c in
        if (length (AllowedPorts (Tunnel c)) =? 0)%nat then (c, Some NoAllowedPorts)
        else match check_ports (AllowedPorts (Tunnel c)) ∅ with
             | Some e => (c, Some e)
             | None => validate_credentials c
             end.

Definition UsesPlaintextPassword (c : Config) : bool :=
  negb (Password (Auth c) =?s "") && (PasswordHash (Auth c) =?s "").

(** What [main] builds from its three sources before it validates. *)
Definition configure (ReadFile : string -> option string)
    (Unmarshal : string -> option rawConfig) (env : string -> string) (path listen : string)
    : result LoadError Config :=
  let! cfg := Load ReadFile Unmarshal path in
  Ok (ApplyFlags (ApplyEnv env cfg) listen).

(** ** Lemmas *)

Lemma pos_or_pos d x : 0 < x -> 0 < pos_or d x.
Proof. unfold pos_or. destruct (0 <? d) eqn:E; bool_facts; lia. Qed.

Lemma pos_or_id d x : 0 < d -> pos_or d x = d.
Proof. unfold pos_or. destruct (0 <? d) eqn:E; bool_facts; [done|lia]. Qed.

Lemma str_or_assoc a b c : str_or a (str_or b c) = str_or (str_or a b) c.
Proof. unfold str_or. by destruct (a =?s "") eqn:E; [|rewrite E]. Qed.

Definition valid_port (port : Z) : Prop := 1 <= port <= 65535.

(** The scan of the ports accepts exactly the duplicate-free lists of valid
    ports that avoid the ports already seen. *)
Lemma check_ports_None ports seen :
  check_ports ports seen = None <->
  Forall valid_port ports /\ NoDup ports /\ (forall p, p ∈ ports -> p ∉ seen).
Proof.
  revert seen; induction ports as [|port ports IH]; intros seen; simpl.
  - split; [|done]. intros _. split_and!; [by constructor|constructor|]. by intros p ?%not_elem_of_nil.
  - destruct ((port <? 1) || (65535 <? port)) eqn:Er.
    { split; [done|]. intros (HF & _). apply Forall_cons in HF as [HF _]. unfold valid_port in HF. lia. }
    destruct (bool_decide (port ∈ seen)) eqn:Es; bool_facts.
    { split; [done|]. intros (_ & _ & Hav). exfalso. apply (Hav port); [constructor|done]. }
    rewrite IH, Forall_cons, NoDup_cons. unfold valid_port at 2. split.
    + intros (HF & HN & Hav). split_and!; [lia|lia|done| |done|].
      * intros Hin. apply (Hav _ Hin). set_solver.
      * intros p [->|Hp]%elem_of_cons; [done|]. intros Hs. apply (Hav _ Hp). set_solver.
    + intros ((_ & HF) & (Hni & HN) & Hav). split_and!; [done..|].
      intros p Hp [->%elem_of_singleton|Hs]%elem_of_union; [done|].
      apply (Hav p); [by constructor|done].
Qed.

Lemma check_key_hex_None hex :
  check_key_hex hex = None <->
  hex = "" \/ exists key, HexDecode (TrimSpace hex) = Some key /\ len key = 32.
Proof.
  unfold check_key_hex. destruct (hex =?s "") eqn:E; bool_facts; [tauto|].
  destruct (HexDecode (TrimSpace hex)) as [key|].
  - destruct (len key =? 32) eqn:El; bool_facts.
    + split; [|done]. intros _. right. by exists key.
    + split; [done|]. intros [->|(? & [= <-] & ?)]; done.
  - split; [done|]. by intros [->|(? & ? & _)].
Qed.

(** ** What a validated configuration satisfies *)

Record valid_config (c : Config) : Prop := {
  vc_listen : Listen (Server c) <> "";
  vc_user : Username (Auth c) <> "";
  vc_password : Password (Auth c) <> "" \/ PasswordHash (Auth c) <> "";
  vc_secret : 16 <= len (SessionSecret (Server c));
  vc_policy : HostKeyPolicy (SSH c) = "known-hosts"
              /\ TrimSpace (KnownHostsFile (SSH c)) <> ""
              \/ HostKeyPolicy (SSH c) = "insecure-ignore";
  vc_limits : 0 < MaxSessions (SSH c) /\ 0 < MaxConnections (Tunnel c);
  vc_times : 0 < SessionTTL (Auth c) /\ 0 < SSH_ConnectTimeout (SSH c)
             /\ 0 < SSH_IdleTimeout (SSH c) /\ 0 < Tunnel_ConnectTimeout (Tunnel c)
             /\ 0 < Tunnel_WriteTimeout (Tunnel c) /\ 0 < Tunnel_IdleTimeout (Tunnel c);
  vc_ports : AllowedPorts (Tunnel c) <> [] /\ NoDup (AllowedPorts (Tunnel c))
             /\ Forall valid_port (AllowedPorts (Tunnel c));
  vc_credentials : Credentials_Enabled (Credentials c) = true ->
             TrimSpace (DBFile (Credentials c)) <> "" /\ TrimSpace (KeyFile (Credentials c)) <> ""
             /\ (KeyHex (Credentials c) = ""
                 \/ exists key, HexDecode (TrimSpace (KeyHex (Credentials c))) = Some key
                                /\ len key = 32)
}.

(** The settings that [Validate] never touches. *)
Definition same_settings (c c' : Config) : Prop :=
  Server c' = Server c /\ NetworkPolicy c' = NetworkPolicy c
  /\ Logging_Level c' = Logging_Level c /\ UI_ThemesDir c' = UI_ThemesDir c
  /\ Username (Auth c') = Username (Auth c) /\ Password (Auth c') = Password (Auth c)
  /\ PasswordHash (Auth c') = PasswordHash (Auth c)
  /\ KnownHostsFile (SSH c') = KnownHostsFile (SSH c)
  /\ AllowedPorts (Tunnel c') = AllowedPorts (Tunnel c)
  /\ Tunnel_Enabled (Tunnel c') = Tunnel_Enabled (Tunnel c)
  /\ Credentials_Enabled (Credentials c') = Credentials_Enabled (Credentials c)
  /\ DBFile (Credentials c') = DBFile (Credentials c)
  /\ KeyHex (Credentials c') = KeyHex (Credentials c).

(** The derived key file name is never blank. *)
Lemma key_file_nonblank s : TrimSpace (s +:+ ".key") <> "".
Proof.
  assert ("."%char ∈ chars (TrimSpace (s +:+ ".key"))) as H.
  { apply TrimSpace_keeps; [vm_compute; reflexivity|]. rewrite chars_app.
    apply elem_of_app. right. apply list_elem_of_In. simpl. tauto. }
  intros E. rewrite E in H. by apply not_elem_of_nil in H.
Qed.

Lemma validate_credentials_Ok c c' :
  validate_credentials c = (c', None) ->
  same_settings c c'
  /\ (Auth c' = Auth c /\ SSH c' = SSH c /\ Tunnel c' = Tunnel c)
  /\ (Credentials_Enabled (Credentials c') = true ->
      TrimSpace (DBFile (Credentials c')) <> "" /\ TrimSpace (KeyFile (Credentials c')) <> ""
      /\ (KeyHex (Credentials c') = ""
          \/ exists key, HexDecode (TrimSpace (KeyHex (Credentials c'))) = Some key
                         /\ len key = 32)).
Proof.
  unfold validate_credentials. destruct (Credentials_Enabled (Credentials c)) eqn:En.
  - destruct (TrimSpace (DBFile (Credentials c)) =?s "") eqn:Edb; [done|]. bool_facts.
    destruct (TrimSpace (KeyFile (Credentials c)) =?s "") eqn:Ekf; bool_facts;
      intros [= <- Hk]; apply check_key_hex_None in Hk;
      (split; [by repeat split|]); (split; [done|]); intros _; simpl in *;
      split_and!; auto using key_file_nonblank.
  - intros [= <-]. split; [by repeat split|]. split; [done|]. congruence.
Qed.

Lemma validate_credentials_id c :
  valid_config c -> validate_credentials c = (c, None).
Proof.
  intros []. unfold validate_credentials.
  destruct (Credentials_Enabled (Credentials c)) eqn:En; [|done].
  destruct (vc_credentials0 eq_refl) as (Hdb & Hkf & Hk).
  apply String.eqb_neq in Hdb, Hkf. rewrite Hdb, Hkf.
  apply check_key_hex_None in Hk. by rewrite Hk.
Qed.

Lemma fill_limits_id c : valid_config c -> fill_limits c = c.
Proof.
  intros []. destruct vc_limits0 as [? ?], vc_times0 as (? & ? & ? & ? & ? & ?).
  unfold fill_limits. rewrite !pos_or_id by done.
  by destruct c as [[] [] [] [] ? ? ? ?].
Qed.

Lemma set_HostKeyPolicy_id c : set_HostKeyPolicy (HostKeyPolicy (SSH c)) c = c.
Proof. by destruct c as [? ? [] ? ? ? ? ?]. Qed.

Lemma policy_normal c :
  valid_config c -> ToLower (TrimSpace (HostKeyPolicy (SSH c))) = HostKeyPolicy (SSH c).
Proof. intros []. destruct vc_policy0 as [[-> _]| ->]; vm_compute; reflexivity. Qed.

(** [Validate] accepts a configuration only by turning it into a valid one; it
    only fills in defaults, so every other setting is the one given. *)
Lemma Validate_Ok :
  forall c c', Validate c = (c', None) -> valid_config c' /\ same_settings c c'.
Proof.
  intros c c'. unfold Validate.
  destruct (Listen (Server c) =?s "") eqn:E1; [done|].
  destruct (Username (Auth c) =?s "") eqn:E2; [done|].
  destruct ((Password (Auth c) =?s "") && (PasswordHash (Auth c) =?s "")) eqn:E3; [done|].
  destruct (SessionSecret (Server c) =?s "") eqn:E4; [done|].
  destruct (len (SessionSecret (Server c)) <? 16) eqn:E5; [done|].
  set (policy := ToLower (TrimSpace (HostKeyPolicy (SSH c)))).
  destruct (negb (policy =?s "known-hosts") && negb (policy =?s "insecure-ignore")) eqn:E6; [done|].
  destruct ((policy =?s "known-hosts") && _) eqn:E7; [done|].
  destruct (length _ =? 0)%nat eqn:E8; [done|].
  destruct (check_ports _ _) eqn:E9; [done|]. apply check_ports_None in E9 as (Hp1 & Hp2 & _).
  intros H. apply validate_credentials_Ok in H as (Hs & (Ha & Hssh & Ht) & Hc).
  unfold same_settings in *. simpl in *. split; [|by repeat destruct_and!; split_and!].
  destruct Hs as (Hserver & _). bool_facts.
  constructor; rewrite ?Hserver, ?Ha, ?Hssh, ?Ht; simpl; auto.
  - apply andb_false_iff in E3 as [E3|E3]; bool_facts; tauto.
  - apply andb_false_iff in E6 as [E6|E6]; bool_facts; [left|by right].
    apply andb_false_iff in E7 as [E7|E7]; bool_facts; done.
  - split; apply pos_or_pos; lia.
  - unfold Hour, Minute, Second. split_and!; apply pos_or_pos; lia.
  - split_and!; [|done..]. intros Hnil. by rewrite Hnil in E8.
Qed.

(** ** Properties *)

(** [Validate] accepts every valid configuration and leaves it unchanged;
    with [Validate_Ok] it is idempotent, and the valid configurations are
    exactly its fixed points. *)
Theorem Validate_complete : forall c, valid_config c -> Validate c = (c, None).
Proof.
  intros c Hv. pose proof Hv as []. unfold Validate. rewrite policy_normal by done.
  apply String.eqb_neq in vc_listen0, vc_user0. rewrite vc_listen0, vc_user0.
  replace ((Password (Auth c) =?s "") && (PasswordHash (Auth c) =?s "")) with false
    by (symmetry; apply andb_false_iff; rewrite !String.eqb_neq; done).
  replace (SessionSecret (Server c) =?s "") with false.
  2:{ symmetry. apply String.eqb_neq. intros Hs. rewrite Hs in vc_secret0. unfold len in vc_secret0. simpl in vc_secret0. lia. }
  replace (len (SessionSecret (Server c)) <? 16) with false by (symmetry; apply Z.ltb_ge; lia).
  rewrite set_HostKeyPolicy_id, fill_limits_id by done.
  destruct vc_ports0 as (Hne & Hnd & Hr).
  replace (length (AllowedPorts (Tunnel c)) =? 0)%nat with false by (by destruct (AllowedPorts _)).
  replace (check_ports (AllowedPorts (Tunnel c)) ∅) with (@None ConfigError).
  2:{ symmetry. apply check_ports_None. split_and!; [done..|]. set_solver. }
  rewrite validate_credentials_id by done.
  destruct vc_policy0 as [[-> Hkh]| ->]; [|done].
  apply String.eqb_neq in Hkh. by rewrite Hkh.
Qed.

(** The configuration that [Validate] makes of the sample, written out. *)
Definition sample_valid : Config :=
  mkConfig (mkServer ":8080" "0123456789abcdef" false []) (mkAuth "admin" "pw" "" (12 * Hour))
    (mkSSH (15 * Second) (30 * Minute) 5 "known-hosts" "kh")
    (mkTunnel true (15 * Second) (30 * Second) (30 * Minute) 5 [22; 443])
    (mkNetPolicy false [] []) "info" (mkCredentials true "c.db" "c.db.key" "") "".

Lemma Validate_complete_witness : Validate sample_valid = (sample_valid, None).
Proof.
  apply (Validate_complete sample_valid).
  constructor; try (vm_compute; congruence); try (vm_compute; tauto).
  - left. vm_compute. done.
  - left. vm_compute. split; congruence.
  - split; [done|]. split; [apply (bool_decide_unpack _); vm_compute; exact I|].
    repeat constructor; vm_compute; congruence.
  - intros _. split; [vm_compute; congruence|]. split; [vm_compute; congruence|by left].
Defined.

(** The first of several sources that is set. *)
Definition first_set (sources : list string) : string := foldr str_or "" sources.

Lemma first_set_cons a b l : first_set (a :: b :: l) = str_or a (first_set (b :: l)).
Proof. done. Qed.

Lemma first_set_one a : first_set [a] = a.
Proof. unfold first_set, str_or. simpl. destruct (a =?s "") eqn:E; by bool_facts. Qed.

(** Precedence: in the configuration [main] assembles, the flag wins over
    the environment, the environment over the file and the file over the
    default, for every setting that has several sources; limits and times come
    from the file when they are positive there, and the port list, the deny
    list and the allow list when they are present. *)
Theorem configure_precedence :
  forall ReadFile Unmarshal env path listen data raw c,
    path <> "" -> ReadFile path = Some data -> Unmarshal data = Some raw ->
    configure ReadFile Unmarshal env path listen = Ok c ->
    Listen (Server c) = first_set [listen; env "GOWEBSSH_LISTEN"; raw_Listen raw; "127.0.0.1:8080"]
    /\ Username (Auth c) = first_set [env "GOWEBSSH_USERNAME"; raw_Username raw; "admin"]
    /\ Password (Auth c) = first_set [env "GOWEBSSH_PASSWORD"; raw_Password raw; ""]
    /\ PasswordHash (Auth c) = first_set [env "GOWEBSSH_PASSWORD_HASH"; raw_PasswordHash raw; ""]
    /\ SessionSecret (Server c)
       = first_set [env "GOWEBSSH_SESSION_SECRET"; raw_SessionSecret raw; ""]
    /\ HostKeyPolicy (SSH c)
       = first_set [env "GOWEBSSH_HOST_KEY_POLICY"; raw_HostKeyPolicy raw; "known-hosts"]
    /\ Tunnel_Enabled (Tunnel c)
       = (if env "GOWEBSSH_TUNNEL_ENABLED" =?s "" then raw_Tunnel_Enabled raw
          else env_bool (env "GOWEBSSH_TUNNEL_ENABLED"))
    /\ Cfg_AllowPrivateRanges (NetworkPolicy c)
       = (if env "GOWEBSSH_ALLOW_PRIVATE_RANGES" =?s "" then raw_AllowPrivateRanges raw
          else env_bool (env "GOWEBSSH_ALLOW_PRIVATE_RANGES"))
    /\ MaxSessions (SSH c) = pos_or (raw_MaxSessions raw) 5
    /\ SessionTTL (Auth c) = pos_or (raw_SessionTTL raw) (12 * Hour)
    /\ AllowedPorts (Tunnel c) = default [22] (raw_AllowedPorts raw)
    /\ Cfg_Deny (NetworkPolicy c) = default (Cfg_Deny (NetworkPolicy Default)) (raw_Deny raw)
    /\ Cfg_Allow (NetworkPolicy c) = default [] (raw_Allow raw)
    /\ Credentials_Enabled (Credentials c) = default true (raw_Credentials_Enabled raw).
Proof.
  intros ReadFile Unmarshal env path listen data raw c Hpath Hread Hraw Hc.
  unfold configure, Load in Hc. apply String.eqb_neq in Hpath.
  rewrite Hpath, Hread in Hc. simpl in Hc. rewrite Hraw in Hc. simpl in Hc.
  injection Hc as <-. rewrite !first_set_cons, !first_set_one.
  unfold ApplyFlags, str_or at 1.
  destruct (listen =?s "") eqn:El; cbn [set_Listen Server Auth SSH Tunnel NetworkPolicy
    Credentials Listen]; split_and!; try reflexivity; simpl; case_match;
    try reflexivity; destruct (raw_Deny raw), (raw_Allow raw), (raw_AllowPrivateRanges raw);
    reflexivity || (exfalso; done).
Qed.

(** A file that sets a few things. *)
Definition sample_raw : rawConfig :=
  mkRaw "" "secret-from-the-file" true None "" "" "" 0 0 0 9 "insecure-ignore" "" true 0 0 0 0
    (Some [22; 2222]) true None None "" None "" "" "".
Definition sample_env (name : string) : string :=
  if name =?s "GOWEBSSH_LISTEN" then ":9000"
  else if name =?s "GOWEBSSH_TUNNEL_ENABLED" then "no" else "".

Lemma configure_precedence_witness :
  exists c, configure (fun _ => Some "data") (fun _ => Some sample_raw) sample_env "c.yaml" ":1" = Ok c
            /\ Listen (Server c) = ":1" /\ Tunnel_Enabled (Tunnel c) = false.
Proof.
  eexists. split; [reflexivity|].
  edestruct (configure_precedence (fun _ => Some "data") (fun _ => Some sample_raw) sample_env
               "c.yaml" ":1" "data" sample_raw) as (H1 & _ & _ & _ & _ & _ & H2 & _);
    [discriminate|reflexivity..|].
  split; [exact H1|exact H2].
Defined.

(** ** Durations *)

Lemma ParseDuration_digits n :
  0 < n <= int64_max -> ParseDuration (Itoa n) = None.
Proof.
  intros Hn.
  assert (Itoa n <> "") as Hne.
  { unfold Itoa. destruct (n <? 0) eqn:E; bool_facts; [lia|]. apply itoa_go_nonempty. right. lia. }
  assert (digits_val (Itoa n) 0 = Some n) as Hv.
  { unfold Itoa. destruct (n <? 0) eqn:E; bool_facts; [lia|].
    rewrite itoa_go_val; [done|]. unfold int64_max in Hn. simpl. lia. }
  assert (leadingInt (Itoa n) 0 = Some (n, "")) as Hl.
  { rewrite <- (str_app_nil_r (Itoa n)). apply leadingInt_digits; [lia|done| |done].
    unfold int64_max in Hn. lia. }
  pose proof (Itoa_digits n ltac:(lia)) as Hd.
  unfold ParseDuration. destruct (Itoa n) as [|c t] eqn:E; [done|].
  assert (digit_of c <> None) as Hc.
  { apply Hd. rewrite ContainsByte_cons, Ascii.eqb_refl. done. }
  destruct (Ascii.eqb_spec c "-"%char) as [->|_]; [done|].
  destruct (Ascii.eqb_spec c "+"%char) as [->|_]; [done|].
  destruct (String c t =?s "0") eqn:E0.
  { apply String.eqb_eq in E0. rewrite E0 in Hv. change (Some 0 = Some n) in Hv. injection Hv as <-. lia. }
  cbn [String.length parse_groups]. unfold parse_group, is_unit_end.
  destruct (digit_of c); [|done]. rewrite orb_true_r. cbv iota. rewrite Hl. reflexivity.
Qed.

(** A duration written as a bare number in YAML counts seconds, modulo
    2^64 nanoseconds: exactly that many seconds up to 9223372036, the largest
    number of seconds a duration holds, and a wrapped, possibly negative,
    value above it. *)
Theorem UnmarshalYAML_seconds :
  forall n, 0 < n <= int64_max ->
    UnmarshalYAML (mkNode true (Itoa n)) = Ok (wrap64 (n * Second))
    /\ (n <= 9223372036 -> UnmarshalYAML (mkNode true (Itoa n)) = Ok (n * Second)).
Proof.
  intros n Hn.
  assert (UnmarshalYAML (mkNode true (Itoa n)) = Ok (wrap64 (n * Second))) as H.
  { unfold UnmarshalYAML. cbn [is_ScalarNode Value].
    pose proof (Itoa_nonempty n) as Hne. apply String.eqb_neq in Hne.
    rewrite Hne, ParseDuration_digits, Atoi_Itoa by lia. done. }
  split; [exact H|]. intros Hs. rewrite H, wrap64_id; [done|].
  unfold int64_min, int64_max, Second. lia.
Qed.

Lemma UnmarshalYAML_seconds_witness :
  UnmarshalYAML (mkNode true "90") = Ok (90 * Second)
  /\ UnmarshalYAML (mkNode true "9223372037") = Ok (-9223372036709551616).
Proof.
  split.
  - apply (UnmarshalYAML_seconds 90); unfold int64_max; lia.
  - apply (UnmarshalYAML_seconds 9223372037); unfold int64_max; lia.
Defined.
