(* ===== verification/Auth.v ===== *)
(** * Authentication (internal/auth/auth.go)

    Login, sessions and cookies.  A login creates either an entry of the
    in-memory store, whose random token travels in a signed cookie, or, with
    "remember me", a sealed cookie that carries the session itself.

    Parameters, gathered in the class [Crypto]: HMAC-SHA256, SHA-256 and
    AES-GCM, with the one law the development uses of a deterministic
    authenticated cipher (opening succeeds exactly on what sealing produces for
    the same key, nonce and additional data) and the output sizes the code
    relies on; and [bcrypt], a predicate.  Random bytes and the clock are
    arguments of the operations that read them.  The store's mutex makes each of
    its operations atomic: a run of the server is a sequence of them. *)

From S2P Require Import Prelude GoStrings GoTime GoEncoding Json JsonDecode.
From Stdlib Require Import Floats.SpecFloat.

(** What the code uses of the cryptographic packages. *)
Class Crypto : Type := {
  HMAC : string -> string -> string;                        (* key, message *)
  SHA256 : string -> string;
  Seal : string -> string -> string -> string -> string;    (* key, nonce, plaintext, data *)
  AEAD_Open : string -> string -> string -> string -> option string;
  CompareHashAndPassword : string -> string -> bool;        (* bcrypt: hash, password *)
  HMAC_size : forall k m, String.length (HMAC k m) = 32%nat;
  SHA256_size : forall m, String.length (SHA256 m) = 32%nat;
  Open_Seal : forall k n c d p, AEAD_Open k n c d = Some p <-> c = Seal k n p d }.

Definition NonceSize : nat := 12.

Definition CookieName : string := "gowebssh_session".
Definition persistentTokenPrefix : string := "p1.".

(** ** The session store *)

Record SessionInfo : Type := mkSessionInfo { si_Username : string; si_ExpiresAt : Z }.

Record Store : Type := mkStore { sessions : gmap string SessionInfo; ttl : Z }.

Definition NewStore (t : Z) : Store := mkStore ∅ (if t <=? 0 then 12 * Hour else t).

(** One tick of [cleanupLoop]. *)
Definition cleanup (now : Z) (s : Store) : Store :=
  mkStore (filter (fun '(_, v) => After now (si_ExpiresAt v) = false) (sessions s)) (ttl s).

(** [b] are the 32 random bytes, [None] when the random source fails. *)
Definition Create (s : Store) (username : string) (t : Z) (now : Z) (b : option string)
    : Store * option (string * Z) :=
  match b with
  | None => (s, None)
  | Some b =>
      let token := B64Encode b in
      let duration := if 0 <? t then t else ttl s in
      let expires := now + duration in
      (mkStore (<[token := mkSessionInfo username expires]> (sessions s)) (ttl s),
       Some (token, expires))
  end.

Definition Get (s : Store) (token : string) (now : Z) : Store * option SessionInfo :=
  match sessions s !! token with
  | None => (s, None)
  | Some info =>
      if After now (si_ExpiresAt info) then (mkStore (delete token (sessions s)) (ttl s), None)
      else (s, Some info)
  end.

Definition Delete (s : Store) (token : string) : Store :=
  mkStore (delete token (sessions s)) (ttl s).

(** ** Credentials *)

Record Authenticator : Type := mkAuthenticator {
  a_Username : string; a_Password : string; a_PasswordHash : string;
  a_SecureCookie : bool; a_TTL : Z; a_SessionSecret : string }.

(** The cookie [Login] and [Logout] set; path, HttpOnly and SameSite are the
    constants "/", true and Lax. *)
Record Cookie : Type := mkCookie {
  c_Value : string; c_Secure : bool; c_Expires : Z; c_MaxAge : Z }.

Section Auth.

Context `{Crypto}.

(** [true] is the nil error. *)
Definition checkPassword (a : Authenticator) (password : string) : bool :=
  if negb (a_PasswordHash a =?s "") then CompareHashAndPassword (a_PasswordHash a) password
  else password =?s a_Password a.

Definition Authenticate (a : Authenticator) (username password : string) : bool :=
  if negb (username =?s a_Username a) then false
  else checkPassword a password.

(** ** Signed tokens *)

Definition signedToken (a : Authenticator) (token : string) : string :=
  token +:+ "." +:+ B64Encode (HMAC (a_SessionSecret a) token).

Definition verifyToken (a : Authenticator) (value : string) : option string :=
  match CutByte value "."%char with
  | None => None
  | Some (token, encodedSig) =>
      if (token =?s "") || (encodedSig =?s "") then None
      else match B64Decode encodedSig with
           | None => None
           | Some sig => if sig =?s HMAC (a_SessionSecret a) token then Some token else None
           end
  end.

(** ** Sealed sessions *)

Definition persistent_key (a : Authenticator) : string :=
  SHA256 ("go-webssh/persistent-session/" +:+ a_SessionSecret a).

Record persistentSession : Type := mkPersistent { ps_Username : string; ps_Expires : Z }.

Definition persistentSession_fields : list (field persistentSession) := [
  mkField "u" ps_Username dec_string (fun x s => mkPersistent x (ps_Expires s));
  mkField "e" ps_Expires dec_int (fun x s => mkPersistent (ps_Username s) x) ].

Definition enc_persistentSession (s : persistentSession) : json :=
  JObj [("u", JStr (ps_Username s)); ("e", enc_int (ps_Expires s))].

(** [nonce] are the random bytes, [None] when the random source fails. *)
Definition sealPersistentSession (a : Authenticator) (info : SessionInfo) (nonce : option string)
    : option string :=
  let payload := print (enc_persistentSession
                          (mkPersistent (si_Username info) (Unix (si_ExpiresAt info)))) in
  match nonce with
  | None => None
  | Some nonce =>
      let sealed := nonce +:+ Seal (persistent_key a) nonce payload CookieName in
      Some (persistentTokenPrefix +:+ B64Encode sealed)
  end.

Definition openPersistentSession (a : Authenticator) (value : string) (now : Z)
    : option SessionInfo :=
  match B64Decode (TrimPrefix value persistentTokenPrefix) with
  | None => None
  | Some sealed =>
      if (String.length sealed <? NonceSize)%nat then None
      else
        let nonce := str_take NonceSize sealed in
        let ciphertext := str_drop NonceSize sealed in
        match AEAD_Open (persistent_key a) nonce ciphertext CookieName with
        | None => None
        | Some payload =>
            match unmarshal (dec_struct persistentSession_fields) payload (mkPersistent "" 0) with
            | None => None
            | Some session =>
                if negb (ps_Username session =?s a_Username a) || (ps_Expires session <=? Unix now)
                then None
                else Some (mkSessionInfo (ps_Username session) (FromUnix (ps_Expires session)))
            end
        end
  end.

(** ** Login, logout, requests *)

(** The clock is read when the session is made ([now]) and again for the
    cookie's age ([now']). *)
Definition Login (a : Authenticator) (s : Store) (username password : string) (remember : bool)
    (random : option string) (now now' : Z) : Store * option Cookie :=
  if negb (Authenticate a username password) then (s, None)
  else
    let cookie value expires :=
      Some (mkCookie value (a_SecureCookie a) expires (int_of_float (Seconds (expires - now')))) in
    if remember then
      let expires := now + 30 * 24 * Hour in
      match sealPersistentSession a (mkSessionInfo username expires) random with
      | None => (s, None)
      | Some value => (s, cookie value expires)
      end
    else
      match Create s username (a_TTL a) now random with
      | (s', None) => (s', None)
      | (s', Some (token, expires)) => (s', cookie (signedToken a token) expires)
      end.

(** [c] is the request's session cookie, if it has one. *)
Definition Logout (a : Authenticator) (s : Store) (c : option string) : Store * Cookie :=
  let s' := match c with
            | None => s
            | Some value => match verifyToken a value with
                            | Some token => Delete s token
                            | None => s
                            end
            end in
  (s', mkCookie "" (a_SecureCookie a) 0 (-1)).

Definition SessionFromRequest (a : Authenticator) (s : Store) (c : option string) (now : Z)
    : Store * option SessionInfo :=
  match c with
  | None => (s, None)
  | Some value =>
      if value =?s "" then (s, None)
      else if HasPrefix value persistentTokenPrefix then (s, openPersistentSession a value now)
      else match verifyToken a value with
           | None => (s, None)
           | Some token => Get s token now
           end
  end.

(** ** Runs *)

(** What happens to the store of a running server. *)
Inductive Event : Type :=
| DoLogin (username password : string) (remember : bool) (random : option string) (now now' : Z)
| DoLogout (c : option string)
| DoRequest (c : option string) (now : Z)
| DoCleanup (now : Z).

Definition step (a : Authenticator) (s : Store) (e : Event) : Store :=
  match e with
  | DoLogin u p r b n n' => fst (Login a s u p r b n n')
  | DoLogout c => fst (Logout a s c)
  | DoRequest c n => fst (SessionFromRequest a s c n)
  | DoCleanup n => cleanup n s
  end.

Definition run (a : Authenticator) (s : Store) (es : list Event) : Store := foldl (step a) s es.

(** ** Lemmas: tokens *)

Lemma B64Encode_no_dot b : IndexByte (B64Encode b) "."%char = None.
Proof.
  destruct (IndexByte (B64Encode b) "."%char) as [i|] eqn:E; [|done]. exfalso.
  assert ("."%char ∈ chars (B64Encode b)) as Hin.
  { revert i E. generalize (B64Encode b) as s. induction s as [|c s IH]; intros i E; [done|].
    cbn [IndexByte] in E. change (chars (String c s)) with (c :: chars s).
    destruct (Ascii.eqb_spec c "."%char) as [->|_]; [constructor|].
    destruct (IndexByte s "."%char) as [j|]; [|done]. constructor. by eapply IH. }
  by apply B64Encode_chars in Hin.
Qed.

Lemma B64Encode_nonempty b : b <> "" -> B64Encode b <> "".
Proof. by destruct b as [|a [|b [|c t]]]. Qed.

Lemma HMAC_nonempty k m : HMAC k m <> "".
Proof. intros E. pose proof (HMAC_size k m) as Hs. by rewrite E in Hs. Qed.

(** What is accepted as a token is signed: the text before the first dot, with
    its own signature after it. *)
Lemma verifyToken_Some a value token :
  verifyToken a value = Some token <->
  token <> "" /\ IndexByte token "."%char = None
  /\ exists sig, value = token +:+ "." +:+ sig
                 /\ B64Decode sig = Some (HMAC (a_SessionSecret a) token).
Proof.
  unfold verifyToken. split.
  - destruct (CutByte value "."%char) as [[tok sig]|] eqn:E; [|done].
    unfold CutByte in E. destruct (IndexByte value "."%char) as [i|] eqn:Ei; [|done].
    injection E as <- <-.
    destruct (_ || _) eqn:Ene; [done|]. bool_facts.
    destruct (B64Decode _) as [sg|] eqn:Ed; [|done].
    destruct (sg =?s _) eqn:Eh; [|done]. intros [= <-]. bool_facts. subst.
    split_and!; [done|by apply IndexByte_take|]. exists (str_drop (S i) value).
    split; [by apply IndexByte_Some|done].
  - intros (Hne & Hno & sig & -> & Hd).
    change ("." +:+ sig) with (String "."%char sig).
    rewrite CutByte_app by done. apply String.eqb_neq in Hne. rewrite Hne.
    assert (sig <> "") as Hsig.
    { intros ->. vm_compute in Hd. injection Hd as Hd. by apply (HMAC_nonempty (a_SessionSecret a) token). }
    apply String.eqb_neq in Hsig. rewrite Hsig. simpl. by rewrite Hd, String.eqb_refl.
Qed.

Lemma verifyToken_signed a b :
  b <> "" -> verifyToken a (signedToken a (B64Encode b)) = Some (B64Encode b).
Proof.
  intros Hb. apply verifyToken_Some. split_and!.
  - by apply B64Encode_nonempty.
  - apply B64Encode_no_dot.
  - eexists. split; [reflexivity|]. apply B64Decode_Encode.
Qed.

(** ** Lemmas: what an operation leaves in the store *)

(** The life of the session a login makes. *)
Definition login_duration (a : Authenticator) (t : Z) : Z := if 0 <? a_TTL a then a_TTL a else t.

(** [e] is a successful login that created the token. *)
Definition creates (a : Authenticator) (t : Z) (e : Event) (tok : string) (info : SessionInfo) : Prop :=
  exists u p b n n', e = DoLogin u p false (Some b) n n' /\ Authenticate a u p = true
    /\ tok = B64Encode b /\ info = mkSessionInfo u (n + login_duration a t).

(** [e] is a logout with the token's cookie. *)
Definition revokes (a : Authenticator) (e : Event) (tok : string) : Prop :=
  exists value, e = DoLogout (Some value) /\ verifyToken a value = Some tok.

Lemma Authenticate_user a u p : Authenticate a u p = true -> u = a_Username a.
Proof. unfold Authenticate. destruct (u =?s a_Username a) eqn:E; [|done]. by bool_facts. Qed.

Lemma Login_store a s u p r b n n' :
  fst (Login a s u p r b n n')
  = match b with
    | Some b => if Authenticate a u p && negb r
                then mkStore (<[B64Encode b := mkSessionInfo u (n + login_duration a (ttl s))]> (sessions s))
                       (ttl s)
                else s
    | None => s
    end.
Proof.
  unfold Login, Create, login_duration. destruct (Authenticate a u p), r, b as [b|]; try done.
Qed.

Lemma step_ttl a s e : ttl (step a s e) = ttl s.
Proof.
  destruct e as [u p r b n n'|[v|]|[v|] n|n]; cbn [step]; try done.
  - rewrite Login_store. by destruct b, (Authenticate a u p && negb r).
  - unfold Logout. simpl. by destruct (verifyToken a v).
  - unfold SessionFromRequest, Get. repeat case_match; done.
Qed.

Lemma run_ttl a s es : ttl (run a s es) = ttl s.
Proof. revert s; induction es as [|e es IH]; intros s; [done|]. simpl. by rewrite IH, step_ttl. Qed.

Lemma step_lookup a s e tok info :
  sessions (step a s e) !! tok = Some info ->
  creates a (ttl s) e tok info \/ sessions s !! tok = Some info /\ ~ revokes a e tok.
Proof.
  intros Hl. destruct e as [u p r b n n'|[v|]|[v|] n|n]; cbn [step] in Hl.
  - rewrite Login_store in Hl. destruct b as [b|]; [|right; split; [done|by intros (? & ? & _)]].
    destruct (Authenticate a u p) eqn:Ea, r; simpl in Hl;
      try (right; split; [done|by intros (? & ? & _)]).
    apply lookup_insert_Some in Hl as [[<- <-]|[_ Hl]].
    + left. by exists u, p, b, n, n'.
    + right. split; [done|by intros (? & ? & _)].
  - unfold Logout in Hl. simpl in Hl. destruct (verifyToken a v) as [t|] eqn:Ev; simpl in Hl.
    + apply lookup_delete_Some in Hl as [Hne Hl]. right. split; [done|].
      intros (v' & [= <-] & Hv). congruence.
    + right. split; [done|]. intros (v' & [= <-] & Hv). congruence.
  - right. split; [done|by intros (? & ? & _)].
  - right. split; [|by intros (? & ? & _)]. unfold SessionFromRequest, Get in Hl.
    repeat case_match; simplify_eq/=; try done. by apply lookup_delete_Some in Hl as [_ Hl].
  - right. split; [done|by intros (? & ? & _)].
  - right. split; [|by intros (? & ? & _)]. cbn [cleanup sessions] in Hl.
    by apply map_lookup_filter_Some in Hl as [Hl _].
Qed.

(** The other direction: what keeps a session. *)
Definition spares (tok : string) (expires : Z) (e : Event) : Prop :=
  match e with
  | DoLogin _ _ _ b _ _ => b <> Some tok
  | DoLogout _ => True
  | DoRequest _ n | DoCleanup n => n <= expires
  end.

Lemma step_keeps a s e b info :
  sessions s !! B64Encode b = Some info -> spares b (si_ExpiresAt info) e ->
  ~ revokes a e (B64Encode b) -> sessions (step a s e) !! B64Encode b = Some info.
Proof.
  intros Hl Hs Hr. destruct e as [u p r b' n n'|[v|]|[v|] n|n]; cbn [step spares] in *.
  - rewrite Login_store. destruct b' as [b'|]; [|done].
    destruct (Authenticate a u p && negb r); [|done]. cbn [sessions].
    rewrite lookup_insert_ne; [done|]. intros Heq. apply Hs. f_equal.
    assert (B64Decode (B64Encode b') = B64Decode (B64Encode b)) as Hd by (by rewrite Heq).
    rewrite !B64Decode_Encode in Hd. by injection Hd.
  - unfold Logout. simpl. destruct (verifyToken a v) as [t|] eqn:Ev; [|done]. cbn [Delete sessions].
    rewrite lookup_delete_ne; [done|]. intros ->. apply Hr. by exists v.
  - done.
  - unfold SessionFromRequest, Get. repeat case_match; simplify_eq/=; try done.
    rewrite lookup_delete_ne; [done|]. intros ->. simplify_eq.
    match goal with X : After _ _ = true |- _ => unfold After in X end. bool_facts. lia.
  - done.
  - cbn [cleanup sessions]. apply map_lookup_filter_Some. split; [done|].
    unfold After. apply Z.ltb_ge. lia.
Qed.

Lemma run_snoc a s es e : run a s (es ++ [e]) = step a (run a s es) e.
Proof. unfold run. by rewrite foldl_app. Qed.

(** Every session of a running server has a login that made it and no logout
    since. *)
Lemma run_provenance a t es tok info :
  sessions (run a (NewStore t) es) !! tok = Some info ->
  exists pre e post, es = pre ++ e :: post
    /\ creates a (ttl (NewStore t)) e tok info /\ Forall (fun e => ~ revokes a e tok) post.
Proof.
  induction es as [|e es IH] using rev_ind; intros Hl.
  - change ((∅ : gmap string SessionInfo) !! tok = Some info) in Hl. by rewrite lookup_empty in Hl.
  - rewrite run_snoc in Hl. apply step_lookup in Hl as [Hc|[Hl Hr]].
    + exists es, e, []. rewrite run_ttl in Hc. split; [done|]. split; [done|]. by apply Forall_nil.
    + destruct (IH Hl) as (pre & e0 & post & -> & Hc & HF).
      exists pre, e0, (post ++ [e]). rewrite <- app_assoc. split; [done|]. split; [done|].
      apply Forall_app. split; [done|]. by apply Forall_singleton.
Qed.

Lemma run_keeps a s es b info :
  sessions s !! B64Encode b = Some info -> Forall (spares b (si_ExpiresAt info)) es ->
  Forall (fun e => ~ revokes a e (B64Encode b)) es ->
  sessions (run a s es) !! B64Encode b = Some info.
Proof.
  revert s; induction es as [|e es IH]; intros s Hl Hs Hr; [done|].
  apply Forall_cons in Hs as [? ?]. apply Forall_cons in Hr as [? ?]. simpl.
  apply IH; [by apply step_keeps|done|done].
Qed.

(** ** Lemmas: sealed sessions *)

Lemma payload_roundtrip u e :
  valid_utf8 u = true -> in_int64 e = true ->
  unmarshal (dec_struct persistentSession_fields) (print (enc_persistentSession (mkPersistent u e)))
    (mkPersistent "" 0) = Some (mkPersistent u e).
Proof.
  intros Hu He. unfold unmarshal. rewrite parse_print.
  - cbn [enc_persistentSession jclean map fst snd ps_Username ps_Expires enc_int].
    rewrite (utf8_clean_id u) by done.
    change (utf8_clean "u") with "u". change (utf8_clean "e") with "e".
    cbn -[Atoi Itoa]. by rewrite Atoi_Itoa_int64.
  - cbn [enc_persistentSession wf_json forallb snd ps_Expires enc_int]. by rewrite is_num_Itoa.
  - done.
Qed.

Lemma HasPrefix_persistent s : HasPrefix (persistentTokenPrefix +:+ s) persistentTokenPrefix = true.
Proof. apply HasPrefix_spec. by exists s. Qed.

Lemma TrimPrefix_persistent s : TrimPrefix (persistentTokenPrefix +:+ s) persistentTokenPrefix = s.
Proof.
  unfold TrimPrefix. rewrite HasPrefix_persistent.
  exact (str_drop_app persistentTokenPrefix s).
Qed.

(** What opening a cookie amounts to. *)
Lemma open_sealed a nonce payload now :
  String.length nonce = NonceSize ->
  openPersistentSession a (persistentTokenPrefix
      +:+ B64Encode (nonce +:+ Seal (persistent_key a) nonce payload CookieName)) now
  = match unmarshal (dec_struct persistentSession_fields) payload (mkPersistent "" 0) with
    | None => None
    | Some session =>
        if negb (ps_Username session =?s a_Username a) || (ps_Expires session <=? Unix now)
        then None
        else Some (mkSessionInfo (ps_Username session) (FromUnix (ps_Expires session)))
    end.
Proof.
  intros Hn. unfold openPersistentSession. rewrite TrimPrefix_persistent, B64Decode_Encode.
  rewrite str_length_app, Hn.
  assert ((NonceSize + String.length (Seal (persistent_key a) nonce payload CookieName) <? NonceSize)%nat
          = false) as -> by (apply Nat.ltb_ge; lia).
  rewrite <- Hn, str_take_app, str_drop_app.
  assert (AEAD_Open (persistent_key a) nonce (Seal (persistent_key a) nonce payload CookieName) CookieName
          = Some payload) as -> by (by apply Open_Seal).
  done.
Qed.

Lemma open_Some a value now info :
  openPersistentSession a value now = Some info ->
  si_Username info = a_Username a /\ now < si_ExpiresAt info
  /\ exists nonce payload, String.length nonce = NonceSize
       /\ B64Decode (TrimPrefix value persistentTokenPrefix)
          = Some (nonce +:+ Seal (persistent_key a) nonce payload CookieName)
       /\ unmarshal (dec_struct persistentSession_fields) payload (mkPersistent "" 0)
          = Some (mkPersistent (si_Username info) (Unix (si_ExpiresAt info))).
Proof.
  unfold openPersistentSession. destruct (B64Decode _) as [sealed|]; [|done].
  destruct (String.length sealed <? NonceSize)%nat eqn:El; [done|].
  destruct (AEAD_Open _ _ _ _) as [payload|] eqn:Eo; [|done]. apply Open_Seal in Eo.
  destruct (unmarshal _ _ _) as [[u e]|] eqn:Eu; [|done].
  destruct (negb _ || _) eqn:E; [done|]. intros [= <-]. cbn [ps_Username ps_Expires] in *. bool_facts.
  apply Nat.ltb_ge in El. cbn [si_Username si_ExpiresAt]. split; [done|].
  unfold Unix, FromUnix in *. rewrite Z.div_mul by done. split.
  - pose proof (Z_div_mod_eq_full now Second).
    pose proof (Z.mod_pos_bound now Second ltac:(done)). unfold Second in *. nia.
  - exists (str_take NonceSize sealed), payload. split; [rewrite str_length_take; lia|].
    split; [|done]. by rewrite <- Eo, str_take_drop.
Qed.

End Auth.

(** The session of a login, for as long as it lasts. *)
Lemma Login_session :
  forall `{Crypto} a s u p b n n' es now,
    Authenticate a u p = true -> b <> "" ->
    let expires := n + login_duration a (ttl s) in
    HasPrefix (signedToken a (B64Encode b)) persistentTokenPrefix = false ->
    Forall (spares b expires) es -> Forall (fun e => ~ revokes a e (B64Encode b)) es ->
    now <= expires ->
    exists s1 c,
      Login a s u p false (Some b) n n' = (s1, Some c)
      /\ c_Expires c = expires /\ c_Secure c = a_SecureCookie a
      /\ SessionFromRequest a (run a s1 es) (Some (c_Value c)) now
         = (run a s1 es, Some (mkSessionInfo u expires)).
Proof.
  intros C a s u p b n n' es now Hauth Hb expires Hpre Hsp Hrev Hnow.
  pose proof (Login_store a s u p false (Some b) n n') as Hst. rewrite Hauth in Hst. simpl in Hst.
  unfold Login in *. rewrite Hauth in *. unfold Create in *. fold (login_duration a (ttl s)) in *.
  simpl in *. eexists _, _. split; [reflexivity|]. split; [done|]. split; [done|].
  cbn [c_Value]. unfold SessionFromRequest.
  assert ((signedToken a (B64Encode b) =?s "") = false) as ->.
  { apply String.eqb_neq. unfold signedToken. intros Hs.
    pose proof (B64Encode_nonempty b Hb). destruct (B64Encode b); done. }
  rewrite Hpre, verifyToken_signed by done. unfold Get.
  rewrite (run_keeps _ _ _ _ (mkSessionInfo u expires)); [|apply lookup_insert_eq|done|done].
  cbn [si_ExpiresAt]. unfold After. by assert ((expires <? now) = false) as -> by lia.
Qed.

(** ** Properties *)

(** A concrete instance for the witnesses: a keyed checksum in place of HMAC,
    and the plaintext with such a checksum in place of the cipher. *)
Definition pad32 (s : string) : string :=
  str_take 32 (s +:+ "................................").

Lemma pad32_length s : String.length (pad32 s) = 32%nat.
Proof. unfold pad32. rewrite str_length_take, str_length_app.
  change (String.length "................................") with 32%nat. lia.
Qed.

Definition toy_open (tag c : string) : option string :=
  if HasSuffix c tag then Some (TrimSuffix c tag) else None.

Lemma toy_open_spec tag c p : toy_open tag c = Some p <-> c = p +:+ tag.
Proof.
  unfold toy_open, TrimSuffix. split.
  - destruct (HasSuffix c tag) eqn:E; [|done]. intros [= <-].
    apply HasSuffix_spec in E as [t ->]. by rewrite str_length_app, Nat.add_sub, str_take_app.
  - intros ->. assert (HasSuffix (p +:+ tag) tag = true) as -> by (apply HasSuffix_spec; by exists p).
    by rewrite str_length_app, Nat.add_sub, str_take_app.
Qed.

#[local] Instance toy_crypto : Crypto := {|
  HMAC := fun k m => pad32 (m +:+ k);
  SHA256 := pad32;
  Seal := fun k n p d => p +:+ pad32 (n +:+ d +:+ k);
  AEAD_Open := fun k n c d => toy_open (pad32 (n +:+ d +:+ k)) c;
  CompareHashAndPassword := fun h p => h =?s "hash:" +:+ p;
  HMAC_size := fun k m => pad32_length (m +:+ k);
  SHA256_size := pad32_length;
  Open_Seal := fun k n c d p => toy_open_spec (pad32 (n +:+ d +:+ k)) c p |}.

Definition sample_auth : Authenticator :=
  mkAuthenticator "admin" "" "hash:pw" true (12 * Hour) "0123456789abcdef".

Definition sample_random : string := "abcdefghijklmnopqrstuvwxyz012345".
Definition sample_token : string := B64Encode sample_random.

(** C14.  Provenance of a session: when a cookie with a store token
    authenticates a request, the run of the server contains a login with valid
    credentials that created this token, the cookie carries the token's
    signature, no logout with the token came after the login, and the request
    is not later than the login's time plus the session's life. *)
Theorem session_provenance :
  forall `{Crypto} a t es value now s' info,
    HasPrefix value persistentTokenPrefix = false ->
    SessionFromRequest a (run a (NewStore t) es) (Some value) now = (s', Some info) ->
    exists pre u p b n n' post sig,
      es = pre ++ DoLogin u p false (Some b) n n' :: post
      /\ Authenticate a u p = true
      /\ value = B64Encode b +:+ "." +:+ sig
      /\ B64Decode sig = Some (HMAC (a_SessionSecret a) (B64Encode b))
      /\ Forall (fun e => ~ revokes a e (B64Encode b)) post
      /\ si_Username info = u
      /\ now <= si_ExpiresAt info
      /\ si_ExpiresAt info = n + login_duration a (ttl (NewStore t)).
Proof.
  intros C a t es value now s' info Hpre H. unfold SessionFromRequest in H.
  destruct (value =?s ""); [done|]. rewrite Hpre in H.
  destruct (verifyToken a value) as [tok|] eqn:Ev; [|done].
  unfold Get in H. destruct (sessions _ !! tok) as [i|] eqn:El; [|done].
  destruct (After now (si_ExpiresAt i)) eqn:Ea; [done|]. injection H as <- <-.
  apply verifyToken_Some in Ev as (_ & _ & sig & -> & Hsig).
  apply run_provenance in El as (pre & e & post & -> & Hc & HF).
  destruct Hc as (u & p & b & n & n' & -> & Hauth & -> & ->).
  exists pre, u, p, b, n, n', post, sig. unfold After in Ea. cbn [si_ExpiresAt] in *. bool_facts.
  by split_and!.
Qed.

Definition sample_run : list Event :=
  [DoLogin "admin" "no" false (Some "x") 5 5; DoLogin "admin" "pw" false (Some sample_random) 7 7;
   DoCleanup 9].

Lemma session_provenance_witness :
  exists pre u p b n n' post,
    sample_run = pre ++ DoLogin u p false (Some b) n n' :: post
    /\ Authenticate sample_auth u p = true.
Proof.
  destruct (session_provenance sample_auth 0 sample_run (signedToken sample_auth sample_token) 100
    (run sample_auth (NewStore 0) sample_run) (mkSessionInfo "admin" (7 + 12 * Hour)))
    as (pre & u & p & b & n & n' & post & sig & Hes & Hauth & _);
    [vm_compute; reflexivity..|].
  exists pre, u, p, b, n, n', post. split; [exact Hes|exact Hauth].
Defined.

(** Life of a session: after a login with valid credentials, the cookie
    it sets authenticates every request until the session expires, whatever
    else happens meanwhile, as long as nobody logs out with the same token and
    no other login draws the same random bytes; the request leaves the store as
    it is. *)
Theorem session_lifetime :
  forall `{Crypto} a s u p b n n' es now,
    Authenticate a u p = true -> b <> "" ->
    let expires := n + login_duration a (ttl s) in
    HasPrefix (signedToken a (B64Encode b)) persistentTokenPrefix = false ->
    Forall (spares b expires) es -> Forall (fun e => ~ revokes a e (B64Encode b)) es ->
    now <= expires ->
    exists s1 c,
      Login a s u p false (Some b) n n' = (s1, Some c)
      /\ c_Expires c = expires /\ c_Secure c = a_SecureCookie a
      /\ SessionFromRequest a (run a s1 es) (Some (c_Value c)) now
         = (run a s1 es, Some (mkSessionInfo u expires)).
Proof. exact @Login_session. Qed.

Lemma session_lifetime_witness :
  exists s1 c, Login sample_auth (NewStore 0) "admin" "pw" false (Some sample_random) 7 8 = (s1, Some c)
    /\ SessionFromRequest sample_auth
         (run sample_auth s1 [DoLogout (Some "abc.def"); DoCleanup 50; DoRequest (Some "z") 60])
         (Some (c_Value c)) (12 * Hour)
       = (run sample_auth s1 [DoLogout (Some "abc.def"); DoCleanup 50; DoRequest (Some "z") 60],
          Some (mkSessionInfo "admin" (7 + 12 * Hour))).
Proof.
  destruct (session_lifetime sample_auth (NewStore 0) "admin" "pw" sample_random 7 8
              [DoLogout (Some "abc.def"); DoCleanup 50; DoRequest (Some "z") 60] (12 * Hour))
    as (s1 & c & H1 & _ & _ & H2).
  - vm_compute. reflexivity.
  - discriminate.
  - vm_compute. reflexivity.
  - repeat constructor; vm_compute; discriminate.
  - repeat constructor; intros (v & Hv & Ht); try discriminate Hv.
    injection Hv as <-. vm_compute in Ht. discriminate Ht.
  - vm_compute. discriminate.
  - exists s1, c. split; [exact H1|exact H2].
Defined.

(** C20.  Only the owner, and only in time: whatever logins, logouts, requests
    and cleanups a server has seen, a request it authenticates, with either
    kind of cookie, is for the configured user name and within its session's
    life. *)
Theorem authenticated_is_owner :
  forall `{Crypto} a t es c now s' info,
    SessionFromRequest a (run a (NewStore t) es) c now = (s', Some info) ->
    si_Username info = a_Username a /\ now <= si_ExpiresAt info.
Proof.
  intros C a t es c now s' info H. unfold SessionFromRequest in H.
  destruct c as [value|]; [|done]. destruct (value =?s ""); [done|].
  destruct (HasPrefix value persistentTokenPrefix).
  - injection H as _ H. apply open_Some in H as (Hu & Hn & _). split; [done|lia].
  - destruct (verifyToken a value) as [tok|]; [|done].
    unfold Get in H. destruct (sessions _ !! tok) as [i|] eqn:El; [|done].
    destruct (After now (si_ExpiresAt i)) eqn:Ea; [done|]. injection H as <- <-.
    apply run_provenance in El as (pre & e & post & _ & Hc & _).
    destruct Hc as (u & p & b & n & n' & -> & Hauth & -> & ->).
    unfold After in Ea. bool_facts. split; [by eapply Authenticate_user|done].
Qed.

Lemma authenticated_is_owner_witness :
  si_Username (mkSessionInfo "admin" (7 + 12 * Hour)) = "admin" /\ 100 <= 7 + 12 * Hour.
Proof.
  apply (authenticated_is_owner sample_auth 0 [DoLogin "admin" "pw" false (Some sample_random) 7 7]
           (Some (signedToken sample_auth sample_token)) 100
           (run sample_auth (NewStore 0) [DoLogin "admin" "pw" false (Some sample_random) 7 7])).
  vm_compute. reflexivity.
Defined.

(** Sealed sessions: the cookie of a remembered login opens to the same
    user and, to the second, the same expiry, until that second comes; and any
    cookie that opens at all is the sealing, under this server's key, of a
    session of the configured user. *)
Theorem sealed_session_roundtrip :
  forall `{Crypto} a s u p nonce n n' now,
    Authenticate a u p = true -> valid_utf8 u = true -> String.length nonce = NonceSize ->
    let expires := n + 30 * 24 * Hour in
    in_int64 (Unix expires) = true ->
    (exists c, Login a s u p true (Some nonce) n n' = (s, Some c)
      /\ HasPrefix (c_Value c) persistentTokenPrefix = true
      /\ SessionFromRequest a s (Some (c_Value c)) now
         = (s, if Unix expires <=? Unix now then None
               else Some (mkSessionInfo u (FromUnix (Unix expires)))))
    /\ forall value info, openPersistentSession a value now = Some info ->
         si_Username info = a_Username a /\ now < si_ExpiresAt info
         /\ exists nonce payload,
              B64Decode (TrimPrefix value persistentTokenPrefix)
              = Some (nonce +:+ Seal (persistent_key a) nonce payload CookieName).
Proof.
  intros C a s u p nonce n n' now Hauth Hu Hn expires He. split.
  - unfold Login. rewrite Hauth. simpl negb. cbv iota. unfold sealPersistentSession.
    eexists. split; [reflexivity|]. cbn [c_Value]. split; [apply HasPrefix_persistent|].
    unfold SessionFromRequest.
    rewrite HasPrefix_persistent. simpl (_ =?s ""). cbv iota. rewrite open_sealed by done.
    rewrite payload_roundtrip by done. cbn [ps_Username ps_Expires si_Username].
    apply Authenticate_user in Hauth as Hown. by rewrite <- Hown, String.eqb_refl.
  - intros value info Hi. apply open_Some in Hi as (H1 & H2 & nc & pl & _ & H3 & _).
    split; [done|]. split; [done|]. by exists nc, pl.
Qed.

Lemma sealed_session_roundtrip_witness :
  exists c, Login sample_auth (NewStore 0) "admin" "pw" true (Some "0123456789ab") 0 0
            = (NewStore 0, Some c)
    /\ snd (SessionFromRequest sample_auth (NewStore 0) (Some (c_Value c)) (Second + 1))
       = Some (mkSessionInfo "admin" (30 * 24 * Hour)).
Proof.
  destruct (sealed_session_roundtrip sample_auth (NewStore 0) "admin" "pw" "0123456789ab" 0 0 (Second + 1))
    as ((c & H1 & _ & H2) & _); [vm_compute; reflexivity..|].
  exists c. split; [exact H1|]. rewrite H2. vm_compute. reflexivity.
Defined.

(** Logging out does not end a remembered session: its cookie is not in
    the store, so it authenticates after a logout with it exactly as before. *)
Theorem logout_spares_sealed :
  forall `{Crypto} a s value now,
    HasPrefix value persistentTokenPrefix = true ->
    snd (SessionFromRequest a (fst (Logout a s (Some value))) (Some value) now)
    = snd (SessionFromRequest a s (Some value) now).
Proof.
  intros C a s value now Hp. unfold SessionFromRequest. rewrite Hp. by destruct (value =?s "").
Qed.

Lemma logout_spares_sealed_witness :
  snd (SessionFromRequest sample_auth
         (fst (Logout sample_auth (NewStore 0) (Some "p1.x"))) (Some "p1.x") 0) = None.
Proof.
  rewrite (logout_spares_sealed sample_auth (NewStore 0) "p1.x" 0); vm_compute; reflexivity.
Defined.
