(* ===== verification/Limiter.v ===== *)
(** * The session and tunnel limits
    (reserveSession in internal/ws/handler.go, reserveTunnel in internal/ws/tunnel.go)

    Both limits are one atomic counter that concurrent requests raise with a
    compare-and-swap loop and lower when they end.  The model interleaves any
    number of requests: a state is the counter and the program counter of every
    request, an event lets one request take its next atomic step.  The counter
    is an [int64], wrapped by each addition; a theorem shows that it never
    wraps.

    [Spec] is the contract: an atomic semaphore.  [Abs] maps a state to it, and
    [step_refines] is the simulation. *)

From S2P Require Import Prelude Config.

(** ** The compare-and-swap loop *)

(** Where a request is in [reserveSession]/[reserveTunnel] and after. *)
Inductive Pc : Type :=
| AtLoad                    (* about to run [current := active.Load()] *)
| AtCAS (current : Z)       (* [current < limit] held: about to swap *)
| Refused                   (* returned false *)
| Holding                   (* returned true: the slot is held *)
| Released.                 (* [active.Add(-1)] done *)

#[global] Instance Pc_eq_dec : EqDecision Pc.
Proof. solve_decision. Defined.

Record State : Type := mkState { active : Z; requests : list Pc }.

Definition init : State := mkState 0 [].

(** One atomic access of one request: the load with the comparison that
    follows it, or the compare-and-swap.  A request that has returned from the
    loop takes no further step of it. *)
Definition reserve_step (limit counter : Z) (pc : Pc) : Z * Pc :=
  match pc with
  | AtLoad => if limit <=? counter then (counter, Refused) else (counter, AtCAS counter)
  | AtCAS current =>
      if counter =? current then (wrap64 (current + 1), Holding) else (counter, AtLoad)
  | _ => (counter, pc)
  end.

(** [active.Add(-1)], deferred by the holder. *)
Definition release_step (counter : Z) (pc : Pc) : Z * Pc :=
  match pc with
  | Holding => (wrap64 (counter - 1), Released)
  | _ => (counter, pc)
  end.

Inductive Event : Type :=
| Arrive                    (* a new request enters the loop *)
| Run (i : nat)             (* request [i] takes its next step of the loop *)
| Release (i : nat).        (* request [i] ends and gives its slot back *)

Definition at_request (f : Z -> Pc -> Z * Pc) (i : nat) (s : State) : State :=
  match requests s !! i with
  | Some pc => let (c, pc') := f (active s) pc in mkState c (<[i := pc']> (requests s))
  | None => s
  end.

Definition step (limit : Z) (s : State) (e : Event) : State :=
  match e with
  | Arrive => mkState (active s) (requests s ++ [AtLoad])
  | Run i => at_request (reserve_step limit) i s
  | Release i => at_request release_step i s
  end.

Definition run (limit : Z) (es : list Event) (s : State) : State := foldl (step limit) s es.

Definition reachable (limit : Z) (s : State) : Prop := exists es, s = run limit es init.

(** The two instances, one per counter of the handler. *)
Definition reserveSession (cfg : Config) : Z -> Pc -> Z * Pc :=
  let limit := MaxSessions (SSH cfg) in reserve_step limit.
Definition reserveTunnel (cfg : Config) : Z -> Pc -> Z * Pc :=
  let limit := MaxConnections (Tunnel cfg) in reserve_step limit.

Inductive Slots : Type := SessionSlots | TunnelSlots.

Definition reserve (k : Slots) (cfg : Config) : Z -> Pc -> Z * Pc :=
  match k with SessionSlots => reserveSession cfg | TunnelSlots => reserveTunnel cfg end.

Definition limit_of (k : Slots) (cfg : Config) : Z :=
  match k with SessionSlots => MaxSessions (SSH cfg) | TunnelSlots => MaxConnections (Tunnel cfg) end.

(** The server's counter [k] under a schedule. *)
Definition server_step (k : Slots) (cfg : Config) (s : State) (e : Event) : State :=
  match e with
  | Run i => at_request (reserve k cfg) i s
  | _ => step (limit_of k cfg) s e
  end.

Definition server_run (k : Slots) (cfg : Config) (es : list Event) : State :=
  foldl (server_step k cfg) init es.

(** ** The contract: an atomic semaphore *)

Module Spec.

Inductive status : Type := Waiting | Denied | Granted | Finished.

Record sem : Type := mkSem { held : Z; clients : list status }.

(** A request is granted a slot only below the limit, and denied only at it. *)
Inductive sem_step (limit : Z) : sem -> sem -> Prop :=
| sem_stutter m : sem_step limit m m
| sem_arrive h cs : sem_step limit (mkSem h cs) (mkSem h (cs ++ [Waiting]))
| sem_grant h cs i : cs !! i = Some Waiting -> h < limit ->
    sem_step limit (mkSem h cs) (mkSem (h + 1) (<[i := Granted]> cs))
| sem_deny h cs i : cs !! i = Some Waiting -> limit <= h ->
    sem_step limit (mkSem h cs) (mkSem h (<[i := Denied]> cs))
| sem_finish h cs i : cs !! i = Some Granted ->
    sem_step limit (mkSem h cs) (mkSem (h - 1) (<[i := Finished]> cs)).

Definition abs_pc (pc : Pc) : status :=
  match pc with
  | AtLoad | AtCAS _ => Waiting
  | Refused => Denied
  | Holding => Granted
  | Released => Finished
  end.

Definition Abs (s : State) : sem := mkSem (active s) (abs_pc <$> requests s).

End Spec.

(** ** Counting the holders *)

Definition sum_over (f : Pc -> Z) (l : list Pc) : Z := foldr (fun pc acc => f pc + acc) 0 l.

Definition holding (pc : Pc) : Z := match pc with Holding => 1 | _ => 0 end.

(** How many requests hold a slot. *)
Definition holders (s : State) : Z := sum_over holding (requests s).

Lemma sum_over_bounds f l lo hi :
  (forall pc, lo <= f pc <= hi) ->
  lo * Z.of_nat (length l) <= sum_over f l <= hi * Z.of_nat (length l).
Proof.
  intros Hf. induction l as [|pc l IH]; [simpl; lia|].
  cbn [sum_over foldr length]. fold (sum_over f l). specialize (Hf pc). lia.
Qed.

Lemma sum_over_app f l k : sum_over f (l ++ k) = sum_over f l + sum_over f k.
Proof. induction l as [|pc l IH]; simpl; [done|]. unfold sum_over in *. simpl. lia. Qed.

Lemma sum_over_insert f l i pc pc' :
  l !! i = Some pc -> sum_over f (<[i := pc']> l) = sum_over f l - f pc + f pc'.
Proof.
  revert i; induction l as [|x l IH]; intros [|i] H; try done; simpl in *.
  - injection H as ->. lia.
  - rewrite (IH i) by done. lia.
Qed.

Lemma sum_over_le f g d l :
  (forall pc, f pc <= g pc + d) -> sum_over f l <= sum_over g l + d * Z.of_nat (length l).
Proof.
  intros H. induction l as [|pc l IH]; [simpl; lia|].
  cbn [sum_over foldr length]. fold (sum_over f l) (sum_over g l). specialize (H pc). lia.
Qed.

Lemma holding_range pc : 0 <= holding pc <= 1.
Proof. unfold holding. case_match; lia. Qed.

Lemma holders_bounds s : 0 <= holders s <= Z.of_nat (length (requests s)).
Proof. pose proof (sum_over_bounds holding (requests s) 0 1 holding_range). unfold holders. lia. Qed.

(** ** The invariant *)

(** The counter is the number of holders, within the limit; a pending swap
    will only raise a counter below the limit. *)
Record inv (limit : Z) (s : State) : Prop := {
  inv_count : active s = holders s;
  inv_bound : active s <= Z.max limit 0;
  inv_pending : forall c, AtCAS c ∈ requests s -> c < limit
}.

Lemma inv_wrap limit s :
  limit <= int64_max -> inv limit s -> forall d, -1 <= d <= 1 -> active s + d <= limit \/ d <= 0 ->
  wrap64 (active s + d) = active s + d.
Proof.
  intros Hl [Hc Hb _] d Hd Hle. pose proof (holders_bounds s).
  apply wrap64_id. unfold int64_min, int64_max in *. lia.
Qed.

Lemma elem_of_insert (l : list Pc) i pc x : x ∈ <[i := pc]> l -> x = pc \/ x ∈ l.
Proof.
  intros (j & Hj)%list_elem_of_lookup. destruct (decide (i = j)) as [->|Hne].
  - left. apply list_lookup_insert_Some in Hj. naive_solver.
  - right. rewrite list_lookup_insert_ne in Hj by done. by eapply list_elem_of_lookup_2.
Qed.

Lemma inv_update limit s i pc c' pc' :
  inv limit s -> requests s !! i = Some pc ->
  c' = active s - holding pc + holding pc' -> c' <= Z.max limit 0 ->
  (forall c, pc' = AtCAS c -> c < limit) -> inv limit (mkState c' (<[i := pc']> (requests s))).
Proof.
  intros [Hc Hb Hp] Hi Hc' Hb' Hp'. constructor; simpl.
  - unfold holders. simpl. rewrite (sum_over_insert _ _ _ _ _ Hi). unfold holders in Hc. lia.
  - done.
  - intros c [Heq|Hin]%elem_of_insert; eauto.
Qed.

Lemma step_inv limit s e : limit <= int64_max -> inv limit s -> inv limit (step limit s e).
Proof.
  intros Hl Hinv. pose proof Hinv as [Hc Hb Hp]. destruct e as [|i|i]; simpl.
  - constructor; simpl; [|done|].
    + unfold holders in *. simpl. rewrite sum_over_app. simpl. lia.
    + intros c [Hin|Hin]%elem_of_app; [auto|]. by apply list_elem_of_singleton in Hin.
  - unfold at_request. destruct (requests s !! i) as [pc|] eqn:Hi; [|done].
    destruct pc as [|current| | |]; simpl.
    + destruct (limit <=? active s) eqn:E; bool_facts;
        (eapply inv_update; [done|done|simpl; lia|done|]); [done|].
      by intros ? [= <-].
    + pose proof (Hp _ (list_elem_of_lookup_2 _ _ _ Hi)) as Hlt.
      destruct (active s =? current) eqn:E; bool_facts; subst.
      * rewrite inv_wrap with (limit := limit) by (done || lia).
        eapply inv_update; [done|done|simpl; lia|lia|done].
      * eapply inv_update; [done|done|simpl; lia|done|done].
    + eapply inv_update; [done|done|simpl; lia|done|done].
    + eapply inv_update; [done|done|simpl; lia|done|done].
    + eapply inv_update; [done|done|simpl; lia|done|done].
  - unfold at_request. destruct (requests s !! i) as [pc|] eqn:Hi; [|done].
    destruct pc as [|current| | |]; simpl;
      try (eapply inv_update; [done|done|simpl; lia|done|];
           intros c Hpc; apply Hp; rewrite <- Hpc; by eapply list_elem_of_lookup_2).
    replace (active s - 1) with (active s + -1) by lia.
    rewrite inv_wrap with (limit := limit); try done; try lia.
    eapply inv_update; [done|done|simpl; lia|lia|done].
Qed.

Lemma run_inv limit es s : limit <= int64_max -> inv limit s -> inv limit (run limit es s).
Proof.
  intros Hl. revert s; induction es as [|e es IH]; intros s Hs; [done|]. by apply IH, step_inv.
Qed.

Lemma init_inv limit : inv limit init.
Proof. constructor; simpl; [done|lia|]. by intros c ?%not_elem_of_nil. Qed.

Lemma reachable_inv limit s : limit <= int64_max -> reachable limit s -> inv limit s.
Proof. intros Hl [es ->]. apply run_inv; [done|apply init_inv]. Qed.

(** ** Progress *)

Definition pending (pc : Pc) : bool :=
  match pc with AtLoad | AtCAS _ => true | _ => false end.

(** Steps still ahead of a request while the counter has its current value: a
    request that read an older value goes through the loop once more. *)
Definition work (counter : Z) (pc : Pc) : Z :=
  match pc with
  | AtCAS c => if c =? counter then 1 else 3
  | AtLoad => 2
  | _ => 0
  end.

Definition room (limit : Z) (s : State) : Z := Z.max 0 (limit - active s).

(** An upper bound on the steps that all the requests together still take:
    each successful swap sends every other request around once. *)
Definition work_left (limit : Z) (s : State) : Z :=
  room limit s * (2 * Z.of_nat (length (requests s))) + sum_over (work (active s)) (requests s).

(** A schedule whose every event runs a request that is still in its loop. *)
Fixpoint busy (limit : Z) (s : State) (es : list Event) : Prop :=
  match es with
  | [] => True
  | Run i :: es => (exists pc, requests s !! i = Some pc /\ pending pc = true)
                   /\ busy limit (step limit s (Run i)) es
  | _ :: _ => False
  end.

Lemma work_shift c c' pc : work c pc <= work c' pc + 2.
Proof. unfold work. destruct pc; repeat case_match; lia. Qed.

Lemma work_nonneg c l : 0 <= sum_over (work c) l.
Proof.
  pose proof (sum_over_bounds (work c) l 0 3) as H.
  lapply H; [lia|]. intros []; unfold work; repeat case_match; lia.
Qed.

Lemma step_work limit s i pc :
  limit <= int64_max -> inv limit s -> requests s !! i = Some pc -> pending pc = true ->
  work_left limit (step limit s (Run i)) < work_left limit s.
Proof.
  intros Hl Hinv Hi Hpend. pose proof Hinv as [Hc Hb Hp].
  pose proof (lookup_lt_Some _ _ _ Hi) as Hlen.
  unfold work_left, room. simpl. unfold at_request. rewrite Hi.
  destruct pc as [|current| | |]; try discriminate Hpend; simpl.
  - destruct (limit <=? active s) eqn:E; simpl;
      rewrite length_insert, (sum_over_insert _ _ _ _ _ Hi); simpl; [lia|].
    rewrite Z.eqb_refl. lia.
  - pose proof (Hp _ (list_elem_of_lookup_2 _ _ _ Hi)) as Hlt.
    destruct (active s =? current) eqn:E; bool_facts; subst; simpl; rewrite length_insert.
    + rewrite inv_wrap with (limit := limit) by (done || lia).
      rewrite (sum_over_insert _ _ _ _ _ Hi). cbn [work].
      pose proof (sum_over_le (work (active s + 1)) (work (active s)) 2 (requests s)
                    (work_shift _ _)).
      assert ((active s =? active s + 1) = false) as -> by lia.
      replace (Z.max 0 (limit - active s)) with (Z.max 0 (limit - (active s + 1)) + 1) by lia.
      lia.
    + rewrite (sum_over_insert _ _ _ _ _ Hi). cbn [work].
      assert ((current =? active s) = false) as -> by lia. lia.
Qed.

(** Without releases, a refusal means that the slots are all taken. *)
Definition no_release (e : Event) : bool := match e with Release _ => false | _ => true end.

Definition settled_inv (limit : Z) (s : State) : Prop :=
  (Refused ∈ requests s -> limit <= active s) /\ Released ∉ requests s.

Lemma step_settled limit s e :
  limit <= int64_max -> inv limit s -> no_release e = true ->
  settled_inv limit s -> settled_inv limit (step limit s e).
Proof.
  intros Hl Hinv He [Hr Hn]. pose proof Hinv as [Hc Hb Hp]. destruct e as [|i|i]; [| |done]; simpl.
  - split; simpl; [intros [H|H]%elem_of_app|intros [H|H]%elem_of_app];
      try (by apply list_elem_of_singleton in H); auto.
  - unfold at_request. destruct (requests s !! i) as [pc|] eqn:Hi; [|by split].
    pose proof (list_elem_of_lookup_2 _ _ _ Hi) as Hin.
    destruct pc as [|current| | |]; simpl.
    + destruct (limit <=? active s) eqn:E; bool_facts; split; simpl;
        intros [H|H]%elem_of_insert; by auto.
    + pose proof (Hp _ Hin) as Hlt. destruct (active s =? current) eqn:E; bool_facts; subst;
        split; simpl; intros [H|H]%elem_of_insert; try done; auto.
      rewrite inv_wrap with (limit := limit) by (done || lia). specialize (Hr H). lia.
    + split; simpl; intros [H|H]%elem_of_insert; by auto.
    + split; simpl; intros [H|H]%elem_of_insert; by auto.
    + done.
Qed.

Lemma run_settled limit es s :
  limit <= int64_max -> inv limit s -> forallb no_release es = true ->
  settled_inv limit s -> settled_inv limit (run limit es s).
Proof.
  intros Hl. revert s; induction es as [|e es IH]; intros s Hinv Hes Hs; [done|].
  simpl in Hes. bool_facts. apply IH; auto using step_inv, step_settled.
Qed.

Lemma run_app limit es es' s : run limit (es ++ es') s = run limit es' (run limit es s).
Proof. apply foldl_app. Qed.

Lemma all_holding l :
  (forall pc, pc ∈ l -> pc = Holding) -> sum_over holding l = Z.of_nat (length l).
Proof.
  induction l as [|pc l IH]; intros H; [done|].
  cbn [sum_over foldr length]. fold (sum_over holding l). rewrite IH.
  - rewrite (H pc) by constructor. cbn [holding]. lia.
  - intros x Hx. apply H. by constructor.
Qed.

Lemma server_run_run k cfg es : server_run k cfg es = run (limit_of k cfg) es init.
Proof.
  unfold server_run, run. generalize init.
  induction es as [|e es IH]; intros s; [done|]. simpl. rewrite IH. by destruct k, e.
Qed.

Lemma server_run_inv k cfg es :
  limit_of k cfg <= int64_max -> inv (limit_of k cfg) (server_run k cfg es).
Proof. intros Hl. rewrite server_run_run. apply run_inv; [done|apply init_inv]. Qed.

Lemma step_spec limit s e :
  limit <= int64_max -> inv limit s -> Spec.sem_step limit (Spec.Abs s) (Spec.Abs (step limit s e)).
Proof.
  intros Hl Hinv. pose proof Hinv as [Hc Hb Hp]. destruct e as [|i|i]; simpl.
  - unfold Spec.Abs. simpl. rewrite fmap_app. apply Spec.sem_arrive.
  - unfold at_request. destruct (requests s !! i) as [pc|] eqn:Hi; [|apply Spec.sem_stutter].
    assert ((Spec.abs_pc <$> requests s) !! i = Some (Spec.abs_pc pc)) as Ha
      by (by rewrite list_lookup_fmap, Hi).
    destruct pc as [|current| | |]; simpl; unfold Spec.Abs.
    + destruct (limit <=? active s) eqn:E; bool_facts; simpl; rewrite list_fmap_insert; simpl.
      * by apply Spec.sem_deny.
      * rewrite list_insert_id by done. apply Spec.sem_stutter.
    + pose proof (Hp _ (list_elem_of_lookup_2 _ _ _ Hi)) as Hlt.
      destruct (active s =? current) eqn:E; bool_facts; subst; simpl; rewrite list_fmap_insert; simpl.
      * rewrite inv_wrap with (limit := limit) by (done || lia). by apply Spec.sem_grant.
      * rewrite list_insert_id by done. apply Spec.sem_stutter.
    + simpl. rewrite list_fmap_insert, list_insert_id by done. apply Spec.sem_stutter.
    + simpl. rewrite list_fmap_insert, list_insert_id by done. apply Spec.sem_stutter.
    + simpl. rewrite list_fmap_insert, list_insert_id by done. apply Spec.sem_stutter.
  - unfold at_request. destruct (requests s !! i) as [pc|] eqn:Hi; [|apply Spec.sem_stutter].
    assert ((Spec.abs_pc <$> requests s) !! i = Some (Spec.abs_pc pc)) as Ha
      by (by rewrite list_lookup_fmap, Hi).
    destruct pc as [|current| | |]; simpl; unfold Spec.Abs; simpl; rewrite list_fmap_insert;
      try (rewrite list_insert_id by done; apply Spec.sem_stutter).
    replace (active s - 1) with (active s + -1) by lia.
    rewrite inv_wrap with (limit := limit) by (done || lia).
    replace (active s + -1) with (active s - 1) by lia. by apply Spec.sem_finish.
Qed.

(** ** Properties *)

(** A busy and a quiet schedule for the witnesses: three requests on one slot
    that race between load and swap, the holder ends, a fourth gets in. *)
Definition one_slot : Config :=
  mkConfig (Server Default) (Auth Default) (mkSSH 0 0 1 "" "") (Tunnel Default)
    (NetworkPolicy Default) "" (Credentials Default) "".

Definition race : list Event :=
  [Arrive; Arrive; Arrive; Run 0%nat; Run 1%nat; Run 1%nat; Run 0%nat; Run 0%nat; Run 2%nat].

(** The limit holds under every interleaving: the counter is the number
    of requests that hold a slot, it never leaves [0..limit], and none of its
    64-bit additions wraps, for the session counter and the tunnel counter. *)
Theorem slots_within_limit :
  forall k cfg es,
    0 <= limit_of k cfg <= int64_max ->
    let s := server_run k cfg es in
    active s = holders s /\ 0 <= active s <= limit_of k cfg.
Proof.
  intros k cfg es Hl s. destruct (server_run_inv k cfg es ltac:(lia)) as [Hc Hb _].
  fold s in Hc, Hb. pose proof (holders_bounds s). lia.
Qed.

Lemma slots_within_limit_witness :
  active (server_run SessionSlots one_slot (race ++ [Release 1%nat; Arrive; Run 3%nat; Run 3%nat])) <= 1.
Proof.
  destruct (slots_within_limit SessionSlots one_slot
              (race ++ [Release 1%nat; Arrive; Run 3%nat; Run 3%nat])) as [_ [_ H]];
    [vm_compute; split; congruence|exact H].
Defined.

(** C35.  Refinement: every step of the compare-and-swap loop is a step, or a
    stutter, of an atomic semaphore that grants a slot only below the limit,
    denies one only when all are taken, and takes back only granted ones. *)
Theorem slots_refine_semaphore :
  forall k cfg es e,
    limit_of k cfg <= int64_max ->
    Spec.sem_step (limit_of k cfg) (Spec.Abs (server_run k cfg es))
      (Spec.Abs (server_run k cfg (es ++ [e]))).
Proof.
  intros k cfg es e Hl. rewrite !server_run_run, run_app.
  apply step_spec; [done|]. rewrite <- server_run_run. by apply server_run_inv.
Qed.

Lemma slots_refine_semaphore_witness :
  Spec.sem_step 1 (Spec.mkSem 1 [Spec.Denied; Spec.Granted; Spec.Waiting])
    (Spec.mkSem 1 [Spec.Denied; Spec.Granted; Spec.Denied]).
Proof.
  apply (slots_refine_semaphore SessionSlots one_slot (removelast race) (Run 2%nat)).
  vm_compute. congruence.
Defined.

(** No slot is lost: when any number of requests race without a release
    and all of them have their answer, exactly the smaller of the limit and
    the number of requests hold a slot. *)
Theorem slots_exact_admission :
  forall k cfg es,
    0 <= limit_of k cfg <= int64_max ->
    forallb no_release es = true ->
    forallb (fun pc => negb (pending pc)) (requests (server_run k cfg es)) = true ->
    holders (server_run k cfg es)
    = Z.min (limit_of k cfg) (Z.of_nat (length (requests (server_run k cfg es)))).
Proof.
  intros k cfg es Hl Hes Hdone. destruct (server_run_inv k cfg es ltac:(lia)) as [Hc Hb _].
  assert (settled_inv (limit_of k cfg) (server_run k cfg es)) as [Hr Hn].
  { rewrite server_run_run. apply run_settled; [lia|apply init_inv|done|].
    split; simpl; by intros ?%not_elem_of_nil. }
  set (s := server_run k cfg es) in *. pose proof (holders_bounds s).
  destruct (decide (Refused ∈ requests s)) as [Hin|Hin]; [specialize (Hr Hin); lia|].
  assert (holders s = Z.of_nat (length (requests s))); [|lia].
  apply all_holding. intros pc Hpc. rewrite forallb_forall in Hdone.
  pose proof (Hdone pc ltac:(by apply list_elem_of_In)) as Hp. by destruct pc.
Qed.

Lemma slots_exact_admission_witness :
  holders (server_run SessionSlots one_slot race) = 1.
Proof.
  rewrite (slots_exact_admission SessionSlots one_slot race);
    [vm_compute; reflexivity|vm_compute; split; congruence|vm_compute; reflexivity..].
Defined.

(** The loop terminates under every schedule: from any state the server
    reaches, requests can take at most [work_left] further steps in the loop
    before every one of them has its answer, however they are interleaved. *)
Theorem slots_loop_terminates :
  forall k cfg es tries,
    limit_of k cfg <= int64_max ->
    busy (limit_of k cfg) (server_run k cfg es) tries ->
    Z.of_nat (length tries) <= work_left (limit_of k cfg) (server_run k cfg es).
Proof.
  intros k cfg es tries Hl. pose proof (server_run_inv k cfg es Hl) as Hinv.
  revert Hinv. generalize (server_run k cfg es) as s.
  induction tries as [|e tries IH]; intros s Hinv Hb.
  - simpl. unfold work_left, room. pose proof (work_nonneg (active s) (requests s)).
    pose proof (Z.mul_nonneg_nonneg (Z.max 0 (limit_of k cfg - active s))
                  (2 * Z.of_nat (length (requests s)))). lia.
  - destruct e as [|i|i]; [done| |done]. destruct Hb as [(pc & Hi & Hpend) Hb].
    pose proof (step_work _ _ _ _ Hl Hinv Hi Hpend).
    apply IH in Hb; [|by apply step_inv]. simpl length. lia.
Qed.

Lemma slots_loop_terminates_witness :
  Z.of_nat 6 <= work_left 1 (server_run SessionSlots one_slot [Arrive; Arrive; Arrive]).
Proof.
  apply (slots_loop_terminates SessionSlots one_slot [Arrive; Arrive; Arrive]
           [Run 0%nat; Run 1%nat; Run 1%nat; Run 0%nat; Run 0%nat; Run 2%nat]).
  - vm_compute. congruence.
  - repeat split; eexists; split; reflexivity.
Defined.
