(* ===== verification/WsProtocol.v ===== *)
(** * The WebSocket messages (internal/ws/protocol.go)

    The frames both ends exchange as JSON, with their encoding and decoding.
    [Data] of a [Message] is the raw document of the field, [None] when it is
    absent. *)

From S2P Require Import Prelude GoStrings GoTime Json JsonDecode.

Record Message : Type := mkMessage { Type_ : string; Data : option json }.

Record ConnectData : Type := mkConnectData {
  cd_Host : string; cd_Port : Z; cd_Username : string; cd_PrivateKey : string;
  cd_Passphrase : string; cd_Term : string; cd_Cols : Z; cd_Rows : Z;
  cd_UseHerdr : bool; cd_LegacyUseTmux : bool;
  cd_HerdrSession : string; cd_TmuxSession : string }.

Record TunnelConnectData : Type := mkTunnelConnectData { tc_Host : string; tc_Port : Z }.
Record TunnelConnectedData : Type := mkTunnelConnectedData { td_Host : string; td_Port : Z }.

Record ConnectedData : Type := mkConnectedData {
  co_SessionID : string; co_Host : string; co_Port : Z; co_Username : string;
  co_HerdrSession : string; co_TmuxSession : string }.

Record ResizeData : Type := mkResizeData { rd_Cols : Z; rd_Rows : Z }.
Record ErrorData : Type := mkErrorData { ed_Code : string; ed_Message : string }.
Record ClosedData : Type := mkClosedData { cl_Reason : string; cl_ExitStatus : option Z }.

(** ** Decoding *)

Definition zero_Message : Message := mkMessage "" None.

Definition Message_fields : list (field Message) := [
  mkField "type" Type_ dec_string (fun x m => mkMessage x (Data m));
  mkField "data" Data (fun v _ => Some (Some v)) (fun x m => mkMessage (Type_ m) x) ].

Definition zero_ConnectData : ConnectData :=
  mkConnectData "" 0 "" "" "" "" 0 0 false false "" "".

Definition ConnectData_fields : list (field ConnectData) := [
  mkField "host" cd_Host dec_string (fun x '(mkConnectData _ b c d e f g h i j k l) =>
    mkConnectData x b c d e f g h i j k l);
  mkField "port" cd_Port dec_int (fun x '(mkConnectData a _ c d e f g h i j k l) =>
    mkConnectData a x c d e f g h i j k l);
  mkField "username" cd_Username dec_string (fun x '(mkConnectData a b _ d e f g h i j k l) =>
    mkConnectData a b x d e f g h i j k l);
  mkField "privateKey" cd_PrivateKey dec_string (fun x '(mkConnectData a b c _ e f g h i j k l) =>
    mkConnectData a b c x e f g h i j k l);
  mkField "passphrase" cd_Passphrase dec_string (fun x '(mkConnectData a b c d _ f g h i j k l) =>
    mkConnectData a b c d x f g h i j k l);
  mkField "term" cd_Term dec_string (fun x '(mkConnectData a b c d e _ g h i j k l) =>
    mkConnectData a b c d e x g h i j k l);
  mkField "cols" cd_Cols dec_int (fun x '(mkConnectData a b c d e f _ h i j k l) =>
    mkConnectData a b c d e f x h i j k l);
  mkField "rows" cd_Rows dec_int (fun x '(mkConnectData a b c d e f g _ i j k l) =>
    mkConnectData a b c d e f g x i j k l);
  mkField "useHerdr" cd_UseHerdr dec_bool (fun x '(mkConnectData a b c d e f g h _ j k l) =>
    mkConnectData a b c d e f g h x j k l);
  mkField "useTmux" cd_LegacyUseTmux dec_bool (fun x '(mkConnectData a b c d e f g h i _ k l) =>
    mkConnectData a b c d e f g h i x k l);
  mkField "herdrSession" cd_HerdrSession dec_string (fun x '(mkConnectData a b c d e f g h i j _ l) =>
    mkConnectData a b c d e f g h i j x l);
  mkField "tmuxSession" cd_TmuxSession dec_string (fun x '(mkConnectData a b c d e f g h i j k _) =>
    mkConnectData a b c d e f g h i j k x) ].

Definition TunnelConnectData_fields : list (field TunnelConnectData) := [
  mkField "host" tc_Host dec_string (fun x t => mkTunnelConnectData x (tc_Port t));
  mkField "port" tc_Port dec_int (fun x t => mkTunnelConnectData (tc_Host t) x) ].

Definition TunnelConnectedData_fields : list (field TunnelConnectedData) := [
  mkField "host" td_Host dec_string (fun x t => mkTunnelConnectedData x (td_Port t));
  mkField "port" td_Port dec_int (fun x t => mkTunnelConnectedData (td_Host t) x) ].

Definition ConnectedData_fields : list (field ConnectedData) := [
  mkField "sessionId" co_SessionID dec_string (fun x '(mkConnectedData _ b c d e f) => mkConnectedData x b c d e f);
  mkField "host" co_Host dec_string (fun x '(mkConnectedData a _ c d e f) => mkConnectedData a x c d e f);
  mkField "port" co_Port dec_int (fun x '(mkConnectedData a b _ d e f) => mkConnectedData a b x d e f);
  mkField "username" co_Username dec_string (fun x '(mkConnectedData a b c _ e f) => mkConnectedData a b c x e f);
  mkField "herdrSession" co_HerdrSession dec_string (fun x '(mkConnectedData a b c d _ f) => mkConnectedData a b c d x f);
  mkField "tmuxSession" co_TmuxSession dec_string (fun x '(mkConnectedData a b c d e _) => mkConnectedData a b c d e x) ].

Definition ResizeData_fields : list (field ResizeData) := [
  mkField "cols" rd_Cols dec_int (fun x t => mkResizeData x (rd_Rows t));
  mkField "rows" rd_Rows dec_int (fun x t => mkResizeData (rd_Cols t) x) ].

Definition ErrorData_fields : list (field ErrorData) := [
  mkField "code" ed_Code dec_string (fun x t => mkErrorData x (ed_Message t));
  mkField "message" ed_Message dec_string (fun x t => mkErrorData (ed_Code t) x) ].

Definition ClosedData_fields : list (field ClosedData) := [
  mkField "reason" cl_Reason dec_string (fun x t => mkClosedData x (cl_ExitStatus t));
  mkField "exitStatus" cl_ExitStatus (dec_ptr 0 dec_int) (fun x t => mkClosedData (cl_Reason t) x) ].

Definition DecodeMessage (b : string) : option Message :=
  unmarshal (dec_struct Message_fields) b zero_Message.

Definition decode_ConnectData (raw : option json) : option ConnectData :=
  unmarshal_raw (dec_struct ConnectData_fields) raw zero_ConnectData.
Definition decode_TunnelConnectData (raw : option json) : option TunnelConnectData :=
  unmarshal_raw (dec_struct TunnelConnectData_fields) raw (mkTunnelConnectData "" 0).
Definition decode_TunnelConnectedData (raw : option json) : option TunnelConnectedData :=
  unmarshal_raw (dec_struct TunnelConnectedData_fields) raw (mkTunnelConnectedData "" 0).
Definition decode_ConnectedData (raw : option json) : option ConnectedData :=
  unmarshal_raw (dec_struct ConnectedData_fields) raw (mkConnectedData "" "" 0 "" "" "").
Definition decode_ResizeData (raw : option json) : option ResizeData :=
  unmarshal_raw (dec_struct ResizeData_fields) raw (mkResizeData 0 0).
Definition decode_ErrorData (raw : option json) : option ErrorData :=
  unmarshal_raw (dec_struct ErrorData_fields) raw (mkErrorData "" "").
Definition decode_ClosedData (raw : option json) : option ClosedData :=
  unmarshal_raw (dec_struct ClosedData_fields) raw (mkClosedData "" None).

(** ** Encoding *)

Definition enc_ConnectData (c : ConnectData) : json := JObj (
  [("host", JStr (cd_Host c)); ("port", enc_int (cd_Port c)); ("username", JStr (cd_Username c));
   ("privateKey", JStr (cd_PrivateKey c)); ("passphrase", JStr (cd_Passphrase c));
   ("term", JStr (cd_Term c)); ("cols", enc_int (cd_Cols c)); ("rows", enc_int (cd_Rows c));
   ("useHerdr", JBool (cd_UseHerdr c)); ("useTmux", JBool (cd_LegacyUseTmux c))]
  ++ omitempty "herdrSession" (cd_HerdrSession c) ++ omitempty "tmuxSession" (cd_TmuxSession c)).

Definition enc_TunnelConnectData (c : TunnelConnectData) : json :=
  JObj [("host", JStr (tc_Host c)); ("port", enc_int (tc_Port c))].
Definition enc_TunnelConnectedData (c : TunnelConnectedData) : json :=
  JObj [("host", JStr (td_Host c)); ("port", enc_int (td_Port c))].

Definition enc_ConnectedData (c : ConnectedData) : json := JObj (
  [("sessionId", JStr (co_SessionID c)); ("host", JStr (co_Host c)); ("port", enc_int (co_Port c));
   ("username", JStr (co_Username c))]
  ++ omitempty "herdrSession" (co_HerdrSession c) ++ omitempty "tmuxSession" (co_TmuxSession c)).

Definition enc_ResizeData (r : ResizeData) : json :=
  JObj [("cols", enc_int (rd_Cols r)); ("rows", enc_int (rd_Rows r))].
Definition enc_ErrorData (e : ErrorData) : json :=
  JObj [("code", JStr (ed_Code e)); ("message", JStr (ed_Message e))].
Definition enc_ClosedData (c : ClosedData) : json := JObj (
  ("reason", JStr (cl_Reason c)) :: match cl_ExitStatus c with
                                    | Some n => [("exitStatus", enc_int n)]
                                    | None => []
                                    end).

Definition enc_Message (m : Message) : json := JObj (
  ("type", JStr (Type_ m)) :: match Data m with Some d => [("data", d)] | None => [] end).

(** [data] is nil for [None]; the encodings above never fail. *)
Definition EncodeMessage (typ : string) (data : option json) : string :=
  print (enc_Message (mkMessage typ data)).

(** A message sent as [map[string]any{"type": typ, "data": data}]: the encoder
    sorts the keys. *)
Definition map_message (typ : string) (data : json) : json :=
  JObj [("data", data); ("type", JStr typ)].

(** ** Payloads survive encoding *)

Lemma enc_TunnelConnectData_ok c :
  in_int64 (tc_Port c) = true -> decode_TunnelConnectData (Some (enc_TunnelConnectData c)) = Some c.
Proof.
  destruct c as [h p]. intros Hp. cbn -[Atoi Itoa]. by rewrite Atoi_Itoa_int64.
Qed.

Lemma enc_TunnelConnectedData_ok c :
  in_int64 (td_Port c) = true ->
  decode_TunnelConnectedData (Some (enc_TunnelConnectedData c)) = Some c.
Proof. destruct c as [h p]. intros Hp. cbn -[Atoi Itoa]. by rewrite Atoi_Itoa_int64. Qed.

Lemma enc_ResizeData_ok r :
  in_int64 (rd_Cols r) = true -> in_int64 (rd_Rows r) = true ->
  decode_ResizeData (Some (enc_ResizeData r)) = Some r.
Proof.
  destruct r as [c r]. intros Hc Hr. cbn -[Atoi Itoa].
  rewrite Atoi_Itoa_int64 by done. cbn -[Atoi Itoa]. by rewrite Atoi_Itoa_int64.
Qed.

Lemma enc_ErrorData_ok e : decode_ErrorData (Some (enc_ErrorData e)) = Some e.
Proof. by destruct e. Qed.

Lemma enc_ClosedData_ok c :
  (forall n, cl_ExitStatus c = Some n -> in_int64 n = true) ->
  decode_ClosedData (Some (enc_ClosedData c)) = Some c.
Proof.
  destruct c as [r [n|]]; intros Hn; [|done]. cbn -[Atoi Itoa].
  rewrite Atoi_Itoa_int64; [done|]. by apply Hn.
Qed.

Lemma enc_ConnectedData_ok c :
  in_int64 (co_Port c) = true -> decode_ConnectedData (Some (enc_ConnectedData c)) = Some c.
Proof.
  destruct c as [s h p u hs ts]. intros Hp. unfold enc_ConnectedData, omitempty.
  cbn [co_SessionID co_Host co_Port co_Username co_HerdrSession co_TmuxSession] in *.
  destruct (hs =?s "") eqn:E1, (ts =?s "") eqn:E2; bool_facts; subst;
    cbn -[Atoi Itoa]; rewrite Atoi_Itoa_int64 by done; done.
Qed.

Lemma enc_ConnectData_ok c :
  in_int64 (cd_Port c) = true -> in_int64 (cd_Cols c) = true -> in_int64 (cd_Rows c) = true ->
  decode_ConnectData (Some (enc_ConnectData c)) = Some c.
Proof.
  destruct c as [h p u pk pp t co ro uh ut hs ts]. intros Hp Hc Hr.
  unfold enc_ConnectData, omitempty. cbn [cd_Host cd_Port cd_Username cd_PrivateKey cd_Passphrase
    cd_Term cd_Cols cd_Rows cd_UseHerdr cd_LegacyUseTmux cd_HerdrSession cd_TmuxSession] in *.
  destruct (hs =?s "") eqn:E1, (ts =?s "") eqn:E2; bool_facts; subst;
    cbn -[Atoi Itoa]; rewrite Atoi_Itoa_int64 by done; cbn -[Atoi Itoa];
    rewrite Atoi_Itoa_int64 by done; cbn -[Atoi Itoa]; rewrite Atoi_Itoa_int64 by done; done.
Qed.

(** ** Frames *)

Lemma wire_read v typ :
  wire_clean v -> valid_utf8 typ = true ->
  DecodeMessage (EncodeMessage typ (Some v)) = Some (mkMessage typ (Some v))
  /\ DecodeMessage (print_line (map_message typ v)) = Some (mkMessage typ (Some v))
  /\ DecodeMessage (print_line (enc_Message (mkMessage typ (Some v)))) = Some (mkMessage typ (Some v)).
Proof.
  intros (Hw & Hc & Hd) Ht. unfold DecodeMessage, EncodeMessage, unmarshal.
  assert (Z.max 0 (jdepth v) <= maxNestingDepth - 1) as Hd' by (unfold maxNestingDepth in *; lia).
  split_and!; (rewrite parse_print || rewrite parse_print_line).
  - cbn [enc_Message Type_ Data jclean map fst snd]. by rewrite Hc, (utf8_clean_id typ) by done.
  - cbn [enc_Message Type_ Data wf_json forallb snd]. by rewrite Hw.
  - cbn [enc_Message Type_ Data jdepth foldr snd]. lia.
  - cbn [map_message jclean map fst snd]. by rewrite Hc, (utf8_clean_id typ) by done.
  - cbn [map_message wf_json forallb snd]. by rewrite Hw.
  - cbn [map_message jdepth foldr snd]. lia.
  - cbn [enc_Message Type_ Data jclean map fst snd]. by rewrite Hc, (utf8_clean_id typ) by done.
  - cbn [enc_Message Type_ Data wf_json forallb snd]. by rewrite Hw.
  - cbn [enc_Message Type_ Data jdepth foldr snd]. lia.
Qed.

(** The strings of a payload are UTF-8 and its integers fit Go's [int]. *)
Definition ConnectData_clean (c : ConnectData) : bool :=
  forallb valid_utf8 [cd_Host c; cd_Username c; cd_PrivateKey c; cd_Passphrase c; cd_Term c;
                      cd_HerdrSession c; cd_TmuxSession c]
  && forallb in_int64 [cd_Port c; cd_Cols c; cd_Rows c].

Definition ConnectedData_clean (c : ConnectedData) : bool :=
  forallb valid_utf8 [co_SessionID c; co_Host c; co_Username c; co_HerdrSession c; co_TmuxSession c]
  && in_int64 (co_Port c).

Lemma enc_ConnectData_clean c : ConnectData_clean c = true -> wire_clean (enc_ConnectData c).
Proof.
  unfold ConnectData_clean. cbn [forallb]. intros H. bool_facts. unfold enc_ConnectData.
  clean_members.
Qed.

Lemma enc_ConnectedData_clean c : ConnectedData_clean c = true -> wire_clean (enc_ConnectedData c).
Proof.
  unfold ConnectedData_clean. cbn [forallb]. intros H. bool_facts. unfold enc_ConnectedData.
  clean_members.
Qed.

Lemma enc_TunnelConnectData_clean c :
  valid_utf8 (tc_Host c) = true -> in_int64 (tc_Port c) = true ->
  wire_clean (enc_TunnelConnectData c).
Proof. intros Hh Hp. unfold enc_TunnelConnectData, enc_int. clean_members. Qed.

Lemma enc_TunnelConnectedData_clean c :
  valid_utf8 (td_Host c) = true -> in_int64 (td_Port c) = true ->
  wire_clean (enc_TunnelConnectedData c).
Proof. intros Hh Hp. unfold enc_TunnelConnectedData, enc_int. clean_members. Qed.

Lemma enc_ResizeData_clean r :
  in_int64 (rd_Cols r) = true -> in_int64 (rd_Rows r) = true -> wire_clean (enc_ResizeData r).
Proof. intros Hh Hp. unfold enc_ResizeData, enc_int. clean_members. Qed.

Lemma enc_ErrorData_clean e :
  valid_utf8 (ed_Code e) = true -> valid_utf8 (ed_Message e) = true -> wire_clean (enc_ErrorData e).
Proof. intros Hc Hm. unfold enc_ErrorData. clean_members. Qed.

(** ** Properties *)

(** What a receiver makes of a text frame: its type and its decoded payload. *)
Definition receive {A} (decode : option json -> option A) (text : string) : option (string * A) :=
  match DecodeMessage text with
  | Some m => match decode (Data m) with Some a => Some (Type_ m, a) | None => None end
  | None => None
  end.

(** Requests survive the wire: what the client encodes for a connect, a
    tunnel connect or a resize is what the server decodes, for every payload
    whose strings are UTF-8 and whose numbers fit an [int]. *)
Theorem requests_roundtrip :
  forall typ c t r,
    valid_utf8 typ = true -> ConnectData_clean c = true ->
    valid_utf8 (tc_Host t) = true -> in_int64 (tc_Port t) = true ->
    in_int64 (rd_Cols r) = true -> in_int64 (rd_Rows r) = true ->
    receive decode_ConnectData (EncodeMessage typ (Some (enc_ConnectData c))) = Some (typ, c)
    /\ receive decode_TunnelConnectData (EncodeMessage typ (Some (enc_TunnelConnectData t)))
       = Some (typ, t)
    /\ receive decode_ResizeData (EncodeMessage typ (Some (enc_ResizeData r))) = Some (typ, r).
Proof.
  intros typ c t r Hty Hc Hh Hp Hrc Hrr. unfold receive.
  rewrite (proj1 (wire_read _ _ (enc_ConnectData_clean c Hc) Hty)).
  rewrite (proj1 (wire_read _ _ (enc_TunnelConnectData_clean t Hh Hp) Hty)).
  rewrite (proj1 (wire_read _ _ (enc_ResizeData_clean r Hrc Hrr) Hty)).
  cbn [Data Type_]. unfold ConnectData_clean in Hc. cbn [forallb] in Hc. bool_facts.
  rewrite enc_ConnectData_ok, enc_TunnelConnectData_ok, enc_ResizeData_ok by done. done.
Qed.

Definition sample_connect : ConnectData :=
  mkConnectData "example.org" 22 "root" (q "-----BEGIN 'KEY' <x>") "" "xterm" 80 24 true false "" "old".

Lemma requests_roundtrip_witness :
  receive decode_ConnectData (EncodeMessage "connect" (Some (enc_ConnectData sample_connect)))
  = Some ("connect", sample_connect).
Proof.
  apply (requests_roundtrip "connect" sample_connect (mkTunnelConnectData "h" 22)
           (mkResizeData 80 24)); vm_compute; reflexivity.
Defined.

(** The server's answers survive the wire: the connected, error and
    closed messages of a session, and the connected message of a tunnel, decode
    to the payload the server sent. *)
Theorem answers_roundtrip :
  forall co e t reason status,
    ConnectedData_clean co = true ->
    valid_utf8 (ed_Code e) = true -> valid_utf8 (ed_Message e) = true ->
    valid_utf8 (td_Host t) = true -> in_int64 (td_Port t) = true ->
    valid_utf8 reason = true -> (forall n, status = Some n -> in_int64 n = true) ->
    receive decode_ConnectedData (print_line (map_message "connected" (enc_ConnectedData co)))
    = Some ("connected", co)
    /\ receive decode_ErrorData (print_line (map_message "error" (enc_ErrorData e))) = Some ("error", e)
    /\ receive decode_ClosedData (print_line (map_message "closed" (enc_ClosedData (mkClosedData reason status))))
       = Some ("closed", mkClosedData reason status)
    /\ receive decode_TunnelConnectedData
         (print_line (enc_Message (mkMessage "tunnel-connected" (Some (enc_TunnelConnectedData t)))))
       = Some ("tunnel-connected", t).
Proof.
  intros co e t reason status Hco Hec Hem Hh Hp Hre Hst. unfold receive.
  assert (wire_clean (enc_ClosedData (mkClosedData reason status))) as Hcl.
  { unfold enc_ClosedData, enc_int. cbn [cl_Reason cl_ExitStatus].
    destruct status as [n|]; [specialize (Hst n eq_refl)|]; clean_members. }
  rewrite (proj1 (proj2 (wire_read _ "connected" (enc_ConnectedData_clean co Hco) eq_refl))).
  rewrite (proj1 (proj2 (wire_read _ "error" (enc_ErrorData_clean e Hec Hem) eq_refl))).
  rewrite (proj1 (proj2 (wire_read _ "closed" Hcl eq_refl))).
  rewrite (proj2 (proj2 (wire_read _ "tunnel-connected" (enc_TunnelConnectedData_clean t Hh Hp) eq_refl))).
  cbn [Data Type_]. unfold ConnectedData_clean in Hco. bool_facts.
  rewrite enc_ErrorData_ok, (enc_ConnectedData_ok co), (enc_TunnelConnectedData_ok t) by assumption.
  rewrite (enc_ClosedData_ok (mkClosedData reason status)) by exact Hst. repeat split.
Qed.

Lemma answers_roundtrip_witness :
  receive decode_ClosedData
    (print_line (map_message "closed" (enc_ClosedData (mkClosedData "ssh session closed" (Some (-1))))))
  = Some ("closed", mkClosedData "ssh session closed" (Some (-1))).
Proof.
  destruct (answers_roundtrip (mkConnectedData "id" "h" 22 "u" "" "") (mkErrorData "C" "m")
           (mkTunnelConnectedData "h" 22) "ssh session closed" (Some (-1))) as (_ & _ & H & _);
    [reflexivity..| |exact H].
  intros n [= <-]. reflexivity.
Defined.
