(* ===== verification/SshClient.v ===== *)
(** * The SSH client (internal/sshclient/client.go)

    Opening an SSH session for a browser: reading the key, dialling, starting a
    shell, optionally attaching to a Herdr session; and the errors a client
    sees when a step fails.

    golang.org/x/crypto/ssh is a parameter, the record [SshLib] of what each of
    its calls answers.  The model records the calls it makes in order: [Connect]
    returns the calls with its result, so that theorems can say which resources
    are open afterwards and what is written to the remote shell. *)

From S2P Require Import Prelude GoStrings GoTime Netip GoError HostKey.

Record ConnectRequest : Type := mkConnectRequest {
  req_Host : string; req_Port : Z; req_Username : string; req_PrivateKey : string;
  req_Passphrase : string; req_Term : string; req_Cols : Z; req_Rows : Z;
  req_UseHerdr : bool; req_HerdrSession : string }.

(** The answers of the key parsers: a signer, [ssh.PassphraseMissingError], or
    another error with its message. *)
Inductive KeyResult (Signer : Type) : Type :=
| Parsed (s : Signer)
| PassphraseMissing (msg : string)
| KeyFailure (msg : string).
Arguments Parsed {Signer}. Arguments PassphraseMissing {Signer}. Arguments KeyFailure {Signer}.

(** What the library answers to each call on one connection. *)
Record SshLib (Signer Key : Type) : Type := mkSshLib {
  ParsePrivateKey : string -> KeyResult Signer;
  ParsePrivateKeyWithPassphrase : string -> string -> KeyResult Signer;
  Dial : string -> string -> Signer -> HostKeyCallback Key -> Z -> option error;
  Probe_session : bool;                   (* client.NewSession of the probe *)
  Probe_run : bool;                       (* the probe command succeeds *)
  NewSession : bool;
  StdinPipe : bool; StdoutPipe : bool; StderrPipe : bool;
  RequestPty : string -> Z -> Z -> bool;
  Shell : bool;
  Stdin_Write : string -> bool }.
Arguments ParsePrivateKey {Signer Key}. Arguments ParsePrivateKeyWithPassphrase {Signer Key}.
Arguments Dial {Signer Key}. Arguments Probe_session {Signer Key}. Arguments Probe_run {Signer Key}.
Arguments NewSession {Signer Key}. Arguments StdinPipe {Signer Key}.
Arguments StdoutPipe {Signer Key}. Arguments StderrPipe {Signer Key}.
Arguments RequestPty {Signer Key}. Arguments Shell {Signer Key}. Arguments Stdin_Write {Signer Key}.

(** The calls that acquire, use or release something.  [DialTCP] is the attempt
    of [ssh.Dial], [Dialled] its success. *)
Inductive Call : Type :=
| DialTCP (addr : string)
| Dialled
| OpenProbe | CloseProbe
| OpenSession | CloseSession
| CloseClient
| Pty (term : string) (rows cols : Z)
| StartShell
| WriteStdin (text : string).

(** [Session]: the open connection; the handles themselves are the calls'. *)
Record Session : Type := mkSession { HerdrActive : bool; HerdrSession : string }.

Section Client.

Context {Signer Key : Type} (lib : SshLib Signer Key).

Definition coded (code msg : string) : error := CodedError code msg None.

Definition mapPrivateKeyError (text : string) : error :=
  let msg := ToLower text in
  if GoStrings.Contains msg "passphrase" || GoStrings.Contains msg "decryption"
     || GoStrings.Contains msg "x509: decryption password incorrect"
  then coded "PRIVATE_KEY_PASSPHRASE_INVALID" "private key passphrase is incorrect"
  else coded "PRIVATE_KEY_INVALID" "private key is invalid or unsupported".

Definition ParseSigner (privateKey passphrase : string) : result error Signer :=
  if negb (passphrase =?s "") then
    match ParsePrivateKeyWithPassphrase lib privateKey passphrase with
    | Parsed s => Ok s
    | PassphraseMissing m | KeyFailure m => Err (mapPrivateKeyError m)
    end
  else
    match ParsePrivateKey lib privateKey with
    | Parsed s => Ok s
    | PassphraseMissing _ =>
        Err (coded "PRIVATE_KEY_PASSPHRASE_REQUIRED" "private key passphrase is required")
    | KeyFailure m => Err (mapPrivateKeyError m)
    end.

Definition unwrapHostKey (e : error) : option error :=
  find_in_chain (fun e => if GoStrings.Contains (type_string e) "HostKeyError" then Some e else None) e.

Definition mapDialError (e : error) : error :=
  let lower := ToLower (Error e) in
  if GoStrings.Contains lower "unable to authenticate"
     || GoStrings.Contains lower "no supported methods remain"
     || GoStrings.Contains lower "permission denied"
  then coded "SSH_AUTH_FAILED" "SSH authentication failed"
  else if GoStrings.Contains lower "i/o timeout" || GoStrings.Contains lower "timeout"
          || GoStrings.Contains lower "timed out"
  then coded "SSH_CONNECT_TIMEOUT" "SSH connection timed out"
  else coded "SSH_CONNECT_FAILED" "SSH connection failed".

(** [herdrAvailable]: the probe session is closed whatever the command says. *)
Definition herdrAvailable : list Call * bool :=
  if Probe_session lib then ([OpenProbe; CloseProbe], Probe_run lib) else ([], false).

Definition session_failed (msg : string) : error := coded "SSH_SESSION_FAILED" msg.

(** The text that attaches the shell to a Herdr session. *)
Definition herdr_attach (name : string) : string :=
  "herdr session attach " +:+ name +:+ String (chr 13) "".

(** From [client.NewSession] on, with the connection open. *)
Definition start_session (req : ConnectRequest) (term : string) (rows cols : Z) (herdrActive : bool)
    : list Call * result error Session :=
  let fail cs msg := (cs ++ [CloseSession; CloseClient], Err (session_failed msg)) in
  if negb (NewSession lib) then ([CloseClient], Err (session_failed "failed to create SSH session"))
  else if negb (StdinPipe lib) then fail [OpenSession] "failed to open SSH stdin"
  else if negb (StdoutPipe lib) then fail [OpenSession] "failed to open SSH stdout"
  else if negb (StderrPipe lib) then fail [OpenSession] "failed to open SSH stderr"
  else if negb (RequestPty lib term rows cols)
  then fail [OpenSession; Pty term rows cols] "failed to request PTY"
  else if negb (Shell lib)
  then fail [OpenSession; Pty term rows cols; StartShell] "failed to start shell"
  else
    let cs := [OpenSession; Pty term rows cols; StartShell] in
    let session := mkSession herdrActive (req_HerdrSession req) in
    if herdrActive && negb (req_HerdrSession req =?s "") then
      let text := herdr_attach (req_HerdrSession req) in
      if negb (Stdin_Write lib text)
      then fail (cs ++ [WriteStdin text]) "failed to start recoverable Herdr session"
      else (cs ++ [WriteStdin text], Ok session)
    else (cs, Ok session).

Definition Connect (req : ConnectRequest) (HostKeyCB : HostKeyCallback Key) (Timeout : Z)
    : list Call * result error Session :=
  if TrimSpace (req_PrivateKey req) =?s "" then
    ([], Err (coded "PRIVATE_KEY_REQUIRED" "private key is required"))
  else if 256 * 1024 <? len (req_PrivateKey req) then
    ([], Err (coded "PRIVATE_KEY_TOO_LARGE" "private key is too large"))
  else
    match ParseSigner (req_PrivateKey req) (req_Passphrase req) with
    | Err e => ([], Err e)
    | Ok signer =>
        let term := if req_Term req =?s "" then "xterm-256color" else req_Term req in
        let rows := if req_Rows req <? 5 then 24 else req_Rows req in
        let cols := if req_Cols req <? 20 then 80 else req_Cols req in
        let timeout := if Timeout <=? 0 then 15 * Second else Timeout in
        let addr := JoinHostPort (req_Host req) (Itoa (req_Port req)) in
        match Dial lib addr (req_Username req) signer HostKeyCB timeout with
        | Some e =>
            match unwrapHostKey e with
            | Some he => ([DialTCP addr], Err he)
            | None => ([DialTCP addr], Err (mapDialError e))
            end
        | None =>
            let (probe, herdrActive) := if req_UseHerdr req then herdrAvailable else ([], false) in
            let (cs, r) := start_session req term rows cols herdrActive in
            (DialTCP addr :: Dialled :: probe ++ cs, r)
        end
    end.

(** [Session.Close] *)
Definition Close : list Call := [CloseSession; CloseClient].

(** ** Resources *)

(** How many of each resource a sequence of calls leaves open. *)
Definition open_delta (c : Call) : Z * Z * Z :=
  match c with
  | Dialled => (1, 0, 0)
  | CloseClient => (-1, 0, 0)
  | OpenSession => (0, 1, 0)
  | CloseSession => (0, -1, 0)
  | OpenProbe => (0, 0, 1)
  | CloseProbe => (0, 0, -1)
  | _ => (0, 0, 0)
  end.

Fixpoint open_after (cs : list Call) : Z * Z * Z :=
  match cs with
  | [] => (0, 0, 0)
  | c :: cs => let '(a, b, d) := open_delta c in
               let '(x, y, z) := open_after cs in (a + x, b + y, d + z)
  end.

Lemma open_after_app cs ds :
  open_after (cs ++ ds)
  = let '(a, b, d) := open_after cs in let '(x, y, z) := open_after ds in (a + x, b + y, d + z).
Proof.
  induction cs as [|c cs IH]; simpl.
  - by destruct (open_after ds) as [[x y] z].
  - rewrite IH. destruct (open_delta c) as [[? ?] ?], (open_after cs) as [[? ?] ?],
      (open_after ds) as [[? ?] ?].
    f_equal; [f_equal|]; lia.
Qed.

Lemma start_session_open req term rows cols ha cs r :
  start_session req term rows cols ha = (cs, r) ->
  open_after cs = if is_ok r then (0, 1, 0) else (-1, 0, 0).
Proof. unfold start_session. intros H. repeat case_match; simplify_eq; done. Qed.

Lemma probe_open (use : bool) :
  open_after (fst (if use then herdrAvailable else ([], false))) = (0, 0, 0).
Proof. destruct use; [|done]. unfold herdrAvailable. by destruct (Probe_session lib). Qed.

Lemma Connect_open req cb t cs r :
  Connect req cb t = (cs, r) -> open_after cs = if is_ok r then (1, 1, 0) else (0, 0, 0).
Proof.
  unfold Connect. pose proof (probe_open (req_UseHerdr req)) as Hp.
  destruct (TrimSpace _ =?s ""); [by intros [= <- <-]|].
  destruct (_ <? len _); [by intros [= <- <-]|].
  destruct (ParseSigner _ _) as [signer|e]; [|by intros [= <- <-]].
  destruct (Dial _ _ _ _ _ _) as [e|].
  { destruct (unwrapHostKey e); by intros [= <- <-]. }
  destruct (if req_UseHerdr req then herdrAvailable else ([], false)) as [probe ha].
  destruct (start_session _ _ _ _ _) as [cs' r'] eqn:E. intros [= <- <-].
  apply start_session_open in E. cbn [fst] in Hp. cbn [open_after open_delta].
  rewrite open_after_app, Hp, E. by destruct r'.
Qed.

(** Which of the connection and the session are open; closing twice is
    harmless. *)
Definition live_step (st : bool * bool) (c : Call) : bool * bool :=
  match c with
  | Dialled => (true, snd st)
  | CloseClient => (false, snd st)
  | OpenSession => (fst st, true)
  | CloseSession => (fst st, false)
  | _ => st
  end.

Definition live_after (st : bool * bool) (cs : list Call) : bool * bool := foldl live_step st cs.

Lemma start_session_live req term rows cols ha cs r :
  start_session req term rows cols ha = (cs, r) ->
  live_after (true, false) cs = (is_ok r, is_ok r).
Proof. unfold start_session. intros H. repeat case_match; simplify_eq; done. Qed.

Lemma start_session_calls req term rows cols ha cs r :
  start_session req term rows cols ha = (cs, r) ->
  (forall a, DialTCP a ∉ cs)
  /\ forall text, WriteStdin text ∈ cs ->
       ha = true /\ req_HerdrSession req <> "" /\ text = herdr_attach (req_HerdrSession req).
Proof.
  unfold start_session. intros H. split; intros x Hin; repeat case_match; simplify_eq; bool_facts;
    in_list Hin; try discriminate Hin; injection Hin as <-; auto.
Qed.

Lemma probe_calls (use : bool) probe ha :
  (if use then herdrAvailable else ([], false)) = (probe, ha) ->
  (forall c, c ∈ probe -> c = OpenProbe \/ c = CloseProbe) /\ (ha = true -> use = true).
Proof.
  destruct use; unfold herdrAvailable; intros H; repeat case_match; simplify_eq; split; auto;
    intros c Hin; in_list Hin; auto.
Qed.

Lemma live_after_probe st probe :
  (forall c, c ∈ probe -> c = OpenProbe \/ c = CloseProbe) -> live_after st probe = st.
Proof.
  revert st; induction probe as [|c probe IH]; intros st H; [done|]. simpl.
  rewrite IH by (intros d Hd; apply H; by constructor).
  by destruct (H c ltac:(constructor)) as [->| ->].
Qed.

(** How [Connect] gets to dialling: the key is there, the dial is the first
    call and the only one, whether it succeeds or not, and what is typed into the shell is the attach
    command of a requested session. *)
Lemma Connect_cases req cb t cs r :
  Connect req cb t = (cs, r) ->
  (cs = [] /\ is_ok r = false)
  \/ exists rest, cs = DialTCP (JoinHostPort (req_Host req) (Itoa (req_Port req))) :: rest
       /\ live_after (false, false) rest = (is_ok r, is_ok r)
       /\ (forall a, DialTCP a ∉ rest)
       /\ forall text, WriteStdin text ∈ rest ->
            req_UseHerdr req = true /\ req_HerdrSession req <> ""
            /\ text = herdr_attach (req_HerdrSession req).
Proof.
  unfold Connect. destruct (TrimSpace _ =?s ""); [intros [= <- <-]; by left|].
  destruct (_ <? len _); [intros [= <- <-]; by left|].
  destruct (ParseSigner _ _) as [signer|e]; [|intros [= <- <-]; by left].
  destruct (Dial _ _ _ _ _ _) as [e|].
  { destruct (unwrapHostKey e); intros [= <- <-]; right; exists []; split_and!; try done;
      [intros a Hin|intros text Hin|intros a Hin|intros text Hin]; by apply elem_of_nil in Hin. }
  destruct (if req_UseHerdr req then herdrAvailable else ([], false)) as [probe ha] eqn:Ep.
  destruct (start_session _ _ _ _ _) as [cs' r'] eqn:E. intros [= <- <-]. right.
  exists (Dialled :: probe ++ cs'). apply probe_calls in Ep as [Hp Hha].
  pose proof (start_session_live _ _ _ _ _ _ _ E) as Hl.
  apply start_session_calls in E as [Hd Hw]. split; [done|].
  split; [|split].
  - unfold live_after. cbn [foldl live_step snd]. rewrite foldl_app. change (foldl live_step (true, false) probe)
      with (live_after (true, false) probe). rewrite (live_after_probe _ probe) by exact Hp. exact Hl.
  - intros a [?|[Hin|Hin]%elem_of_app]%elem_of_cons; [done|by apply Hp in Hin as [?|?]|by eapply Hd].
  - intros text [?|[Hin|Hin]%elem_of_app]%elem_of_cons; [done|by apply Hp in Hin as [?|?]|].
    apply Hw in Hin as (? & ? & ?). auto.
Qed.

End Client.

(** ** Properties *)

(** A library for the witnesses: the key "KEY" is good, "LOCKED" has a
    passphrase, the dial answers [dial], the shell start answers [shell]. *)
Definition sample_lib (dial : option error) (shell : bool) : SshLib unit string :=
  mkSshLib unit string
    (fun k => if k =?s "KEY" then Parsed tt
              else if k =?s "LOCKED" then PassphraseMissing "ssh: this private key is passphrase protected"
              else KeyFailure "ssh: no key found")
    (fun _ p => if p =?s "open" then Parsed tt else KeyFailure "x509: decryption password incorrect")
    (fun _ _ _ _ _ => dial) true true true true true true (fun _ _ _ => true) shell (fun _ => true).

Definition sample_req : ConnectRequest :=
  mkConnectRequest "example.org" 22 "root" "KEY" "" "" 80 24 true "work".

(** Resources of a connection attempt: whatever the SSH library answers
    and at whichever step it fails, a failed attempt leaves no connection, no
    session and no probe open and closes nothing twice; a successful one leaves
    exactly its connection and its session. *)
Theorem Connect_releases :
  forall Signer Key (lib : SshLib Signer Key) req cb timeout calls r,
    Connect lib req cb timeout = (calls, r) ->
    open_after calls = if is_ok r then (1, 1, 0) else (0, 0, 0).
Proof. intros Signer Key lib req cb timeout calls r H. by eapply Connect_open. Qed.

Lemma Connect_releases_witness :
  open_after [DialTCP "example.org:22"; Dialled; OpenProbe; CloseProbe; OpenSession;
              Pty "xterm-256color" 24 80; StartShell; CloseSession; CloseClient] = (0, 0, 0).
Proof.
  apply (Connect_releases _ _ (sample_lib None false) sample_req InsecureIgnoreHostKey 0 _
           (Err (session_failed "failed to start shell"))).
  vm_compute. reflexivity.
Defined.

Lemma ParseSigner_codes {Signer Key} (lib : SshLib Signer Key) k p e :
  ParseSigner lib k p = Err e ->
  exists code msg, e = coded code msg
    /\ code ∈ ["PRIVATE_KEY_PASSPHRASE_REQUIRED"; "PRIVATE_KEY_PASSPHRASE_INVALID"; "PRIVATE_KEY_INVALID"].
Proof.
  unfold ParseSigner, mapPrivateKeyError. intros H. repeat case_match; simplify_eq;
    eexists _, _; (split; [reflexivity|]); apply list_elem_of_In; simpl; tauto.
Qed.

Lemma mapDialError_codes e :
  exists code msg, mapDialError e = coded code msg
    /\ code ∈ ["SSH_AUTH_FAILED"; "SSH_CONNECT_TIMEOUT"; "SSH_CONNECT_FAILED"].
Proof.
  unfold mapDialError. repeat case_match; eexists _, _; (split; [reflexivity|]);
    apply list_elem_of_In; simpl; tauto.
Qed.

Lemma start_session_codes {Signer Key} (lib : SshLib Signer Key) req term rows cols ha cs e :
  start_session lib req term rows cols ha = (cs, Err e) -> exists msg, e = coded "SSH_SESSION_FAILED" msg.
Proof. unfold start_session. intros H. repeat case_match; simplify_eq; by eexists. Qed.

(** The codes of a failed attempt that are not a host key's. *)
Definition connect_codes : list string :=
  ["PRIVATE_KEY_REQUIRED"; "PRIVATE_KEY_TOO_LARGE"; "PRIVATE_KEY_PASSPHRASE_REQUIRED";
   "PRIVATE_KEY_PASSPHRASE_INVALID"; "PRIVATE_KEY_INVALID"; "SSH_AUTH_FAILED";
   "SSH_CONNECT_TIMEOUT"; "SSH_CONNECT_FAILED"; "SSH_SESSION_FAILED"].

Lemma connect_codes_incl l : forallb (fun c => existsb (String.eqb c) connect_codes) l = true ->
  forall c, c ∈ l -> c ∈ connect_codes.
Proof.
  intros H c Hc. rewrite forallb_forall in H. apply list_elem_of_In in Hc. apply H in Hc.
  apply existsb_exists in Hc as (d & Hd & E). apply String.eqb_eq in E as ->.
  by apply list_elem_of_In.
Qed.

(** Errors of a connection attempt: a failure is either the host key
    error the dial was refused with, as the callback made it, or a coded error
    with one of nine codes; nothing of the library's own messages gets out. *)
Theorem Connect_error_codes :
  forall Signer Key (lib : SshLib Signer Key) req cb timeout calls e,
    Connect lib req cb timeout = (calls, Err e) ->
    (exists code msg, e = CodedError code msg None /\ code ∈ connect_codes)
    \/ exists signer addr timeout' err,
         Dial lib addr (req_Username req) signer cb timeout' = Some err /\ unwrapHostKey err = Some e.
Proof.
  intros Signer Key lib req cb timeout calls e. unfold Connect.
  destruct (_ =?s ""); [intros [= <- <-]; left; eexists _, _; split; [reflexivity|]; by apply list_elem_of_In; vm_compute; tauto|].
  destruct (_ <? len _); [intros [= <- <-]; left; eexists _, _; split; [reflexivity|]; by apply list_elem_of_In; vm_compute; tauto|].
  destruct (ParseSigner lib _ _) as [signer|e'] eqn:Ep.
  2:{ intros [= <- <-]. apply ParseSigner_codes in Ep as (c & m & -> & Hc). left.
      eexists _, _. split; [reflexivity|]. revert Hc. by apply connect_codes_incl. }
  destruct (Dial _ _ _ _ _ _) as [err|] eqn:Ed.
  - destruct (unwrapHostKey err) as [he|] eqn:Eu; intros [= <- <-].
    + right. by eexists signer, _, _, err.
    + left. destruct (mapDialError_codes err) as (c & m & -> & Hc).
      eexists _, _. split; [reflexivity|]. revert Hc. by apply connect_codes_incl.
  - destruct (if req_UseHerdr req then _ else _) as [probe ha].
    destruct (start_session _ _ _ _ _ _) as [cs r] eqn:Es. intros [= <- ->]. left.
    apply start_session_codes in Es as [m ->]. eexists _, _. split; [reflexivity|].
    apply list_elem_of_In. vm_compute. tauto.
Qed.

Lemma Connect_error_codes_witness :
  (exists code msg, coded "SSH_CONNECT_TIMEOUT" "SSH connection timed out" = CodedError code msg None
                    /\ code ∈ connect_codes)
  \/ exists signer addr timeout' err,
       Dial (sample_lib (Some (OtherError "*net.OpError" "dial tcp: I/O timeout" None)) true)
         addr "root" signer InsecureIgnoreHostKey timeout' = Some err
       /\ unwrapHostKey err = Some (coded "SSH_CONNECT_TIMEOUT" "SSH connection timed out").
Proof.
  apply (Connect_error_codes _ _
           (sample_lib (Some (OtherError "*net.OpError" "dial tcp: I/O timeout" None)) true)
           sample_req InsecureIgnoreHostKey 0 [DialTCP "example.org:22"]).
  vm_compute. reflexivity.
Defined.
