(* ===== verification/WsHandler.v ===== *)
(** * The terminal handler (internal/ws/handler.go)

    One browser session: the guards of the HTTP endpoint, the connect request
    and its checks, the slot of the session limit, the SSH connection, the
    messages of a running session and the cleanup.

    The handler's effects are recorded in order: messages to the browser, calls
    into the SSH library, the session's slot.  What the outside world answers
    is an argument: the frames the client sends (the list ends where reading
    fails), the SSH library, the resolver, random bytes, whether a slot was
    free (the counter is the subject of [Limiter]) and whether a write
    succeeds.  Reading frames, copying output and waiting for the shell run
    concurrently in the program: that is WsConcurrent.  A run of this model handles
    the frames that arrive before the session ends and then ends it, by the
    client or by the shell. *)

From S2P Require Import Prelude GoStrings GoTime GoEncoding GoError Json JsonDecode Netip NetworkPolicy HostKey Config Auth WsProtocol SshClient.

Definition maxConnectMsgBytes : Z := 256 * 1024.
Definition maxInputMsgBytes : Z := 64 * 1024.
Definition maxMessageBytes : Z := 256 * 1024.

(** ** The HTTP endpoint *)

(** What the handlers read of an [http.Request]. *)
Record Request : Type := mkRequest {
  Header_Get : string -> string; Req_Host : string; RemoteAddr : string;
  session_cookie : option string }.

Definition isSameOrigin (r : Request) (origin : string) : bool :=
  let reqHost := Req_Host r in
  if HasPrefix origin "https://" then
    let host := TrimPrefix origin "https://" in
    (host =?s reqHost) || (host =?s SplitFirst reqHost ":"%char)
  else if HasPrefix origin "http://" then
    let host := TrimPrefix origin "http://" in host =?s reqHost
  else false.

Definition clientIP (r : Request) : string :=
  let xff := Header_Get r "X-Forwarded-For" in
  if negb (xff =?s "") then TrimSpace (SplitFirst xff ","%char)
  else match SplitHostPort (RemoteAddr r) with
       | None => RemoteAddr r
       | Some (host, _) => host
       end.

Section Origin.

(** [strings.EqualFold] outside ASCII needs the Unicode folding tables: a
    parameter. *)
Context (unicode_EqualFold : string -> string -> bool).

Definition EqualFold (s t : string) : bool :=
  if is_ascii s && is_ascii t then EqualFoldASCII s t else unicode_EqualFold s t.

Definition checkOrigin (cfg : Config) (r : Request) : bool :=
  let origin := Header_Get r "Origin" in
  if origin =?s "" then true
  else if isSameOrigin r origin then true
  else existsb (fun allowed => (allowed =?s "*") || EqualFold allowed origin)
         (AllowedOrigins (Server cfg)).

(** [ServeHTTP] up to the upgrade: the refusal with its body, or the address of
    the client for which a session starts. *)
Inductive HTTPAnswer : Type :=
| HTTPError (status : Z) (body : string)
| Upgrade (remoteIP : string).

Definition ServeHTTP `{Crypto} (a : Authenticator) (s : Store) (cfg : Config) (now : Z) (r : Request)
    : Store * HTTPAnswer :=
  let (s', info) := SessionFromRequest a s (session_cookie r) now in
  match info with
  | None => (s', HTTPError 401 (q "{'ok':false,'error':{'code':'AUTH_REQUIRED','message':'authentication required'}}"))
  | Some _ => if negb (checkOrigin cfg r)
              then (s', HTTPError 403 (q "{'ok':false,'error':{'code':'WS_ORIGIN_DENIED','message':'origin not allowed'}}"))
              else (s', Upgrade (clientIP r))
  end.

End Origin.

(** ** Effects *)

Inductive Effect : Type :=
| SendJSON (v : json)
| SendPong (sentAt : float)
| SSH_call (c : Call)
| StdinWrite (input : string)
| WindowChange (rows cols : Z)
| TakeSlot | ReleaseSlot
| CloseConn.

Definition sendError (code message : string) : Effect :=
  SendJSON (map_message "error" (enc_ErrorData (mkErrorData code message))).

Definition sendClosed (reason : string) (exitStatus : option Z) : Effect :=
  SendJSON (map_message "closed" (enc_ClosedData (mkClosedData reason exitStatus))).

(** [newSessionID] of 16 random bytes. *)
Definition newSessionID (b : string) : string := B64Encode b.

Definition classifySSHError (err : error) : string * string :=
  match as_CodedError err with
  | Some cm => cm
  | None =>
      match as_HostKeyError err with
      | Some cm => cm
      | None =>
          if GoStrings.Contains (ToLower (Error err)) "host key"
          then ("HOST_KEY_UNTRUSTED", "host key verification failed")
          else ("SSH_CONNECT_FAILED", "SSH connection failed")
      end
  end.

(** ** The connect request *)

(** The characters of a Herdr session name. *)
Definition herdr_char (c : ascii) : bool :=
  let b := byte_of c in
  Ascii.eqb c "-"%char || Ascii.eqb c "_"%char || ((97 <=? b) && (b <=? 122))
  || ((65 <=? b) && (b <=? 90)) || ((48 <=? b) && (b <=? 57)).

(** The checks and defaults of [handleConnect] before the network policy, in
    the order of the code: the request to carry out, or the error code and
    message. *)
Definition check_connect (cd : ConnectData) (random : string)
    : result (string * string) ConnectRequest :=
  let host := TrimSpace (cd_Host cd) in
  let username := TrimSpace (cd_Username cd) in
  let port := if cd_Port cd =? 0 then 22 else cd_Port cd in
  reject! host =?s "" with ("INVALID_HOST", "host is required") in
  reject! 253 <? len host with ("INVALID_HOST", "host is too long") in
  reject! (port <? 1) || (65535 <? port)
    with ("INVALID_PORT", "port must be between 1 and 65535") in
  reject! (username =?s "") || (128 <? len username) with ("BAD_REQUEST", "username is required") in
  reject! TrimSpace (cd_PrivateKey cd) =?s ""
    with ("PRIVATE_KEY_REQUIRED", "private key is required") in
  reject! 128 * 1024 <? len (cd_PrivateKey cd)
    with ("PRIVATE_KEY_TOO_LARGE", "private key is too large") in
  reject! 8 * 1024 <? len (cd_Passphrase cd) with ("BAD_REQUEST", "passphrase is too large") in
  let term := if cd_Term cd =?s "" then "xterm-256color" else cd_Term cd in
  reject! 64 <? len term with ("BAD_REQUEST", "term is invalid") in
  let useHerdr := cd_UseHerdr cd || cd_LegacyUseTmux cd in
  let herdr := if cd_HerdrSession cd =?s "" then cd_TmuxSession cd else cd_HerdrSession cd in
  let herdr := if useHerdr && (herdr =?s "") then "gowebssh-" +:+ newSessionID random else herdr in
  reject! useHerdr && ((64 <? len herdr) || ContainsFunc (fun c => negb (herdr_char c)) herdr)
    with ("BAD_REQUEST", "Herdr session name is invalid") in
  let rows := if (cd_Rows cd <? 5) || (200 <? cd_Rows cd) then 24 else cd_Rows cd in
  let cols := if (cd_Cols cd <? 20) || (500 <? cd_Cols cd) then 80 else cd_Cols cd in
  Ok (mkConnectRequest host port username (cd_PrivateKey cd) (cd_Passphrase cd) term cols rows
        useHerdr herdr).

(** [wsSession]: the fields a run changes. *)
Record wsSession : Type := mkWsSession {
  sshSess : option Session; sessionID : string; s_host : string; s_port : Z;
  s_username : string; connected : bool }.

Definition new_wsSession : wsSession := mkWsSession None "" "" 0 "" false.

Section Handler.

Context {Signer Key : Type} (lib : SshLib Signer Key) (HostKeyCB : HostKeyCallback Key).
Context (cfg : Config) (policy : NetworkPolicy.NetworkPolicy) (LookupIPAddr : string -> option (list string)).

(** From the answer of [reserveSession] on: [slot_free] is that answer,
    [random] the bytes of the session id, [write_ok] whether the browser
    receives the confirmation. *)
Definition connect_ssh (s : wsSession) (req : ConnectRequest) (slot_free : bool) (random : string)
    (write_ok : bool) : wsSession * list Effect * bool :=
  let s := mkWsSession (sshSess s) (sessionID s) (req_Host req) (req_Port req) (req_Username req)
             (connected s) in
  if negb slot_free then
    (s, [sendError "SESSION_LIMIT_EXCEEDED" "maximum concurrent sessions exceeded"], false)
  else
    let (calls, r) := Connect lib req HostKeyCB (SSH_ConnectTimeout (SSH cfg)) in
    match r with
    | Err err =>
        let (code, msg) := classifySSHError err in
        (s, TakeSlot :: map SSH_call calls ++ [sendError code msg; ReleaseSlot], false)
    | Ok sess =>
        let herdr := if HerdrActive sess then req_HerdrSession req else "" in
        let s := mkWsSession (Some sess) (newSessionID random) (s_host s) (s_port s) (s_username s)
                   true in
        (s, TakeSlot :: map SSH_call calls
              ++ [SendJSON (map_message "connected"
                    (enc_ConnectedData (mkConnectedData (sessionID s) (s_host s) (s_port s)
                                          (s_username s) herdr herdr)))], write_ok)
    end.

Definition handleConnect (raw : option json) (s : wsSession) (slot_free : bool)
    (random random' : string) (write_ok : bool) : wsSession * list Effect * bool :=
  match decode_ConnectData raw with
  | None => (s, [sendError "BAD_REQUEST" "invalid connect payload"], false)
  | Some cd =>
      match check_connect cd random with
      | Err (code, msg) => (s, [sendError code msg], false)
      | Ok req =>
          match ValidateHostPort LookupIPAddr policy (req_Host req) (req_Port req) with
          | Some pe => (s, [sendError (pe_Code pe) (pe_Message pe)], false)
          | None => connect_ssh s req slot_free random' write_ok
          end
      end
  end.

(** ** The frames of a session *)

Inductive Frame : Type :=
| TextMessage (data : string)
| BinaryMessage (data : string)
| OtherMessage.

Definition frame_data (f : Frame) : option string :=
  match f with
  | TextMessage d | BinaryMessage d => Some d
  | OtherMessage => None
  end.

(** The loop before the connection: the connect payload and the frames after
    it, or the effects of giving up. *)
Fixpoint await_connect (frames : list Frame) : result (list Effect) (option json * list Frame) :=
  match frames with
  | [] => Err []
  | f :: rest =>
      match frame_data f with
      | None => await_connect rest
      | Some data =>
          reject! maxConnectMsgBytes <? len data with [sendError "BAD_REQUEST" "message too large"] in
          match DecodeMessage data with
          | None => Err [sendError "BAD_REQUEST" "invalid message"]
          | Some msg =>
              reject! negb (Type_ msg =?s "connect")
                with [sendError "BAD_REQUEST" "first message must be connect"] in
              Ok (Data msg, rest)
          end
      end
  end.

(** One frame of the read loop: its effects and whether the loop goes on.
    [stdin_ok] is whether writing to the shell succeeds. *)
Definition handle_frame (stdin_ok : string -> bool) (f : Frame) : list Effect * bool :=
  match frame_data f with
  | None => ([], true)
  | Some data =>
      if maxInputMsgBytes + 2048 <? len data
      then ([sendError "BAD_REQUEST" "message too large"], false)
      else match DecodeMessage data with
           | None => ([], true)
           | Some msg =>
               if Type_ msg =?s "input" then
                 match unmarshal_raw dec_string (Data msg) "" with
                 | None => ([], true)
                 | Some input =>
                     if maxInputMsgBytes <? len input
                     then ([sendError "BAD_REQUEST" "input too large"], true)
                     else ([StdinWrite input], stdin_ok input)
                 end
               else if Type_ msg =?s "resize" then
                 match decode_ResizeData (Data msg) with
                 | None => ([], true)
                 | Some rd =>
                     if (rd_Rows rd <? 5) || (200 <? rd_Rows rd) || (rd_Cols rd <? 20)
                        || (500 <? rd_Cols rd)
                     then ([], true) else ([WindowChange (rd_Rows rd) (rd_Cols rd)], true)
                 end
               else if Type_ msg =?s "ping" then
                 match unmarshal_raw dec_float (Data msg) (float_of_Z 0) with
                 | None => ([], true)
                 | Some sentAt => ([SendPong sentAt], true)
                 end
               else if Type_ msg =?s "disconnect" then ([], false)
               else ([], true)
           end
  end.

(** The read loop: it ends when a frame ends it or reading fails. *)
Fixpoint read_loop (stdin_ok : string -> bool) (frames : list Frame) : list Effect :=
  match frames with
  | [] => []
  | f :: rest => let (es, go_on) := handle_frame stdin_ok f in
                 if go_on then es ++ read_loop stdin_ok rest else es
  end.

(** How the shell ended ([Session.Wait]): normally, with a status, or
    otherwise. *)
Inductive ShellExit : Type := ExitOk | ExitStatus (code : Z) | ExitUnknown.

Definition exit_status (e : ShellExit) : option Z :=
  match e with ExitOk => Some 0 | ExitStatus c => Some c | ExitUnknown => None end.

(** [copyOutput]: one binary message per read that gave bytes, until a read
    fails; a failed write is ignored. *)
Fixpoint copyOutput (reads : list (string * bool)) : list string :=
  match reads with
  | [] => []
  | (data, failed) :: rest =>
      (if 0 <? len data then [data] else []) ++ (if failed : bool then [] else copyOutput rest)
  end.

(** [cleanup] *)
Definition cleanup (s : wsSession) : list Effect :=
  (if connected s then [ReleaseSlot] else [])
  ++ match sshSess s with Some _ => map SSH_call Close | None => [] end
  ++ [CloseConn].

(** The session after the connection: the frames handled while it lasts and
    the event that ends it. *)
Definition serve (stdin_ok : string -> bool) (frames : list Frame) (shell : option ShellExit)
    : list Effect :=
  read_loop stdin_ok frames
  ++ [match shell with
      | Some e => sendClosed "ssh session closed" (exit_status e)
      | None => sendClosed "client disconnected" None
      end]
  ++ map SSH_call Close.

(** [run] *)
Definition run (frames : list Frame) (slot_free : bool) (random random' : string) (write_ok : bool)
    (stdin_ok : string -> bool) (shell : option ShellExit) : list Effect :=
  match await_connect frames with
  | Err es => es ++ cleanup new_wsSession
  | Ok (raw, rest) =>
      let '(s, es, ok) := handleConnect raw new_wsSession slot_free random random' write_ok in
      if negb ok then es ++ cleanup s
      else es ++ serve stdin_ok rest shell ++ cleanup s
  end.

End Handler.

(** ** Lemmas: a checked request *)

(** What [handleConnect] knows of a request it is about to carry out. *)
Record checked (req : ConnectRequest) : Prop := {
  ck_host : req_Host req <> "" /\ len (req_Host req) <= 253 /\ no_space_ends (req_Host req);
  ck_port : 1 <= req_Port req <= 65535;
  ck_user : req_Username req <> "" /\ len (req_Username req) <= 128;
  ck_key : TrimSpace (req_PrivateKey req) <> "" /\ len (req_PrivateKey req) <= 128 * 1024;
  ck_pass : len (req_Passphrase req) <= 8 * 1024;
  ck_term : req_Term req <> "" /\ len (req_Term req) <= 64;
  ck_size : 5 <= req_Rows req <= 200 /\ 20 <= req_Cols req <= 500;
  ck_herdr : req_UseHerdr req = true ->
             req_HerdrSession req <> "" /\ len (req_HerdrSession req) <= 64
             /\ forall c, c ∈ chars (req_HerdrSession req) -> herdr_char c = true }.

Lemma ContainsFunc_false f s : ContainsFunc f s = false -> forall c, c ∈ chars s -> f c = false.
Proof.
  induction s as [|d s IH]; intros H c Hc.
  - by apply not_elem_of_nil in Hc.
  - cbn [ContainsFunc] in H. bool_facts. change (chars (String d s)) with (d :: chars s) in Hc.
    apply elem_of_cons in Hc as [->|Hc]; auto.
Qed.

Lemma check_connect_Ok cd random req : check_connect cd random = Ok req -> checked req.
Proof.
  unfold check_connect. cbv zeta. intros H. ok_path H. injection H as <-. bool_facts.
  constructor; cbn [req_Host req_Port req_Username req_PrivateKey req_Passphrase req_Term req_Cols
    req_Rows req_UseHerdr req_HerdrSession].
  - split_and!; [done|lia|apply TrimSpace_ends].
  - lia.
  - split; [done|lia].
  - split; [done|lia].
  - lia.
  - split; [|lia]. by destruct (cd_Term cd =?s "") eqn:E; bool_facts.
  - split.
    + destruct ((cd_Rows cd <? 5) || (200 <? cd_Rows cd)) eqn:E; bool_facts; lia.
    + destruct ((cd_Cols cd <? 20) || (500 <? cd_Cols cd)) eqn:E; bool_facts; lia.
  - intros Huse. rewrite Huse in *. cbn [andb] in *.
    set (herdr := if cd_HerdrSession cd =?s "" then cd_TmuxSession cd else cd_HerdrSession cd) in *.
    apply orb_false_iff in Ec7 as [Hlen Hchars]. split_and!; [|lia|].
    + by destruct (herdr =?s "") eqn:E; bool_facts.
    + intros c Hc. pose proof (ContainsFunc_false _ _ Hchars _ Hc) as Hf. by apply negb_false_iff in Hf.
Qed.

(** ** Lemmas: the session's slot *)

(** The slot of one session under a sequence of effects: taken only when not
    held, given back only when held. *)
Fixpoint slot_after (held : bool) (es : list Effect) : option bool :=
  match es with
  | [] => Some held
  | TakeSlot :: es => if held then None else slot_after true es
  | ReleaseSlot :: es => if held then slot_after false es else None
  | _ :: es => slot_after held es
  end.

Lemma slot_after_app h es fs :
  slot_after h (es ++ fs) = match slot_after h es with Some h' => slot_after h' fs | None => None end.
Proof.
  revert h; induction es as [|e es IH]; intros h; [done|]. cbn [app].
  destruct e; cbn [slot_after]; try apply IH; destruct h; try done; apply IH.
Qed.

Lemma slot_after_calls h cs : slot_after h (map SSH_call cs) = Some h.
Proof. by induction cs. Qed.

(** What a frame can cause. *)
Definition frame_effect (e : Effect) : Prop :=
  match e with
  | SendJSON _ | SendPong _ => True
  | StdinWrite input => len input <= maxInputMsgBytes
  | WindowChange rows cols => 5 <= rows <= 200 /\ 20 <= cols <= 500
  | _ => False
  end.

Lemma handle_frame_effects stdin_ok f es go :
  handle_frame stdin_ok f = (es, go) -> Forall frame_effect es.
Proof.
  unfold handle_frame. intros H. repeat case_match; simplify_eq; bool_facts;
    repeat constructor; simpl; try done; unfold maxInputMsgBytes in *; lia.
Qed.

Lemma read_loop_effects stdin_ok frames : Forall frame_effect (read_loop stdin_ok frames).
Proof.
  induction frames as [|f frames IH]; [by apply Forall_nil|]. cbn [read_loop].
  destruct (handle_frame stdin_ok f) as [es go] eqn:E. apply handle_frame_effects in E.
  destruct go; [|done]. by apply Forall_app.
Qed.

Lemma slot_after_frames h es : Forall frame_effect es -> slot_after h es = Some h.
Proof. induction 1 as [|e es He _ IH]; [done|]. by destruct e. Qed.

(** ** Lemmas: the SSH resources *)

Fixpoint ssh_live (st : bool * bool) (es : list Effect) : bool * bool :=
  match es with
  | [] => st
  | SSH_call c :: es => ssh_live (live_step st c) es
  | _ :: es => ssh_live st es
  end.

Lemma ssh_live_app st es fs : ssh_live st (es ++ fs) = ssh_live (ssh_live st es) fs.
Proof. revert st; induction es as [|[] es IH]; intros st; simpl; auto. Qed.

Lemma ssh_live_calls st cs : ssh_live st (map SSH_call cs) = live_after st cs.
Proof. revert st; induction cs as [|c cs IH]; intros st; [done|]. simpl. apply IH. Qed.

Lemma ssh_live_frames st es : Forall frame_effect es -> ssh_live st es = st.
Proof. induction 1 as [|e es He _ IH]; [done|]. by destruct e. Qed.

(** ** Lemmas: connecting *)

Section HandlerFacts.

Context {Signer Key : Type} (lib : SshLib Signer Key) (HostKeyCB : HostKeyCallback Key).
Context (cfg : Config) (policy : NetworkPolicy.NetworkPolicy)
        (LookupIPAddr : string -> option (list string)).

(** A target that the checks and the policy let through. *)
Definition allowed_target (addr : string) : Prop :=
  exists host port, addr = JoinHostPort host (Itoa port) /\ 1 <= port <= 65535
    /\ host <> "" /\ ValidateHostPort LookupIPAddr policy host port = None.

Definition safe_herdr_text (text : string) : Prop :=
  exists name, text = herdr_attach name /\ name <> "" /\ len name <= 64
    /\ forall c, c ∈ chars name -> herdr_char c = true.

(** What a connect attempt leaves behind, from a fresh session. *)
Record connect_facts (s : wsSession) (es : list Effect) (ok : bool) : Prop := {
  cf_slot : slot_after false es = Some (connected s);
  cf_live : ssh_live (false, false) es = (connected s, connected s);
  cf_sess : bool_decide (is_Some (sshSess s)) = connected s;
  cf_ok : ok = true -> connected s = true;
  cf_dial : forall pre addr post, es = pre ++ SSH_call (DialTCP addr) :: post ->
            allowed_target addr /\ slot_after false pre = Some true;
  cf_stdin : forall text, SSH_call (WriteStdin text) ∈ es -> safe_herdr_text text }.

Lemma sent_only_facts s e ok :
  connected s = false -> sshSess s = None -> ok = false ->
  connect_facts s [SendJSON e] ok.
Proof.
  intros Hc Hs ->. constructor; rewrite ?Hc, ?Hs; try done.
  - intros pre addr post H. destruct pre as [|? [|? ?]]; discriminate H.
  - intros text Hin. in_list Hin; discriminate Hin.
Qed.

(** In the trace of an attempt that dialled, the dial is its first SSH call. *)
Lemma dial_position addr0 rest tail pre addr post :
  (forall a, DialTCP a ∉ rest) -> (forall e, e ∈ tail -> forall c, e <> SSH_call c) ->
  TakeSlot :: map SSH_call (DialTCP addr0 :: rest) ++ tail = pre ++ SSH_call (DialTCP addr) :: post ->
  addr = addr0 /\ pre = [TakeSlot].
Proof.
  intros Hrest Htail H. destruct pre as [|x pre]; [discriminate H|]. injection H as -> H.
  destruct pre as [|y pre]; [by injection H as ->|]. injection H as _ H. exfalso.
  assert (SSH_call (DialTCP addr) ∈ map SSH_call rest ++ tail) as Hin.
  { rewrite H. apply elem_of_app. right. by constructor. }
  apply elem_of_app in Hin as [Hin|Hin]; [|by eapply Htail].
  apply list_elem_of_In, in_map_iff in Hin as (c & [= ->] & Hin).
  apply list_elem_of_In in Hin. by eapply Hrest.
Qed.

Lemma connect_ssh_facts s req free random write_ok s' es ok :
  connected s = false -> sshSess s = None -> checked req ->
  ValidateHostPort LookupIPAddr policy (req_Host req) (req_Port req) = None ->
  connect_ssh lib HostKeyCB cfg s req free random write_ok = (s', es, ok) ->
  connect_facts s' es ok.
Proof.
  intros Hc Hs Hck Hv H. unfold connect_ssh in H. destruct free; cbn [negb] in H.
  2:{ injection H as <- <- <-. by apply sent_only_facts. }
  destruct (Connect lib req HostKeyCB _) as [calls r] eqn:Ec. apply Connect_cases in Ec.
  assert (allowed_target (JoinHostPort (req_Host req) (Itoa (req_Port req)))) as Hat.
  { destruct Hck as [[? _] ? _ _ _ _ _ _]. by exists (req_Host req), (req_Port req). }
  assert (req_UseHerdr req = true -> safe_herdr_text (herdr_attach (req_HerdrSession req))) as Hht.
  { intros Hu. destruct Hck. destruct (ck_herdr0 Hu) as (? & ? & ?). by eexists. }
  assert (forall tail, (forall e, e ∈ tail -> forall c, e <> SSH_call c) ->
    (forall pre addr post, TakeSlot :: map SSH_call calls ++ tail = pre ++ SSH_call (DialTCP addr) :: post ->
       allowed_target addr /\ slot_after false pre = Some true)
    /\ (forall text, SSH_call (WriteStdin text) ∈ TakeSlot :: map SSH_call calls ++ tail ->
       safe_herdr_text text)
    /\ ssh_live (false, false) (map SSH_call calls) = (is_ok r, is_ok r)) as Hcalls.
  { intros tail Htail. destruct Ec as [[-> Hr]|(rest & -> & Hlive & Hone & Hw)].
    - split_and!; [| |by rewrite Hr].
      + intros pre addr post He. destruct pre as [|? pre]; [discriminate He|]. injection He as _ He.
        exfalso. eapply Htail; [|reflexivity]. simpl in He. rewrite He. apply elem_of_app. right. by constructor.
      + intros text Hin. simpl in Hin. apply elem_of_cons in Hin as [Hin|Hin]; [discriminate Hin|].
        exfalso. by eapply Htail.
    - split_and!.
      + intros pre addr post He. apply dial_position in He as [-> ->]; done.
      + intros text Hin. apply elem_of_cons in Hin as [Hin|Hin]; [discriminate Hin|].
        apply elem_of_app in Hin as [Hin|Hin]; [|exfalso; by eapply Htail].
        apply list_elem_of_In, in_map_iff in Hin as (c & [= ->] & Hin). apply list_elem_of_In in Hin.
        apply elem_of_cons in Hin as [Hin|Hin]; [discriminate Hin|].
        apply Hw in Hin as (Hu & _ & ->). by apply Hht.
      + rewrite ssh_live_calls. exact Hlive. }
  destruct r as [sess|err].
  - injection H as <- <- <-.
    destruct (Hcalls [SendJSON (map_message "connected" (enc_ConnectedData
        (mkConnectedData (newSessionID random) (req_Host req) (req_Port req) (req_Username req)
           (if HerdrActive sess then req_HerdrSession req else "")
           (if HerdrActive sess then req_HerdrSession req else ""))))]) as (Hd & Hw & Hl).
    { intros e He c. in_list He. by subst. }
    constructor; cbn [connected sshSess]; try done.
    + cbn [slot_after]. by rewrite slot_after_app, slot_after_calls.
    + cbn [ssh_live]. by rewrite ssh_live_app, Hl.
  - destruct (classifySSHError err) as [code msg]. injection H as <- <- <-.
    destruct (Hcalls [sendError code msg; ReleaseSlot]) as (Hd & Hw & Hl).
    { intros e He c. in_list He; by subst. }
    constructor; cbn [connected sshSess]; rewrite ?Hc, ?Hs; try done.
    + cbn [slot_after]. by rewrite slot_after_app, slot_after_calls.
    + cbn [ssh_live]. by rewrite ssh_live_app, Hl.
Qed.

Lemma handleConnect_facts raw free random random' write_ok s es ok :
  handleConnect lib HostKeyCB cfg policy LookupIPAddr raw new_wsSession free random random' write_ok
    = (s, es, ok) -> connect_facts s es ok.
Proof.
  unfold handleConnect. intros H.
  destruct (decode_ConnectData raw) as [cd|]; [|injection H as <- <- <-; by apply sent_only_facts].
  destruct (check_connect cd random) as [req|[code msg]] eqn:Ek;
    [|injection H as <- <- <-; by apply sent_only_facts].
  apply check_connect_Ok in Ek.
  destruct (ValidateHostPort _ _ _ _) eqn:Ev; [injection H as <- <- <-; by apply sent_only_facts|].
  by eapply connect_ssh_facts in H.
Qed.

(** Giving up before the connection sends messages only. *)
Lemma await_connect_Err frames es :
  await_connect frames = Err es -> Forall (fun e => exists v, e = SendJSON v) es.
Proof.
  induction frames as [|f frames IH]; intros H; cbn [await_connect] in H.
  - injection H as <-. by apply Forall_nil.
  - destruct (frame_data f) as [data|]; [|auto]. repeat case_match; simplify_eq;
      repeat constructor; by eexists.
Qed.

End HandlerFacts.

(** ** Properties *)

Section Samples.

(** A session for the witnesses: a client connects to a public name with a
    Herdr session, types, resizes and leaves. *)
Definition sample_request : ConnectData :=
  mkConnectData " public.example " 0 "root" "KEY" "" "" 900 24 false true "" "work".

Definition sample_frames : list Frame :=
  [OtherMessage; TextMessage (EncodeMessage "connect" (Some (enc_ConnectData sample_request)));
   TextMessage (EncodeMessage "input" (Some (JStr "ls")));
   BinaryMessage (EncodeMessage "resize" (Some (enc_ResizeData (mkResizeData 100 40))));
   TextMessage (EncodeMessage "resize" (Some (enc_ResizeData (mkResizeData 100 4000))));
   TextMessage (EncodeMessage "disconnect" None)].

Definition sample_run : list Effect :=
  run (sample_lib None true) InsecureIgnoreHostKey Default sample_policy sample_lookup sample_frames
    true "" "0123456789abcdef" true (fun _ => true) None.

End Samples.

(** C6.  Slot discipline: in every session, whatever the client sends, the
    network, the SSH library and the shell do, a slot is given back only while
    it is held, never taken twice, and never held after the session. *)
Theorem session_slot_balanced :
  forall Signer Key (lib : SshLib Signer Key) cb cfg policy lookup
         frames free random random' write_ok stdin_ok shell,
    slot_after false (run lib cb cfg policy lookup frames free random random' write_ok stdin_ok shell)
    = Some false.
Proof.
  intros. unfold run. destruct (await_connect frames) as [[raw rest]|es] eqn:Ea.
  - destruct (handleConnect _ _ _ _ _ _ _ _ _ _ _) as [[s es] ok] eqn:Eh.
    apply handleConnect_facts in Eh as [Hslot _ _ _ _ _].
    assert (forall h, slot_after h (cleanup s) = if connected s then (if h then Some false else None) else Some h)
      as Hclean.
    { intros h. unfold cleanup. by destruct (connected s), (sshSess s), h. }
    destruct ok; cbn [negb].
    + rewrite slot_after_app, Hslot, slot_after_app. unfold serve.
      rewrite slot_after_app, (slot_after_frames _ _ (read_loop_effects _ _)).
      rewrite slot_after_app. destruct shell; cbn [slot_after sendClosed]; rewrite slot_after_calls, Hclean;
        by destruct (connected s).
    + rewrite slot_after_app, Hslot, Hclean. by destruct (connected s).
  - apply await_connect_Err in Ea. rewrite slot_after_app.
    assert (slot_after false es = Some false) as ->; [|done].
    induction Ea as [|e es [v ->] _ IH]; [done|exact IH].
Qed.

(** No connection outlives its session: whatever happens, at the end of
    a session neither an SSH connection nor an SSH session is open. *)
Theorem session_closes_ssh :
  forall Signer Key (lib : SshLib Signer Key) cb cfg policy lookup
         frames free random random' write_ok stdin_ok shell,
    ssh_live (false, false)
      (run lib cb cfg policy lookup frames free random random' write_ok stdin_ok shell)
    = (false, false).
Proof.
  intros. unfold run. destruct (await_connect frames) as [[raw rest]|es] eqn:Ea.
  - destruct (handleConnect _ _ _ _ _ _ _ _ _ _ _) as [[s es] ok] eqn:Eh.
    apply handleConnect_facts in Eh as [_ Hlive Hsess _ _ _].
    assert (ssh_live (connected s, connected s) (cleanup s) = (false, false)) as Hclean.
    { unfold cleanup. rewrite <- Hsess. by destruct (sshSess s), (connected s). }
    destruct ok; cbn [negb]; rewrite ssh_live_app, Hlive; [|exact Hclean].
    rewrite ssh_live_app. unfold serve.
    rewrite !ssh_live_app, (ssh_live_frames _ _ (read_loop_effects _ _)).
    assert (ssh_live (false, false) (cleanup s) = (false, false)) as Hclean'.
    { unfold cleanup. by destruct (sshSess s), (connected s). }
    by destruct shell.
  - apply await_connect_Err in Ea. rewrite ssh_live_app.
    assert (ssh_live (false, false) es = (false, false)) as ->; [|done].
    induction Ea as [|e es [v ->] _ IH]; [done|exact IH].
Qed.

(** Every SSH call of a session before its frames comes from the attempt. *)
Lemma run_calls {Signer Key} (lib : SshLib Signer Key) cb cfg policy lookup
    frames free random random' write_ok stdin_ok shell pre c post :
  run lib cb cfg policy lookup frames free random random' write_ok stdin_ok shell
    = pre ++ SSH_call c :: post -> c <> CloseSession -> c <> CloseClient ->
  exists raw s es ok mid,
    handleConnect lib cb cfg policy lookup raw new_wsSession free random random' write_ok = (s, es, ok)
    /\ es = pre ++ SSH_call c :: mid.
Proof.
  intros H Hcs Hcc. unfold run in H.
  assert (forall s, SSH_call c ∉ cleanup s) as Hclean.
  { intros s Hin. unfold cleanup in Hin.
    destruct (connected s), (sshSess s); cbn [map Close] in Hin; in_list Hin;
      try discriminate Hin; injection Hin as ->; done. }
  assert (forall es tail, es ++ tail = pre ++ SSH_call c :: post -> SSH_call c ∉ tail ->
    exists mid, es = pre ++ SSH_call c :: mid) as Hsplit.
  { intros es tail He Hn. apply app_eq_app in He as (l & [[-> Hr]|[-> Hr]]).
    - destruct l as [|x l]; [|injection Hr as -> _; by exists l].
      exfalso. apply Hn. simpl in Hr. rewrite <- Hr. by constructor.
    - exfalso. apply Hn. rewrite Hr. apply elem_of_app. right. by constructor. }
  destruct (await_connect frames) as [[raw rest]|es] eqn:Ea.
  - destruct (handleConnect _ _ _ _ _ _ _ _ _ _ _) as [[s es] ok] eqn:Eh.
    exists raw, s, es, ok. destruct ok; cbn [negb] in H.
    + destruct (Hsplit es (serve stdin_ok rest shell ++ cleanup s) H) as [mid ->]; [|by exists mid].
      intros [Hin|Hin]%elem_of_app; [|by eapply Hclean]. unfold serve in Hin.
      apply elem_of_app in Hin as [Hin|Hin].
      * pose proof (read_loop_effects stdin_ok rest) as HF. rewrite Forall_forall in HF.
        by apply HF in Hin.
      * destruct shell; cbn [map Close] in Hin; in_list Hin; try discriminate Hin;
          injection Hin as ->; done.
    + destruct (Hsplit es (cleanup s) H) as [mid ->]; [apply Hclean|by exists mid].
  - exfalso. destruct (Hsplit es (cleanup new_wsSession) H) as [mid ->]; [apply Hclean|].
    apply await_connect_Err in Ea. apply Forall_app in Ea as [_ Ea].
    apply Forall_cons in Ea as [[v Hv] _]. done.
Qed.

(** C1.  Guarded dialling: a session dials only an address that names a
    non-empty host with a port from 1 to 65535 which the network policy has
    accepted, and only while it holds a slot. *)
Theorem session_dials_allowed :
  forall Signer Key (lib : SshLib Signer Key) cb cfg policy lookup
         frames free random random' write_ok stdin_ok shell pre addr post,
    run lib cb cfg policy lookup frames free random random' write_ok stdin_ok shell
      = pre ++ SSH_call (DialTCP addr) :: post ->
    slot_after false pre = Some true
    /\ exists host port, addr = JoinHostPort host (Itoa port) /\ 1 <= port <= 65535 /\ host <> ""
         /\ ValidateHostPort lookup policy host port = None.
Proof.
  intros * H. apply run_calls in H as (raw & s & es & ok & mid & Hc & ->); [|done..].
  apply handleConnect_facts in Hc as [_ _ _ _ Hd _]. destruct (Hd _ _ _ eq_refl). done.
Qed.

Lemma session_dials_allowed_witness :
  exists host port, "public.example:22" = JoinHostPort host (Itoa port)
    /\ ValidateHostPort sample_lookup sample_policy host port = None.
Proof.
  destruct (session_dials_allowed _ _ (sample_lib None true) InsecureIgnoreHostKey Default sample_policy
    sample_lookup sample_frames true "" "0123456789abcdef" true (fun _ => true) None
    [TakeSlot] "public.example:22" (drop 2 sample_run)) as (_ & host & port & H1 & _ & _ & H2).
  - vm_compute. reflexivity.
  - exists host, port. split; [exact H1|exact H2].
Defined.

(** The characters that are safe in a shell word, spelled out. *)
Definition name_alphabet : string :=
  "abcdefghijklmnopqrstuvwxyzABCDEFGHIJKLMNOPQRSTUVWXYZ0123456789-_".

Lemma herdr_char_alphabet c : herdr_char c = true -> ContainsByte name_alphabet c = true.
Proof. destruct c as [[] [] [] [] [] [] [] []]; intros H; first [discriminate H|vm_compute; reflexivity]. Qed.

(** C13.  Nothing but an attach command is typed for the user: the text a
    session writes into the remote shell while it connects is
    [herdr session attach NAME] and a carriage return, with a name of 1 to 64
    letters, digits, dashes and underscores, whatever the client asked for. *)
Theorem session_types_safe_attach :
  forall Signer Key (lib : SshLib Signer Key) cb cfg policy lookup
         frames free random random' write_ok stdin_ok shell text,
    SSH_call (WriteStdin text)
      ∈ run lib cb cfg policy lookup frames free random random' write_ok stdin_ok shell ->
    exists name, text = "herdr session attach " +:+ name +:+ String (chr 13) ""
      /\ name <> "" /\ len name <= 64
      /\ forall c, c ∈ chars name -> ContainsByte name_alphabet c = true.
Proof.
  intros * Hin. apply list_elem_of_split in Hin as (pre & post & H).
  apply run_calls in H as (raw & s & es & ok & mid & Hc & ->); [|done..].
  apply handleConnect_facts in Hc as [_ _ _ _ _ Hw].
  destruct (Hw text) as (name & -> & Hne & Hl & Hn); [apply elem_of_app; right; by constructor|].
  exists name. split_and!; [done..|]. intros c Hc. by apply herdr_char_alphabet, Hn.
Qed.

Lemma session_types_safe_attach_witness :
  exists name, herdr_attach "work" = herdr_attach name /\ len name <= 64.
Proof.
  destruct (session_types_safe_attach _ _ (sample_lib None true) InsecureIgnoreHostKey Default sample_policy
    sample_lookup sample_frames true "" "0123456789abcdef" true (fun _ => true) None (herdr_attach "work"))
    as (name & H1 & _ & H2 & _).
  - apply list_elem_of_In. vm_compute. tauto.
  - exists name. split; [exact H1|exact H2].
Defined.

(** A typed text as the client sends it. *)
Definition input_frame (input : string) : Frame :=
  TextMessage (EncodeMessage "input" (Some (JStr input))).

Lemma handle_input stdin_ok input :
  valid_utf8 input = true -> len input <= maxInputMsgBytes ->
  len (EncodeMessage "input" (Some (JStr input))) <= maxInputMsgBytes + 2048 ->
  handle_frame stdin_ok (input_frame input) = ([StdinWrite input], stdin_ok input).
Proof.
  intros Hu Hl Hm. unfold handle_frame, input_frame. cbn [frame_data].
  assert ((maxInputMsgBytes + 2048 <? len (EncodeMessage "input" (Some (JStr input)))) = false)
    as -> by (apply Z.ltb_ge; lia).
  assert (wire_clean (JStr input)) as Hc.
  { split_and!; [done| |done]. cbn [jclean]. by rewrite utf8_clean_id. }
  rewrite (proj1 (wire_read _ "input" Hc eq_refl)). cbn [Type_ Data]. simpl (_ =?s _). cbv iota.
  cbn [unmarshal_raw dec_string].
  assert ((maxInputMsgBytes <? len input) = false) as -> by (apply Z.ltb_ge; lia). done.
Qed.

(** What is typed arrives: the texts a client sends, each UTF-8, at most
    64 KiB and with an encoding of at most 66 KiB, are written to the shell
    unchanged, in order and each once, until a write to the shell fails; frames
    of any kind never cause more than an input within 64 KiB or a resize within
    5..200 rows and 20..500 columns. *)
Theorem typed_text_arrives :
  forall stdin_ok inputs,
    Forall (fun i => valid_utf8 i = true /\ len i <= maxInputMsgBytes
                     /\ len (EncodeMessage "input" (Some (JStr i))) <= maxInputMsgBytes + 2048) inputs ->
    (forall i, i ∈ inputs -> stdin_ok i = true) ->
    read_loop stdin_ok (map input_frame inputs) = map StdinWrite inputs
    /\ forall frames e, e ∈ read_loop stdin_ok frames ->
         match e with
         | SendJSON _ | SendPong _ => True
         | StdinWrite i => len i <= maxInputMsgBytes
         | WindowChange rows cols => 5 <= rows <= 200 /\ 20 <= cols <= 500
         | _ => False
         end.
Proof.
  intros stdin_ok inputs HF Hok. split.
  - induction HF as [|i inputs (Hu & Hl & Hm) _ IH]; [done|]. cbn [map read_loop].
    rewrite handle_input by done. rewrite Hok by constructor. cbn [app].
    rewrite IH; [done|]. intros j Hj. apply Hok. by constructor.
  - intros frames e He. pose proof (read_loop_effects stdin_ok frames) as HF'.
    rewrite Forall_forall in HF'. by apply HF'.
Qed.

Lemma typed_text_arrives_witness :
  read_loop (fun _ => true) (map input_frame ["ls"; "cd /"; ""]) = map StdinWrite ["ls"; "cd /"; ""].
Proof.
  apply (typed_text_arrives (fun _ => true) ["ls"; "cd /"; ""]).
  - repeat constructor; vm_compute; congruence.
  - reflexivity.
Defined.

(** C24.  The endpoint's guard: a request is upgraded to a terminal session
    only if it carries an authenticated session and comes from no web page, from
    a page of the server's own host, or from an origin the configuration allows. *)
Theorem ServeHTTP_guarded :
  forall fold `{Crypto} a s cfg now r s' ip,
    ServeHTTP fold a s cfg now r = (s', Upgrade ip) ->
    (exists info, SessionFromRequest a s (session_cookie r) now = (s', Some info))
    /\ let origin := Header_Get r "Origin" in
       (origin = ""
        \/ origin = "https://" +:+ Req_Host r
        \/ origin = "https://" +:+ SplitFirst (Req_Host r) ":"%char
        \/ origin = "http://" +:+ Req_Host r
        \/ exists allowed, allowed ∈ AllowedOrigins (Server cfg)
             /\ (allowed = "*" \/ EqualFold fold allowed origin = true)).
Proof.
  intros fold C a s cfg now r s' ip H. unfold ServeHTTP in H.
  destruct (SessionFromRequest a s (session_cookie r) now) as [st [info|]]; [|done].
  destruct (checkOrigin fold cfg r) eqn:Eo; [|done]. injection H as <- _.
  split; [by exists info|]. cbv zeta. unfold checkOrigin in Eo.
  set (origin := Header_Get r "Origin") in *.
  destruct (origin =?s "") eqn:E0; bool_facts; [by left|right].
  destruct (isSameOrigin r origin) eqn:Es.
  - unfold isSameOrigin in Es. destruct (HasPrefix origin "https://") eqn:E1.
    + apply HasPrefix_spec in E1 as [t Ht]. rewrite Ht in Es |- *. unfold TrimPrefix in Es.
      assert (HasPrefix ("https://" +:+ t) "https://" = true) as Hp by (apply HasPrefix_spec; by exists t).
      rewrite Hp, (str_drop_app "https://" t) in Es. apply orb_true_iff in Es as [Es|Es]; bool_facts; subst; auto.
    + destruct (HasPrefix origin "http://") eqn:E2; [|done].
      apply HasPrefix_spec in E2 as [t Ht]. rewrite Ht in Es |- *. unfold TrimPrefix in Es.
      assert (HasPrefix ("http://" +:+ t) "http://" = true) as Hp by (apply HasPrefix_spec; by exists t).
      rewrite Hp, (str_drop_app "http://" t) in Es. bool_facts. subst. auto.
  - apply existsb_exists in Eo as (al & Hin & Hal). do 3 right. exists al.
    split; [by apply list_elem_of_In|]. apply orb_true_iff in Hal as [Hal|Hal]; bool_facts; auto.
Qed.

Definition sample_http (origin : string) : Request :=
  mkRequest (fun h => if h =?s "Origin" then origin else "") "shell.example:8443" "192.0.2.1:5000"
    (Some (@signedToken toy_crypto sample_auth sample_token)).

Lemma ServeHTTP_guarded_witness :
  exists info, @SessionFromRequest toy_crypto sample_auth
    (@Auth.run toy_crypto sample_auth (NewStore 0) Auth.sample_run)
    (session_cookie (sample_http "https://shell.example")) 100
  = (@Auth.run toy_crypto sample_auth (NewStore 0) Auth.sample_run, Some info).
Proof.
  apply (ServeHTTP_guarded (fun _ _ => false) sample_auth
           (@Auth.run toy_crypto sample_auth (NewStore 0) Auth.sample_run) Default 100
           (sample_http "https://shell.example") _ "192.0.2.1").
  vm_compute. reflexivity.
Defined.

(** Host key rejections reach the browser: when the known-hosts callback
    rejects the server's key and the SSH library reports that error wrapped,
    as its handshake does, the attempt fails without any SSH call left open and
    the browser is told HOST_KEY_CHANGED exactly when known_hosts lists another
    key for the host, and HOST_KEY_UNTRUSTED otherwise. *)
Theorem host_key_rejection_reported :
  forall Signer Key (lib : SshLib Signer Key) (known : HostKeyCallback Key) host key err
         req timeout wrapper msg,
    known host key = Some err -> as_CodedError err = None ->
    (exists e, wrapKnownHosts known host key = Some e
       /\ forall addr user signer t,
            Dial lib addr user signer (wrapKnownHosts known) t = Some (OtherError wrapper msg (Some e))) ->
    GoStrings.Contains wrapper "HostKeyError" = false ->
    TrimSpace (req_PrivateKey req) <> "" -> len (req_PrivateKey req) <= 256 * 1024 ->
    is_ok (ParseSigner lib (req_PrivateKey req) (req_Passphrase req)) = true ->
    exists e code text,
      Connect lib req (wrapKnownHosts known) timeout
        = ([DialTCP (JoinHostPort (req_Host req) (Itoa (req_Port req)))], Err e)
      /\ classifySSHError e = (code, text)
      /\ (code = "HOST_KEY_CHANGED" \/ code = "HOST_KEY_UNTRUSTED")
      /\ (code = "HOST_KEY_CHANGED" <-> exists want, asKeyError err = Some (S want)).
Proof.
  intros Signer Key lib known host key err req timeout wrapper msg Hk Hcoded (e & He & Hdial) Hw
    Hkey Hlen Hparse.
  destruct (proj2 (wrapKnownHosts_spec known host key) e He) as (code & text & err' & Hk' & -> & Hiff & Hor).
  rewrite Hk in Hk'. injection Hk' as <-.
  exists (HostKeyError code text (Some err)), code, text. split; [|split; [|by split]].
  - unfold Connect. apply String.eqb_neq in Hkey as ->.
    assert ((256 * 1024 <? len (req_PrivateKey req)) = false) as -> by lia.
    destruct (ParseSigner lib _ _) as [signer|]; [|done]. rewrite Hdial.
    unfold unwrapHostKey. cbn [find_in_chain type_string]. rewrite Hw. done.
  - unfold classifySSHError, as_CodedError. cbn [find_in_chain].
    unfold as_CodedError in Hcoded. rewrite Hcoded. done.
Qed.

Lemma host_key_rejection_reported_witness :
  exists e code text,
    Connect (sample_lib (Some (OtherError "*fmt.wrapError" "ssh: handshake failed"
       (Some (HostKeyError "HOST_KEY_CHANGED" "host key verification failed: key has changed"
                (Some (KeyError "knownhosts: key mismatch" 1)))))) true)
      sample_req (wrapKnownHosts (fun _ _ => Some (KeyError "knownhosts: key mismatch" 1))) 0
    = ([DialTCP (JoinHostPort (req_Host sample_req) (Itoa (req_Port sample_req)))], Err e)
    /\ classifySSHError e = (code, text) /\ code = "HOST_KEY_CHANGED".
Proof.
  destruct (host_key_rejection_reported unit string
    (sample_lib (Some (OtherError "*fmt.wrapError" "ssh: handshake failed"
       (Some (HostKeyError "HOST_KEY_CHANGED" "host key verification failed: key has changed"
                (Some (KeyError "knownhosts: key mismatch" 1)))))) true)
    (fun _ _ => Some (KeyError "knownhosts: key mismatch" 1)) "h" "k"
    (KeyError "knownhosts: key mismatch" 1) sample_req 0 "*fmt.wrapError" "ssh: handshake failed")
    as (e & code & text & H1 & H2 & _ & H3).
  - reflexivity.
  - reflexivity.
  - eexists. split; [reflexivity|]. reflexivity.
  - vm_compute. reflexivity.
  - vm_compute. discriminate.
  - vm_compute. discriminate.
  - reflexivity.
  - exists e, code, text. split; [exact H1|]. split; [exact H2|]. apply H3. exists 0%nat. reflexivity.
Defined.
