(* ===== verification/Metrics.v ===== *)
(** * Host metrics (internal/sshclient/metrics.go, streamMetrics in
    internal/ws/handler.go)

    The server runs a small script on the remote host every three seconds,
    parses the ten numbers it prints, and sends the browser the usage they give
    together with the sample before; the message is printed as encoding/json does.

    [strconv.ParseFloat] of a JSON number is computed in binary64; of any other
    spelling it is an argument, and so is the conversion of a float outside the
    range of [uint64], which Go leaves open. *)

From S2P Require Import Prelude GoStrings GoTime Json JsonDecode GoFloat Binary64 WsProtocol.
From Stdlib Require Import Floats.SpecFloat.

(** ** [strings.Fields] *)

Definition flush (word : string) : list string := if word =?s "" then [] else [word].

(** The words of a text; [skip] bytes of a space are still to be passed. *)
Fixpoint fields_from (word : string) (skip : nat) (s : string) : list string :=
  match s with
  | EmptyString => flush word
  | String c t =>
      match skip with
      | S k => fields_from word k t
      | O => match leading_space s with
             | Some r => flush word ++ fields_from "" (String.length r - 1) t
             | None => fields_from (word +:+ String c "") 0 t
             end
      end
  end.

Definition Fields (s : string) : list string := fields_from "" 0 s.

Example Fields_samples :
  Fields (" a b" +:+ bytes [9; 10] +:+ "c" +:+ bytes [194; 160] +:+ "d " ) = ["a"; "b"; "c"; "d"]
  /\ Fields (bytes [32; 10]) = [].
Proof. vm_compute. split; reflexivity. Qed.

(** ** Samples *)

(** 64-bit arithmetic of unsigned integers. *)
Definition u64 (z : Z) : Z := z mod 2 ^ 64.

Record RawMetrics : Type := mkRawMetrics {
  rm_CPUTotal : Z; rm_CPUIdle : Z; rm_MemoryTotal : Z; rm_MemoryAvail : Z; rm_DiskTotal : Z;
  rm_DiskUsed : Z; rm_NetworkRX : Z; rm_NetworkTX : Z; rm_Load1 : float; rm_Uptime : float;
  rm_CollectedAt : Z }.

Section Parse.

Context (ParseFloat_other : string -> option float) (out_of_range : float -> Z).

Definition ParseFloat (s : string) : option float :=
  if is_num s then ParseFloatLit s else ParseFloat_other s.

(** [uint64(f)] *)
Definition uint64_of_float (f : float) : Z :=
  match f with
  | S754_infinity _ | S754_nan => out_of_range f
  | _ => let t := int_of_float f in if (0 <=? t) && (t <? 2 ^ 64) then t else out_of_range f
  end.

(** The ten numbers; [now] is the time of parsing. *)
Definition parseMetricsOutput (output : string) (now : Z) : result string RawMetrics :=
  let lines := Fields output in
  reject! (length lines <? 10)%nat with "unsupported metrics response" in
  match mapM ParseFloat (take 10 lines) with
  | Some [v0; v1; v2; v3; v4; v5; v6; v7; v8; v9] =>
      let n := uint64_of_float in
      Ok (mkRawMetrics (n v0) (n v1) (u64 (n v2 * 1024)) (u64 (n v3 * 1024)) (u64 (n v4 * 1024))
            (u64 (n v5 * 1024)) (n v6) (n v7) v8 v9 now)
  | _ => Err "invalid metrics response"
  end.

(** [CollectMetrics]: whether there is a client, the error of a new session,
    and the output of the script or its error. *)
Definition CollectMetrics (client : bool) (new_session : option string) (output : result string string)
    (now : Z) : result string RawMetrics :=
  require! client else "SSH client is closed" in
  match new_session with
  | Some e => Err e
  | None => let! out := output in parseMetricsOutput out now
  end.

End Parse.

(** ** The stream *)

Record MetricsData : Type := mkMetricsData {
  md_CPUPercent : float; md_MemoryUsed : Z; md_MemoryTotal : Z; md_MemoryPercent : float;
  md_DiskUsed : Z; md_DiskTotal : Z; md_DiskPercent : float; md_NetworkRXBytes : Z;
  md_NetworkTXBytes : Z; md_NetworkRXPerSec : float; md_NetworkTXPerSec : float;
  md_Load1 : float; md_UptimeSeconds : float }.

Definition zero_float : float := S754_zero false.

(** [float64(part) * 100 / float64(whole)] *)
Definition percent (part whole : Z) : float := fdiv (fmul (float_of_Z part) (float_of_Z 100)) (float_of_Z whole).

(** The processor's time since the last sample: what of it was busy, and all of
    it; [None] when the counters cannot be compared. *)
Definition cpu_delta (previous current : RawMetrics) : option (Z * Z) :=
  let totalDelta := u64 (rm_CPUTotal current - rm_CPUTotal previous) in
  let idleDelta := u64 (rm_CPUIdle current - rm_CPUIdle previous) in
  if (0 <? totalDelta) && (idleDelta <=? totalDelta) then Some (u64 (totalDelta - idleDelta), totalDelta)
  else None.

(** The bytes of a network counter since the last sample. *)
Definition counter_delta (previous current : Z) : Z := u64 (current - previous).

Definition is_positive (f : float) : bool := SFltb zero_float f.

Definition used_memory (current : RawMetrics) : Z :=
  if 0 <? rm_MemoryTotal current then u64 (rm_MemoryTotal current - rm_MemoryAvail current) else 0.

(** What is sent for a sample; there is no previous one before the first. *)
Definition metrics_data (previous : option RawMetrics) (current : RawMetrics) : MetricsData :=
  let used := used_memory current in
  let cpu := match previous with
             | Some p => match cpu_delta p current with
                         | Some (busy, total) => percent busy total
                         | None => zero_float
                         end
             | None => zero_float
             end in
  let rate (counter : RawMetrics -> Z) :=
    match previous with
    | Some p => let seconds := Seconds (rm_CollectedAt current - rm_CollectedAt p) in
                if is_positive seconds
                then fdiv (float_of_Z (counter_delta (counter p) (counter current))) seconds
                else zero_float
    | None => zero_float
    end in
  mkMetricsData cpu used (rm_MemoryTotal current)
    (if 0 <? rm_MemoryTotal current then percent used (rm_MemoryTotal current) else zero_float)
    (rm_DiskUsed current) (rm_DiskTotal current)
    (if 0 <? rm_DiskTotal current then percent (rm_DiskUsed current) (rm_DiskTotal current) else zero_float)
    (rm_NetworkRX current) (rm_NetworkTX current) (rate rm_NetworkRX) (rate rm_NetworkTX)
    (rm_Load1 current) (rm_Uptime current).

(** [streamMetrics]: one collection per tick until the context is done; a failed
    one is skipped. *)
Fixpoint streamMetrics (previous : option RawMetrics) (ticks : list (result string RawMetrics))
    : list MetricsData :=
  match ticks with
  | [] => []
  | Err _ :: ticks => streamMetrics previous ticks
  | Ok current :: ticks => metrics_data previous current :: streamMetrics (Some current) ticks
  end.

(** ** The message

    [None] when a float has no JSON: the write fails then, and its error is
    ignored. *)

Definition enc_MetricsData (d : MetricsData) : option json :=
  cpu ← enc_float (md_CPUPercent d); mem ← enc_float (md_MemoryPercent d);
  disk ← enc_float (md_DiskPercent d); rx ← enc_float (md_NetworkRXPerSec d);
  tx ← enc_float (md_NetworkTXPerSec d); load ← enc_float (md_Load1 d); up ← enc_float (md_UptimeSeconds d);
  Some (JObj [("cpuPercent", cpu); ("memoryUsed", enc_int (md_MemoryUsed d));
    ("memoryTotal", enc_int (md_MemoryTotal d)); ("memoryPercent", mem); ("diskUsed", enc_int (md_DiskUsed d));
    ("diskTotal", enc_int (md_DiskTotal d)); ("diskPercent", disk); ("networkRxBytes", enc_int (md_NetworkRXBytes d));
    ("networkTxBytes", enc_int (md_NetworkTXBytes d)); ("networkRxPerSec", rx); ("networkTxPerSec", tx);
    ("load1", load); ("uptimeSeconds", up)]).

(** ** Lemmas: words *)

Lemma leading_space_word c s : no_space_byte c = true -> leading_space (String c s) = None.
Proof.
  intros Hc. destruct (leading_space (String c s)) as [r|] eqn:E; [|done]. exfalso.
  pose proof (leading_space_Some _ _ E) as [Hp Hl]. apply List.find_some in E as [Hin _].
  apply HasPrefix_spec in Hp as [t Ht]. destruct r as [|d r]; [cbn in Hl; lia|].
  cbn in Ht. injection Ht as -> _. apply (no_space_byte_rune d (String d r) Hc); [by apply list_elem_of_In|]. cbn. left.
Qed.

Definition is_word (w : string) : Prop := w <> "" /\ forallb no_space_byte (chars w) = true.

Lemma fields_from_word w word rest :
  forallb no_space_byte (chars w) = true ->
  fields_from word 0 (w +:+ rest) = fields_from (word +:+ w) 0 rest.
Proof.
  revert word; induction w as [|c w IH]; intros word H; [by rewrite str_app_nil_r|].
  apply andb_true_iff in H as [Hc H]. rewrite str_app_cons. cbn [fields_from].
  rewrite leading_space_word, IH by done. by rewrite str_app_assoc.
Qed.

(** A text of words, each followed by a space or a line break. *)
Definition separator (c : ascii) : Prop := c = " "%char \/ c = chr 10.
Definition words_text (l : list (string * ascii)) : string :=
  foldr (fun '(w, c) text => w +:+ String c text) "" l.

Lemma Fields_words l :
  Forall (fun '(w, c) => is_word w /\ separator c) l -> Fields (words_text l) = map fst l.
Proof.
  unfold Fields. induction 1 as [|[w c] l [[Hne Hw] Hc] _ IH]; [done|].
  change (words_text ((w, c) :: l)) with (w +:+ String c (words_text l)).
  rewrite fields_from_word by done. rewrite str_app_nil_l.
  assert (leading_space (String c (words_text l)) = Some (String c "")) as Hs
    by (destruct Hc as [->| ->]; reflexivity).
  cbn [fields_from]. rewrite Hs. unfold flush. apply String.eqb_neq in Hne. rewrite Hne.
  cbn [String.length Nat.sub app map fst]. f_equal. exact IH.
Qed.

(** ** Lemmas: integers as floats *)

(** A mantissa of 53 bits is not rounded. *)
Lemma binary_round_aux_exact p e :
  Zpos (digits2_pos p) = 53 -> -1074 <= e <= 971 ->
  binary_round_aux 53 1024 false (Zpos p) e loc_Exact = S754_finite false p e.
Proof.
  intros Hd He. unfold binary_round_aux, shr_fexp.
  assert (fexp 53 1024 (Zdigits2 (Zpos p) + e) - e = 0) as Hf.
  { cbn [Zdigits2]. rewrite Hd. unfold fexp, emin. lia. }
  cbn [shr_record_of_loc]. rewrite Hf. cbn [shr loc_of_shr_record round_nearest_even shr_m shr_record_of_loc].
  rewrite Hf. cbn [shr shr_m].
  assert ((e <=? 1024 - 53) = true) as -> by (apply Z.leb_le; lia). done.
Qed.

(** A positive integer below 2^53 is a float exactly. *)
Lemma float_of_Z_exact n :
  0 < n < 2 ^ 53 -> exists k p, 0 <= k /\ Zpos p = n * 2 ^ k /\ float_of_Z n = S754_finite false p (- k).
Proof.
  intros Hn. destruct n as [|n|n]; try lia. unfold float_of_Z, binary_normalize, binary_round.
  assert (Zpos (digits2_pos n) <= 53) as Hd.
  { rewrite digits2_log2. assert (Z.log2 (Zpos n) < 53) by (apply Z.log2_lt_pow2; lia). lia. }
  assert (fexp 53 1024 (Zpos (digits2_pos n) + 0) = Zpos (digits2_pos n) - 53) as ->
    by (unfold fexp, emin; lia).
  unfold shl_align. destruct (Zpos (digits2_pos n) - 53 - 0) as [|d|d] eqn:E; [|lia|].
  - exists 0, n. split_and!; [lia|lia|]. apply binary_round_aux_exact; lia.
  - exists (Zpos d), (Pos.iter xO n d). split_and!; [lia|apply iter_xO|].
    replace (- Zpos d) with (Zpos (digits2_pos n) - 53) by lia. apply binary_round_aux_exact; [|lia].
    rewrite digits2_log2, iter_xO, Z.log2_mul_pow2 by lia. rewrite digits2_log2 in E. lia.
Qed.

Lemma uint64_of_float_exact out_of_range n :
  0 <= n < 2 ^ 53 -> uint64_of_float out_of_range (float_of_Z n) = n.
Proof.
  intros Hn. destruct (decide (n = 0)) as [->|]; [reflexivity|].
  destruct (float_of_Z_exact n) as (k & p & Hk & Hp & ->); [lia|].
  unfold uint64_of_float, int_of_float, trunc_float.
  assert (Z.shiftl (Zpos p) (- k) = n) as ->.
  { rewrite Z.shiftl_opp_r, Z.shiftr_div_pow2, Hp by lia. apply Z.div_mul. lia. }
  assert ((0 <=? n) && (n <? 2 ^ 64) = true) as ->; [|done].
  apply andb_true_iff. split; [apply Z.leb_le|apply Z.ltb_lt]; lia.
Qed.

Lemma split_num_Itoa n : 0 <= n -> split_num (Itoa n) = (false, Itoa n, "", 0).
Proof.
  intros Hn. pose proof (Itoa_digits n Hn) as Hd. pose proof (Itoa_no_byte n "-"%char Hn eq_refl) as Hm.
  unfold split_num. destruct (Itoa n) as [|c s] eqn:E; [done|].
  cbn [IndexByte] in Hm. destruct (Ascii.eqb c "-"%char); [done|]. pose proof (span_digits_all (String c s) "" Hd I) as Hsp. rewrite str_app_nil_r in Hsp. by rewrite Hsp.
Qed.

(** A printed integer below 2^53 parses to the float of that integer. *)
Lemma ParseFloat_Itoa other n : 0 <= n < 2 ^ 53 -> ParseFloat other (Itoa n) = Some (float_of_Z n).
Proof.
  intros Hn. unfold ParseFloat. rewrite is_num_Itoa by (apply in_int64_spec; unfold int64_min, int64_max; lia).
  unfold ParseFloatLit. rewrite split_num_Itoa by lia. rewrite str_app_nil_r. cbn [len String.length Z.of_nat].
  assert (digits_val (strip_zeros (Itoa n)) 0 = Some n) as Hv.
  { rewrite digits_val_strip. unfold Itoa. destruct (n <? 0) eqn:E; bool_facts; [lia|].
    rewrite itoa_go_val; [done|]. cbn. lia. }
  assert (len (strip_zeros (Itoa n)) <= 20) as Hl.
  { etransitivity; [apply strip_zeros_length|]. unfold Itoa, len. destruct (n <? 0) eqn:E; bool_facts; [lia|].
    pose proof (itoa_go_length 20 n ""). cbn [String.length] in *. lia. }
  pose proof (len_nonneg (strip_zeros (Itoa n))) as Hl0.
  set (digits := strip_zeros (Itoa n)) in *.
  destruct (digits =?s "") eqn:Ed; bool_facts.
  { rewrite Ed in Hv. cbn in Hv. injection Hv as <-. reflexivity. }
  change (len "") with 0. destruct (310 <? _) eqn:E1; bool_facts; [lia|]. destruct (_ <? -330) eqn:E2; bool_facts; [lia|].
  rewrite Hv. cbn [default from_option id]. unfold decimal_float. change (0 <=? 0 - 0) with true. cbv iota.
  change (10 ^ (0 - 0)) with 1. rewrite Z.mul_1_r.
  destruct (decide (n = 0)) as [->|]; [reflexivity|].
  by destruct (float_of_Z_exact n) as (k & p & _ & _ & ->); [lia|].
Qed.

Lemma digit_no_space c : digit_of c <> None -> no_space_byte c = true.
Proof.
  intros Hc. assert (48 <= byte_of c <= 57) as Hb.
  { unfold digit_of in Hc. destruct (_ && _) eqn:E; [|done]. bool_facts. lia. }
  assert (forallb (fun r => forallb (fun d => (byte_of d <? 48) || (57 <? byte_of d)) (chars r)) space_runes = true)
    as Hall by (vm_compute; reflexivity).
  rewrite forallb_forall in Hall. apply forallb_forall. intros r Hr.
  apply negb_true_iff, not_true_iff_false. intros (d & Hd & ->%Ascii.eqb_eq)%existsb_exists.
  specialize (Hall r Hr). rewrite forallb_forall in Hall. specialize (Hall d Hd).
  apply orb_true_iff in Hall as [H|H]; bool_facts; lia.
Qed.

Lemma Itoa_word n : 0 <= n -> is_word (Itoa n).
Proof.
  intros Hn. pose proof (Itoa_digits n Hn) as Hd. split.
  - apply Itoa_nonempty.
  - revert Hd. induction (Itoa n) as [|c s IH]; intros Hd; [done|]. apply andb_true_iff. split.
    + apply digit_no_space, Hd. by rewrite ContainsByte_cons, Ascii.eqb_refl.
    + apply IH. intros d Hd'. apply Hd. by rewrite ContainsByte_cons, Hd', orb_true_r.
Qed.

(** ** Lemmas: the message *)

(** A sample of 64-bit counters and floats. *)
Definition raw_ok (m : RawMetrics) : Prop :=
  Forall (fun n => 0 <= n < 2 ^ 64) [rm_CPUTotal m; rm_CPUIdle m; rm_MemoryTotal m; rm_MemoryAvail m; rm_DiskTotal m;
                                      rm_DiskUsed m; rm_NetworkRX m; rm_NetworkTX m]
  /\ valid64 (rm_Load1 m) /\ valid64 (rm_Uptime m).

Record data_ok (d : MetricsData) : Prop := {
  dk_floats : Forall valid64 [md_CPUPercent d; md_MemoryPercent d; md_DiskPercent d; md_NetworkRXPerSec d;
                              md_NetworkTXPerSec d; md_Load1 d; md_UptimeSeconds d];
  dk_counts : Forall (fun n => 0 <= n < 2 ^ 64) [md_MemoryUsed d; md_MemoryTotal d; md_DiskUsed d; md_DiskTotal d;
                                                 md_NetworkRXBytes d; md_NetworkTXBytes d] }.

Lemma percent_valid part whole : valid64 (percent part whole).
Proof. unfold percent. apply fdiv_valid; [apply fmul_valid|]; apply float_of_Z_valid. Qed.

(** What is sent for samples of the machine's types is of the message's types. *)
Lemma metrics_data_ok previous current :
  raw_ok current -> data_ok (metrics_data previous current).
Proof.
  intros [Hn [Hl Hu]]. rewrite !Forall_cons in Hn. destruct Hn as (? & ? & ? & ? & ? & ? & ? & ? & _).
  constructor; unfold metrics_data; cbn [md_CPUPercent md_MemoryPercent md_DiskPercent md_NetworkRXPerSec
    md_NetworkTXPerSec md_Load1 md_UptimeSeconds md_MemoryUsed md_MemoryTotal md_DiskUsed md_DiskTotal
    md_NetworkRXBytes md_NetworkTXBytes]; repeat apply Forall_cons_2; try done; try apply Forall_nil_2.
  - destruct previous as [p|]; [|done]. destruct (cpu_delta p current) as [[busy total]|]; [apply percent_valid|done].
  - destruct (0 <? _); [apply percent_valid|done].
  - destruct (0 <? _); [apply percent_valid|done].
  - destruct previous as [p|]; [|done]. destruct (is_positive _); [|done].
    apply fdiv_valid; [apply float_of_Z_valid|apply Seconds_valid].
  - destruct previous as [p|]; [|done]. destruct (is_positive _); [|done].
    apply fdiv_valid; [apply float_of_Z_valid|apply Seconds_valid].
  - unfold used_memory. destruct (0 <? _); [apply Z.mod_pos_bound|]; lia.
Qed.

Lemma is_num_u64 z : 0 <= z < 2 ^ 64 -> is_num (Itoa z) = true.
Proof.
  intros Hz. unfold Itoa. destruct (z <? 0) eqn:E; bool_facts; [lia|].
  pose proof (is_num_number (itoa_go 20 z "") "" None false) as H. unfold number_text in H.
  cbn [String.eqb] in H. rewrite !str_app_nil_r, str_app_nil_l in H. apply H; [|apply all_digits_nil|done].
  destruct (decide (z = 0)) as [->|Hne]; [by left|right]. split; [apply itoa_go_digits, all_digits_nil|].
  destruct (itoa_go_head 20 z "") as (c & t & -> & _ & Hc); [change (Z.of_nat 20) with 20; lia|done].
Qed.

Lemma enc_MetricsData_clean d v : data_ok d -> enc_MetricsData d = Some v -> wire_clean v.
Proof.
  intros [Hf Hc] H. rewrite !Forall_cons in Hf. destruct Hf as (F1 & F2 & F3 & F4 & F5 & F6 & F7 & _).
  rewrite !Forall_cons in Hc. destruct Hc as (C1 & C2 & C3 & C4 & C5 & C6 & _). unfold enc_MetricsData in H.
  repeat (let E := fresh "E" in
          apply bind_Some in H as (? & E & H); apply enc_float_number in E as (? & -> & ?); [|done]).
  injection H as <-. apply wire_clean_obj. cbn [forallb]. unfold clean_member, enc_int. cbn [snd fst].
  rewrite !is_num_u64 by done. by repeat match goal with X : is_num _ = true |- _ => rewrite X; clear X end.
Qed.

(** ** Properties *)

(** What the script prints: pairs of numbers on a line for the processor, the
    memory, the disk and the network, and the load and the uptime. *)
Definition probe_text (total idle mem avail disk used rx tx : Z) (load uptime : string) : string :=
  let pair a b := [(Itoa a, " "%char); (Itoa b, chr 10)] in
  words_text (pair total idle ++ pair mem avail ++ pair disk used ++ pair rx tx
                ++ [(load, chr 10); (uptime, chr 10)]).

(** The script's output is read back exactly: counters below 2^53 lose
    nothing on their way through binary64, and the memory and disk sizes, which
    are printed in KiB, come out in bytes without wrapping around. *)
Theorem probe_roundtrip :
  forall other out_of_range total idle mem avail disk used rx tx load uptime l u now,
    Forall (fun n => 0 <= n < 2 ^ 53) [total; idle; mem; avail; disk; used; rx; tx] ->
    is_word load -> is_word uptime ->
    ParseFloat other load = Some l -> ParseFloat other uptime = Some u ->
    parseMetricsOutput other out_of_range (probe_text total idle mem avail disk used rx tx load uptime) now
    = Ok (mkRawMetrics total idle (1024 * mem) (1024 * avail) (1024 * disk) (1024 * used) rx tx l u now).
Proof.
  intros * HF Hwl Hwu Hl Hu. rewrite !Forall_cons in HF. destruct HF as (H0 & H1 & H2 & H3 & H4 & H5 & H6 & H7 & _).
  unfold parseMetricsOutput, probe_text. rewrite Fields_words.
  2:{ cbn [app]. unfold separator. repeat (constructor; [split; [first [done|apply Itoa_word; lia]|auto]|]). constructor. }
  cbn [app map fst length Nat.ltb Nat.leb take mapM option_bind option_ret mret mbind].
  cbn [mapM mbind option_bind option_ret mret]. unfold mapM.
  rewrite !ParseFloat_Itoa, Hl, Hu by done. cbn [mbind option_bind mret option_ret].
  rewrite !uint64_of_float_exact by done. unfold u64. rewrite !Z.mod_small by lia.
  do 2 f_equal; lia.
Qed.

Lemma probe_roundtrip_witness :
  parseMetricsOutput (fun _ => None) (fun _ => 0)
    (probe_text 9007199254740991 0 16384000 8192000 1 0 123456 7 "0.25" "1.5e3") 5
  = Ok (mkRawMetrics 9007199254740991 0 16777216000 8388608000 1024 0 123456 7
          (S754_finite false 4503599627370496 (-54)) (S754_finite false 6597069766656000 (-42)) 5).
Proof.
  apply (probe_roundtrip (fun _ => None) (fun _ => 0) 9007199254740991 0 16384000 8192000 1 0 123456 7 "0.25" "1.5e3").
  - repeat constructor; discriminate.
  - split; [discriminate|vm_compute; reflexivity].
  - split; [discriminate|vm_compute; reflexivity].
  - vm_compute. reflexivity.
  - vm_compute. reflexivity.
Defined.

(** The samples that were collected. *)
Definition collected (ticks : list (result string RawMetrics)) : list RawMetrics :=
  omap (fun r => match r with Ok m => Some m | Err _ => None end) ticks.

(** The previous sample of each. *)
Definition previous_of (first : option RawMetrics) (samples : list RawMetrics) : list (option RawMetrics) :=
  first :: map Some samples.

Lemma streamMetrics_pairs first ticks :
  streamMetrics first ticks = zip_with metrics_data (previous_of first (collected ticks)) (collected ticks).
Proof.
  revert first; induction ticks as [|[current|e] ticks IH]; intros first; cbn; [done| |by rewrite IH].
  f_equal. by rewrite IH.
Qed.

Definition is_u64 (z : Z) : Prop := 0 <= z < 2 ^ 64.

Lemma u64_sub a b : is_u64 a -> is_u64 b -> u64 (a - b) = if b <=? a then a - b else a - b + 2 ^ 64.
Proof.
  intros Ha Hb. unfold u64, is_u64 in *. destruct (b <=? a) eqn:E; bool_facts.
  - apply Z.mod_small. lia.
  - rewrite <- (Z_mod_plus_full (a - b) 1 (2 ^ 64)), Z.mod_small; lia.
Qed.

(** What the stream reports, and where its unsigned arithmetic wraps.  One
    message is sent per collected sample, computed from it and the collected
    sample before it.  The memory in use is at most the total unless more is
    available than there is, when it exceeds the total; a processor share is of
    a busy time within the total time, and exact while the counters grow; a
    counter that fell gives a difference above its value, of nearly 2^64 when it
    restarted. *)
Theorem stream_bounds :
  (forall ticks, streamMetrics None ticks
                 = zip_with metrics_data (previous_of None (collected ticks)) (collected ticks))
  /\ (forall m, is_u64 (rm_MemoryTotal m) -> is_u64 (rm_MemoryAvail m) -> 0 < rm_MemoryTotal m ->
        is_u64 (used_memory m)
        /\ (rm_MemoryAvail m <= rm_MemoryTotal m -> used_memory m = rm_MemoryTotal m - rm_MemoryAvail m)
        /\ (used_memory m <= rm_MemoryTotal m <-> rm_MemoryAvail m <= rm_MemoryTotal m))
  /\ (forall p c busy total, cpu_delta p c = Some (busy, total) ->
        0 <= busy <= total /\ 0 < total < 2 ^ 64
        /\ (Forall is_u64 [rm_CPUTotal p; rm_CPUTotal c; rm_CPUIdle p; rm_CPUIdle c] ->
            rm_CPUTotal p <= rm_CPUTotal c -> rm_CPUIdle p <= rm_CPUIdle c ->
            total = rm_CPUTotal c - rm_CPUTotal p /\ total - busy = rm_CPUIdle c - rm_CPUIdle p))
  /\ (forall p c, is_u64 p -> is_u64 c ->
        (p <= c -> counter_delta p c = c - p)
        /\ (c < p -> c < counter_delta p c /\ counter_delta p c = 2 ^ 64 - (p - c))).
Proof.
  split_and!.
  - intros ticks. apply streamMetrics_pairs.
  - intros m Ht Ha Hp. unfold used_memory. assert ((0 <? rm_MemoryTotal m) = true) as -> by (by apply Z.ltb_lt).
    rewrite u64_sub by done. unfold is_u64 in *. destruct (_ <=? _) eqn:E; bool_facts; split_and!; lia.
  - intros p c busy total H. unfold cpu_delta in H. destruct (_ && _) eqn:E; [|done]. injection H as <- <-.
    bool_facts. set (t := u64 (rm_CPUTotal c - rm_CPUTotal p)) in *. set (i := u64 (rm_CPUIdle c - rm_CPUIdle p)) in *.
    assert (is_u64 t /\ is_u64 i) as [Ht Hi] by (split; apply Z.mod_pos_bound; lia). unfold is_u64 in Ht, Hi.
    rewrite u64_sub by done. assert ((i <=? t) = true) as -> by (apply Z.leb_le; lia).
    split_and!; [lia..|]. rewrite !Forall_cons. intros (H1 & H2 & H3 & H4 & _) H5 H6. unfold t, i.
    rewrite !u64_sub by done. apply Z.leb_le in H5, H6. rewrite H5, H6. lia.
  - intros p c Hp Hc. unfold counter_delta. rewrite u64_sub by done. unfold is_u64 in *.
    destruct (p <=? c) eqn:E; bool_facts; split; lia.
Qed.

Definition sample_raw_metrics (total idle rx : Z) : RawMetrics :=
  mkRawMetrics total idle 4096 1024 10 5 rx 0 zero_float zero_float 0.

Lemma stream_bounds_witness :
  counter_delta 500 20 = 18446744073709551136 /\ used_memory (sample_raw_metrics 0 0 0) = 3072.
Proof.
  destruct stream_bounds as (_ & Hm & _ & Hc). split.
  - destruct (Hc 500 20) as [_ H]; [split; [discriminate|reflexivity]..|]. destruct H as [_ H]; [reflexivity|].
    rewrite H. reflexivity.
  - destruct (Hm (sample_raw_metrics 0 0 0)) as (_ & H & _);
      [split; [discriminate|reflexivity]..|reflexivity|]. rewrite H; [reflexivity|discriminate].
Defined.
