(* ===== verification/WsConcurrent.v ===== *)
(** * The goroutines of a terminal session (internal/ws/handler.go)

    After the connection, [run] starts goroutines: two copy the shell's output,
    one sends metrics, one waits for the shell and one reads the client's
    frames, while the handler's own goroutine waits for the end of either side
    and then takes everything down.  They share the WebSocket under [writeMu],
    the context, two channels of capacity one, and the field [sshSess] without
    a lock.

    The model is a small-step system: an event lets one goroutine take its next
    atomic step; what the world answers at that step (a read, a write that
    fails, the shell's end, a tick) is part of the event.  What a frame causes
    is [handle_frame] of WsHandler, what a sample sends is [metrics_data] of
    Metrics.  A panic in a goroutine ends the process: nothing moves after it.  A
    write to the shell's input is given whole or, where it fails, not at all. *)

From S2P Require Import Prelude Concurrency GoStrings GoTime Json JsonDecode WsProtocol SshClient WsHandler Metrics.

(** ** What is shared *)

Inductive Stream : Type := Stdout | Stderr.

Inductive Thread : Type := Handler | Copier (src : Stream) | MetricsLoop | Waiter | Reader.

#[global] Instance Stream_eq_dec : EqDecision Stream.
Proof. solve_decision. Defined.
#[global] Instance Thread_eq_dec : EqDecision Thread.
Proof. solve_decision. Defined.

(** One call of [WriteMessage] or [WriteJSON]. *)
Inductive Written : Type :=
| WJSON (v : json)
| WPong (sentAt : float)
| WMetrics (data : MetricsData)
| WOutput (src : Stream) (data : string).

(** The fields of [wsSession] and the handler's locals that the goroutines share.
    [wire] are the messages that went out, in order; [broken] is set by a failed
    write, after which gorilla/websocket fails every other; [typed] and [sizes]
    are what reached the shell; [released] counts how often the slot was given
    back. *)
Record Shared : Type := mkShared {
  writeMu : option Thread; wire : list Written; broken : bool; cancelled : bool;
  sess_set : bool; ssh_open : bool; sshDone : option ShellExit; wsDone : bool;
  connected_flag : bool; released : nat; conn_open : bool;
  typed : list string; sizes : list (Z * Z) }.

Definition set_writeMu m s := mkShared m (wire s) (broken s) (cancelled s) (sess_set s) (ssh_open s)
  (sshDone s) (wsDone s) (connected_flag s) (released s) (conn_open s) (typed s) (sizes s).
Definition add_wire f s := mkShared (writeMu s) (wire s ++ [f]) (broken s) (cancelled s) (sess_set s) (ssh_open s)
  (sshDone s) (wsDone s) (connected_flag s) (released s) (conn_open s) (typed s) (sizes s).
Definition set_broken s := mkShared (writeMu s) (wire s) true (cancelled s) (sess_set s) (ssh_open s)
  (sshDone s) (wsDone s) (connected_flag s) (released s) (conn_open s) (typed s) (sizes s).
Definition cancel s := mkShared (writeMu s) (wire s) (broken s) true (sess_set s) (ssh_open s)
  (sshDone s) (wsDone s) (connected_flag s) (released s) (conn_open s) (typed s) (sizes s).
Definition unset_sess s := mkShared (writeMu s) (wire s) (broken s) (cancelled s) false (ssh_open s)
  (sshDone s) (wsDone s) (connected_flag s) (released s) (conn_open s) (typed s) (sizes s).
Definition close_ssh s := mkShared (writeMu s) (wire s) (broken s) (cancelled s) (sess_set s) false
  (sshDone s) (wsDone s) (connected_flag s) (released s) (conn_open s) (typed s) (sizes s).
Definition set_sshDone d s := mkShared (writeMu s) (wire s) (broken s) (cancelled s) (sess_set s) (ssh_open s)
  d (wsDone s) (connected_flag s) (released s) (conn_open s) (typed s) (sizes s).
Definition set_wsDone d s := mkShared (writeMu s) (wire s) (broken s) (cancelled s) (sess_set s) (ssh_open s)
  (sshDone s) d (connected_flag s) (released s) (conn_open s) (typed s) (sizes s).
Definition swap_connected s := mkShared (writeMu s) (wire s) (broken s) (cancelled s) (sess_set s) (ssh_open s)
  (sshDone s) (wsDone s) false (if connected_flag s then S (released s) else released s) (conn_open s) (typed s) (sizes s).
Definition close_conn s := mkShared (writeMu s) (wire s) (broken s) (cancelled s) (sess_set s) (ssh_open s)
  (sshDone s) (wsDone s) (connected_flag s) (released s) false (typed s) (sizes s).
Definition add_typed t s := mkShared (writeMu s) (wire s) (broken s) (cancelled s) (sess_set s) (ssh_open s)
  (sshDone s) (wsDone s) (connected_flag s) (released s) (conn_open s) (typed s ++ [t]) (sizes s).
Definition add_size z s := mkShared (writeMu s) (wire s) (broken s) (cancelled s) (sess_set s) (ssh_open s)
  (sshDone s) (wsDone s) (connected_flag s) (released s) (conn_open s) (typed s) (sizes s ++ [z]).

(** After [handleConnect] succeeded. *)
Definition new_shared : Shared := mkShared None [] false false true true None false true 0 true [] [].

(** What the world answers at a step.  [Go] is a step that needs no answer. *)
Inductive Choice : Type :=
| Go
| Fails                                        (* a read or a write fails *)
| Returns (data : string) (failed : bool)      (* a read of output gives bytes, and maybe an error *)
| Receives (f : Frame)                         (* a frame of the client *)
| Exits (e : ShellExit)                        (* [Session.Wait] returns *)
| Tick                                         (* the metrics ticker fires *)
| Collects (r : result string RawMetrics)      (* [CollectMetrics] returns *)
| PickShell | PickClient.                      (* the branch of the handler's [select] *)

(** ** Writing a message: [writeJSON], and the locked part of [copyOutput] *)

(** One step of a write by [me]; [None] in the second component when it is over. *)
Definition write_step (me : Thread) (f : Written) (w : Writing) (c : Choice) (s : Shared)
    : option (Shared * option Writing) :=
  match w, c with
  | Locking, Go => match writeMu s with None => Some (set_writeMu (Some me) s, Some Sending) | Some _ => None end
  | Sending, Go => if broken s || negb (conn_open s) then None else Some (add_wire f s, Some Unlocking)
  | Sending, Fails => Some (set_broken s, Some Unlocking)
  | Unlocking, Go => Some (set_writeMu None s, None)
  | _, _ => None
  end.

(** ** [copyOutput] *)

Inductive CopyPc : Type :=
| CopyCheck                                    (* the select on the context *)
| CopyRead
| CopyWrite (w : Writing) (data : string) (failed : bool)
| CopyDone.

(** With the reads that gave bytes so far. *)
Record CopyState : Type := mkCopy { cp_pc : CopyPc; cp_read : list string }.

Definition copy_next (failed : bool) : CopyPc := if failed then CopyDone else CopyCheck.

Definition copy_step (src : Stream) (c : Choice) (s : Shared) (p : CopyState) : option (Shared * CopyState) :=
  let goto pc := mkCopy pc (cp_read p) in
  match cp_pc p, c with
  | CopyCheck, Go => Some (s, goto (if cancelled s then CopyDone else CopyRead))
  | CopyRead, Returns data failed =>
      if 16 * 1024 <? len data then None
      else if 0 <? len data then Some (s, mkCopy (CopyWrite Locking data failed) (cp_read p ++ [data]))
      else Some (s, goto (copy_next failed))
  | CopyWrite w data failed, _ =>
      '(s', w') ← write_step (Copier src) (WOutput src data) w c s;
      Some (s', goto (match w' with Some w' => CopyWrite w' data failed | None => copy_next failed end))
  | _, _ => None
  end.

(** ** [streamMetrics] *)

Inductive MetricsPc : Type :=
| MetSelect (previous : option RawMetrics)
| MetCollect (previous : option RawMetrics)
| MetWrite (w : Writing) (data : MetricsData) (previous : option RawMetrics)
| MetDone.

Definition metrics_step (c : Choice) (s : Shared) (p : MetricsPc) : option (Shared * MetricsPc) :=
  match p, c with
  | MetSelect _, Go => if cancelled s then Some (s, MetDone) else None
  | MetSelect prev, Tick => Some (s, MetCollect prev)
  | MetCollect prev, Collects (Err _) => Some (s, MetSelect prev)
  | MetCollect prev, Collects (Ok current) => Some (s, MetWrite Locking (metrics_data prev current) (Some current))
  | MetWrite w data prev, _ =>
      '(s', w') ← write_step MetricsLoop (WMetrics data) w c s;
      Some (s', match w' with Some w' => MetWrite w' data prev | None => MetSelect prev end)
  | _, _ => None
  end.

(** ** Waiting for the shell *)

Inductive WaitPc : Type :=
| WaitLoad                                     (* [s.sshSess.Session], in the goroutine *)
| WaitShell                                    (* [Wait] *)
| WaitSend (e : ShellExit)                     (* [sshDone <- err] *)
| WaitDone
| WaitPanic.                                   (* nil pointer dereference *)

Definition wait_step (c : Choice) (s : Shared) (p : WaitPc) : option (Shared * WaitPc) :=
  match p, c with
  | WaitLoad, Go => Some (s, if sess_set s then WaitShell else WaitPanic)
  | WaitShell, Exits e => Some (s, WaitSend e)
  | WaitSend e, Go => match sshDone s with None => Some (set_sshDone (Some e) s, WaitDone) | Some _ => None end
  | _, _ => None
  end.

(** ** The read loop

    An input loads [s.sshSess] three times: twice in the condition, once for the
    call. *)

Inductive ReadPc : Type :=
| RdFrame
| RdTestSess (input : string)                  (* [s.sshSess != nil] *)
| RdTestStdin (input : string)                 (* [s.sshSess.Stdin != nil] *)
| RdLoadStdin (input : string)                 (* [s.sshSess.Stdin] of the call *)
| RdStdin (input : string)                     (* [Write] *)
| RdResize (rows cols : Z)
| RdWrite (w : Writing) (f : Written) (go_on : bool)
| RdSend                                       (* [wsDone <- err] *)
| RdDone
| RdPanic.                                     (* nil pointer dereference *)

(** The first step after a frame, from what the frame causes. *)
Definition dispatch (es : list Effect) (go_on : bool) : option ReadPc :=
  match es with
  | [] => Some (if go_on then RdFrame else RdSend)
  | [SendJSON v] => Some (RdWrite Locking (WJSON v) go_on)
  | [SendPong sentAt] => Some (RdWrite Locking (WPong sentAt) go_on)
  | [StdinWrite input] => Some (RdTestSess input)
  | [WindowChange rows cols] => Some (RdResize rows cols)
  | _ => None
  end.

Definition read_step (c : Choice) (s : Shared) (p : ReadPc) : option (Shared * ReadPc) :=
  match p, c with
  | RdFrame, Receives f =>
      if conn_open s
      then let (es, go_on) := handle_frame (fun _ => true) f in
           p' ← dispatch es go_on; Some (s, p')
      else None
  | RdFrame, Fails => Some (s, RdSend)
  | RdTestSess input, Go => Some (s, if sess_set s then RdTestStdin input else RdFrame)
  | RdTestStdin input, Go => Some (s, if sess_set s then RdLoadStdin input else RdPanic)
  | RdLoadStdin input, Go => Some (s, if sess_set s then RdStdin input else RdPanic)
  | RdStdin input, Go => if ssh_open s then Some (add_typed input s, RdFrame) else None
  | RdStdin input, Fails => Some (s, RdSend)
  | RdResize rows cols, Go => Some (if sess_set s && ssh_open s then add_size (rows, cols) s else s, RdFrame)
  | RdWrite w f go_on, _ =>
      '(s', w') ← write_step Reader f w c s;
      Some (s', match w' with Some w' => RdWrite w' f go_on | None => if go_on : bool then RdFrame else RdSend end)
  | RdSend, Go => if wsDone s then None else Some (set_wsDone true s, RdDone)
  | _, _ => None
  end.

(** ** The handler's goroutine: the end of [run], then [cleanup] *)

Inductive HandlerPc : Type :=
| HSelect
| HClosed (w : Writing) (f : Written)          (* [sendClosed] *)
| HCancel
| HCloseSession                                (* [if s.sshSess != nil { s.sshSess.Close() }] *)
| HWait                                        (* [wg.Wait()] *)
| HSwap                                        (* [cleanup]: [connected.Swap(false)] *)
| HCloseAgain                                  (* [s.sshSess.Close()] *)
| HUnset                                       (* [s.sshSess = nil] *)
| HCloseConn
| HDone.

Definition closed_json (reason : string) (status : option Z) : json :=
  map_message "closed" (enc_ClosedData (mkClosedData reason status)).

(** [joined]: whether the three goroutines of the wait group are done. *)
Definition handler_step (joined : bool) (c : Choice) (s : Shared) (p : HandlerPc) : option (Shared * HandlerPc) :=
  match p, c with
  | HSelect, PickShell =>
      e ← sshDone s;
      Some (set_sshDone None s, HClosed Locking (WJSON (closed_json "ssh session closed" (exit_status e))))
  | HSelect, PickClient =>
      if wsDone s
      then Some (set_wsDone false s, HClosed Locking (WJSON (closed_json "client disconnected" None))) else None
  | HClosed w f, _ =>
      '(s', w') ← write_step Handler f w c s;
      Some (s', match w' with Some w' => HClosed w' f | None => HCancel end)
  | HCancel, Go => Some (cancel s, HCloseSession)
  | HCloseSession, Go => Some (if sess_set s then close_ssh s else s, HWait)
  | HWait, Go => if joined then Some (s, HSwap) else None
  | HSwap, Go => Some (swap_connected s, HCloseAgain)
  | HCloseAgain, Go => if sess_set s then Some (close_ssh s, HUnset) else Some (s, HCloseConn)
  | HUnset, Go => Some (unset_sess s, HCloseConn)
  | HCloseConn, Go => Some (close_conn s, HDone)
  | _, _ => None
  end.

(** ** The session *)

Record SessState : Type := mkSess {
  sh : Shared; handler : HandlerPc; out : CopyState; err : CopyState;
  met : MetricsPc; waiter : WaitPc; reader : ReadPc }.

Definition started : SessState :=
  mkSess new_shared HSelect (mkCopy CopyCheck []) (mkCopy CopyCheck []) (MetSelect None) WaitLoad RdFrame.

Definition is_done (p : CopyPc) : bool := match p with CopyDone => true | _ => false end.
Definition joined (r : SessState) : bool :=
  is_done (cp_pc (out r)) && is_done (cp_pc (err r)) && match met r with MetDone => true | _ => false end.

(** A panic in a goroutine. *)
Definition crashed (r : SessState) : bool :=
  match waiter r with WaitPanic => true | _ => match reader r with RdPanic => true | _ => false end end.

Definition step (e : Thread * Choice) (r : SessState) : option SessState :=
  let (t, c) := e in
  if crashed r then None
  else match t with
       | Handler => '(s, p) ← handler_step (joined r) c (sh r) (handler r);
                    Some (mkSess s p (out r) (err r) (met r) (waiter r) (reader r))
       | Copier Stdout => '(s, p) ← copy_step Stdout c (sh r) (out r);
                          Some (mkSess s (handler r) p (err r) (met r) (waiter r) (reader r))
       | Copier Stderr => '(s, p) ← copy_step Stderr c (sh r) (err r);
                          Some (mkSess s (handler r) (out r) p (met r) (waiter r) (reader r))
       | MetricsLoop => '(s, p) ← metrics_step c (sh r) (met r);
                        Some (mkSess s (handler r) (out r) (err r) p (waiter r) (reader r))
       | Waiter => '(s, p) ← wait_step c (sh r) (waiter r);
                   Some (mkSess s (handler r) (out r) (err r) (met r) p (reader r))
       | Reader => '(s, p) ← read_step c (sh r) (reader r);
                   Some (mkSess s (handler r) (out r) (err r) (met r) (waiter r) p)
       end.

(** A schedule: one event after the other. *)
Fixpoint run_events (es : list (Thread * Choice)) (r : SessState) : option SessState :=
  match es with
  | [] => Some r
  | e :: es => r' ← step e r; run_events es r'
  end.

Definition reachable (r : SessState) : Prop := exists es, run_events es started = Some r.

(** ** Lemmas: steps *)

(** A step of a write, by cases. *)
Inductive write_spec (me : Thread) (f : Written) (s : Shared) : Writing -> Shared -> option Writing -> Prop :=
| ws_lock : writeMu s = None -> write_spec me f s Locking (set_writeMu (Some me) s) (Some Sending)
| ws_send : broken s = false -> conn_open s = true ->
    write_spec me f s Sending (add_wire f s) (Some Unlocking)
| ws_fail : write_spec me f s Sending (set_broken s) (Some Unlocking)
| ws_unlock : write_spec me f s Unlocking (set_writeMu None s) None.

Lemma write_step_spec me f w c s s' w' :
  write_step me f w c s = Some (s', w') -> write_spec me f s w s' w'.
Proof.
  unfold write_step. intros H. repeat case_match; simplify_eq; try by constructor.
  bool_facts. by constructor.
Qed.

(** A frame starts a write before its lock, and neither ends nor crashes the
    loop by itself. *)
Lemma dispatch_start es go_on p :
  dispatch es go_on = Some p ->
  match p with RdWrite w _ _ => w = Locking | RdDone | RdPanic => False | _ => True end.
Proof. unfold dispatch. intros H. repeat case_match; by simplify_eq. Qed.

(** Split a step [X] of one goroutine into the cases of the code. *)
Ltac split_step X :=
  repeat match type of X with
         | None = Some _ => discriminate X
         | Some _ = Some _ => injection X as <- <-
         | write_step _ _ _ _ _ ≫= _ = Some _ =>
             let W := fresh "W" in
             apply bind_Some in X as ([? ?] & W & X); apply write_step_spec in W; destruct W
         | (?o ≫= _) = Some _ => destruct o eqn:?; cbn [mbind option_bind] in X
         | context [match ?y with _ => _ end] => destruct y eqn:?
         end.

(** Who is between [Lock] and [Unlock]. *)
Definition copy_holds (p : CopyState) : bool :=
  match cp_pc p with CopyWrite w _ _ => mid_write w | _ => false end.

Definition holds (r : SessState) (t : Thread) : bool :=
  match t with
  | Handler => match handler r with HClosed w _ => mid_write w | _ => false end
  | Copier Stdout => copy_holds (out r)
  | Copier Stderr => copy_holds (err r)
  | MetricsLoop => match met r with MetWrite w _ _ => mid_write w | _ => false end
  | Waiter => false
  | Reader => match reader r with RdWrite w _ _ => mid_write w | _ => false end
  end.

(** How far the handler is. *)
Definition phase (p : HandlerPc) : nat :=
  match p with
  | HSelect => 0 | HClosed _ _ => 1 | HCancel => 2 | HCloseSession => 3 | HWait => 4 | HSwap => 5
  | HCloseAgain => 6 | HUnset => 7 | HCloseConn => 8 | HDone => 9
  end.

(** The output of a stream that went out, and a chunk that was read but not yet
    sent. *)
Definition outputs (src : Stream) (fs : list Written) : list string :=
  omap (fun f => match f with WOutput src' d => if decide (src' = src) then Some d else None | _ => None end) fs.

Definition in_hand (p : CopyState) : list string :=
  match cp_pc p with CopyWrite w d _ => match w with Unlocking => [] | _ => [d] end | _ => [] end.

Record in_order (src : Stream) (s : Shared) (p : CopyState) : Prop := {
  io_prefix : outputs src (wire s) `prefix_of` cp_read p;
  io_sync : broken s = false -> outputs src (wire s) ++ in_hand p = cp_read p }.

(** The parts of the invariant: the lock is held by who is writing; *)
Definition lock_inv (r : SessState) : Prop := forall t, holds r t = true <-> writeMu (sh r) = Some t.

(** what the handler has taken down; *)
Record stage_inv (r : SessState) : Prop := {
  st_cancel : cancelled (sh r) = (3 <=? phase (handler r))%nat;
  st_ssh : ssh_open (sh r) = (phase (handler r) <=? 3)%nat;
  st_sess : sess_set (sh r) = (phase (handler r) <=? 7)%nat;
  st_conn : conn_open (sh r) = (phase (handler r) <=? 8)%nat;
  st_flag : connected_flag (sh r) = (phase (handler r) <=? 5)%nat;
  st_released : released (sh r) = (if phase (handler r) <=? 5 then 0 else 1)%nat;
  st_join : (5 <= phase (handler r))%nat -> joined r = true }.

(** the channels and the crash; *)
Record channel_inv (r : SessState) : Prop := {
  ch_ws : wsDone (sh r) = true -> reader r = RdDone;
  ch_ssh : is_Some (sshDone (sh r)) -> waiter r = WaitDone;
  ch_waited : handler r = HSelect -> waiter r = WaitDone -> is_Some (sshDone (sh r));
  ch_crash : crashed r = true -> (8 <= phase (handler r))%nat }.

(** and the output of both streams, which nobody else writes. *)
Definition quiet (f : Written) : Prop := match f with WOutput _ _ => False | _ => True end.

Record output_inv (r : SessState) : Prop := {
  oi_out : in_order Stdout (sh r) (out r);
  oi_err : in_order Stderr (sh r) (err r);
  oi_handler : forall w f, handler r = HClosed w f -> quiet f;
  oi_reader : forall w f go_on, reader r = RdWrite w f go_on -> quiet f }.

(** The cases of a step. *)
Ltac step_by_cases H :=
  match type of H with step ?ev ?r = Some _ =>
    destruct ev as [t c], r as [[mu wi br ca se ss sd wd cf re co ty si] h [opc ord] [epc erd] m w rd];
    cbn [step] in H; destruct (crashed _) eqn:Hcrash; [discriminate H|];
    destruct t as [|[]| | |]; apply bind_Some in H as ([s' p'] & H & [= <-]);
    cbn [sh handler out err met waiter reader] in *;
    [unfold handler_step in H|unfold copy_step in H|unfold copy_step in H|unfold metrics_step in H
    |unfold wait_step in H|unfold read_step in H];
    cbn [cp_pc cp_read writeMu wire broken cancelled sess_set ssh_open sshDone wsDone connected_flag released
         conn_open typed sizes] in H; split_step H
  end.

Lemma step_lock e r r' : lock_inv r -> step e r = Some r' -> lock_inv r'.
Proof.
  intros Hmu H. refine (lock_update (fst e) (holds r) (holds r') _ _ Hmu _ _); clear Hmu.
  - step_by_cases H; by intros [|[]| | |].
  - step_by_cases H; unfold copy_next in *; cbn in *; simplify_eq; auto;
      try match goal with X : dispatch _ _ = Some _ |- _ => apply dispatch_start in X end;
      unfold copy_holds; cbn in *; repeat case_match; simplify_eq; cbn; auto.
Qed.

Lemma step_stage e r r' : stage_inv r -> step e r = Some r' -> stage_inv r'.
Proof.
  intros [H1 H2 H3 H4 H5 H6 H7] H. step_by_cases H; unfold joined in *; cbn in *; subst; constructor; unfold joined; cbn in *;
    try done; try lia; try congruence; try (intros Hp; apply H7 in Hp; bool_facts; done);
    try (intros _; apply H7; lia);
    destruct ((phase h <=? 7)%nat && (phase h <=? 3)%nat); reflexivity.
Qed.

(** Only a load of [s.sshSess] after [cleanup] reset it crashes. *)
Lemma step_crash e r r' : stage_inv r -> step e r = Some r' -> crashed r' = true -> (8 <= phase (handler r'))%nat.
Proof.
  intros Hst H Hc. pose proof (st_sess _ Hst) as Hs. clear Hst.
  step_by_cases H; cbn in *; subst;
    try match goal with X : dispatch _ _ = Some _ |- _ => apply dispatch_start in X end;
    unfold crashed in *; cbn in *; repeat case_match; simplify_eq; try done;
    match goal with X : (_ <=? _)%nat = false |- _ => apply Nat.leb_gt in X; lia end.
Qed.

Lemma step_channel e r r' : stage_inv r -> channel_inv r -> step e r = Some r' -> channel_inv r'.
Proof.
  intros Hst [H1 H2 Hsel _] H. pose proof (step_crash _ _ _ Hst H) as Hc. pose proof (st_sess _ Hst) as Hs. clear Hst.
  cut ((wsDone (sh r') = true -> reader r' = RdDone) /\ (is_Some (sshDone (sh r')) -> waiter r' = WaitDone)
       /\ (handler r' = HSelect -> waiter r' = WaitDone -> is_Some (sshDone (sh r'))));
    [intros (? & ? & ?); by constructor|clear Hc].
  step_by_cases H; cbn in *; subst;
    try match goal with X : dispatch _ _ = Some _ |- _ => apply dispatch_start in X end;
    try (destruct ((phase h <=? 7)%nat && ss)); split_and!; cbn in *; try done; try congruence; intros Hp;
    first [by apply H1 in Hp|by apply H2 in Hp|by apply Hsel|by subst
      |repeat case_match; by simplify_eq].
Qed.

(** Only the copier of a stream puts output of that stream on the wire. *)
Lemma outputs_add src fs f :
  outputs src (fs ++ [f]) = outputs src fs ++ match f with
                                              | WOutput src' d => if decide (src' = src) then [d] else []
                                              | _ => []
                                              end.
Proof. unfold outputs. rewrite omap_app. f_equal. destruct f; try done. cbn. by destruct (decide _). Qed.

Lemma outputs_quiet src fs f : quiet f -> outputs src (fs ++ [f]) = outputs src fs.
Proof. intros Hq. rewrite outputs_add. destruct f; try done; apply app_nil_r. Qed.

Lemma dispatch_quiet es go_on w f go_on' : dispatch es go_on = Some (RdWrite w f go_on') -> quiet f.
Proof. unfold dispatch. intros H. repeat case_match; by simplify_eq. Qed.

Lemma step_quiet e r r' : output_inv r -> step e r = Some r' ->
  (forall w f, handler r' = HClosed w f -> quiet f)
  /\ (forall w f go_on, reader r' = RdWrite w f go_on -> quiet f).
Proof.
  intros [_ _ H3 H4] H. step_by_cases H; cbn in *; split; intros; subst; simplify_eq; try done; eauto.
  all: repeat case_match; simplify_eq; eauto using dispatch_quiet.
Qed.

Lemma prefix_sync {A} (l k m : list A) : l ++ k = m -> l `prefix_of` m.
Proof. intros <-. by apply prefix_app_r. Qed.

Lemma step_output e r r' : output_inv r -> step e r = Some r' -> output_inv r'.
Proof.
  intros Hi H. destruct (step_quiet _ _ _ Hi H) as [Hq1 Hq2]. destruct Hi as [[H1 H2] [H3 H4] H5 H6].
  constructor; [| |exact Hq1|exact Hq2]; clear Hq1 Hq2.
  all: step_by_cases H; unfold in_hand, copy_next in *; cbn -[outputs] in *.
  all: constructor; unfold in_hand; cbn -[outputs] in *; try done;
    repeat match goal with |- context [if ?b then _ else _] => destruct b end; cbn -[outputs]; try done;
    rewrite ?outputs_quiet by eauto; try done; rewrite ?outputs_add; cbn -[outputs]; rewrite ?app_nil_r in *; try done.
  all: try (by apply prefix_app_r); try (by eapply prefix_sync, H2); try (by eapply prefix_sync, H4).
  all: try (intros Hb; by rewrite ?H2, ?H4).
  all: destruct (decide _); [|done]; by rewrite ?H2, ?H4.
Qed.

(** Closing messages: the handler sends one, and nobody else does. *)
Definition is_closed (f : Written) : bool :=
  match f with WJSON (JObj [_; (_, JStr typ)]) => typ =?s "closed" | _ => false end.

Definition closed_count (fs : list Written) : nat := length (List.filter is_closed fs).

Definition closed_due (p : HandlerPc) : nat :=
  match p with HSelect | HClosed Locking _ | HClosed Sending _ => 0 | _ => 1 end.

Record closed_inv (r : SessState) : Prop := {
  cl_handler : forall w f, handler r = HClosed w f -> is_closed f = true;
  cl_reader : forall w f go_on, reader r = RdWrite w f go_on -> is_closed f = false;
  cl_max : (closed_count (wire (sh r)) <= closed_due (handler r))%nat;
  cl_sent : broken (sh r) = false -> closed_count (wire (sh r)) = closed_due (handler r) }.

Lemma closed_count_add fs f : closed_count (fs ++ [f]) = (closed_count fs + if is_closed f then 1 else 0)%nat.
Proof. unfold closed_count. rewrite List.filter_app, length_app. cbn. by destruct (is_closed f). Qed.

Lemma frame_json_error stdin_ok f v es go_on :
  handle_frame stdin_ok f = (es, go_on) -> SendJSON v ∈ es -> is_closed (WJSON v) = false.
Proof.
  unfold handle_frame. intros H Hin. repeat case_match; simplify_eq; in_list Hin; try discriminate Hin;
    by injection Hin as ->.
Qed.

Lemma dispatch_not_closed f es go_on w fr go_on' :
  handle_frame (fun _ => true) f = (es, go_on) -> dispatch es go_on = Some (RdWrite w fr go_on') ->
  is_closed fr = false.
Proof.
  intros Hf H. unfold dispatch in H. repeat case_match; simplify_eq; try done.
  eapply frame_json_error; [exact Hf|by constructor].
Qed.

Lemma step_closed e r r' : closed_inv r -> step e r = Some r' -> closed_inv r'.
Proof.
  intros [H1 H2 H3 H4] H.
  step_by_cases H; constructor; cbn -[closed_count] in *; intros; subst; simplify_eq; try done; eauto.
  all: repeat match goal with |- context [if ?b then _ else _] => destruct b end; cbn -[closed_count] in *; try done.
  all: try (rewrite closed_count_add); try (erewrite H1 by done); try (erewrite H2 by done); cbn [is_closed].
  all: try (rewrite H4 by done); try lia; eauto using dispatch_not_closed.
  all: repeat case_match; by simplify_eq.
Qed.

(** What holds at every moment of a session. *)
Record Inv (r : SessState) : Prop := {
  inv_lock : lock_inv r;
  inv_stage : stage_inv r;
  inv_channel : channel_inv r;
  inv_output : output_inv r;
  inv_closed : closed_inv r }.

Lemma started_inv : Inv started.
Proof.
  constructor; [by intros [|[]| | |]|..]; constructor; cbn; try done; try lia.
Qed.

Lemma session_step_inv e r r' : Inv r -> step e r = Some r' -> Inv r'.
Proof.
  intros [H1 H2 H3 H4 H5] H.
  constructor; eauto using step_lock, step_stage, step_channel, step_output, step_closed.
Qed.

Lemma run_events_inv es r r' : Inv r -> run_events es r = Some r' -> Inv r'.
Proof.
  revert r; induction es as [|e es IH]; intros r Hi H; cbn [run_events] in H; [by simplify_eq|].
  destruct (step e r) as [r1|] eqn:E; [|done]. cbn in H. eauto using session_step_inv.
Qed.

Lemma session_inv r : reachable r -> Inv r.
Proof. intros [es H]. by eapply run_events_inv, H; apply started_inv. Qed.

Lemma run_events_app es es' r :
  run_events (es ++ es') r = run_events es r ≫= run_events es'.
Proof.
  revert r; induction es as [|e es IH]; intros r; cbn [app run_events]; [done|].
  by destruct (step e r); cbn.
Qed.

Lemma reachable_run es r r' : reachable r -> run_events es r = Some r' -> reachable r'.
Proof. intros [es0 H0] H. exists (es0 ++ es). by rewrite run_events_app, H0. Qed.
