(* ===== verification/WsTeardown.v ===== *)
(** * What the goroutines of a terminal session guarantee

    The properties of the concurrent session of WsConcurrent: messages are
    written by one goroutine at a time, output stays in order, everything is
    taken down, the session can always come to its end; and two things that can
    go wrong, the loss of the shell's last output and a nil dereference that
    ends the whole server. *)

From S2P Require Import Prelude Concurrency GoStrings Json JsonDecode WsProtocol WsHandler Metrics WsConcurrent.

(** ** Lemmas: coming to the end

    From any moment, the lock can be freed, the copiers and the metrics loop can
    finish, and the handler can get through, by a schedule in which only reads
    and writes fail. *)

Definition calm (r : SessState) : Prop := crashed r = false /\ writeMu (sh r) = None.

(** [r'] is reached from [r] by some schedule. *)
Definition leads (r r' : SessState) : Prop := exists es, run_events es r = Some r'.

Lemma leads_refl r : leads r r.
Proof. by exists []. Qed.

Lemma leads_trans r r1 r2 : leads r r1 -> leads r1 r2 -> leads r r2.
Proof. intros [es1 H1] [es2 H2]. exists (es1 ++ es2). by rewrite run_events_app, H1. Qed.

Lemma leads_inv r r' : leads r r' -> Inv r -> Inv r'.
Proof. intros [es H] Hi. by eapply run_events_inv. Qed.

(** A goroutine that runs alone. *)
Fixpoint alone {P} (stp : Choice -> Shared -> P -> option (Shared * P)) (cs : list Choice) (s : Shared) (p : P)
    : option (Shared * P) :=
  match cs with
  | [] => Some (s, p)
  | c :: cs => '(s, p) ← stp c s p; alone stp cs s p
  end.

(** The lock is free at the end of such a run, and [good] holds of where it is. *)
Definition runs_to {P} (stp : Choice -> Shared -> P -> option (Shared * P)) (s : Shared) (p : P)
    (good : Shared -> P -> Prop) : Prop :=
  exists cs s' p', alone stp cs s p = Some (s', p') /\ writeMu s' = None /\ good s' p'.

(** Schedules of a write, from each of its points on, and of what follows it. *)
Definition write_schedules (tails : list (list Choice)) : list (list Choice) :=
  tails ++ flat_map (fun w => map (app w) tails) [[Go; Fails; Go]; [Fails; Go]; [Go]].

(** Try schedules one after the other. *)
Ltac try_alone css :=
  match css with
  | ?cs :: ?css => first [exists cs; eexists _, _; split; [reflexivity|cbn; by split_and!] | try_alone css]
  end.
Ltac some_schedule css := let css := eval compute in css in try_alone css.

Lemma copier_ends src s p :
  (copy_holds p = false -> writeMu s = None) ->
  runs_to (copy_step src) s p (fun _ p' => is_done (cp_pc p') = true).
Proof.
  intros Hmu. destruct s as [mu wi br ca se ss sd wd cf re co ty si], p as [pc l]. cbn in *.
  destruct pc as [| |[] d []|], ca; cbn in Hmu; try (specialize (Hmu eq_refl); subst mu).
  all: some_schedule (write_schedules [[]; [Go]; [Returns "" true]; [Go; Returns "" true]]).
Qed.

Lemma metrics_ends s p :
  cancelled s = true -> (match p with MetWrite w _ _ => mid_write w = false | _ => True end -> writeMu s = None) ->
  runs_to metrics_step s p (fun _ p' => p' = MetDone).
Proof.
  intros Hca Hmu. destruct s as [mu wi br ca se ss sd wd cf re co ty si]. cbn in *. subst ca.
  destruct p as [| |[] d p|]; cbn in Hmu; try (specialize (Hmu I); subst mu); try (specialize (Hmu eq_refl); subst mu).
  all: some_schedule (write_schedules [[]; [Go]; [Collects (Err ""); Go]]).
Qed.

(** The handler, once it may leave its [select], up to waiting for the others. *)
Lemma handler_waits b s p :
  (p = HSelect -> is_Some (sshDone s)) -> (phase p <= 4)%nat -> sess_set s = true ->
  (match p with HClosed w _ => mid_write w = false | _ => True end -> writeMu s = None) ->
  runs_to (handler_step b) s p (fun _ p' => p' = HWait).
Proof.
  intros Hsel Hp Hse Hmu. destruct s as [mu wi br ca se ss sd wd cf re co ty si]. cbn in *. subst se.
  destruct p as [|[] f| | | | | | | |]; cbn in Hp; try lia; cbn in Hmu; try (specialize (Hmu I); subst mu);
    try (specialize (Hmu eq_refl); subst mu).
  1: destruct (Hsel eq_refl) as [e ->].
  all: some_schedule (write_schedules [[]; [Go]; [Go; Go]] ++ [[PickShell; Go; Fails; Go; Go; Go]]).
Qed.

(** Its last steps. *)
Lemma handler_ends s p :
  (4 <= phase p)%nat -> writeMu s = None -> sess_set s = (phase p <=? 7)%nat ->
  runs_to (handler_step true) s p (fun _ p' => p' = HDone).
Proof.
  intros Hp Hmu Hse. destruct s as [mu wi br ca se ss sd wd cf re co ty si]. cbn in *. subst mu.
  destruct p; cbn in Hp, Hse; try lia; subst se.
  all: some_schedule (map (fun n => replicate n Go) (seq 0 6)).
Qed.

(** A goroutine in the middle of a write gives the lock back. *)
Lemma handler_frees b s p :
  match p with HClosed w _ => mid_write w | _ => false end = true -> runs_to (handler_step b) s p (fun _ _ => True).
Proof. intros Hm. destruct p as [|[] f| | | | | | | |]; try done; some_schedule [[Go]; [Fails; Go]]. Qed.

Lemma metrics_frees s p :
  match p with MetWrite w _ _ => mid_write w | _ => false end = true -> runs_to metrics_step s p (fun _ _ => True).
Proof. intros Hm. destruct p as [| |[] d p|]; try done; some_schedule [[Go]; [Fails; Go]]. Qed.

Lemma reader_frees s p :
  match p with RdWrite w _ _ => mid_write w | _ => false end = true ->
  runs_to read_step s p (fun _ p' => p' <> RdPanic).
Proof. intros Hm. destruct p as [| | | | | |[] f []| | |]; try done; some_schedule [[Go]; [Fails; Go]]. Qed.

Lemma waiter_ends s p :
  sshDone s = None -> sess_set s = true -> p <> WaitDone -> p <> WaitPanic -> writeMu s = None ->
  runs_to wait_step s p (fun s' p' => is_Some (sshDone s') /\ p' = WaitDone).
Proof.
  intros Hd Hse Hp Hp' Hmu. destruct s as [mu wi br ca se ss sd wd cf re co ty si]. cbn in *. subst mu sd se.
  destruct p; try done; some_schedule [[Go]; [Exits ExitOk; Go]; [Go; Exits ExitOk; Go]].
Qed.

(** ** Lemmas: the whole session *)

(** A goroutine that runs alone is a schedule of the session: [get] and [put]
    are its place in the state, [live] lets it step. *)
Lemma lead_alone {P} t (stp : Choice -> Shared -> P -> option (Shared * P)) (live : SessState -> Prop)
    (get : SessState -> P) (put : Shared -> P -> SessState -> SessState) :
  (forall r, put (sh r) (get r) r = r) ->
  (forall s p r, sh (put s p r) = s /\ get (put s p r) = p) ->
  (forall s p s' p' r, put s' p' (put s p r) = put s' p' r) ->
  (forall c s p r, live r -> stp c (sh r) (get r) = Some (s, p) -> step (t, c) r = Some (put s p r)) ->
  (forall c s p r, live r -> is_Some (stp c s p) -> live (put s p r)) ->
  forall good r, live r -> runs_to stp (sh r) (get r) good ->
  exists s p, leads r (put s p r) /\ writeMu s = None /\ good s p.
Proof.
  intros Hid Hget Hput Hstep Hlive good r Hr (cs & s' & p' & Ha & Hmu & Hg).
  exists s', p'. split; [|done]. clear Hmu Hg. revert r Hr Ha; induction cs as [|c cs IH]; intros r Hr Ha; cbn [alone] in Ha.
  - simplify_eq. rewrite Hid. apply leads_refl.
  - apply bind_Some in Ha as ([s p] & Hs & Ha). destruct (Hget s p r) as [H1 H2].
    assert (exists es, run_events es (put s p r) = Some (put s' p' r)) as [es He].
    { destruct cs as [|c' cs]; [cbn in Ha; simplify_eq; by exists []|]. rewrite <- (Hput s p s' p' r). apply IH.
      - apply (Hlive c'); [done|]. cbn [alone] in Ha. by destruct (stp c' s p); [|].
      - by rewrite H1, H2. }
    exists ((t, c) :: es). cbn [run_events]. rewrite (Hstep _ _ _ _ Hr Hs). exact He.
Qed.

Definition put_handler s p r := mkSess s p (out r) (err r) (met r) (waiter r) (reader r).
Definition put_out s p r := mkSess s (handler r) p (err r) (met r) (waiter r) (reader r).
Definition put_err s p r := mkSess s (handler r) (out r) p (met r) (waiter r) (reader r).
Definition put_met s p r := mkSess s (handler r) (out r) (err r) p (waiter r) (reader r).
Definition put_waiter s p r := mkSess s (handler r) (out r) (err r) (met r) p (reader r).

Definition put_reader s p r := mkSess s (handler r) (out r) (err r) (met r) (waiter r) p.

Lemma crashed_put_waiter s p r : crashed r = false -> p <> WaitPanic -> crashed (put_waiter s p r) = false.
Proof. unfold crashed, put_waiter. cbn. destruct (waiter r), (reader r), p; done. Qed.

Lemma crashed_put_reader s p r : crashed r = false -> p <> RdPanic -> crashed (put_reader s p r) = false.
Proof. unfold crashed, put_reader. cbn. destruct (waiter r), (reader r), p; done. Qed.

(** The proof for one goroutine. *)
Ltac lead_by t stp get put :=
  apply (lead_alone t stp (fun r => crashed r = false) get put); try done; [by intros []|];
  intros c s p r0 Hl Hs; cbn; by rewrite Hl, Hs.

Lemma lead_out good r : crashed r = false -> runs_to (copy_step Stdout) (sh r) (out r) good ->
  exists s p, leads r (put_out s p r) /\ writeMu s = None /\ good s p.
Proof. lead_by (Copier Stdout) (copy_step Stdout) out put_out. Qed.

Lemma lead_err good r : crashed r = false -> runs_to (copy_step Stderr) (sh r) (err r) good ->
  exists s p, leads r (put_err s p r) /\ writeMu s = None /\ good s p.
Proof. lead_by (Copier Stderr) (copy_step Stderr) err put_err. Qed.

Lemma lead_met good r : crashed r = false -> runs_to metrics_step (sh r) (met r) good ->
  exists s p, leads r (put_met s p r) /\ writeMu s = None /\ good s p.
Proof. lead_by MetricsLoop metrics_step met put_met. Qed.

Lemma lead_waiter good r : crashed r = false -> runs_to wait_step (sh r) (waiter r) good ->
  exists s p, leads r (put_waiter s p r) /\ writeMu s = None /\ good s p.
Proof.
  apply (lead_alone Waiter wait_step (fun r => crashed r = false) waiter put_waiter); try done; [by intros []| |].
  - intros c s p r0 Hl Hs. cbn. by rewrite Hl, Hs.
  - intros c s p r0 Hl [x Hs]. apply crashed_put_waiter; [done|]. by destruct p.
Qed.

Lemma lead_handler good r : crashed r = false -> runs_to (handler_step (joined r)) (sh r) (handler r) good ->
  exists s p, leads r (put_handler s p r) /\ writeMu s = None /\ good s p.
Proof.
  intros Hcr. apply (lead_alone Handler (handler_step (joined r)) (fun r' => crashed r' = false /\ joined r' = joined r)
    handler put_handler); try done; [by intros []|].
  intros c s p r0 [Hl Hj] Hs. cbn. by rewrite Hl, Hj, Hs.
Qed.

Lemma lead_reader good r : crashed r = false -> runs_to read_step (sh r) (reader r) good ->
  exists s p, leads r (put_reader s p r) /\ writeMu s = None /\ good s p.
Proof.
  apply (lead_alone Reader read_step (fun r => crashed r = false) reader put_reader); try done; [by intros []| |].
  - intros c s p r0 Hl Hs. cbn. by rewrite Hl, Hs.
  - intros c s p r0 Hl [x Hs]. apply crashed_put_reader; [done|]. by destruct p.
Qed.

(** The lock can be freed. *)
Lemma free_lock r : Inv r -> crashed r = false -> exists r', leads r r' /\ calm r'.
Proof.
  intros Hi Hcr. destruct (writeMu (sh r)) as [t|] eqn:Hmu; [|by exists r; split; [apply leads_refl|]].
  pose proof (proj2 (inv_lock r Hi t) Hmu) as Hh. destruct t as [|[]| | |]; cbn [holds] in Hh; [..|done|].
  - apply (handler_frees (joined r) (sh r)) in Hh. apply lead_handler in Hh as (s & p & ? & ? & _); [by eexists|done].
  - destruct (lead_out _ r Hcr (copier_ends Stdout (sh r) (out r) ltac:(by rewrite Hh))) as (s & p & ? & ? & _). by eexists.
  - destruct (lead_err _ r Hcr (copier_ends Stderr (sh r) (err r) ltac:(by rewrite Hh))) as (s & p & ? & ? & _). by eexists.
  - apply (metrics_frees (sh r)) in Hh. apply lead_met in Hh as (s & p & ? & ? & _); [by eexists|done].
  - apply (reader_frees (sh r)) in Hh. apply lead_reader in Hh as (s & p & ? & ? & Hp); [|done].
    eexists. split; [done|]. split; [|done]. by apply crashed_put_reader.
Qed.

(** The handler gets to waiting for the others. *)
Lemma reach_wait r :
  Inv r -> calm r -> (phase (handler r) <= 4)%nat -> exists r', leads r r' /\ calm r' /\ handler r' = HWait.
Proof.
  intros Hi [Hcr Hmu] Hp.
  assert (exists r', leads r r' /\ calm r' /\ handler r' = handler r
    /\ (handler r = HSelect -> is_Some (sshDone (sh r')))) as (r1 & L1 & [Hcr1 Hmu1] & Hh & Hsel).
  { destruct (sshDone (sh r)) as [e|] eqn:Ed; [exists r; split_and!; try done; apply leads_refl|].
    assert (handler r = HSelect \/ handler r <> HSelect) as [Hs|Hs] by (destruct (handler r); (by left) || by right);
      [|exists r; split_and!; try done; apply leads_refl].
    destruct (lead_waiter _ r Hcr (waiter_ends (sh r) (waiter r) Ed
      ltac:(by rewrite (st_sess _ (inv_stage _ Hi)), Hs)
      (fun Hw => ltac:(destruct (ch_waited r (inv_channel r Hi) Hs Hw); congruence))
      (fun Hw => ltac:(unfold crashed in Hcr; by rewrite Hw in Hcr)) Hmu)) as (s & p & L & Hmu' & Hd & Hp').
    eexists. split; [exact L|]. split; [split; [|done]|by split].
    apply crashed_put_waiter; [done|]. by rewrite Hp'. }
  pose proof (leads_inv _ _ L1 Hi) as Hi1. pose proof (st_sess _ (inv_stage _ Hi1)) as Hse. rewrite <- Hh in *.
  destruct (lead_handler _ r1 Hcr1 (handler_waits (joined r1) (sh r1) (handler r1) Hsel Hp
    ltac:(rewrite Hse; apply Nat.leb_le; lia) (fun _ => Hmu1))) as (s & p & L2 & ? & Hg).
  eexists. split; [by eapply leads_trans|]. by split.
Qed.

(** The goroutines that are waited for end once the context is cancelled. *)
Lemma reach_joined r :
  Inv r -> calm r -> handler r = HWait ->
  exists r', leads r r' /\ calm r' /\ handler r' = HWait /\ joined r' = true.
Proof.
  intros Hi [Hcr Hmu] Hh.
  destruct (lead_out _ r Hcr (copier_ends Stdout (sh r) (out r) (fun _ => Hmu))) as (s1 & p1 & L1 & Hmu1 & G1).
  set (r1 := put_out s1 p1 r) in *.
  destruct (lead_err _ r1 Hcr (copier_ends Stderr s1 (err r1) (fun _ => Hmu1))) as (s2 & p2 & L2 & Hmu2 & G2).
  set (r2 := put_err s2 p2 r1) in *. assert (leads r r2) as L12 by (by eapply leads_trans).
  pose proof (st_cancel _ (inv_stage _ (leads_inv _ _ L12 Hi))) as Hca. cbn in Hca. rewrite Hh in Hca.
  destruct (lead_met _ r2 Hcr (metrics_ends s2 (met r2) Hca (fun _ => Hmu2))) as (s3 & p3 & L3 & Hmu3 & G3).
  exists (put_met s3 p3 r2). split; [by eapply leads_trans|]. split; [by split|]. split; [done|].
  unfold joined. cbn. by rewrite G1, G2, G3.
Qed.

Lemma reach_done r : Inv r -> crashed r = false -> exists r', leads r r' /\ crashed r' = false /\ handler r' = HDone.
Proof.
  intros Hi Hcr. destruct (free_lock r Hi Hcr) as (r1 & L1 & C1). pose proof (leads_inv _ _ L1 Hi) as Hi1.
  assert (exists r', leads r1 r' /\ calm r' /\ (4 <= phase (handler r'))%nat /\ joined r' = true) as (r2 & L2 & [Hcr2 Hmu2] & Hp & Hj).
  { destruct (Nat.le_gt_cases (phase (handler r1)) 4) as [Hp|Hp].
    - destruct (reach_wait r1 Hi1 C1 Hp) as (r2 & L2 & C2 & Hh2). pose proof (leads_inv _ _ L2 Hi1) as Hi2.
      destruct (reach_joined r2 Hi2 C2 Hh2) as (r3 & L3 & C3 & Hh3 & Hj). exists r3.
      split_and!; [by eapply leads_trans|done|by rewrite Hh3|done].
    - exists r1. split_and!; [apply leads_refl|done|lia|]. apply (st_join _ (inv_stage _ Hi1)). lia. }
  pose proof (leads_inv _ _ L2 Hi1) as Hi2.
  pose proof (handler_ends (sh r2) (handler r2) Hp Hmu2 (st_sess _ (inv_stage _ Hi2))) as Hrun. rewrite <- Hj in Hrun.
  destruct (lead_handler _ r2 Hcr2 Hrun) as (s & p & L3 & _ & Hg). exists (put_handler s p r2).
  split_and!; [|done|done]. eapply leads_trans; [done|]. by eapply leads_trans.
Qed.

(** ** Properties *)

(** C7.  One writer at a time: at every moment of a session, whatever the schedule
    and whatever the world answers, at most one goroutine is between [Lock] and
    [Unlock] of [writeMu], so that no two calls of the WebSocket's write methods
    ever overlap, and the lock is held exactly then. *)
Theorem session_one_writer :
  forall r, reachable r ->
    (forall t t', holds r t = true -> holds r t' = true -> t = t')
    /\ (writeMu (sh r) = None <-> forall t, holds r t = false).
Proof.
  intros r Hr. pose proof (inv_lock _ (session_inv r Hr)) as Hl. split.
  - intros t t' H H'. apply Hl in H, H'. congruence.
  - split.
    + intros Hn t. destruct (holds r t) eqn:E; [|done]. apply Hl in E. congruence.
    + intros Hn. destruct (writeMu (sh r)) as [t|] eqn:E; [|done]. apply Hl in E. by rewrite Hn in E.
Qed.

(** A schedule for the witnesses: the shell prints, the client types, the shell
    ends and the session is taken down. *)
Definition sample_schedule : list (Thread * Choice) :=
  [(Copier Stdout, Go); (Copier Stdout, Returns "login: " false); (Copier Stdout, Go); (Copier Stdout, Go);
   (Copier Stdout, Go); (Reader, Receives (input_frame "ls")); (Reader, Go); (Reader, Go); (Reader, Go); (Reader, Go);
   (Copier Stdout, Go); (Copier Stdout, Returns "file" true); (Copier Stderr, Go); (Copier Stderr, Returns "" true);
   (Copier Stdout, Go); (Copier Stdout, Go); (Copier Stdout, Go); (Waiter, Go); (Waiter, Exits ExitOk); (Waiter, Go);
   (Handler, PickShell); (Handler, Go); (Handler, Go); (Handler, Go); (Handler, Go); (Handler, Go);
   (MetricsLoop, Go); (Handler, Go); (Handler, Go); (Handler, Go); (Handler, Go); (Handler, Go)].

Definition after (es : list (Thread * Choice)) : SessState := default started (run_events es started).

Lemma after_reachable es : is_Some (run_events es started) -> reachable (after es).
Proof. intros [r H]. exists es. unfold after. by rewrite H. Qed.

Lemma session_one_writer_witness :
  holds (after (firstn 4 sample_schedule)) (Copier Stdout) = true
  /\ forall t, holds (after (firstn 4 sample_schedule)) t = true -> t = Copier Stdout.
Proof.
  split; [vm_compute; reflexivity|]. intros t Ht.
  apply (proj1 (session_one_writer (after (firstn 4 sample_schedule))
    (after_reachable (firstn 4 sample_schedule) ltac:(vm_compute; by eexists))) t (Copier Stdout) Ht).
  vm_compute. reflexivity.
Defined.

(** C25.  Output in order: at every moment the output of each stream that went out
    is a beginning of what was read from it, chunk by chunk; unless a write has
    failed, only the chunk a copier has in hand is missing. *)
Theorem session_output_in_order :
  forall r, reachable r ->
    (outputs Stdout (wire (sh r)) `prefix_of` cp_read (out r)
     /\ (broken (sh r) = false -> outputs Stdout (wire (sh r)) ++ in_hand (out r) = cp_read (out r)))
    /\ (outputs Stderr (wire (sh r)) `prefix_of` cp_read (err r)
        /\ (broken (sh r) = false -> outputs Stderr (wire (sh r)) ++ in_hand (err r) = cp_read (err r))).
Proof. intros r Hr. by destruct (inv_output _ (session_inv r Hr)) as [[? ?] [? ?] _ _]. Qed.

Lemma session_output_in_order_witness :
  outputs Stdout (wire (sh (after sample_schedule))) ++ in_hand (out (after sample_schedule))
  = cp_read (out (after sample_schedule)) /\ cp_read (out (after sample_schedule)) = ["login: "; "file"].
Proof.
  split; [|vm_compute; reflexivity].
  apply (session_output_in_order (after sample_schedule)
    (after_reachable sample_schedule ltac:(vm_compute; by eexists))). vm_compute. reflexivity.
Defined.

(** C10.  Everything is taken down, once: when the handler returns, the other
    goroutines it waits for have ended, the SSH session and the WebSocket are
    closed, the slot was given back exactly once, and the client was sent one
    closing message, or none if writing failed.  Until then it happens in this
    order, each step where the handler is at its place and at no other: the
    closing message, once the shell or the client has ended; the cancellation of
    the context; the end of the SSH session; the wait for the other goroutines;
    the slot; the WebSocket.  So while they run the slot is taken and the
    WebSocket open.  No goroutine is ever stuck sending on its channel. *)
Theorem session_taken_down :
  forall r, reachable r ->
    (handler r = HDone ->
       joined r = true /\ ssh_open (sh r) = false /\ conn_open (sh r) = false /\ released (sh r) = 1%nat
       /\ (closed_count (wire (sh r)) <= 1)%nat /\ (broken (sh r) = false -> closed_count (wire (sh r)) = 1%nat))
    /\ ((phase (handler r) <= 5)%nat -> released (sh r) = 0%nat /\ conn_open (sh r) = true)
    /\ (let n := phase (handler r) in
        (n = 0%nat -> closed_count (wire (sh r)) = 0%nat)
        /\ cancelled (sh r) = (3 <=? n)%nat /\ ssh_open (sh r) = (n <=? 3)%nat
        /\ ((5 <= n)%nat -> joined r = true)
        /\ released (sh r) = (if n <=? 5 then 0 else 1)%nat /\ conn_open (sh r) = (n <=? 8)%nat)
    /\ (crashed r = false -> reader r = RdSend -> is_Some (step (Reader, Go) r))
    /\ (forall e, crashed r = false -> waiter r = WaitSend e -> is_Some (step (Waiter, Go) r)).
Proof.
  intros r Hr. destruct (session_inv r Hr) as [_ Hst Hch _ Hcl]. split_and!.
  - intros Hd. destruct Hst as [_ Hs _ Hc _ Hrel Hj], Hcl as [_ _ Hm Hx]. rewrite Hd in *. cbn in *.
    split_and!; auto. apply Hj. lia.
  - intros Hp. destruct Hst as [_ _ _ Hc _ Hrel _]. rewrite Hc, Hrel.
    rewrite (proj2 (Nat.leb_le _ 5)) by done. rewrite (proj2 (Nat.leb_le _ 8)) by lia. done.
  - cbv zeta. destruct Hst as [H1 H2 _ H4 _ H6 H7]. split_and!; try done. intros H0.
    destruct Hcl as [_ _ Hm _]. destruct (handler r); try discriminate H0. by apply Nat.le_0_r in Hm.
  - intros Hcr Hre. cbn [step]. rewrite Hcr, Hre. cbn [read_step].
    destruct (wsDone (sh r)) eqn:E; [|by eexists]. apply (ch_ws _ Hch) in E. congruence.
  - intros e Hcr Hw. cbn [step]. rewrite Hcr, Hw. cbn [wait_step].
    destruct (sshDone (sh r)) as [e'|] eqn:E; [|by eexists]. pose proof (ch_ssh _ Hch) as H. rewrite E, Hw in H.
    discriminate (H (ex_intro _ e' eq_refl)).
Qed.

Lemma session_taken_down_witness :
  released (sh (after sample_schedule)) = 1%nat /\ closed_count (wire (sh (after sample_schedule))) = 1%nat.
Proof.
  destruct (proj1 (session_taken_down (after sample_schedule)
    (after_reachable sample_schedule ltac:(vm_compute; by eexists)))) as (_ & _ & _ & H1 & _ & H2).
  - vm_compute. reflexivity.
  - split; [exact H1|apply H2; vm_compute; reflexivity].
Defined.

(** C28.  A session can always come to its end: from every moment at which the process
    has not crashed, whoever holds the lock and wherever the goroutines are, a
    schedule leads to the handler's return, without a crash.  No combination of
    lock, channels and wait group is a deadlock. *)
Theorem session_can_end :
  forall r, reachable r -> crashed r = false ->
    exists es r', run_events es r = Some r' /\ crashed r' = false /\ handler r' = HDone.
Proof.
  intros r Hr Hcr. destruct (reach_done r (session_inv r Hr) Hcr) as (r' & [es H] & Hc & Hh). by exists es, r'.
Qed.

Lemma session_can_end_witness :
  exists es r', run_events es (after (firstn 17 sample_schedule)) = Some r' /\ handler r' = HDone.
Proof.
  destruct (session_can_end (after (firstn 17 sample_schedule))
    (after_reachable (firstn 17 sample_schedule) ltac:(vm_compute; by eexists))) as (es & r' & H1 & _ & H2).
  - vm_compute. reflexivity.
  - exists es, r'. split; [exact H1|exact H2].
Defined.

(** A frame is between its checks and its call when the handler takes down. *)
Definition crash_schedule : list (Thread * Choice) :=
  [(Reader, Receives (input_frame "exit")); (Reader, Go); (Reader, Go);
   (Copier Stdout, Go); (Copier Stdout, Returns "" true); (Copier Stderr, Go); (Copier Stderr, Returns "" true);
   (Waiter, Go); (Waiter, Exits ExitOk); (Waiter, Go); (Handler, PickShell); (Handler, Go); (Handler, Go); (Handler, Go);
   (Handler, Go); (Handler, Go); (MetricsLoop, Go); (Handler, Go); (Handler, Go); (Handler, Go); (Handler, Go);
   (Reader, Go)].

(** The client leaves before the goroutine that waits for the shell first runs. *)
Definition late_waiter_schedule : list (Thread * Choice) :=
  [(Copier Stdout, Go); (Copier Stdout, Returns "" true); (Copier Stderr, Go); (Copier Stderr, Returns "" true);
   (Reader, Fails); (Reader, Go); (Handler, PickClient); (Handler, Go); (Handler, Go); (Handler, Go);
   (Handler, Go); (Handler, Go); (MetricsLoop, Go); (Handler, Go); (Handler, Go); (Handler, Go); (Handler, Go);
   (Waiter, Go)].

(** C12.  The end of a session can crash the server: [cleanup] sets [s.sshSess]
    to nil while two goroutines may still load it.  An input that was between
    its checks and its call dereferences nil, and so does the goroutine that
    waits for the shell if it had not run before.  It happens there only: a
    crash implies that the handler is in its last steps. *)
Theorem session_nil_dereference :
  (exists r, reachable r /\ reader r = RdPanic /\ conn_open (sh r) = true /\ forall e, step e r = None)
  /\ (exists r, reachable r /\ waiter r = WaitPanic /\ conn_open (sh r) = true /\ forall e, step e r = None)
  /\ forall r, reachable r -> crashed r = true -> sess_set (sh r) = false /\ (8 <= phase (handler r))%nat.
Proof.
  split; [|split].
  - exists (after crash_schedule). split; [apply after_reachable; vm_compute; by eexists|].
    split_and!; [vm_compute; reflexivity..|]. intros [t c]. vm_compute. reflexivity.
  - exists (after late_waiter_schedule). split; [apply after_reachable; vm_compute; by eexists|].
    split_and!; [vm_compute; reflexivity..|]. intros [t c]. vm_compute. reflexivity.
  - intros r Hr Hcr. destruct (session_inv r Hr) as [_ Hst Hch _ _].
    assert (8 <= phase (handler r))%nat as Hp.
    { by apply (ch_crash _ Hch). }
    split; [|done]. rewrite (st_sess _ Hst). apply Nat.leb_gt. lia.
Qed.

Lemma session_nil_dereference_witness : sess_set (sh (after crash_schedule)) = false.
Proof.
  apply (proj2 (proj2 session_nil_dereference)); [|vm_compute; reflexivity].
  apply after_reachable. vm_compute. by eexists.
Defined.
