(* ===== verification/WsMessages.v ===== *)
(** * What a terminal session puts on the wire and into the shell

    Two invariants of the goroutines of WsConcurrent that a client relies on:
    every message has one of five forms, its closing message tells how the
    shell ended, and what was typed is what the frames carried, in order. *)

From S2P Require Import Prelude Concurrency GoStrings Json JsonDecode GoFloat Binary64 WsProtocol WsHandler Metrics WsConcurrent.

(** ** Messages as frames *)

(** [conn.WriteJSON], which ends a text with a newline, and
    [conn.WriteMessage].  When a value has no JSON, the
    message that gorilla/websocket has begun goes out empty. *)
Definition json_frame (typ : string) (v : option json) : Frame :=
  TextMessage match v with Some v => print_line (map_message typ v) | None => "" end.

Definition frame_of (f : Written) : Frame :=
  match f with
  | WJSON v => TextMessage (print_line v)
  | WPong sentAt => json_frame "pong" (enc_float sentAt)
  | WMetrics data => json_frame "metrics" (enc_MetricsData data)
  | WOutput _ data => BinaryMessage data
  end.

(** ** What the world may answer: values of the machine's types *)

Definition choice_ok (c : Choice) : Prop :=
  match c with
  | Collects (Ok m) => raw_ok m
  | Exits (ExitStatus code) => in_int64 code = true
  | _ => True
  end.

(** ** The forms of a message

    [exits] are the ends of the shell that were seen. *)

Definition error_json (message : string) : json := map_message "error" (enc_ErrorData (mkErrorData "BAD_REQUEST" message)).

Definition message_ok (exits : ShellExit -> Prop) (f : Written) : Prop :=
  match f with
  | WJSON v =>
      (exists message, v = error_json message /\ valid_utf8 message = true)
      \/ v = closed_json "client disconnected" None
      \/ exists e, exits e /\ v = closed_json "ssh session closed" (exit_status e)
  | WPong sentAt => valid_float sentAt = true
  | WMetrics data => data_ok data
  | WOutput _ _ => True
  end.

Record messages_inv (exits : ShellExit -> Prop) (r : SessState) : Prop := {
  mi_wire : Forall (message_ok exits) (wire (sh r));
  mi_waiter : forall e, waiter r = WaitSend e -> exits e;
  mi_done : forall e, sshDone (sh r) = Some e -> exits e;
  mi_handler : forall w f, handler r = HClosed w f -> message_ok exits f;
  mi_met : forall w d p, met r = MetWrite w d p -> data_ok d;
  mi_reader : forall w f go_on, reader r = RdWrite w f go_on -> message_ok exits f }.

Lemma dec_float_valid v cur f : dec_float v cur = Some f -> valid_float cur = true -> valid_float f = true.
Proof. destruct v; intros H; cbn in H; simplify_eq; [auto|intros _; by eapply ParseFloatLit_valid]. Qed.

Lemma dispatch_message exits fr es go_on w f go_on' :
  handle_frame (fun _ => true) fr = (es, go_on) -> dispatch es go_on = Some (RdWrite w f go_on') -> message_ok exits f.
Proof.
  intros H Hd. unfold handle_frame in H. repeat case_match; simplify_eq; cbn [dispatch sendError] in Hd; simplify_eq; cbn [message_ok].
  all: try (left; eexists; split; [reflexivity|reflexivity]).
  destruct (Data m) as [v|]; [|done]. eapply (dec_float_valid v); [eassumption|reflexivity].
Qed.

Lemma started_messages exits : messages_inv exits started.
Proof. constructor; cbn; intros; try done. Qed.

Lemma step_messages exits e r r' :
  (forall x, e = (Waiter, Exits x) -> exits x) -> choice_ok (snd e) ->
  messages_inv exits r -> step e r = Some r' -> messages_inv exits r'.
Proof.
  intros Hx Hc [H1 H2 H3 H4 H5 H6] H.
  step_by_cases H; constructor; cbn in *; intros; subst; simplify_eq; try done; eauto.
  all: try (by right; left); try (right; right; eexists; split; [by apply H3|reflexivity]).
  all: try (rewrite Forall_app, Forall_singleton; split; [done|cbn [message_ok]; eauto]; fail).
  all: try (by apply metrics_data_ok).
  all: repeat match goal with
              | |- context [if ?b then _ else _] => destruct b
              | X : context [if ?b then _ else _] |- _ => destruct b
              end; cbn in *; simplify_eq; eauto using dispatch_message.
  all: repeat case_match; simplify_eq; eauto using dispatch_message.
Qed.

(** ** What was typed *)

(** The input of a frame, if the read loop would write it. *)
Definition input_of (f : Frame) : option string :=
  match fst (handle_frame (fun _ => true) f) with
  | [StdinWrite input] => Some input
  | _ => None
  end.

Definition inputs_of (fs : list Frame) : list string := omap input_of fs.

(** An input that the read loop has in hand. *)
Definition reader_hand (p : ReadPc) : list string :=
  match p with
  | RdTestSess input | RdTestStdin input | RdLoadStdin input | RdStdin input => [input]
  | _ => []
  end.

(** Whether the read loop goes on. *)
Definition reading (p : ReadPc) : bool :=
  match p with RdSend | RdDone | RdPanic | RdWrite _ _ false => false | _ => true end.

(** The frames so far are [fs]; after the SSH session is closed nothing is
    typed any more. *)
Record typed_inv (fs : list Frame) (r : SessState) : Prop := {
  ty_prefix : typed (sh r) `prefix_of` inputs_of fs;
  ty_sync : ssh_open (sh r) = true -> reading (reader r) = true ->
            typed (sh r) ++ reader_hand (reader r) = inputs_of fs }.

Lemma started_typed : typed_inv [] started.
Proof. by constructor. Qed.

Lemma inputs_app fs gs : inputs_of (fs ++ gs) = inputs_of fs ++ inputs_of gs.
Proof. apply omap_app. Qed.

Lemma dispatch_inputs fr es go_on p :
  handle_frame (fun _ => true) fr = (es, go_on) -> dispatch es go_on = Some p ->
  reader_hand p = inputs_of [fr] /\ (reading p = false -> inputs_of [fr] = []).
Proof.
  intros Hf Hd. unfold inputs_of, input_of. cbn [omap list_omap]. rewrite Hf. cbn [fst].
  unfold handle_frame in Hf. repeat case_match; simplify_eq; cbn [dispatch sendError] in Hd; by simplify_eq.
Qed.

Lemma step_typed fs e r r' :
  (forall f, e <> (Reader, Receives f)) -> stage_inv r -> typed_inv fs r -> step e r = Some r' -> typed_inv fs r'.
Proof.
  intros Hne Hst [H1 H2] H.
  assert (ssh_open (sh r) = true -> sess_set (sh r) = true) as Hs.
  { rewrite (st_sess _ Hst), (st_ssh _ Hst). intros Hp%Nat.leb_le. apply Nat.leb_le. lia. }
  clear Hst. step_by_cases H; try (by destruct (Hne f)); clear Hne; constructor; cbn in *; simplify_eq; try done.
  all: try (intros Hss; rewrite (Hs Hss) in *; by auto).
  all: try (by destruct (se && ss)); try (by destruct se); try (by destruct go_on).
  - rewrite <- H2 by done. done.
  - intros _ _. rewrite app_nil_r. by apply H2.
Qed.

Lemma step_receives fs f r r' :
  typed_inv fs r -> step (Reader, Receives f) r = Some r' -> typed_inv (fs ++ [f]) r'.
Proof.
  intros [H1 H2] H. cbn [step] in H. destruct (crashed r); [discriminate H|].
  apply bind_Some in H as ([s p] & H & [= <-]). unfold read_step in H.
  destruct (reader r) eqn:Er; try discriminate H; [|by destruct w]. destruct (conn_open (sh r)); [|discriminate H].
  destruct (handle_frame (fun _ => true) f) as [es go_on] eqn:Eh. apply bind_Some in H as (p' & Hd & [= <- <-]).
  pose proof (dispatch_inputs f es go_on p' Eh Hd) as [Hh Hr].
  constructor; cbn [sh reader]; rewrite ?inputs_app; [by apply prefix_app_r|].
  intros Hss _. by rewrite Hh, <- (H2 Hss eq_refl), app_nil_r by done.
Qed.
