(* ===== verification/Tunnel.v ===== *)
(** * The TCP tunnel (internal/ws/tunnel.go)

    An authenticated raw TCP relay over a WebSocket: the guards of the
    endpoint, the connect message and its checks, the dial of the address the
    network policy has validated, and the two copy loops.

    As in [WsHandler], what the world answers is an argument and the effects
    are recorded in order.  The two copy loops are modelled each by itself, on the
    frames or reads it gets; that they do the same as goroutines, among each
    other, is shown of TunnelConcurrent. *)

From S2P Require Import Prelude GoStrings GoTime GoEncoding Json JsonDecode Netip NetworkPolicy Config Auth WsProtocol WsHandler.

Definition tunnelMaxMessageBytes : Z := 256 * 1024.

(** ** Small operations *)

Definition tunnelPortAllowed (cfg : Config) (port : Z) : bool :=
  existsb (fun allowed => port =? allowed) (AllowedPorts (Tunnel cfg)).

Definition tunnelPingInterval (timeout : Z) : Z :=
  let interval := 20 * Second in
  let interval := if (0 <? timeout) && (Z.quot timeout 2 <? interval) then Z.quot timeout 2 else interval in
  if interval <? Second then Second else interval.

(** [io.Writer]: one call takes a prefix of what it is given, its length in
    bytes, and may report an error next to it.  This is the interface's
    documented contract. *)
Class Writer (W : Type) : Type := {
  Write : W -> string -> W * nat * bool;        (* new state, count, error? *)
  accepted : W -> string;
  Write_count : forall w p w' n e, Write w p = (w', n, e) -> (n <= String.length p)%nat;
  Write_accepts : forall w p w' n e, Write w p = (w', n, e) -> accepted w' = accepted w +:+ str_take n p }.

Inductive WriteResult : Type := WriteOk | WriteError | ErrShortWrite | OutOfFuel.

Fixpoint write_loop {W} `{Writer W} (fuel : nat) (w : W) (payload : string) : W * WriteResult :=
  match fuel with
  | O => (w, OutOfFuel)
  | S f =>
      if payload =?s "" then (w, WriteOk)
      else
        let '(w', count, err) := Write w payload in
        if err : bool then (w', WriteError)
        else if (count =? 0)%nat then (w', ErrShortWrite)
        else write_loop f w' (str_drop count payload)
  end.

(** Each round writes at least one byte: [writeAll_total]. *)
Definition writeAll {W} `{Writer W} (w : W) (payload : string) : W * WriteResult :=
  write_loop (S (String.length payload)) w payload.

(** ** The connect message *)

Inductive TEffect : Type :=
| TRefuse (status : Z) (code message : string) (* [writeTunnelHTTPError] *)
| TSend (m : Message)
| TDial (address : string)                  (* the call of [DialContext] *)
| TOpen                                     (* it succeeded *)
| TRelay                                    (* both copy loops, until one ends *)
| TCloseTarget
| TCloseMessage                             (* the WebSocket close frame *)
| TCloseConn
| TTakeSlot | TReleaseSlot.

Definition t_sendError (code message : string) : TEffect :=
  TSend (mkMessage "error" (Some (enc_ErrorData (mkErrorData code message)))).

Definition bad_first : TEffect :=
  t_sendError "BAD_REQUEST" "first tunnel message must be tunnel-connect".

(** ** The copy loops *)

(** The target's side of a tunnel: a writer that may be a TCP connection, whose
    write side can be closed. *)
Class TunnelTarget (W : Type) : Type := {
  #[global] target_writer :: Writer W;
  is_TCPConn : W -> bool;
  CloseWrite : W -> W * bool;
  CloseWrite_accepted : forall w, accepted (fst (CloseWrite w)) = accepted w }.

(** Why the loop towards the target returned. *)
Inductive CopyEnd : Type := ReadFailed | WriteFailed | CloseWriteFailed | UnexpectedMessage.

(** [copyWebSocketToTarget] on the frames that arrive: the target afterwards,
    the bytes counted and the reason it ends. *)
Fixpoint copyWebSocketToTarget {W} `{TunnelTarget W} (w : W) (frames : list Frame) (bytesIn : Z)
    : W * Z * CopyEnd :=
  match frames with
  | [] => (w, bytesIn, ReadFailed)
  | BinaryMessage payload :: rest =>
      match writeAll w payload with
      | (w', WriteOk) => copyWebSocketToTarget w' rest ((bytesIn + len payload) mod 2 ^ 64)
      | (w', _) => (w', bytesIn, WriteFailed)
      end
  | TextMessage payload :: rest =>
      match DecodeMessage payload with
      | Some message =>
          if negb (Type_ message =?s "tunnel-eof") then (w, bytesIn, UnexpectedMessage)
          else if is_TCPConn w then
            let (w', ok) := CloseWrite w in
            if ok : bool then copyWebSocketToTarget w' rest bytesIn else (w', bytesIn, CloseWriteFailed)
          else copyWebSocketToTarget w rest bytesIn
      | None => (w, bytesIn, UnexpectedMessage)
      end
  | OtherMessage :: _ => (w, bytesIn, UnexpectedMessage)
  end.

(** [copyTargetToWebSocket] on the results of [target.Read], the bytes read and
    whether an error came with them: the binary messages delivered to the
    client and the bytes counted. *)
Fixpoint copyTargetToWebSocket (send_ok : string -> bool) (reads : list (string * bool)) (bytesOut : Z)
    : list string * Z :=
  match reads with
  | [] => ([], bytesOut)
  | (data, err) :: rest =>
      if (0 <? len data) && negb (send_ok data) then ([], bytesOut)
      else
        let sent := if 0 <? len data then [data] else [] in
        let bytesOut := if 0 <? len data then (bytesOut + len data) mod 2 ^ 64 else bytesOut in
        if err : bool then (sent, bytesOut)
        else let (out, n) := copyTargetToWebSocket send_ok rest bytesOut in (sent ++ out, n)
  end.

Section Tunnel.

Context (cfg : Config) (policy : NetworkPolicy.NetworkPolicy)
        (LookupIPAddr : string -> option (list string)).

(** The target of a request: its host and port, and the address to dial. *)
Definition tunnel_target (raw : option json) : result (list TEffect) (string * Z * string) :=
  let! request := of_option [t_sendError "BAD_REQUEST" "invalid tunnel connect payload"]
                    (decode_TunnelConnectData raw) in
  let host := TrimSpace (tc_Host request) in
  let port := if tc_Port request =? 0 then 22 else tc_Port request in
  reject! (host =?s "") || (253 <? len host)
    with [t_sendError "INVALID_HOST" "host is required and must not exceed 253 characters"] in
  require! tunnelPortAllowed cfg port
    else [t_sendError "TUNNEL_PORT_DENIED" "target port is not allowed for TCP tunnels"] in
  let! address := map_err (fun pe => [t_sendError (pe_Code pe) (pe_Message pe)])
                    (ResolveAllowedHostPort LookupIPAddr policy host port) in
  Ok (host, port, address).

(** The first frame, [None] if reading fails. *)
Definition tunnel_first (frame : option Frame) : result (list TEffect) (option json) :=
  match frame with
  | None => Err []
  | Some (TextMessage payload) =>
      match DecodeMessage payload with
      | Some message => require! Type_ message =?s "tunnel-connect" else [bad_first] in Ok (Data message)
      | None => Err [bad_first]
      end
  | Some _ => Err [bad_first]
  end.

(** [connect]: the effects, whether the target is open afterwards and whether
    it returned nil.  [dial_ok] is the dialler, [write_ok] whether the client
    receives the confirmation. *)
Definition connect (frame : option Frame) (dial_ok : string -> bool) (write_ok : bool)
    : list TEffect * bool * bool :=
  match (let! raw := tunnel_first frame in tunnel_target raw) with
  | Err es => (es, false, false)
  | Ok (host, port, address) =>
      if negb (dial_ok address)
      then ([TDial address; t_sendError "TUNNEL_CONNECT_FAILED" "failed to connect to tunnel target"], false, false)
      else ([TDial address; TOpen;
             TSend (mkMessage "tunnel-connected"
                      (Some (enc_TunnelConnectedData (mkTunnelConnectedData host port))))],
            true, write_ok)
  end.

(** [run]: after the relay the target is closed explicitly and once more by
    the deferred call. *)
Definition tunnel_run (frame : option Frame) (dial_ok : string -> bool) (write_ok : bool)
    : list TEffect :=
  let '(es, _, ok) := connect frame dial_ok write_ok in
  if negb ok then es
  else es ++ [TRelay; TCloseTarget; TCloseMessage; TCloseTarget].

(** [ServeTunnelHTTP]: all that a request does, refusals included.
    [slot_free] is the answer of [reserveTunnel], which takes a slot exactly if it
    is true; [upgraded] is whether the upgrade succeeds. *)
Definition ServeTunnelHTTP (fold : string -> string -> bool) `{Crypto} (a : Authenticator) (s : Store)
    (now : Z) (r : Request) (slot_free upgraded : bool)
    (frame : option Frame) (dial_ok : string -> bool) (write_ok : bool)
    : Store * list TEffect :=
  let (s', info) := SessionFromRequest a s (session_cookie r) now in
  (s',
   match info with
   | None => [TRefuse 401 "AUTH_REQUIRED" "authentication required"]
   | Some _ =>
       if negb (Tunnel_Enabled (Tunnel cfg)) then [TRefuse 403 "TUNNEL_DISABLED" "TCP tunnel is disabled"]
       else if negb (checkOrigin fold cfg r) then [TRefuse 403 "WS_ORIGIN_DENIED" "origin not allowed"]
       else if negb slot_free then [TRefuse 429 "TUNNEL_LIMIT_EXCEEDED" "maximum concurrent tunnels exceeded"]
       else TTakeSlot :: (if upgraded : bool
                          then tunnel_run frame dial_ok write_ok ++ [TCloseConn] else [])
              ++ [TReleaseSlot]
   end).

End Tunnel.

(** ** Lemmas *)

Lemma write_loop_spec {W} `{Writer W} fuel w payload w' r :
  write_loop fuel w payload = (w', r) -> (String.length payload < fuel)%nat ->
  r <> OutOfFuel
  /\ exists n, accepted w' = accepted w +:+ str_take n payload /\ (n <= String.length payload)%nat
       /\ (r = WriteOk -> n = String.length payload).
Proof.
  revert w payload; induction fuel as [|f IH]; intros w payload Hw Hf; [lia|]. cbn [write_loop] in Hw.
  destruct (payload =?s "") eqn:E0; bool_facts.
  { subst. injection Hw as <- <-. split; [done|]. exists 0%nat. by rewrite str_app_nil_r. }
  destruct (Write w payload) as [[w1 n] e] eqn:Ew.
  pose proof (Write_count _ _ _ _ _ Ew) as Hn. pose proof (Write_accepts _ _ _ _ _ Ew) as Ha.
  destruct e; [injection Hw as <- <-; split; [done|]; by exists n|].
  destruct (n =? 0)%nat eqn:En; [injection Hw as <- <-; split; [done|]; by exists n|].
  apply Nat.eqb_neq in En.
  apply IH in Hw as [Hr (k & Hk & Hkn & Hok)]; [|rewrite str_length_drop; lia].
  split; [done|]. exists (n + k)%nat. rewrite str_length_drop in *. split; [|split; [lia|]].
  - rewrite Hk, Ha, str_app_assoc. f_equal.
    clear -Hn. revert n Hn k; induction payload as [|c p IH]; intros [|n] Hn k; simpl in *; try done; try lia.
    rewrite str_app_cons. f_equal. apply IH. lia.
  - intros Hr'. specialize (Hok Hr'). lia.
Qed.

Lemma writeAll_spec {W} `{Writer W} w payload w' r :
  writeAll w payload = (w', r) ->
  r <> OutOfFuel
  /\ exists n, accepted w' = accepted w +:+ str_take n payload /\ (n <= String.length payload)%nat
       /\ (r = WriteOk -> n = String.length payload).
Proof. intros Hw. eapply write_loop_spec; [exact Hw|lia]. Qed.

Definition concat_str (l : list string) : string := foldr String.append "" l.

Lemma concat_str_app l k : concat_str (l ++ k) = concat_str l +:+ concat_str k.
Proof. induction l as [|x l IH]; [done|]. simpl. by rewrite IH, str_app_assoc. Qed.

(** The payloads of the binary frames of a sequence. *)
Definition binary_payloads (frames : list Frame) : list string :=
  omap (fun f => match f with BinaryMessage p => Some p | _ => None end) frames.

Lemma str_take_all s : str_take (String.length s) s = s.
Proof. pose proof (str_take_app s "") as Ht. by rewrite str_app_nil_r in Ht. Qed.

Lemma copyWebSocketToTarget_spec {W} `{TunnelTarget W} (w : W) frames n w' m e :
  0 <= n < 2 ^ 64 -> copyWebSocketToTarget w frames n = (w', m, e) ->
  exists done_ rest n', frames = done_ ++ rest
    /\ m = (n + len (concat_str (binary_payloads done_))) mod 2 ^ 64
    /\ accepted w' = accepted w +:+ concat_str (binary_payloads done_)
                       +:+ str_take n' (default "" (head (binary_payloads (take 1 rest))))
    /\ (e = ReadFailed -> rest = []).
Proof.
  revert w n; induction frames as [|f frames IH]; intros w n Hn Hc; cbn [copyWebSocketToTarget] in Hc.
  { injection Hc as <- <- <-. exists [], [], 0%nat. split_and!; [done| | |done].
    - change (len _) with 0. rewrite Z.add_0_r, Z.mod_small; lia.
    - by rewrite !str_app_nil_r. }
  assert (forall e0, e0 <> ReadFailed -> (w, n, e0) = (w', m, e) ->
    exists done_ rest n', f :: frames = done_ ++ rest
    /\ m = (n + len (concat_str (binary_payloads done_))) mod 2 ^ 64
    /\ accepted w' = accepted w +:+ concat_str (binary_payloads done_)
                       +:+ str_take n' (default "" (head (binary_payloads (take 1 rest))))
    /\ (e = ReadFailed -> rest = [])) as Hstop.
  { intros e0 He0 [= <- <- <-]. exists [], (f :: frames), 0%nat. split_and!; [done| | |done].
    - change (len _) with 0. rewrite Z.add_0_r, Z.mod_small; lia.
    - by rewrite !str_app_nil_r. }
  destruct f as [p|p|]; [| |by eapply Hstop in Hc].
  - destruct (DecodeMessage p) as [msg|]; [|by eapply Hstop in Hc].
    destruct (Type_ msg =?s "tunnel-eof"); cbn [negb] in Hc; [|by eapply Hstop in Hc].
    destruct (is_TCPConn w).
    + pose proof (CloseWrite_accepted w) as Ha. destruct (CloseWrite w) as [w1 [|]]; cbn [fst] in Ha.
      * apply IH in Hc as (d & r & n' & -> & Hm & Hw & He); [|done]. rewrite <- Ha.
        by exists (TextMessage p :: d), r, n'.
      * injection Hc as <- <- <-. exists [], (TextMessage p :: frames), 0%nat.
        split_and!; [done| | |done].
        -- change (len _) with 0. rewrite Z.add_0_r, Z.mod_small; lia.
        -- by rewrite !str_app_nil_r.
    + apply IH in Hc as (d & r & n' & -> & Hm & Hw & He); [|done].
      by exists (TextMessage p :: d), r, n'.
  - destruct (writeAll w p) as [w1 r1] eqn:Ew. apply writeAll_spec in Ew as (_ & k & Ha & Hk & Hok).
    destruct r1.
    2-4: injection Hc as <- <- <-; exists [], (BinaryMessage p :: frames), k;
      (split_and!; [done| |by rewrite Ha|done]);
      change (len _) with 0; rewrite Z.add_0_r, Z.mod_small; lia.
    apply IH in Hc as (d & r & n' & -> & Hm & Hw & He); [|apply Z.mod_pos_bound; lia].
    rewrite (Hok eq_refl), str_take_all in Ha. exists (BinaryMessage p :: d), r, n'.
    change (binary_payloads (BinaryMessage p :: d)) with (p :: binary_payloads d).
    change (concat_str (p :: ?l)) with (p +:+ concat_str l).
    split_and!; [done| | |done].
    + rewrite Hm, len_app, Zplus_mod_idemp_l. f_equal. lia.
    + by rewrite Hw, Ha, !str_app_assoc.
Qed.

Lemma copyTargetToWebSocket_spec send_ok reads n out m :
  0 <= n < 2 ^ 64 -> copyTargetToWebSocket send_ok reads n = (out, m) ->
  m = (n + len (concat_str out)) mod 2 ^ 64
  /\ Forall (fun p => p <> "" /\ send_ok p = true) out
  /\ exists done_ rest, reads = done_ ++ rest /\ concat_str out = concat_str (map fst done_)
       /\ match rest with
          | [] => True
          | (data, err) :: _ => (data <> "" /\ send_ok data = false)
              \/ exists d x, done_ = d ++ [(x, true)]
          end.
Proof.
  revert n out; induction reads as [|[data err] reads IH]; intros n out Hn H;
    cbn [copyTargetToWebSocket] in H.
  { injection H as <- <-. split_and!; [|by apply Forall_nil|by exists [], []].
    change (len _) with 0. rewrite Z.add_0_r, Z.mod_small; lia. }
  destruct (0 <? len data) eqn:El; cbn [andb] in H; bool_facts.
  - assert (data <> "") as Hne by (intros ->; vm_compute in El; congruence).
    destruct (send_ok data) eqn:Es; cbn [negb] in H.
    2:{ injection H as <- <-. split_and!; [|by apply Forall_nil|].
        - change (len _) with 0. rewrite Z.add_0_r, Z.mod_small; lia.
        - exists [], ((data, err) :: reads). split_and!; [done|done|by left]. }
    destruct err.
    { injection H as <- <-. simpl concat_str. rewrite str_app_nil_r.
      split_and!; [done|by repeat constructor|]. exists [(data, true)], reads.
      split_and!; [done|simpl; by rewrite str_app_nil_r|]. destruct reads as [|[? ?] ?]; [done|].
      right. by exists [], data. }
    destruct (copyTargetToWebSocket send_ok reads _) as [o k] eqn:E. injection H as <- <-.
    apply IH in E as (Hk & HF & d & r & -> & Hc & Hr); [|apply Z.mod_pos_bound; lia].
    cbn [app]. change (concat_str (data :: o)) with (data +:+ concat_str o). split_and!.
    + rewrite Hk, len_app, Zplus_mod_idemp_l. f_equal. lia.
    + by constructor.
    + exists ((data, false) :: d), r. split_and!; [done|simpl; by rewrite Hc|].
      destruct r as [|[? ?] ?]; [done|]. destruct Hr as [Hr|(d' & x & ->)]; [by left|right].
      by exists ((data, false) :: d'), x.
  - assert (data = "") as -> by (apply len_0; pose proof (len_nonneg data); lia).
    destruct err.
    { injection H as <- <-. split_and!; [|by apply Forall_nil|].
      - change (len _) with 0. rewrite Z.add_0_r, Z.mod_small; lia.
      - exists [("", true)], reads. split_and!; [done|done|]. destruct reads as [|[? ?] ?]; [done|].
        right. by exists [], "". }
    destruct (copyTargetToWebSocket send_ok reads n) as [o k] eqn:E. injection H as <- <-.
    apply IH in E as (Hk & HF & d & r & -> & Hc & Hr); [|done]. cbn [app]. split_and!; [done|done|].
    exists (("", false) :: d), r. split_and!; [done|simpl; by rewrite Hc|].
    destruct r as [|[? ?] ?]; [done|]. destruct Hr as [Hr|(d' & x & ->)]; [by left|right].
    by exists (("", false) :: d'), x.
Qed.

(** The slot of a tunnel, as [slot_after] for sessions. *)
Fixpoint t_slot_after (held : bool) (es : list TEffect) : option bool :=
  match es with
  | [] => Some held
  | TTakeSlot :: es => if held then None else t_slot_after true es
  | TReleaseSlot :: es => if held then t_slot_after false es else None
  | _ :: es => t_slot_after held es
  end.

(** Whether a connection to the target is open after some effects. *)
Fixpoint target_open (st : bool) (es : list TEffect) : bool :=
  match es with
  | [] => st
  | TOpen :: es => target_open true es
  | TCloseTarget :: es => target_open false es
  | _ :: es => target_open st es
  end.


Section TunnelFacts.

Context (cfg : Config) (policy : NetworkPolicy.NetworkPolicy)
        (LookupIPAddr : string -> option (list string)).

Definition send_only (es : list TEffect) : Prop := Forall (fun e => exists m, e = TSend m) es.

Lemma send_only_one m : send_only [TSend m].
Proof. constructor; [by eexists|by constructor]. Qed.

Lemma tunnel_first_Err frame es : tunnel_first frame = Err es -> send_only es.
Proof.
  unfold tunnel_first, bad_first, t_sendError. intros H.
  destruct frame as [[p|p|]|]; repeat case_match; simplify_eq;
    first [apply send_only_one|by constructor].
Qed.

Lemma tunnel_target_Err raw es :
  tunnel_target cfg policy LookupIPAddr raw = Err es -> send_only es.
Proof.
  unfold tunnel_target, t_sendError, of_option. intros H.
  destruct (decode_TunnelConnectData raw) as [req|]; simpl in H;
    [|injection H as <-; apply send_only_one].
  destruct (_ || _); [injection H as <-; apply send_only_one|].
  destruct (tunnelPortAllowed _ _); [|injection H as <-; apply send_only_one].
  destruct (ResolveAllowedHostPort _ _ _ _); simpl in H; [done|].
  injection H as <-. apply send_only_one.
Qed.

(** What a target that is let through satisfies. *)
Lemma tunnel_target_Ok raw host port address :
  tunnel_target cfg policy LookupIPAddr raw = Ok (host, port, address) ->
  port ∈ AllowedPorts (Tunnel cfg) /\ host <> "" /\ len host <= 253
  /\ ResolveAllowedHostPort LookupIPAddr policy host port = Ok address.
Proof.
  unfold tunnel_target. intros H. ok_path H. injection H as <- <- <-. bool_facts.
  unfold tunnelPortAllowed in *.
  match goal with X : existsb _ _ = true |- _ => apply existsb_exists in X as (x & Hx & E) end.
  bool_facts. subst. split_and!; [by apply list_elem_of_In|done|lia|].
  destruct (ResolveAllowedHostPort _ _ _ _); simpl in *; [congruence|done].
Qed.

(** The two shapes of a tunnel's run. *)
Lemma tunnel_run_cases frame dial_ok write_ok :
  send_only (tunnel_run cfg policy LookupIPAddr frame dial_ok write_ok)
  \/ exists raw host port address m,
       tunnel_target cfg policy LookupIPAddr raw = Ok (host, port, address)
       /\ tunnel_run cfg policy LookupIPAddr frame dial_ok write_ok
          = TDial address :: (if dial_ok address
                              then TOpen :: TSend m :: (if write_ok then [TRelay; TCloseTarget; TCloseMessage; TCloseTarget] else [])
                              else [TSend m]).
Proof.
  unfold tunnel_run, connect.
  destruct (tunnel_first frame) as [raw|es] eqn:Ef; simpl res_bind.
  2:{ left. simpl. by eapply tunnel_first_Err. }
  destruct (tunnel_target cfg policy LookupIPAddr raw) as [[[host port] address]|es] eqn:Et.
  2:{ left. simpl. by eapply tunnel_target_Err. }
  right. destruct (dial_ok address) eqn:Ed; simpl; eexists raw, host, port, address, _; (split; [done|]); rewrite Ed;
    [by destruct write_ok|done].
Qed.

Lemma send_only_slot h es : send_only es -> t_slot_after h es = Some h.
Proof. induction 1 as [|e es [m ->] _ IH]; [done|exact IH]. Qed.

Lemma t_slot_after_app h es fs :
  t_slot_after h (es ++ fs)
  = match t_slot_after h es with Some h' => t_slot_after h' fs | None => None end.
Proof.
  revert h; induction es as [|e es IH]; intros h; [done|]. cbn [app].
  destruct e; cbn [t_slot_after]; try apply IH; destruct h; try done; apply IH.
Qed.

Lemma tunnel_run_slot frame dial_ok write_ok h :
  t_slot_after h (tunnel_run cfg policy LookupIPAddr frame dial_ok write_ok) = Some h.
Proof.
  destruct (tunnel_run_cases frame dial_ok write_ok) as [Hs|(raw & host & port & ad & m & _ & ->)].
  - by apply send_only_slot.
  - by destruct (dial_ok ad), write_ok.
Qed.

(** A tunnel's run neither takes nor returns a slot, and refuses nothing. *)
Definition not_slot (e : TEffect) : Prop :=
  match e with TTakeSlot | TReleaseSlot | TRefuse _ _ _ => False | _ => True end.

Lemma tunnel_run_not_slot frame dial_ok write_ok :
  Forall not_slot (tunnel_run cfg policy LookupIPAddr frame dial_ok write_ok).
Proof.
  destruct (tunnel_run_cases frame dial_ok write_ok) as [Hs|(raw & host & port & ad & m & _ & ->)].
  - eapply Forall_impl; [exact Hs|]. by intros e [m ->].
  - destruct (dial_ok ad), write_ok; repeat constructor.
Qed.

End TunnelFacts.

(** ** Properties *)

(** A tunnel for the witnesses. *)
Definition tunnel_config : Config :=
  mkConfig (Server Default) (Config.Auth Default) (SSH Default)
    (mkTunnel true 0 0 0 5 [22; 443]) (NetworkPolicy Default) "" (Credentials Default) "".

Definition tunnel_frame : option Frame :=
  Some (TextMessage (EncodeMessage "tunnel-connect"
          (Some (enc_TunnelConnectData (mkTunnelConnectData "public.example" 443))))).

Definition sample_tunnel (dial_ok : string -> bool) (write_ok : bool) : list TEffect :=
  tunnel_run tunnel_config sample_policy sample_lookup tunnel_frame dial_ok write_ok.

(** C2.  A tunnel reaches exactly the validated address: it dials only for an
    authenticated request on a server with tunnels enabled, to a port the
    configuration lists, and the address dialled is the very string the network
    policy returned for the requested host and port, not a name to be resolved
    again. *)
Theorem tunnel_dials_validated :
  forall cfg policy lookup fold `{Crypto} a s now r free up frame dial_ok write_ok s' es addr,
    ServeTunnelHTTP cfg policy lookup fold a s now r free up frame dial_ok write_ok = (s', es) ->
    TDial addr ∈ es ->
    (exists info, SessionFromRequest a s (session_cookie r) now = (s', Some info))
    /\ Tunnel_Enabled (Tunnel cfg) = true /\ free = true
    /\ exists host port, port ∈ AllowedPorts (Tunnel cfg) /\ host <> "" /\ len host <= 253
         /\ ResolveAllowedHostPort lookup policy host port = Ok addr.
Proof.
  intros * H Hin. unfold ServeTunnelHTTP in H.
  destruct (SessionFromRequest a s (session_cookie r) now) as [st [info|]];
    [|injection H as <- <-; in_list Hin; discriminate Hin].
  destruct (Tunnel_Enabled (Tunnel cfg)); [|injection H as <- <-; in_list Hin; discriminate Hin].
  destruct (checkOrigin fold cfg r); [|injection H as <- <-; in_list Hin; discriminate Hin].
  destruct free; [|injection H as <- <-; in_list Hin; discriminate Hin].
  injection H as <- <-. split; [by exists info|]. split; [done|]. split; [done|].
  destruct up; [|in_list Hin; discriminate Hin].
  apply elem_of_cons in Hin as [Hin|Hin]; [discriminate Hin|].
  rewrite <- app_assoc in Hin. apply elem_of_app in Hin as [Hin|Hin]; [|in_list Hin; discriminate Hin].
  destruct (tunnel_run_cases cfg policy lookup frame dial_ok write_ok)
    as [Hs|(raw & host & port & ad & m & Ht & Hrun)].
  - unfold send_only in Hs. rewrite Forall_forall in Hs. by apply Hs in Hin as [m Hm].
  - rewrite Hrun in Hin. exists host, port. apply tunnel_target_Ok in Ht as (H1 & H2 & H3 & H4).
    destruct (dial_ok ad), write_ok; in_list Hin; try discriminate Hin; injection Hin as ->; by split_and!.
Qed.

Lemma tunnel_dials_validated_witness :
  exists host port, port ∈ [22; 443]
    /\ ResolveAllowedHostPort sample_lookup sample_policy host port = Ok "8.8.4.4:443".
Proof.
  destruct (@tunnel_dials_validated tunnel_config sample_policy sample_lookup (fun _ _ => false)
    toy_crypto sample_auth (@Auth.run toy_crypto sample_auth (NewStore 0) Auth.sample_run) 100
    (sample_http "") true true tunnel_frame (fun _ => true) true
    (@Auth.run toy_crypto sample_auth (NewStore 0) Auth.sample_run)
    (TTakeSlot :: sample_tunnel (fun _ => true) true ++ [TCloseConn; TReleaseSlot]) "8.8.4.4:443")
    as (_ & _ & _ & host & port & H1 & _ & _ & H2).
  - vm_compute. reflexivity.
  - apply list_elem_of_In. vm_compute. tauto.
  - exists host, port. split; [exact H1|exact H2].
Defined.

(** C33.  Every tunnel request gives back the slot it takes, exactly once and as
    the last thing it does, however the tunnel goes, also when the upgrade fails;
    a refused request answers its refusal and does nothing else, so it takes no
    slot and dials nothing. *)
Theorem tunnel_slot_balanced :
  forall cfg policy lookup fold `{Crypto} a s now r free up frame dial_ok write_ok,
    let es := snd (ServeTunnelHTTP cfg policy lookup fold a s now r free up frame dial_ok write_ok) in
    t_slot_after false es = Some false
    /\ ((exists status code message, es = [TRefuse status code message])
        \/ free = true /\ exists mid, es = TTakeSlot :: mid ++ [TReleaseSlot] /\ Forall not_slot mid).
Proof.
  intros cfg policy lookup fold C a s now r free up frame dial_ok write_ok. cbv zeta. unfold ServeTunnelHTTP.
  destruct (SessionFromRequest a s (session_cookie r) now) as [st [info|]]; cbn [snd]; [|split; [done|left; by do 3 eexists]].
  destruct (Tunnel_Enabled (Tunnel cfg)); cbn [negb]; [|split; [done|left; by do 3 eexists]].
  destruct (checkOrigin fold cfg r); cbn [negb]; [|split; [done|left; by do 3 eexists]].
  destruct free; cbn [negb]; [|split; [done|left; by do 3 eexists]]. split.
  - cbn [t_slot_after]. destruct up; [|done]. by rewrite <- app_assoc, t_slot_after_app, tunnel_run_slot.
  - right. split; [done|]. eexists. split; [reflexivity|]. destruct up; [|constructor].
    apply Forall_app. split; [apply tunnel_run_not_slot|by repeat constructor].
Qed.

(** A tunnel that could not dial, and a request beyond the limit. *)
Example tunnel_slot_samples :
  let serve free := snd (ServeTunnelHTTP tunnel_config sample_policy sample_lookup (fun _ _ => false)
    (H := toy_crypto) sample_auth (@Auth.run toy_crypto sample_auth (NewStore 0) Auth.sample_run) 100
    (sample_http "") free true tunnel_frame (fun _ => false) true) in
  serve true = TTakeSlot :: sample_tunnel (fun _ => false) true ++ [TCloseConn; TReleaseSlot]
  /\ serve false = [TRefuse 429 "TUNNEL_LIMIT_EXCEEDED" "maximum concurrent tunnels exceeded"].
Proof. vm_compute. by split. Qed.

(** A writer for the witnesses: it takes at most [chunk] bytes at a time. *)
Record Buffer : Type := mkBuffer { buf_chunk : nat; buf_text : string }.

#[export] Instance buffer_writer : Writer Buffer.
Proof.
  refine {| Write := fun b p => (mkBuffer (buf_chunk b) (buf_text b +:+ str_take (buf_chunk b) p),
                                 Nat.min (buf_chunk b) (String.length p), false);
            accepted := buf_text |}.
  - intros w p w' n e [= <- <- <-]. lia.
  - intros w p w' n e [= <- <- <-]. cbn [buf_text]. f_equal.
    destruct (Nat.le_gt_cases (buf_chunk w) (String.length p)) as [Hle|Hgt];
      [by rewrite Nat.min_l|]. rewrite Nat.min_r by lia. rewrite str_take_all.
    generalize (buf_chunk w) Hgt. clear. induction p as [|c p IH]; intros [|n] Hn; simpl in *; try done; try lia.
    rewrite IH; [done|lia].
Defined.

#[export] Instance buffer_target : TunnelTarget Buffer.
Proof. by refine {| is_TCPConn := fun _ => true; CloseWrite := fun b => (b, true) |}. Defined.

(** [writeAll] is total and writes all or says so: against any writer
    that keeps [io.Writer]'s contract it returns, the writer has taken a prefix
    of the payload, and a nil result means that it took the whole of it. *)
Theorem writeAll_total :
  forall W `{Writer W} (w : W) payload w' r,
    writeAll w payload = (w', r) ->
    r <> OutOfFuel
    /\ exists n, accepted w' = accepted w +:+ str_take n payload
         /\ (r = WriteOk -> accepted w' = accepted w +:+ payload).
Proof.
  intros W Hw w payload w' r H. apply writeAll_spec in H as (Hr & n & Ha & _ & Hok).
  split; [done|]. exists n. split; [done|]. intros ->. by rewrite Ha, (Hok eq_refl), str_take_all.
Qed.

Lemma writeAll_total_witness :
  WriteOk <> OutOfFuel
  /\ exists n, accepted (mkBuffer 2 "abcdefg") = accepted (mkBuffer 2 "ab") +:+ str_take n "cdefg"
       /\ (WriteOk = WriteOk -> accepted (mkBuffer 2 "abcdefg") = accepted (mkBuffer 2 "ab") +:+ "cdefg").
Proof.
  apply (writeAll_total Buffer (mkBuffer 2 "ab") "cdefg" (mkBuffer 2 "abcdefg") WriteOk).
  vm_compute. reflexivity.
Defined.

(** The relay is faithful in both directions.  Towards the target, what
    the target takes is the binary payloads of the frames the loop handled, in
    order and complete, followed by a prefix of the next one only if writing it
    failed; the counter is their length modulo 2^64, and the loop stops before
    the end of the frames only on its own account.  Towards the client, the
    messages delivered are non-empty and together are exactly the bytes of the
    reads handled, the one that came with an error included. *)
Theorem relay_faithful :
  (forall W `{TunnelTarget W} (w : W) frames w' m e,
     copyWebSocketToTarget w frames 0 = (w', m, e) ->
     exists handled rest n, frames = handled ++ rest
       /\ accepted w' = accepted w +:+ concat_str (binary_payloads handled)
                          +:+ str_take n (default "" (head (binary_payloads (take 1 rest))))
       /\ m = len (concat_str (binary_payloads handled)) mod 2 ^ 64
       /\ (e = ReadFailed -> rest = []))
  /\ (forall send_ok reads out m,
     copyTargetToWebSocket send_ok reads 0 = (out, m) ->
     m = len (concat_str out) mod 2 ^ 64
     /\ Forall (fun p => p <> "" /\ send_ok p = true) out
     /\ exists handled rest, reads = handled ++ rest /\ concat_str out = concat_str (map fst handled)
          /\ match rest with
             | [] => True
             | (data, _) :: _ => (data <> "" /\ send_ok data = false)
                 \/ exists d x, handled = d ++ [(x, true)]
             end).
Proof.
  split.
  - intros W HW w frames w' m e H. apply copyWebSocketToTarget_spec in H as (d & r & n & H1 & H2 & H3 & H4);
      [|lia]. by exists d, r, n.
  - intros send_ok reads out m H. apply copyTargetToWebSocket_spec in H as (H1 & H2 & H3); [|lia].
    split_and!; [done|done|exact H3].
Qed.

(** Keep-alive: the interval between pings is between one and twenty
    seconds and, for every idle timeout of at least two seconds, at most half
    of it, so that a pong can renew the deadline in time. *)
Theorem ping_interval_bounds :
  forall timeout,
    Second <= tunnelPingInterval timeout <= 20 * Second
    /\ (2 * Second <= timeout -> 2 * tunnelPingInterval timeout <= timeout).
Proof.
  intros timeout. unfold tunnelPingInterval, Second.
  destruct ((0 <? timeout) && (Z.quot timeout 2 <? 20 * 1000000000)) eqn:E.
  - bool_facts. rewrite Z.quot_div_nonneg in * by lia.
    pose proof (Z_div_mod_eq_full timeout 2). pose proof (Z.mod_pos_bound timeout 2 ltac:(lia)).
    destruct (timeout / 2 <? 1000000000) eqn:E2; bool_facts; lia.
  - change (20 * 1000000000 <? 1000000000) with false. cbv iota. split; [lia|]. intros Ht.
    apply andb_false_iff in E as [E|E]; bool_facts; [lia|].
    rewrite Z.quot_div_nonneg in E by lia. pose proof (Z_div_mod_eq_full timeout 2).
    pose proof (Z.mod_pos_bound timeout 2 ltac:(lia)). lia.
Qed.

Lemma ping_interval_bounds_witness :
  2 * tunnelPingInterval (5 * Second) <= 5 * Second.
Proof. apply (ping_interval_bounds (5 * Second)). vm_compute. congruence. Defined.

(** When the target stays open: a tunnel closes its target connection,
    except when the dial succeeded and the confirmation could not be written to
    the client; then [connect] returns that error and [run] leaves without
    closing the connection it opened. *)
Theorem tunnel_leaks_unconfirmed :
  forall cfg policy lookup frame dial_ok write_ok,
    let es := tunnel_run cfg policy lookup frame dial_ok write_ok in
    target_open false es = true <-> TOpen ∈ es /\ write_ok = false.
Proof.
  intros cfg policy lookup frame dial_ok write_ok es. subst es.
  destruct (tunnel_run_cases cfg policy lookup frame dial_ok write_ok)
    as [Hs|(raw & host & port & ad & m & _ & ->)].
  - assert (target_open false (tunnel_run cfg policy lookup frame dial_ok write_ok) = false) as ->.
    { induction Hs as [|e es [m ->] _ IH]; [done|exact IH]. }
    split; [done|]. intros [Hin _]. unfold send_only in Hs. rewrite Forall_forall in Hs.
    by apply Hs in Hin as [m Hm].
  - destruct (dial_ok ad), write_ok; cbn [target_open]; split; try done; try (by intros [_ ?]).
    + intros _. split; [|done]. by apply list_elem_of_In; right; left.
    + intros [Hin _]. in_list Hin; discriminate Hin.
Qed.
