(* ===== verification/TunnelConcurrent.v ===== *)
(** * The goroutines of a tunnel (internal/ws/tunnel.go)

    After [connect], [run] starts a goroutine per direction and one for
    keep-alive, waits for the first direction to end, and takes the tunnel down;
    the deferred calls of [ServeTunnelHTTP] follow.  They share the target, the
    WebSocket, the context and the channel [errCh] of capacity two.

    As in WsConcurrent, an event lets one goroutine take its next atomic step,
    with the world's answer at that step.  The loops of Tunnel are what the two
    directions do when nothing comes between: the refinement is a theorem here.
    A call of [Write] on the target is one step: a close that interrupts it is
    a failure before or after it. *)

From S2P Require Import Prelude GoStrings GoTime Json JsonDecode Config WsProtocol WsHandler Tunnel.

(** ** What is shared *)

Inductive TThread : Type := TMain | TFromTarget | TToTarget | TKeepAlive.

(** What goes out on the WebSocket. *)
Inductive TOut : Type := OData (data : string) | OPing | OClose.

(** What the world answers at a step. *)
Inductive TAnswer : Type :=
| AGo
| AFails
| AReads (data : string) (failed : bool)       (* [target.Read] *)
| AReceives (f : Frame)                        (* [conn.ReadMessage] *)
| ATick.

Section Tunnel.

Context {W : Type} `{TunnelTarget W}.

(** [ts_target_up] and [ts_conn_up]: not yet closed by this side; after
    [ts_broken] every write on the WebSocket fails; [ts_released] counts how often
    the tunnel's slot was given back. *)
Record TShared : Type := mkTShared {
  ts_target : W; ts_target_up : bool; ts_conn_up : bool; ts_sent : list TOut; ts_broken : bool;
  ts_cancelled : bool; ts_errCh : nat; ts_released : nat; ts_bytesIn : Z; ts_bytesOut : Z }.

Definition t_write (w : W) s := mkTShared w (ts_target_up s) (ts_conn_up s) (ts_sent s) (ts_broken s)
  (ts_cancelled s) (ts_errCh s) (ts_released s) (ts_bytesIn s) (ts_bytesOut s).
Definition t_close_target s := mkTShared (ts_target s) false (ts_conn_up s) (ts_sent s) (ts_broken s)
  (ts_cancelled s) (ts_errCh s) (ts_released s) (ts_bytesIn s) (ts_bytesOut s).
Definition t_close_conn s := mkTShared (ts_target s) (ts_target_up s) false (ts_sent s) (ts_broken s)
  (ts_cancelled s) (ts_errCh s) (ts_released s) (ts_bytesIn s) (ts_bytesOut s).
Definition t_send (o : TOut) s := mkTShared (ts_target s) (ts_target_up s) (ts_conn_up s) (ts_sent s ++ [o]) (ts_broken s)
  (ts_cancelled s) (ts_errCh s) (ts_released s) (ts_bytesIn s) (ts_bytesOut s).
Definition t_break s := mkTShared (ts_target s) (ts_target_up s) (ts_conn_up s) (ts_sent s) true
  (ts_cancelled s) (ts_errCh s) (ts_released s) (ts_bytesIn s) (ts_bytesOut s).
Definition t_cancel s := mkTShared (ts_target s) (ts_target_up s) (ts_conn_up s) (ts_sent s) (ts_broken s)
  true (ts_errCh s) (ts_released s) (ts_bytesIn s) (ts_bytesOut s).
Definition t_errs n s := mkTShared (ts_target s) (ts_target_up s) (ts_conn_up s) (ts_sent s) (ts_broken s)
  (ts_cancelled s) n (ts_released s) (ts_bytesIn s) (ts_bytesOut s).
Definition t_release s := mkTShared (ts_target s) (ts_target_up s) (ts_conn_up s) (ts_sent s) (ts_broken s)
  (ts_cancelled s) (ts_errCh s) (S (ts_released s)) (ts_bytesIn s) (ts_bytesOut s).
Definition t_count_in (p : string) s := mkTShared (ts_target s) (ts_target_up s) (ts_conn_up s) (ts_sent s) (ts_broken s)
  (ts_cancelled s) (ts_errCh s) (ts_released s) ((ts_bytesIn s + len p) mod 2 ^ 64) (ts_bytesOut s).
Definition t_count_out (p : string) s := mkTShared (ts_target s) (ts_target_up s) (ts_conn_up s) (ts_sent s) (ts_broken s)
  (ts_cancelled s) (ts_errCh s) (ts_released s) (ts_bytesIn s) ((ts_bytesOut s + len p) mod 2 ^ 64).

(** Whether a write on the WebSocket can succeed. *)
Definition t_writable (s : TShared) : bool := ts_conn_up s && negb (ts_broken s).

(** [errCh <- err], which waits while the channel is full. *)
Definition t_report (s : TShared) : option TShared :=
  if (2 <=? ts_errCh s)%nat then None else Some (t_errs (S (ts_errCh s)) s).

(** ** [copyTargetToWebSocket] *)

Inductive OutPc : Type :=
| OutRead
| OutWrite (data : string) (failed : bool)
| OutReport
| OutEnd.

(** With the reads so far. *)
Record OutState : Type := mkOut { out_pc : OutPc; out_reads : list (string * bool) }.

Definition out_next (failed : bool) : OutPc := if failed then OutReport else OutRead.

Definition out_step (a : TAnswer) (s : TShared) (o : OutState) : option (TShared * OutState) :=
  let goto pc := mkOut pc (out_reads o) in
  match out_pc o, a with
  | OutRead, AReads data failed =>
      if (32 * 1024 <? len data) || (negb (ts_target_up s) && negb (failed && (data =?s ""))) then None
      else Some (s, mkOut (if 0 <? len data then OutWrite data failed else out_next failed) (out_reads o ++ [(data, failed)]))
  | OutWrite data failed, AGo =>
      if t_writable s then Some (t_count_out data (t_send (OData data) s), goto (out_next failed)) else None
  | OutWrite _ _, AFails => Some (t_break s, goto OutReport)
  | OutReport, AGo => s' ← t_report s; Some (s', goto OutEnd)
  | _, _ => None
  end.

(** ** [copyWebSocketToTarget] *)

Inductive InPc : Type :=
| InRead
| InWrite (payload rest : string)              (* in [writeAll], with what is left *)
| InCloseWrite
| InReport (e : CopyEnd)
| InEnd (e : CopyEnd).

(** With the frames so far. *)
Record InState : Type := mkIn { in_pc : InPc; in_frames : list Frame }.

Definition in_dispatch (w : W) (f : Frame) : InPc :=
  match f with
  | BinaryMessage payload => InWrite payload payload
  | TextMessage payload =>
      match DecodeMessage payload with
      | Some message =>
          if negb (Type_ message =?s "tunnel-eof") then InReport UnexpectedMessage
          else if is_TCPConn w then InCloseWrite else InRead
      | None => InReport UnexpectedMessage
      end
  | OtherMessage => InReport UnexpectedMessage
  end.

Definition in_step (a : TAnswer) (s : TShared) (i : InState) : option (TShared * InState) :=
  let goto pc := mkIn pc (in_frames i) in
  match in_pc i, a with
  | InRead, AReceives f =>
      if negb (ts_conn_up s) || (tunnelMaxMessageBytes <? len (default "" (frame_data f))) then None
      else Some (s, mkIn (in_dispatch (ts_target s) f) (in_frames i ++ [f]))
  | InRead, AFails => Some (s, goto (InReport ReadFailed))
  | InWrite payload rest, AGo =>
      if rest =?s "" then Some (t_count_in payload s, goto InRead)
      else if negb (ts_target_up s) then None
      else
        let '(w', count, err) := Write (ts_target s) rest in
        Some (t_write w' s,
              goto (if (err : bool) || (count =? 0)%nat then InReport WriteFailed
                    else InWrite payload (str_drop count rest)))
  | InWrite _ rest, AFails =>
      if ts_target_up s || (rest =?s "") then None else Some (s, goto (InReport WriteFailed))
  | InCloseWrite, AGo =>
      if negb (ts_target_up s) then None
      else let (w', ok) := CloseWrite (ts_target s) in
           Some (t_write w' s, goto (if ok : bool then InRead else InReport CloseWriteFailed))
  | InCloseWrite, AFails => if ts_target_up s then None else Some (s, goto (InReport CloseWriteFailed))
  | InReport e, AGo => s' ← t_report s; Some (s', goto (InEnd e))
  | _, _ => None
  end.

(** ** [keepAlive] *)

Inductive PingPc : Type := PingSelect | PingWrite | PingEnd.

Definition ping_step (a : TAnswer) (s : TShared) (p : PingPc) : option (TShared * PingPc) :=
  match p, a with
  | PingSelect, AGo => if ts_cancelled s then Some (s, PingEnd) else None
  | PingSelect, ATick => Some (s, PingWrite)
  | PingWrite, AGo => if t_writable s then Some (t_send OPing s, PingSelect) else None
  | PingWrite, AFails => Some (s, PingEnd)
  | _, _ => None
  end.

(** ** The handler's goroutine: the end of [run], then the deferred calls *)

Inductive MainPc : Type :=
| MainReceive                                  (* [<-errCh] *)
| MainCancel
| MainCloseTarget
| MainCloseFrame                               (* [WriteControl] *)
| MainDeferred                                 (* [cancel], [s.target.Close] *)
| MainCloseConn
| MainRelease                                  (* [activeTunnels.Add(-1)] *)
| MainEnd.

Definition main_step (a : TAnswer) (s : TShared) (m : MainPc) : option (TShared * MainPc) :=
  match m, a with
  | MainReceive, AGo => match ts_errCh s with O => None | S n => Some (t_errs n s, MainCancel) end
  | MainCancel, AGo => Some (t_cancel s, MainCloseTarget)
  | MainCloseTarget, AGo => Some (t_close_target s, MainCloseFrame)
  | MainCloseFrame, AGo => if t_writable s then Some (t_break (t_send OClose s), MainDeferred) else None
  | MainCloseFrame, AFails => Some (s, MainDeferred)
  | MainDeferred, AGo => Some (t_close_target (t_cancel s), MainCloseConn)
  | MainCloseConn, AGo => Some (t_close_conn s, MainRelease)
  | MainRelease, AGo => Some (t_release s, MainEnd)
  | _, _ => None
  end.

(** ** The tunnel *)

Record TState : Type := mkTState { tsh : TShared; tmain : MainPc; tout : OutState; tin : InState; tping : PingPc }.

(** After [connect], with the target it dialled. *)
Definition t_started (w : W) : TState :=
  mkTState (mkTShared w true true [] false false 0 0 0 0) MainReceive (mkOut OutRead []) (mkIn InRead []) PingSelect.

Definition t_step (e : TThread * TAnswer) (r : TState) : option TState :=
  let (t, a) := e in
  match t with
  | TMain => '(s, m) ← main_step a (tsh r) (tmain r); Some (mkTState s m (tout r) (tin r) (tping r))
  | TFromTarget => '(s, o) ← out_step a (tsh r) (tout r); Some (mkTState s (tmain r) o (tin r) (tping r))
  | TToTarget => '(s, i) ← in_step a (tsh r) (tin r); Some (mkTState s (tmain r) (tout r) i (tping r))
  | TKeepAlive => '(s, p) ← ping_step a (tsh r) (tping r); Some (mkTState s (tmain r) (tout r) (tin r) p)
  end.

Fixpoint t_run (es : list (TThread * TAnswer)) (r : TState) : option TState :=
  match es with
  | [] => Some r
  | e :: es => r' ← t_step e r; t_run es r'
  end.

Definition t_reachable (w : W) (r : TState) : Prop := exists es, t_run es (t_started w) = Some r.

End Tunnel.

#[global] Instance MainPc_eq_dec : EqDecision MainPc.
Proof. solve_decision. Defined.

Arguments TShared : clear implicits.
Arguments TState : clear implicits.

(** ** Lemmas: the writer *)

(** More fuel changes nothing. *)
Lemma write_loop_fuel {W} `{Writer W} f g (w : W) p :
  (String.length p < f)%nat -> (String.length p < g)%nat -> write_loop f w p = write_loop g w p.
Proof.
  revert g w p; induction f as [|f IH]; intros [|g] w p Hf Hg; try lia. cbn [write_loop].
  destruct (p =?s "") eqn:E; [done|]. destruct (Write w p) as [[w' count] err] eqn:Ew. destruct err; [done|].
  destruct (count =? 0)%nat eqn:Ec; [done|]. apply Nat.eqb_neq in Ec. apply Write_count in Ew.
  apply IH; rewrite str_length_drop; lia.
Qed.

(** One call of [Write]. *)
Lemma writeAll_step {W} `{Writer W} (w : W) p :
  (p =?s "") = false ->
  writeAll w p = let '(w', count, err) := Write w p in
                 if err : bool then (w', WriteError)
                 else if (count =? 0)%nat then (w', ErrShortWrite) else writeAll w' (str_drop count p).
Proof.
  intros Hp. unfold writeAll at 1. cbn [write_loop]. rewrite Hp.
  destruct (Write w p) as [[w' count] err] eqn:Ew. destruct err; [done|].
  destruct (count =? 0)%nat eqn:Ec; [done|]. apply Nat.eqb_neq in Ec. apply Write_count in Ew.
  unfold writeAll. apply write_loop_fuel; rewrite str_length_drop; lia.
Qed.

Lemma binary_payloads_app l k : binary_payloads (l ++ k) = binary_payloads l ++ binary_payloads k.
Proof. apply omap_app. Qed.

(** ** The direction towards the target *)

Section ToTarget.

Context {W : Type} `{TunnelTarget W}.

(** What the loop does from a point of its body on, if nothing comes between. *)
Definition in_future (pc : InPc) (w : W) (n : Z) (rest : list Frame) : W * Z * CopyEnd :=
  match pc with
  | InRead | InReport ReadFailed | InEnd ReadFailed => copyWebSocketToTarget w rest n
  | InWrite p q =>
      match writeAll w q with
      | (w', WriteOk) => copyWebSocketToTarget w' rest ((n + len p) mod 2 ^ 64)
      | (w', _) => (w', n, WriteFailed)
      end
  | InCloseWrite =>
      let (w', ok) := CloseWrite w in
      if ok : bool then copyWebSocketToTarget w' rest n else (w', n, CloseWriteFailed)
  | InReport e | InEnd e => (w, n, e)
  end.

(** Ended because this side closed the target. *)
Definition cut_off (s : TShared W) (pc : InPc) : Prop :=
  ts_target_up s = false
  /\ match pc with
     | InReport (WriteFailed | CloseWriteFailed) | InEnd (WriteFailed | CloseWriteFailed) => True
     | _ => False
     end.

Record in_inv (w0 : W) (s : TShared W) (i : InState) : Prop := {
  in_sim : (forall rest, copyWebSocketToTarget w0 (in_frames i ++ rest) 0
                         = in_future (in_pc i) (ts_target s) (ts_bytesIn s) rest)
           \/ cut_off s (in_pc i);
  in_bytes : exists tail, accepted (ts_target s) +:+ tail = accepted w0 +:+ concat_str (binary_payloads (in_frames i))
               /\ match in_pc i with
                  | InWrite _ rest => tail = rest
                  | InReport WriteFailed | InEnd WriteFailed => True
                  | _ => tail = ""
                  end }.

Lemma in_sim_frame (w : W) n f rest :
  copyWebSocketToTarget w (f :: rest) n = in_future (in_dispatch w f) w n rest.
Proof.
  destruct f as [p|p|]; cbn [copyWebSocketToTarget in_dispatch]; [|done|done].
  destruct (DecodeMessage p) as [m|]; [|done]. destruct (Type_ m =?s "tunnel-eof"); [|done].
  cbn [negb]. by destruct (is_TCPConn w).
Qed.

Lemma in_step_inv w0 a s i s' i' : in_inv w0 s i -> in_step a s i = Some (s', i') -> in_inv w0 s' i'.
Proof.
  intros [Hsim [tail [Hb Ht]]] Hs. destruct i as [pc frames]. cbn [in_pc in_frames] in *.
  unfold in_step in Hs. cbn [in_pc in_frames] in Hs.
  destruct pc as [|p q| |e|e], a; try discriminate Hs.
  - injection Hs as <- <-. constructor; [by left; destruct Hsim as [Hsim|[_ []]]|by exists tail].
  - destruct (negb _ || _); [discriminate Hs|]. injection Hs as <- <-. subst tail. rewrite str_app_nil_r in Hb.
    destruct Hsim as [Hsim|[_ []]]. constructor; cbn [in_pc in_frames].
    + left. intros rest. rewrite <- app_assoc. cbn [app]. by rewrite Hsim, <- in_sim_frame.
    + exists (concat_str (binary_payloads [f])). rewrite binary_payloads_app, concat_str_app, Hb, str_app_assoc.
      split; [done|]. unfold in_dispatch. destruct f as [d|d|]; cbn; [|by rewrite str_app_nil_r|done].
      by repeat case_match.
  - destruct (q =?s "") eqn:Eq.
    + injection Hs as <- <-. apply String.eqb_eq in Eq as ->. subst tail.
      destruct Hsim as [Hsim|[_ []]]. constructor; [left|by exists ""]. intros rest. rewrite Hsim. reflexivity.
    + destruct (ts_target_up s) eqn:Eu; [|discriminate Hs]. cbn [negb] in Hs. subst tail.
      destruct Hsim as [Hsim|[_ []]].
      destruct (Write (ts_target s) q) as [[w' count] err] eqn:Ew. injection Hs as <- <-.
      pose proof (Write_accepts _ _ _ _ _ Ew) as Ha.
      assert (accepted w' +:+ str_drop count q = accepted w0 +:+ concat_str (binary_payloads frames)) as Hacc.
      { by rewrite Ha, str_app_assoc, str_take_drop. }
      constructor; cbn [in_pc in_frames t_write ts_target ts_bytesIn].
      * left. intros rest. rewrite Hsim. cbn [in_future]. rewrite (writeAll_step _ q) by done. rewrite Ew.
        destruct err; [done|]. by destruct (count =? 0)%nat.
      * exists (str_drop count q). split; [done|]. by destruct (err || _).
  - destruct (ts_target_up s) eqn:Eu; cbn [orb] in Hs; [discriminate Hs|]. destruct (q =?s ""); [discriminate Hs|].
    injection Hs as <- <-. constructor; [by right|by exists tail].
  - destruct (ts_target_up s); [|discriminate Hs]. cbn [negb] in Hs. pose proof (CloseWrite_accepted (ts_target s)) as Ha.
    destruct Hsim as [Hsim|[_ []]]. cbn [in_future] in Hsim.
    destruct (CloseWrite (ts_target s)) as [w' ok] eqn:Ec. injection Hs as <- <-. cbn [fst] in Ha.
    constructor; cbn [in_pc in_frames t_write ts_target ts_bytesIn].
    + left. intros rest. rewrite Hsim. by destruct ok.
    + exists tail. rewrite Ha. by destruct ok.
  - destruct (ts_target_up s) eqn:Eu; [discriminate Hs|]. injection Hs as <- <-.
    constructor; [by right|by exists tail].
  - unfold t_report in Hs. destruct (2 <=? _)%nat; [discriminate Hs|]. injection Hs as <- <-.
    constructor; [|by exists tail]. by destruct Hsim as [Hsim|[? ?]]; [left|right]; destruct e.
Qed.

End ToTarget.

(** ** The direction from the target *)

Definition sent_data (l : list TOut) : list string :=
  omap (fun o => match o with OData d => Some d | _ => None end) l.

(** The data of the reads that gave bytes. *)
Definition read_data (reads : list (string * bool)) : list string :=
  filter (fun d => 0 < len d) (map fst reads).

Lemma read_data_snoc reads data failed :
  read_data (reads ++ [(data, failed)]) = read_data reads ++ (if 0 <? len data then [data] else []).
Proof.
  unfold read_data. rewrite map_app, filter_app. f_equal. cbn [map fst]. rewrite filter_cons, filter_nil.
  case_decide as Hd; [by rewrite (proj2 (Z.ltb_lt _ _)) by lia|by rewrite (proj2 (Z.ltb_ge _ _)) by lia].
Qed.

(** The reads of a loop that is still running; the last one of a loop that
    ended may have failed. *)
Definition unfailed (reads : list (string * bool)) : Prop := Forall (fun x => snd x = false) reads.

Lemma copy_reads reads last n :
  unfailed reads -> (length last <= 1)%nat -> 0 <= n < 2 ^ 64 ->
  copyTargetToWebSocket (fun _ => true) (reads ++ last) n
  = (read_data (reads ++ last), (n + len (concat_str (read_data (reads ++ last)))) mod 2 ^ 64).
Proof.
  intros HF Hl. revert n; induction HF as [|[d e] reads He _ IH]; intros n Hn.
  - destruct last as [|[d e] [|? ?]]; [| |simpl in Hl; lia]; cbn [app copyTargetToWebSocket].
    { change (len (concat_str (read_data []))) with 0. by rewrite Z.add_0_r, Z.mod_small by lia. }
    rewrite andb_false_r. change (read_data [(d, e)]) with (read_data ([] ++ [(d, e)])). rewrite read_data_snoc.
    change (read_data []) with (@nil string). cbn [app].
    destruct (0 <? len d); cbn; rewrite ?str_app_nil_r; destruct e; try done;
      change (len "") with 0; by rewrite Z.add_0_r, Z.mod_small by lia.
  - cbn in He. subst e. cbn [app copyTargetToWebSocket]. rewrite andb_false_r.
    change ((d, false) :: reads ++ last) with ([(d, false)] ++ (reads ++ last)).
    assert (read_data ([(d, false)] ++ (reads ++ last)) = (if 0 <? len d then [d] else []) ++ read_data (reads ++ last)) as ->.
    { change [(d, false)] with ([] ++ [(d, false)]). unfold read_data at 1. rewrite map_app, filter_app. f_equal.
      apply (read_data_snoc [] d false). }
    destruct (0 <? len d); cbn [app].
    + rewrite IH by (apply Z.mod_pos_bound; lia). f_equal.
      change (concat_str (d :: ?l)) with (d +:+ concat_str l). rewrite len_app, Zplus_mod_idemp_l. f_equal. lia.
    + by rewrite IH.
Qed.

Record out_inv {W} (s : TShared W) (o : OutState) : Prop := {
  out_chunks : exists lost, sent_data (ts_sent s) ++ lost = read_data (out_reads o)
                 /\ match out_pc o with
                    | OutRead => lost = []
                    | OutWrite d _ => lost = [d]
                    | _ => lost = [] \/ ts_broken s = true
                    end;
  out_count : ts_bytesOut s = len (concat_str (sent_data (ts_sent s))) mod 2 ^ 64;
  out_failed : match out_pc o with
               | OutRead => unfailed (out_reads o)
               | OutWrite d failed => exists pre, unfailed pre /\ out_reads o = pre ++ [(d, failed)]
               | _ => exists pre last, unfailed pre /\ (length last <= 1)%nat /\ out_reads o = pre ++ last
               end }.

Lemma out_step_inv {W} a (s : TShared W) o s' o' : out_inv s o -> out_step a s o = Some (s', o') -> out_inv s' o'.
Proof.
  intros [(lost & Hc & Hl) Hn Hf] Hs. destruct o as [pc reads]. unfold out_step in Hs. cbn [out_pc out_reads] in *.
  destruct pc as [|d failed| |], a as [| |data failed'| |]; try discriminate Hs.
  - destruct (_ || _); [discriminate Hs|]. injection Hs as <- <-. subst lost. rewrite app_nil_r in Hc.
    pose proof (read_data_snoc reads data failed') as Hr.
    destruct (0 <? len data); constructor; cbn [out_pc out_reads]; rewrite ?Hr; rewrite ?Hc.
    + by exists [data].
    + by rewrite <- Hc.
    + by exists reads.
    + exists []. split; [done|]. by destruct failed'; [left|].
    + by rewrite <- Hc.
    + destruct failed'; cbn [out_next]; [by exists reads, [(data, true)]|].
      apply Forall_app. by split; [|constructor].
  - destruct (t_writable s); [|discriminate Hs]. injection Hs as <- <-. subst lost.
    destruct Hf as (pre & Hpre & ->).
    assert (sent_data (ts_sent s ++ [OData d]) = read_data (pre ++ [(d, failed)])) as Hd.
    { unfold sent_data. rewrite omap_app. exact Hc. }
    constructor; cbn [out_pc out_reads t_count_out t_send ts_sent ts_bytesOut ts_broken].
    + exists []. rewrite app_nil_r. split; [exact Hd|]. by destruct failed; [left|].
    + rewrite Hn. unfold sent_data. rewrite omap_app. fold (sent_data (ts_sent s)). cbn [omap list_omap].
      rewrite concat_str_app, len_app, Zplus_mod_idemp_l. cbn [concat_str foldr]. by rewrite str_app_nil_r.
    + destruct failed; cbn [out_next]; [by exists pre, [(d, true)]|]. apply Forall_app. by split; [|constructor].
  - injection Hs as <- <-. destruct Hf as (pre & Hpre & ->).
    constructor; [exists lost; split; [done|by right]|done|by exists pre, [(d, failed)]].
  - unfold t_report in Hs. destruct (2 <=? _)%nat; [discriminate Hs|]. injection Hs as <- <-.
    constructor; [by exists lost|done|done].
Qed.

(** ** The whole tunnel *)

Section Whole.

Context {W : Type} `{TunnelTarget W}.

Definition main_phase (m : MainPc) : nat :=
  match m with
  | MainReceive => 0 | MainCancel => 1 | MainCloseTarget => 2 | MainCloseFrame => 3
  | MainDeferred => 4 | MainCloseConn => 5 | MainRelease => 6 | MainEnd => 7
  end.

(** How many results a direction has sent on [errCh]. *)
Definition out_sent (o : OutState) : nat := match out_pc o with OutEnd => 1 | _ => 0 end.
Definition in_sent (i : InState) : nat := match in_pc i with InEnd _ => 1 | _ => 0 end.

(** The state by the phase of the handler. *)
Record stage_inv (r : TState W) : Prop := {
  sg_target : ts_target_up (tsh r) = (main_phase (tmain r) <=? 2)%nat;
  sg_conn : ts_conn_up (tsh r) = (main_phase (tmain r) <=? 5)%nat;
  sg_cancelled : ts_cancelled (tsh r) = (2 <=? main_phase (tmain r))%nat;
  sg_released : ts_released (tsh r) = if (main_phase (tmain r) =? 7)%nat then 1%nat else 0%nat;
  sg_errs : (ts_errCh (tsh r) + (if (main_phase (tmain r) =? 0)%nat then 0 else 1) = out_sent (tout r) + in_sent (tin r))%nat }.

Record tunnel_inv (w0 : W) (r : TState W) : Prop := {
  ti_stage : stage_inv r;
  ti_in : in_inv w0 (tsh r) (tin r);
  ti_out : out_inv (tsh r) (tout r) }.

(** What a step of one goroutine leaves alone. *)
Definition same_phase (s s' : TShared W) : Prop :=
  ts_target_up s' = ts_target_up s /\ ts_conn_up s' = ts_conn_up s /\ ts_cancelled s' = ts_cancelled s
  /\ ts_released s' = ts_released s.

Lemma in_inv_other w0 s s' i :
  ts_target s' = ts_target s -> ts_bytesIn s' = ts_bytesIn s -> (ts_target_up s = false -> ts_target_up s' = false) ->
  in_inv w0 s i -> in_inv w0 s' i.
Proof.
  intros Ht Hb Hu [Hsim Hbytes]. constructor; rewrite ?Ht, ?Hb; [|done].
  destruct Hsim as [Hsim|[Hup Hpc]]; [by left|right]. split; auto.
Qed.

Lemma out_inv_other (s s' : TShared W) o :
  sent_data (ts_sent s') = sent_data (ts_sent s) -> ts_bytesOut s' = ts_bytesOut s ->
  (ts_broken s = true -> ts_broken s' = true) -> out_inv s o -> out_inv s' o.
Proof.
  intros Hs Hb Hbr [(lost & Hc & Hl) Hn Hf]. constructor; rewrite ?Hs, ?Hb; [|done..].
  exists lost. split; [done|]. destruct (out_pc o); [done|done|destruct Hl; auto..].
Qed.

Lemma sent_data_snoc l o : match o with OData _ => False | _ => True end -> sent_data (l ++ [o]) = sent_data l.
Proof. intros Ho. unfold sent_data. rewrite omap_app. destruct o; [done|apply app_nil_r..]. Qed.

Lemma report_spec (s s' : TShared W) : t_report s = Some s' -> (ts_errCh s < 2)%nat /\ s' = t_errs (S (ts_errCh s)) s.
Proof. unfold t_report. destruct (2 <=? ts_errCh s)%nat eqn:E; [done|]. intros [= <-]. split; [by apply Nat.leb_gt|done]. Qed.

Lemma out_step_keeps a s o s' o' :
  out_step a s o = Some (s', o') ->
  same_phase s s' /\ (ts_errCh s' + out_sent o = ts_errCh s + out_sent o')%nat
  /\ ts_target s' = ts_target s /\ ts_bytesIn s' = ts_bytesIn s.
Proof.
  unfold out_step, same_phase, out_sent. destruct o as [pc reads]. cbn [out_pc out_reads].
  destruct pc as [|d failed| |], a as [| |data failed'| |]; intros Hs; try discriminate Hs.
  - destruct (_ || _); [discriminate Hs|]. injection Hs as <- <-. cbn.
    split_and!; try done; destruct (0 <? len data); [done|by destruct failed'].
  - destruct (t_writable s); [|discriminate Hs]. injection Hs as <- <-. cbn. split_and!; try done; by destruct failed.
  - injection Hs as <- <-. by split_and!.
  - destruct (t_report s) as [s1|] eqn:Er; [|discriminate Hs]. injection Hs as <- <-.
    apply report_spec in Er as [_ ->]. cbn. split_and!; try done; lia.
Qed.

Lemma in_step_keeps a s i s' i' :
  in_step a s i = Some (s', i') ->
  same_phase s s' /\ (ts_errCh s' + in_sent i = ts_errCh s + in_sent i')%nat
  /\ ts_sent s' = ts_sent s /\ ts_bytesOut s' = ts_bytesOut s /\ ts_broken s' = ts_broken s.
Proof.
  unfold in_step, same_phase, in_sent. destruct i as [pc frames]. cbn [in_pc in_frames].
  destruct pc as [|p q| |e|e], a as [| |data failed'|f|]; intros Hs; try discriminate Hs.
  - injection Hs as <- <-. by split_and!.
  - destruct (_ || _); [discriminate Hs|]. injection Hs as <- <-. cbn. split_and!; try done;
      unfold in_dispatch; by repeat case_match.
  - destruct (q =?s ""); [injection Hs as <- <-; by split_and!|]. destruct (negb _); [discriminate Hs|].
    destruct (Write _ q) as [[w' count] err]. injection Hs as <- <-. cbn. split_and!; try done; by destruct (err || _).
  - destruct (_ || _); [discriminate Hs|]. injection Hs as <- <-. by split_and!.
  - destruct (negb _); [discriminate Hs|]. destruct (CloseWrite _) as [w' ok]. injection Hs as <- <-. cbn.
    split_and!; try done; by destruct ok.
  - destruct (ts_target_up s) eqn:Eu; [discriminate Hs|]. injection Hs as <- <-. by split_and!.
  - destruct (t_report s) as [s1|] eqn:Er; [|discriminate Hs]. injection Hs as <- <-.
    apply report_spec in Er as [_ ->]. cbn. split_and!; try done; lia.
Qed.

Lemma ping_step_keeps a (s : TShared W) p s' p' :
  ping_step a s p = Some (s', p') ->
  same_phase s s' /\ ts_errCh s' = ts_errCh s /\ ts_target s' = ts_target s /\ ts_bytesIn s' = ts_bytesIn s
  /\ sent_data (ts_sent s') = sent_data (ts_sent s) /\ ts_bytesOut s' = ts_bytesOut s /\ ts_broken s' = ts_broken s.
Proof.
  unfold ping_step, same_phase. destruct p, a; intros Hs; try discriminate Hs;
    repeat case_match; simplify_eq; split_and!; try done; by apply sent_data_snoc.
Qed.

Lemma main_step_keeps a (s : TShared W) m s' m' :
  main_step a s m = Some (s', m') ->
  ts_target s' = ts_target s /\ ts_bytesIn s' = ts_bytesIn s
  /\ sent_data (ts_sent s') = sent_data (ts_sent s) /\ ts_bytesOut s' = ts_bytesOut s
  /\ (ts_broken s = true -> ts_broken s' = true) /\ (ts_target_up s = false -> ts_target_up s' = false).
Proof.
  unfold main_step. destruct m, a; intros Hs; try discriminate Hs;
    repeat case_match; simplify_eq; split_and!; try done; by apply sent_data_snoc.
Qed.

(** One more step of the handler: the phases follow each other. *)
Lemma main_step_stage a (r : TState W) s' m' :
  stage_inv r -> main_step a (tsh r) (tmain r) = Some (s', m') -> stage_inv (mkTState s' m' (tout r) (tin r) (tping r)).
Proof.
  intros [H1 H2 H3 H4 H5] Hs. destruct r as [s m o i p]. cbn [tsh tmain tout tin tping] in *. unfold main_step in Hs.
  destruct m, a; try discriminate Hs; cbn in *; repeat case_match; simplify_eq; constructor; cbn; try done; try lia.
Qed.

Lemma t_step_inv w0 e r r' : tunnel_inv w0 r -> t_step e r = Some r' -> tunnel_inv w0 r'.
Proof.
  intros [Hst Hin Hout] Hs. destruct e as [t a], r as [s m o i p]. cbn [t_step tsh tmain tout tin tping] in *.
  destruct t.
  - destruct (main_step a s m) as [[s' m']|] eqn:E; [|discriminate Hs]. injection Hs as <-.
    pose proof (main_step_keeps _ _ _ _ _ E) as (K1 & K2 & K3 & K4 & K5 & K6).
    constructor; [by apply (main_step_stage a _ s' m' Hst)|by eapply in_inv_other|by eapply out_inv_other].
  - destruct (out_step a s o) as [[s' o']|] eqn:E; [|discriminate Hs]. injection Hs as <-.
    pose proof (out_step_keeps _ _ _ _ _ E) as ((S1 & S2 & S3 & S4) & K & K1 & K2).
    destruct Hst as [H1 H2 H3 H4 H5]. cbn in *.
    constructor; [|apply (in_inv_other w0 s s' i K1 K2); [by rewrite S1|done]|by eapply out_step_inv].
    constructor; cbn; try congruence. lia.
  - destruct (in_step a s i) as [[s' i']|] eqn:E; [|discriminate Hs]. injection Hs as <-.
    pose proof (in_step_keeps _ _ _ _ _ E) as ((S1 & S2 & S3 & S4) & K & K1 & K2 & K3).
    destruct Hst as [H1 H2 H3 H4 H5]. cbn in *.
    constructor; [|by eapply in_step_inv|apply (out_inv_other s s' o); [by rewrite K1|done|by rewrite K3|done]].
    constructor; cbn; try congruence. lia.
  - destruct (ping_step a s p) as [[s' p']|] eqn:E; [|discriminate Hs]. injection Hs as <-.
    pose proof (ping_step_keeps _ _ _ _ _ E) as ((S1 & S2 & S3 & S4) & K & K1 & K2 & K3 & K4 & K5).
    destruct Hst as [H1 H2 H3 H4 H5]. cbn in *.
    constructor; [|apply (in_inv_other w0 s s' i K1 K2); [by rewrite S1|done]|].
    2: { apply (out_inv_other s s' o K3 K4); [by rewrite K5|done]. }
    constructor; cbn; congruence.
Qed.

Lemma t_run_app es1 es2 (r : TState W) : t_run (es1 ++ es2) r = t_run es1 r ≫= t_run es2.
Proof. revert r; induction es1 as [|e es IH]; intros r; [done|]. cbn [app t_run]. destruct (t_step e r); [apply IH|done]. Qed.

Lemma t_run_inv w0 es r r' : tunnel_inv w0 r -> t_run es r = Some r' -> tunnel_inv w0 r'.
Proof.
  revert r; induction es as [|e es IH]; intros r Hi Hr; [by injection Hr as <-|].
  cbn [t_run] in Hr. destruct (t_step e r) as [r1|] eqn:E; [|discriminate Hr]. eapply IH; [|exact Hr]. by eapply t_step_inv.
Qed.

Lemma tunnel_reachable_inv w r : t_reachable w r -> tunnel_inv w r.
Proof.
  intros [es Hr]. eapply t_run_inv; [|exact Hr]. constructor; constructor; cbn; try done.
  - by left.
  - by exists "".
  - by exists [].
  - constructor.
Qed.

End Whole.
