(* ===== verification/TunnelTeardown.v ===== *)
(** * The end of a tunnel (internal/ws/tunnel.go)

    What every schedule of TunnelConcurrent's goroutines keeps: both directions
    do what the loops of Tunnel do, everything is released once, nothing waits
    for ever and no goroutine outlives the tunnel.  And what a target that
    closes its sending side does to the other direction. *)

From S2P Require Import Prelude GoStrings WsProtocol WsHandler Tunnel TunnelConcurrent.

(** ** Lemmas: goroutines that are left *)

Section Left.

Context {W : Type} `{TunnelTarget W}.

(** How many steps a goroutine has at most once both ends are closed. *)
Definition out_left (o : OutState) : nat :=
  match out_pc o with OutRead | OutWrite _ _ => 2 | OutReport => 1 | OutEnd => 0 end.
Definition in_left (i : InState) : nat :=
  match in_pc i with InRead | InCloseWrite => 2 | InWrite _ _ => 3 | InReport _ => 1 | InEnd _ => 0 end.
Definition ping_left (p : PingPc) : nat := match p with PingSelect => 2 | PingWrite => 1 | PingEnd => 0 end.
Definition tunnel_left (r : TState W) : nat := out_left (tout r) + in_left (tin r) + ping_left (tping r).

Definition all_ended (r : TState W) : bool :=
  match out_pc (tout r), in_pc (tin r), tping r with OutEnd, InEnd _, PingEnd => true | _, _, _ => false end.

Lemma out_step_left a (s : TShared W) o s' o' :
  ts_target_up s = false -> ts_conn_up s = false -> out_step a s o = Some (s', o') -> (out_left o' < out_left o)%nat.
Proof.
  intros Hu Hc Hs. destruct o as [pc reads]. unfold out_step, t_writable, out_left in *. rewrite Hu, Hc in Hs.
  cbn [out_pc out_reads] in *. destruct pc as [|d f| |], a as [| |data [|]| |]; try discriminate Hs; cbn in Hs.
  - destruct (String.eqb_spec data "") as [->|]; [|by rewrite orb_true_r in Hs]. injection Hs as <- <-. cbn. lia.
  - by rewrite orb_true_r in Hs.
  - injection Hs as <- <-. cbn. lia.
  - destruct (t_report s); [|discriminate Hs]. injection Hs as <- <-. cbn. lia.
Qed.

Lemma in_step_left a (s : TShared W) i s' i' :
  ts_target_up s = false -> ts_conn_up s = false -> in_step a s i = Some (s', i') -> (in_left i' < in_left i)%nat.
Proof.
  intros Hu Hc Hs. destruct i as [pc frames]. unfold in_step, in_left in *. rewrite Hu, Hc in Hs.
  cbn [in_pc in_frames negb orb] in *. destruct pc as [|p q| |e|e], a; try discriminate Hs.
  - injection Hs as <- <-. cbn. lia.
  - destruct (q =?s ""); [|discriminate Hs]. injection Hs as <- <-. cbn. lia.
  - destruct (q =?s ""); [discriminate Hs|]. injection Hs as <- <-. cbn. lia.
  - injection Hs as <- <-. cbn. lia.
  - destruct (t_report s); [|discriminate Hs]. injection Hs as <- <-. cbn. lia.
Qed.

Lemma ping_step_left a (s : TShared W) p s' p' :
  ts_conn_up s = false -> ping_step a s p = Some (s', p') -> (ping_left p' < ping_left p)%nat.
Proof.
  intros Hc Hs. unfold ping_step, t_writable in Hs. rewrite Hc in Hs.
  destruct p, a; try discriminate Hs; repeat case_match; simplify_eq; cbn; lia.
Qed.

(** After the handler's end every step is one of the last. *)
Lemma step_left e (r r' : TState W) :
  stage_inv r -> tmain r = MainEnd -> t_step e r = Some r' ->
  tmain r' = MainEnd /\ (tunnel_left r' < tunnel_left r)%nat.
Proof.
  intros [Hu Hc _ _ _] Hm Hs. rewrite Hm in Hu, Hc. cbn in Hu, Hc. destruct e as [t a], r as [s m o i p].
  cbn [tsh tmain tout tin tping] in *. subst m. unfold tunnel_left. cbn [t_step tsh tmain tout tin tping] in *. destruct t.
  - by destruct a.
  - destruct (out_step a s o) as [[s' o']|] eqn:E; [|discriminate Hs]. injection Hs as <-. cbn.
    apply out_step_left in E; [|done..]. split; [done|lia].
  - destruct (in_step a s i) as [[s' i']|] eqn:E; [|discriminate Hs]. injection Hs as <-. cbn.
    apply in_step_left in E; [|done..]. split; [done|lia].
  - destruct (ping_step a s p) as [[s' p']|] eqn:E; [|discriminate Hs]. injection Hs as <-. cbn.
    apply ping_step_left in E; [|done..]. split; [done|lia].
Qed.

Lemma run_left w0 es (r r' : TState W) :
  tunnel_inv w0 r -> tmain r = MainEnd -> t_run es r = Some r' ->
  tmain r' = MainEnd /\ (length es + tunnel_left r' <= tunnel_left r)%nat.
Proof.
  revert r; induction es as [|e es IH]; intros r Hi Hm Hr; [injection Hr as <-; split; [done|cbn; lia]|].
  cbn [t_run] in Hr. destruct (t_step e r) as [r1|] eqn:E; [|discriminate Hr].
  destruct (step_left e r r1 (ti_stage _ _ Hi) Hm E) as [Hm1 Hl].
  destruct (IH r1 (t_step_inv w0 e r r1 Hi E) Hm1 Hr) as [Hm' Hl']. split; [done|cbn [length]; lia].
Qed.

(** A goroutine that has not ended can take a step. *)
Lemma report_possible (r : TState W) :
  stage_inv r -> (out_sent (tout r) + in_sent (tin r) < 2)%nat -> exists s, t_report (tsh r) = Some s.
Proof.
  intros [_ _ _ _ He] Hl. unfold t_report. rewrite (proj2 (Nat.leb_gt 2 (ts_errCh (tsh r)))); [by eexists|].
  destruct (main_phase (tmain r) =? 0)%nat; lia.
Qed.

Lemma not_ended_moves (r : TState W) :
  stage_inv r -> tmain r = MainEnd -> all_ended r = false -> exists e r', t_step e r = Some r'.
Proof.
  intros Hst Hm He. pose proof (report_possible r Hst) as Hrep. destruct Hst as [Hu Hc Hcan _ _].
  rewrite Hm in Hu, Hc, Hcan. cbn in Hu, Hc, Hcan. destruct r as [s m [opc reads] [ipc frames] p].
  unfold all_ended, out_sent, in_sent in *. cbn [tsh tmain tout tin tping out_pc in_pc] in *.
  destruct opc as [|d f| |].
  - eexists (TFromTarget, AReads "" true), _. cbn. unfold out_step. cbn. by rewrite Hu.
  - eexists (TFromTarget, AFails), _. reflexivity.
  - destruct Hrep as [s1 Hs1]; [destruct ipc; lia|]. eexists (TFromTarget, AGo), _. cbn. unfold out_step. cbn. by rewrite Hs1.
  - destruct ipc as [|pl q| |e|e].
    + eexists (TToTarget, AFails), _. reflexivity.
    + destruct (q =?s "") eqn:Eq.
      * eexists (TToTarget, AGo), _. cbn. unfold in_step. cbn. by rewrite Eq.
      * eexists (TToTarget, AFails), _. cbn. unfold in_step. cbn. by rewrite Hu, Eq.
    + eexists (TToTarget, AFails), _. cbn. unfold in_step. cbn. by rewrite Hu.
    + destruct Hrep as [s1 Hs1]; [lia|]. eexists (TToTarget, AGo), _. cbn. unfold in_step. cbn. by rewrite Hs1.
    + destruct p; [| |discriminate He].
      * eexists (TKeepAlive, AGo), _. cbn. by rewrite Hcan.
      * eexists (TKeepAlive, AFails), _. reflexivity.
Qed.

(** ** Lemmas: the handler's end *)

(** What the handler does once a direction has ended, if the closing frame
    cannot be sent. *)
Definition main_answers (m : MainPc) : list (TThread * TAnswer) :=
  map (fun a => (TMain, a)) (drop (main_phase m) [AGo; AGo; AGo; AFails; AGo; AGo; AGo]).

Lemma main_ends (r : TState W) :
  (tmain r = MainReceive -> ts_errCh (tsh r) <> 0%nat) ->
  exists r', t_run (main_answers (tmain r)) r = Some r' /\ tmain r' = MainEnd.
Proof.
  intros Hr. destruct r as [s m o i p]. cbn [tmain tsh] in *.
  destruct m; try (eexists; split; reflexivity).
  specialize (Hr eq_refl). destruct s as [w up conn l br can errs rel bi bo]. cbn in Hr.
  destruct errs as [|errs]; [done|]. eexists; split; reflexivity.
Qed.

(** A direction can always end. *)
Lemma direction_ends (r : TState W) :
  stage_inv r -> tmain r = MainReceive -> ts_errCh (tsh r) = 0%nat ->
  exists es r', t_run es r = Some r' /\ tmain r' = MainReceive /\ ts_errCh (tsh r') <> 0%nat.
Proof.
  intros Hst Hm He. pose proof (sg_errs _ Hst) as Hs. pose proof (sg_target _ Hst) as Hu. rewrite Hm in Hs, Hu. cbn in Hs, Hu.
  rewrite He in Hs. destruct r as [s m [opc reads] i p]. cbn [tsh tmain tout tin] in *. subst m.
  assert (forall reads', exists r', t_run [(TFromTarget, AGo)] (mkTState s MainReceive (mkOut OutReport reads') i p) = Some r'
           /\ tmain r' = MainReceive /\ ts_errCh (tsh r') <> 0%nat) as Hrep.
  { intros reads'. eexists. cbn. unfold out_step. cbn. unfold t_report. rewrite He. cbn. by split_and!. }
  destruct opc as [|d f| |].
  - destruct (Hrep (reads ++ [("", true)])) as (r' & Hr & Hr'). exists [(TFromTarget, AReads "" true); (TFromTarget, AGo)], r'.
    split; [|exact Hr']. rewrite <- Hr. cbn. unfold out_step. cbn. by rewrite Hu.
  - exists [(TFromTarget, AFails); (TFromTarget, AGo)]. eexists. cbn. unfold out_step. cbn. unfold t_report. cbn. rewrite He. cbn. by split_and!.
  - destruct (Hrep reads) as (r' & Hr & Hr'). by exists [(TFromTarget, AGo)], r'.
  - cbn in Hs. lia.
Qed.

Lemma tunnel_ends w0 (r : TState W) :
  tunnel_inv w0 r -> exists es r', t_run es r = Some r' /\ tmain r' = MainEnd.
Proof.
  intros Hi. destruct (decide (tmain r = MainReceive /\ ts_errCh (tsh r) = 0%nat)) as [[Hm He]|Hn].
  - destruct (direction_ends r (ti_stage _ _ Hi) Hm He) as (es & r1 & Hr1 & Hm1 & He1).
    destruct (main_ends r1) as (r' & Hr' & Hend); [done|]. exists (es ++ main_answers (tmain r1)), r'.
    by rewrite t_run_app, Hr1.
  - destruct (main_ends r) as (r' & Hr' & Hend); [intros Hm He; by apply Hn|]. by exists (main_answers (tmain r)), r'.
Qed.

End Left.

(** ** Properties *)

(** C26.  The goroutines of a tunnel carry what the loops carry: at every moment,
    under every schedule, the target has taken a beginning of the bytes that
    came in binary frames, in order, and all of them outside a write that is
    going on or failed; when the direction has ended, target, counter and reason
    are those of [copyWebSocketToTarget] on the frames, unless this side closed the
    target under it.  Towards the client, what went out is a beginning of what
    was read, chunk by chunk, counted by [bytesOut]; if nothing was lost, it is
    that of [copyTargetToWebSocket] on the reads. *)
Theorem tunnel_streams :
  forall W `{TunnelTarget W} (w : W) (r : TState W), t_reachable w r ->
    (exists tail, accepted (ts_target (tsh r)) +:+ tail = accepted w +:+ concat_str (binary_payloads (in_frames (tin r)))
       /\ match in_pc (tin r) with
          | InWrite _ rest => tail = rest
          | InReport WriteFailed | InEnd WriteFailed => True
          | _ => tail = ""
          end)
    /\ (forall e, in_pc (tin r) = InEnd e ->
          copyWebSocketToTarget w (in_frames (tin r)) 0 = (ts_target (tsh r), ts_bytesIn (tsh r), e)
          \/ ts_target_up (tsh r) = false /\ (e = WriteFailed \/ e = CloseWriteFailed))
    /\ sent_data (ts_sent (tsh r)) `prefix_of` read_data (out_reads (tout r))
    /\ ts_bytesOut (tsh r) = len (concat_str (sent_data (ts_sent (tsh r)))) mod 2 ^ 64
    /\ (out_pc (tout r) = OutEnd -> sent_data (ts_sent (tsh r)) = read_data (out_reads (tout r)) ->
          copyTargetToWebSocket (fun _ => true) (out_reads (tout r)) 0
          = (sent_data (ts_sent (tsh r)), ts_bytesOut (tsh r))).
Proof.
  intros W HW w r Hr. destruct (tunnel_reachable_inv w r Hr) as [_ [Hsim Hbytes] [(lost & Hc & _) Hn Hf]].
  split_and!; [exact Hbytes| |by exists lost|exact Hn|].
  - intros e He. rewrite He in Hsim. destruct Hsim as [Hsim|[Hu Hpc]].
    + left. specialize (Hsim []). rewrite app_nil_r in Hsim. rewrite Hsim. by destruct e.
    + right. split; [exact Hu|]. destruct e; auto; contradiction.
  - intros He Hall. rewrite He in Hf. destruct Hf as (pre & last & Hpre & Hl & Hreads).
    rewrite Hreads, (copy_reads pre last 0) by (done || lia). rewrite <- Hreads, <- Hall, Hn. done.
Qed.

(** A tunnel in which both sides send, and the client leaves. *)
Definition tunnel_schedule : list (TThread * TAnswer) :=
  [(TToTarget, AReceives (BinaryMessage "hello")); (TFromTarget, AReads "SSH-2.0" false); (TToTarget, AGo);
   (TKeepAlive, ATick); (TFromTarget, AGo); (TToTarget, AGo); (TKeepAlive, AGo); (TToTarget, AGo); (TToTarget, AGo);
   (TToTarget, AFails); (TToTarget, AGo);
   (TMain, AGo); (TMain, AGo); (TMain, AGo); (TMain, AGo); (TMain, AGo); (TMain, AGo); (TMain, AGo);
   (TFromTarget, AReads "" true); (TKeepAlive, AGo); (TFromTarget, AGo)].

Definition tunnel_after (es : list (TThread * TAnswer)) : TState Buffer :=
  default (t_started (mkBuffer 2 "")) (t_run es (t_started (mkBuffer 2 ""))).

Lemma tunnel_after_reachable es :
  is_Some (t_run es (t_started (mkBuffer 2 ""))) -> t_reachable (mkBuffer 2 "") (tunnel_after es).
Proof. intros [r Hr]. exists es. unfold tunnel_after. by rewrite Hr. Qed.

Lemma tunnel_streams_witness :
  copyWebSocketToTarget (mkBuffer 2 "") [BinaryMessage "hello"] 0 = (mkBuffer 2 "hello", 5, ReadFailed)
  /\ copyTargetToWebSocket (fun _ => true) [("SSH-2.0", false); ("", true)] 0 = (["SSH-2.0"], 7).
Proof.
  destruct (tunnel_streams Buffer (mkBuffer 2 "") (tunnel_after tunnel_schedule)
    (tunnel_after_reachable tunnel_schedule ltac:(vm_compute; by eexists))) as (_ & H1 & _ & _ & H2).
  split.
  - destruct (H1 ReadFailed eq_refl) as [H|[_ [H|H]]]; [exact H|discriminate H..].
  - exact (H2 eq_refl eq_refl).
Defined.

(** C11.  A tunnel is taken down once, and leaves nothing behind: a schedule leads to
    the handler's return from every moment; the slot is given back exactly then;
    when the handler has returned, target and WebSocket are closed and the
    context is cancelled, no schedule takes more than seven further steps, and
    where none is possible every goroutine has ended: none waits for ever on the
    channel or on a closed connection. *)
Theorem tunnel_taken_down :
  forall W `{TunnelTarget W} (w : W) (r : TState W), t_reachable w r ->
    (exists es r', t_run es r = Some r' /\ tmain r' = MainEnd)
    /\ ts_released (tsh r) = (if bool_decide (tmain r = MainEnd) then 1 else 0)%nat
    /\ (tmain r = MainEnd ->
          ts_target_up (tsh r) = false /\ ts_conn_up (tsh r) = false /\ ts_cancelled (tsh r) = true
          /\ forall es r', t_run es r = Some r' ->
               (length es <= 7)%nat /\ ts_released (tsh r') = 1%nat
               /\ ((forall e, t_step e r' = None) -> all_ended r' = true)).
Proof.
  intros W HW w r Hr. pose proof (tunnel_reachable_inv w r Hr) as Hi. pose proof (ti_stage _ _ Hi) as Hst.
  split_and!.
  - by apply (tunnel_ends w).
  - rewrite (sg_released _ Hst). by destruct (tmain r).
  - intros Hm. pose proof (sg_target _ Hst) as H1. pose proof (sg_conn _ Hst) as H2. pose proof (sg_cancelled _ Hst) as H3.
    rewrite Hm in H1, H2, H3. split_and!; [done..|]. intros es r' Hes.
    pose proof (t_run_inv w es r r' Hi Hes) as Hi'. destruct (run_left w es r r' Hi Hm Hes) as [Hm' Hl].
    split_and!.
    + assert (tunnel_left r <= 7)%nat; [|lia]. unfold tunnel_left, out_left, in_left, ping_left.
      destruct (out_pc (tout r)), (in_pc (tin r)), (tping r); lia.
    + by rewrite (sg_released _ (ti_stage _ _ Hi')), Hm'.
    + intros Hno. destruct (all_ended r') eqn:E; [done|].
      destruct (not_ended_moves r' (ti_stage _ _ Hi') Hm' E) as (e & r2 & He). by rewrite Hno in He.
Qed.

Lemma tunnel_taken_down_witness :
  tmain (tunnel_after tunnel_schedule) = MainEnd /\ ts_released (tsh (tunnel_after tunnel_schedule)) = 1%nat
  /\ ts_conn_up (tsh (tunnel_after tunnel_schedule)) = false.
Proof.
  destruct (tunnel_taken_down Buffer (mkBuffer 2 "") (tunnel_after tunnel_schedule)
    (tunnel_after_reachable tunnel_schedule ltac:(vm_compute; by eexists))) as (_ & H1 & H2).
  split; [vm_compute; reflexivity|]. split; [rewrite H1; vm_compute; reflexivity|].
  destruct (H2 ltac:(vm_compute; reflexivity)) as (_ & H3 & _). exact H3.
Defined.

(** Half-closed connections: the client may close its sending side and still
    gets what the target answers afterwards; but a target that closes its
    sending side ends the tunnel, and bytes of the client that arrived before are
    not delivered although no write of the target failed. *)
Theorem tunnel_half_close_one_way :
  (exists r, t_reachable (mkBuffer 9 "") r
     /\ in_frames (tin r) = [BinaryMessage "ask"; TextMessage (EncodeMessage "tunnel-eof" None)]
     /\ sent_data (ts_sent (tsh r)) = ["answer"] /\ accepted (ts_target (tsh r)) = "ask"
     /\ tmain r = MainReceive)
  /\ (exists r, t_reachable (mkBuffer 9 "") r
        /\ in_frames (tin r) = [BinaryMessage "last words"] /\ out_reads (tout r) = [("", true)]
        /\ tmain r = MainEnd /\ all_ended r = true /\ accepted (ts_target (tsh r)) = "").
Proof.
  split.
  - eexists. split; [exists [(TToTarget, AReceives (BinaryMessage "ask")); (TToTarget, AGo); (TToTarget, AGo);
      (TToTarget, AReceives (TextMessage (EncodeMessage "tunnel-eof" None))); (TToTarget, AGo);
      (TFromTarget, AReads "answer" false); (TFromTarget, AGo)]; vm_compute; reflexivity|].
    split_and!; vm_compute; reflexivity.
  - eexists. split; [exists ([(TToTarget, AReceives (BinaryMessage "last words")); (TFromTarget, AReads "" true);
      (TFromTarget, AGo); (TMain, AGo); (TMain, AGo); (TMain, AGo); (TToTarget, AFails); (TToTarget, AGo)]
      ++ replicate 4 (TMain, AGo) ++ [(TKeepAlive, AGo)]); vm_compute; reflexivity|].
    split_and!; vm_compute; reflexivity.
Qed.
