(* ===== verification/Vault.v ===== *)
(** * The credential vault (internal/vault/vault.go)

    Credentials are stored as sealed JSON in one bucket of an embedded
    database, summaries without secrets in another; a third holds the salt of
    the old password-derived keys and the fingerprint of the master key.

    bbolt is modelled by what the code relies on: a bucket is a finite map,
    reading sees the last committed state, and a transaction either commits as
    a whole or leaves the database as it was and reports an error; which of the
    two is an argument ([commit]).  Time stamps are instants; their JSON text
    is the class [TimeText] (Go reads a time from the raw string, without
    undoing escapes, which no time it wrote has).  [argon2.IDKey] is a parameter, AES-GCM and SHA-256
    are those of [Auth]; random bytes, the clock and the key file are
    arguments. *)

From stdpp Require Import sorting.
From S2P Require Import Prelude GoStrings GoTime GoEncoding Json JsonDecode Auth.

(** The JSON text of a [time.Time] (RFC 3339) and its parsing. *)
Class TimeText : Type := {
  time_format : Z -> string;
  time_parse : string -> option Z;
  time_in_range : Z -> bool;
  time_parse_format : forall t, time_in_range t = true -> time_parse (time_format t) = Some t;
  time_format_utf8 : forall t, valid_utf8 (time_format t) = true }.

(** The zero [time.Time], 1 January of year 1. *)
Definition time_zero : Z := -62135596800 * Second.

Definition v2Prefix : string := "GWS2".

(** ** Credentials and summaries *)

Record Credential : Type := mkCredential {
  cr_ID : string; cr_Name : string; cr_Host : string; cr_Port : Z; cr_Username : string;
  cr_PrivateKey : string; cr_Passphrase : string; cr_Term : string; cr_UseHerdr : bool;
  cr_CreatedAt : Z; cr_UpdatedAt : Z }.

Record Summary : Type := mkSummary {
  su_ID : string; su_Owner : string; su_Name : string; su_Host : string; su_Port : Z;
  su_Username : string; su_Term : string; su_UseHerdr : bool;
  su_HasPrivateKey : bool; su_HasPassphrase : bool; su_UpdatedAt : Z }.

Definition summary_of (owner : string) (c : Credential) : Summary :=
  mkSummary (cr_ID c) owner (cr_Name c) (cr_Host c) (cr_Port c) (cr_Username c) (cr_Term c)
    (cr_UseHerdr c) (negb (cr_PrivateKey c =?s "")) (negb (cr_Passphrase c =?s "")) (cr_UpdatedAt c).

Definition zero_Credential : Credential :=
  mkCredential "" "" "" 0 "" "" "" "" false time_zero time_zero.
Definition zero_Summary : Summary :=
  mkSummary "" "" "" "" 0 "" "" false false false time_zero.

Section Encoding.

Context `{TimeText}.

Definition dec_time (v : json) (cur : Z) : option Z :=
  match v with
  | JStr s => time_parse s
  | JNull => Some cur
  | _ => None
  end.

Definition enc_time (t : Z) : json := JStr (time_format t).

(** The decoded struct: the credential and the legacy flag next to it. *)
Definition Credential_fields : list (field (Credential * bool)) :=
  let on {A} name (get : Credential -> A) dec set :=
    mkField (T := Credential * bool) name (fun p => get (fst p)) dec (fun x p => (set x (fst p), snd p)) in
  [ on "id" cr_ID dec_string (fun x '(mkCredential _ b c d e f g h i j k) => mkCredential x b c d e f g h i j k);
    on "name" cr_Name dec_string (fun x '(mkCredential a _ c d e f g h i j k) => mkCredential a x c d e f g h i j k);
    on "host" cr_Host dec_string (fun x '(mkCredential a b _ d e f g h i j k) => mkCredential a b x d e f g h i j k);
    on "port" cr_Port dec_int (fun x '(mkCredential a b c _ e f g h i j k) => mkCredential a b c x e f g h i j k);
    on "username" cr_Username dec_string (fun x '(mkCredential a b c d _ f g h i j k) => mkCredential a b c d x f g h i j k);
    on "privateKey" cr_PrivateKey dec_string (fun x '(mkCredential a b c d e _ g h i j k) => mkCredential a b c d e x g h i j k);
    on "passphrase" cr_Passphrase dec_string (fun x '(mkCredential a b c d e f _ h i j k) => mkCredential a b c d e f x h i j k);
    on "term" cr_Term dec_string (fun x '(mkCredential a b c d e f g _ i j k) => mkCredential a b c d e f g x i j k);
    on "useHerdr" cr_UseHerdr dec_bool (fun x '(mkCredential a b c d e f g h _ j k) => mkCredential a b c d e f g h x j k);
    on "createdAt" cr_CreatedAt dec_time (fun x '(mkCredential a b c d e f g h i _ k) => mkCredential a b c d e f g h i x k);
    on "updatedAt" cr_UpdatedAt dec_time (fun x '(mkCredential a b c d e f g h i j _) => mkCredential a b c d e f g h i j x);
    mkField "useTmux" snd dec_bool (fun x p => (fst p, x)) ].

Definition set_UseHerdr (b : bool) '(mkCredential i n h p u k s t _ c d) : Credential :=
  mkCredential i n h p u k s t b c d.

(** [Credential.UnmarshalJSON] on a text. *)
Definition decode_Credential (text : string) : option Credential :=
  match unmarshal (dec_struct Credential_fields) text (zero_Credential, false) with
  | Some (c, legacy) => Some (set_UseHerdr (cr_UseHerdr c || legacy) c)
  | None => None
  end.

(** [Credential.MarshalJSON] *)
Definition enc_Credential (c : Credential) : json := JObj (
  [("id", JStr (cr_ID c)); ("name", JStr (cr_Name c)); ("host", JStr (cr_Host c));
   ("port", enc_int (cr_Port c)); ("username", JStr (cr_Username c));
   ("privateKey", JStr (cr_PrivateKey c))]
  ++ omitempty "passphrase" (cr_Passphrase c)
  ++ [("term", JStr (cr_Term c)); ("useHerdr", JBool (cr_UseHerdr c));
      ("createdAt", enc_time (cr_CreatedAt c)); ("updatedAt", enc_time (cr_UpdatedAt c));
      ("useTmux", JBool (cr_UseHerdr c))]).

Definition Summary_fields : list (field (Summary * bool)) :=
  let on {A} name (get : Summary -> A) dec set :=
    mkField (T := Summary * bool) name (fun p => get (fst p)) dec (fun x p => (set x (fst p), snd p)) in
  [ on "id" su_ID dec_string (fun x '(mkSummary _ b c d e f g h i j k) => mkSummary x b c d e f g h i j k);
    on "owner" su_Owner dec_string (fun x '(mkSummary a _ c d e f g h i j k) => mkSummary a x c d e f g h i j k);
    on "name" su_Name dec_string (fun x '(mkSummary a b _ d e f g h i j k) => mkSummary a b x d e f g h i j k);
    on "host" su_Host dec_string (fun x '(mkSummary a b c _ e f g h i j k) => mkSummary a b c x e f g h i j k);
    on "port" su_Port dec_int (fun x '(mkSummary a b c d _ f g h i j k) => mkSummary a b c d x f g h i j k);
    on "username" su_Username dec_string (fun x '(mkSummary a b c d e _ g h i j k) => mkSummary a b c d e x g h i j k);
    on "term" su_Term dec_string (fun x '(mkSummary a b c d e f _ h i j k) => mkSummary a b c d e f x h i j k);
    on "useHerdr" su_UseHerdr dec_bool (fun x '(mkSummary a b c d e f g _ i j k) => mkSummary a b c d e f g x i j k);
    on "hasPrivateKey" su_HasPrivateKey dec_bool (fun x '(mkSummary a b c d e f g h _ j k) => mkSummary a b c d e f g h x j k);
    on "hasPassphrase" su_HasPassphrase dec_bool (fun x '(mkSummary a b c d e f g h i _ k) => mkSummary a b c d e f g h i x k);
    on "updatedAt" su_UpdatedAt dec_time (fun x '(mkSummary a b c d e f g h i j _) => mkSummary a b c d e f g h i j x);
    mkField "useTmux" snd dec_bool (fun x p => (fst p, x)) ].

Definition set_summary_UseHerdr (b : bool) '(mkSummary i o n h p u t _ k s d) : Summary :=
  mkSummary i o n h p u t b k s d.

(** [Summary.UnmarshalJSON] on a text. *)
Definition decode_Summary (text : string) : option Summary :=
  match unmarshal (dec_struct Summary_fields) text (zero_Summary, false) with
  | Some (s, legacy) => Some (set_summary_UseHerdr (su_UseHerdr s || legacy) s)
  | None => None
  end.

(** [Summary.MarshalJSON] *)
Definition enc_Summary (s : Summary) : json := JObj
  [("id", JStr (su_ID s)); ("owner", JStr (su_Owner s)); ("name", JStr (su_Name s));
   ("host", JStr (su_Host s)); ("port", enc_int (su_Port s)); ("username", JStr (su_Username s));
   ("term", JStr (su_Term s)); ("useHerdr", JBool (su_UseHerdr s));
   ("hasPrivateKey", JBool (su_HasPrivateKey s)); ("hasPassphrase", JBool (su_HasPassphrase s));
   ("updatedAt", enc_time (su_UpdatedAt s)); ("useTmux", JBool (su_UseHerdr s))].

End Encoding.

(** ** Records *)

Definition isV2 (sealed : string) : bool :=
  (String.length v2Prefix <? String.length sealed)%nat
  && (str_take (String.length v2Prefix) sealed =?s v2Prefix).

Section Records.

Context `{Crypto}.

(** AES accepts keys of 16, 24 and 32 bytes. *)
Definition aes_key_ok (key : string) : bool :=
  existsb (Nat.eqb (String.length key)) [16; 24; 32]%nat.

(** [nonce] are the random bytes, [None] when the random source fails. *)
Definition encrypt (key plaintext aad : string) (nonce : option string) : option string :=
  if negb (aes_key_ok key) then None
  else match nonce with
       | None => None
       | Some nonce => Some (nonce +:+ Seal key nonce plaintext aad)
       end.

Definition encryptV2 (key plaintext aad : string) (nonce : option string) : option string :=
  match encrypt key plaintext aad nonce with
  | Some sealed => Some (v2Prefix +:+ sealed)
  | None => None
  end.

Definition decrypt (key sealed aad : string) : option string :=
  if negb (aes_key_ok key) then None
  else if (String.length sealed <? NonceSize)%nat then None
  else AEAD_Open key (str_take NonceSize sealed) (str_drop NonceSize sealed) aad.

Definition decryptRecord (masterKey sealed aad : string) : option string :=
  if negb (isV2 sealed) then None
  else decrypt masterKey (str_drop (String.length v2Prefix) sealed) aad.

End Records.

(** ** The store *)

Record DB : Type := mkDB {
  meta_salt : option string; meta_fingerprint : option string;
  credentials : gmap string string; summaries : gmap string string }.

Record VStore : Type := mkVStore { db : DB; salt : string; masterKey : string }.

Definition set_db (s : VStore) (d : DB) : VStore := mkVStore d (salt s) (masterKey s).
Definition set_buckets (d : DB) (cs ss : gmap string string) : DB :=
  mkDB (meta_salt d) (meta_fingerprint d) cs ss.
Definition set_meta (d : DB) (salt fingerprint : option string) : DB :=
  mkDB salt fingerprint (credentials d) (summaries d).

Inductive VaultError : Type :=
| NotExist | UnableToDecrypt | BadJSON | CommitFailed | EncryptFailed | OwnerRequired | IDRequired
| PasswordRequired.

(** The order in which [ForEach] visits a bucket: by key, byte by byte. *)
Definition key_le (a b : string * string) : Prop := String.leb a.1 b.1 = true.

#[global] Instance key_le_dec a b : Decision (key_le a b).
Proof. unfold key_le. apply _. Defined.

Definition for_each (bucket : gmap string string) : list (string * string) :=
  merge_sort key_le (map_to_list bucket).

(** Insertion by name, one of the orders [sort.Slice] may give. *)
Section SortByName.
Context {A : Type} (name : A -> string).

Fixpoint insert_by_name (c : A) (l : list A) : list A :=
  match l with
  | [] => [c]
  | d :: l' => if String.leb (name c) (name d) then c :: l else d :: insert_by_name c l'
  end.

Definition sort_by_name (l : list A) : list A := foldr insert_by_name [] l.
End SortByName.

Section Store.

Context `{Crypto} `{TimeText}.

(** [json.Marshal] fails on a time stamp whose year is out of range. *)
Definition marshal_Credential (c : Credential) : option string :=
  if time_in_range (cr_CreatedAt c) && time_in_range (cr_UpdatedAt c)
  then Some (print (enc_Credential c)) else None.

Definition marshal_Summary (s : Summary) : option string :=
  if time_in_range (su_UpdatedAt s) then Some (print (enc_Summary s)) else None.

(** The bytes of one record as a credential: the body of [Get]'s transaction
    and of the loops over the bucket. *)
Definition read_record (s : VStore) (id sealed : string) : result VaultError Credential :=
  match decryptRecord (masterKey s) sealed id with
  | None => Err UnableToDecrypt
  | Some plaintext => of_option BadJSON (decode_Credential plaintext)
  end.

(** [Get] *)
Definition VGet (s : VStore) (id : string) : result VaultError Credential :=
  match credentials (db s) !! id with
  | None => Err NotExist
  | Some sealed => read_record s id sealed
  end.

(** The credential [PutForUser] stores, given what [Get] answers; [random] are
    the bytes of a new id. *)
Definition stamp (get : string -> result VaultError Credential) (c : Credential) (now : Z)
    (random : string) : Credential :=
  let '(mkCredential id n h p u k ps t uh created _) := c in
  let '(id, created) :=
    if id =?s "" then (B64Encode random, now)
    else if created =? time_zero
         then (id, match get id with Ok existing => cr_CreatedAt existing | Err _ => created end)
         else (id, created) in
  mkCredential id n h (if p =? 0 then 22 else p) u k ps (if t =?s "" then "xterm-256color" else t) uh
    created now.

Definition PutForUser (s : VStore) (owner : string) (c : Credential) (now : Z) (random : string)
    (nonce : option string) (commit : bool) : VStore * result VaultError Credential :=
  let c := stamp (VGet s) c now random in
  match marshal_Credential c with
  | None => (s, Err BadJSON)
  | Some plaintext =>
      match encryptV2 (masterKey s) plaintext (cr_ID c) nonce with
      | None => (s, Err EncryptFailed)
      | Some sealed =>
          let cs := <[cr_ID c := sealed]> (credentials (db s)) in
          let put ss := if commit then (set_db s (set_buckets (db s) cs ss), Ok c)
                        else (s, Err CommitFailed) in
          if owner =?s "" then put (summaries (db s))
          else match marshal_Summary (summary_of owner c) with
               | None => (s, Err BadJSON)
               | Some summary => put (<[cr_ID c := summary]> (summaries (db s)))
               end
      end
  end.

(** [Put] *)
Definition VPut (s : VStore) (c : Credential) : Z -> string -> option string -> bool ->
    VStore * result VaultError Credential := PutForUser s "" c.

(** [Delete] *)
Definition VDelete (s : VStore) (id : string) (commit : bool) : VStore * option VaultError :=
  if id =?s "" then (s, Some IDRequired)
  else if negb commit then (s, Some CommitFailed)
  else (set_db s (set_buckets (db s) (delete id (credentials (db s))) (delete id (summaries (db s)))), None).

(** [ListAvailable]: the readable credentials and how many were skipped. *)
Definition ListAvailable (s : VStore) : list Credential * nat :=
  let visit '(l, skipped) '(id, sealed) :=
    match read_record s id sealed with
    | Ok c => (l ++ [c], skipped)
    | Err _ => (l, S skipped)
    end in
  let (l, skipped) := fold_left visit (for_each (credentials (db s))) ([], 0%nat) in
  (sort_by_name cr_Name l, skipped).

(** [List] *)
Definition ListAll (s : VStore) : result VaultError (list Credential) :=
  let (l, skipped) := ListAvailable s in
  if (0 <? skipped)%nat then Err UnableToDecrypt else Ok l.

Definition LegacyCount (s : VStore) : nat :=
  fold_left (fun n '(_, sealed) => if isV2 sealed then n else S n) (for_each (credentials (db s))) 0%nat.

(** What [ListSummaries] reads of the summary bucket: the ids with a readable
    summary, and the summaries of this owner. *)
Definition known_summaries (s : VStore) (owner : string) : gset string * gmap string Summary :=
  fold_left (fun '(known, mine) '(id, raw) =>
      match decode_Summary raw with
      | None => (known, mine)
      | Some summary => ({[ id ]} ∪ known,
                         if su_Owner summary =?s owner then <[id := summary]> mine else mine)
      end)
    (for_each (summaries (db s))) (∅, ∅).

(** Its pass over the credentials: the summaries with those built for the
    credentials that have none, and the latter in the order they were built. *)
Definition backfill_summaries (s : VStore) (owner : string) (known : gset string)
    (mine : gmap string Summary) : gmap string Summary * list Summary :=
  fold_left (fun '(mine, backfill) '(id, sealed) =>
      if decide (id ∈ known) then (mine, backfill)
      else match read_record s id sealed with
           | Err _ => (mine, backfill)
           | Ok c => let summary := summary_of owner c in
                     (<[cr_ID c := summary]> mine, backfill ++ [summary])
           end)
    (for_each (credentials (db s))) (mine, []).

(** The transaction that stores them. *)
Fixpoint put_summaries (backfill : list Summary) (bucket : gmap string string) : option (gmap string string) :=
  match backfill with
  | [] => Some bucket
  | summary :: rest =>
      match marshal_Summary summary with
      | None => None
      | Some raw => put_summaries rest (<[su_ID summary := raw]> bucket)
      end
  end.

Definition ListSummaries (s : VStore) (owner : string) (commit : bool)
    : VStore * result VaultError (list Summary * nat) :=
  if owner =?s "" then (s, Err OwnerRequired)
  else
    let (known, mine) := known_summaries s owner in
    let (mine, backfill) := backfill_summaries s owner known mine in
    let listing := Ok (sort_by_name su_Name (map_to_list mine).*2, LegacyCount s) in
    match backfill with
    | [] => (s, listing)
    | _ => match put_summaries backfill (summaries (db s)) with
           | None => (s, Err BadJSON)
           | Some ss => if commit then (set_db s (set_buckets (db s) (credentials (db s)) ss), listing)
                        else (s, Err CommitFailed)
           end
    end.

(** One record under the old key. *)
Inductive migration : Type :=
| Current                          (* already under the master key *)
| Remains                          (* cannot be read with the old key *)
| Migrated (sealed : string).

Definition migrate_record (s : VStore) (legacyKey : string) (nonces : string -> option string)
    (id sealed : string) : result VaultError migration :=
  if isV2 sealed then Ok Current
  else match decrypt legacyKey sealed id with
       | None => Ok Remains
       | Some plaintext =>
           match decode_Credential plaintext with
           | None => Ok Remains
           | Some _ => match encryptV2 (masterKey s) plaintext id (nonces id) with
                       | None => Err EncryptFailed
                       | Some newSealed => Ok (Migrated newSealed)
                       end
           end
       end.

(** The pass over the bucket: the records to write back and the number of
    those that remain; it stops at a failure of the random source. *)
Fixpoint migrate_all (s : VStore) (legacyKey : string) (nonces : string -> option string)
    (rs : list (string * string)) : result VaultError (list (string * string) * nat) :=
  match rs with
  | [] => Ok ([], 0%nat)
  | (id, sealed) :: rs =>
      let! m := migrate_record s legacyKey nonces id sealed in
      let! (records, remaining) := migrate_all s legacyKey nonces rs in
      Ok (match m with
          | Current => (records, remaining)
          | Remains => (records, S remaining)
          | Migrated n => ((id, n) :: records, remaining)
          end)
  end.

Definition put_all (records : list (string * string)) (bucket : gmap string string) : gmap string string :=
  fold_left (fun m '(id, sealed) => <[id := sealed]> m) records bucket.

Context (IDKey : string -> string -> string).        (* argon2: password, salt *)

(** [MigrateLegacyFromPassword]: the numbers of migrated and of remaining
    legacy records.  (Those next to an error, which no caller reads, are left
    out.) *)
Definition MigrateLegacyFromPassword (s : VStore) (password : string)
    (nonces : string -> option string) (commit : bool)
    : VStore * result VaultError (nat * nat) :=
  if password =?s "" then (s, Err PasswordRequired)
  else
    match migrate_all s (IDKey password (salt s)) nonces (for_each (credentials (db s))) with
    | Err e => (s, Err e)
    | Ok (records, remaining) =>
        match records with
        | [] => (s, Ok (0%nat, remaining))
        | _ =>
            if commit
            then (set_db s (set_buckets (db s) (put_all records (credentials (db s))) (summaries (db s))),
                  Ok (length records, remaining))
            else (s, Err CommitFailed)
        end
    end.

End Store.

(** ** The master key *)

(** A path of the file system, as far as the key is concerned; an absent path
    has no entry.  [Unreadable] stands for a failure of inspecting, reading or
    securing it. *)
Inductive KeyFile : Type :=
| Symlink
| Unreadable
| Regular (content : string).

Inductive OpenError : Type :=
| DatabaseFailed | InvalidKey | KeySymlink | KeyUnreadable | KeyMissing | KeyNotCreated | KeyMismatch.

Record OpenOptions : Type := mkOpenOptions { oo_KeyFile : string; oo_KeyHex : string }.

(** What the calls of the operating system and the random source answer: the
    database can be opened and its first transaction commits, its mode can be
    set, the fingerprint's transaction commits, the key file can be created and
    written; the random bytes of a salt and of a key. *)
Record OpenWorld : Type := mkOpenWorld {
  ow_init : bool; ow_chmod : bool; ow_commit : bool; ow_create : bool;
  ow_salt : option string; ow_key : option string }.

Definition decodeMasterKey (value : string) : option string :=
  match HexDecode (TrimSpace value) with
  | Some decoded => if (String.length decoded =? 32)%nat then Some decoded else None
  | None => None
  end.

Definition newline : string := String "010"%char "".

(** The key, and the files after a key may have been created. *)
Definition loadMasterKey (opts : OpenOptions) (allowCreate : bool) (files : gmap string KeyFile)
    (w : OpenWorld) : gmap string KeyFile * result OpenError string :=
  if negb (TrimSpace (oo_KeyHex opts) =?s "")
  then (files, of_option InvalidKey (decodeMasterKey (oo_KeyHex opts)))
  else
    match files !! oo_KeyFile opts with
    | Some Symlink => (files, Err KeySymlink)
    | Some Unreadable => (files, Err KeyUnreadable)
    | Some (Regular raw) => (files, of_option InvalidKey (decodeMasterKey raw))
    | None =>
        if negb allowCreate then (files, Err KeyMissing)
        else match ow_key w with
             | None => (files, Err KeyNotCreated)
             | Some key =>
                 if negb (ow_create w) then (files, Err KeyNotCreated)
                 else (<[oo_KeyFile opts := Regular (HexEncode key +:+ newline)]> files, Ok key)
             end
    end.

Definition key_options (path : string) (options : option OpenOptions) : OpenOptions :=
  match options with
  | None => mkOpenOptions (path +:+ ".key") ""
  | Some o => if TrimSpace (oo_KeyFile o) =?s ""
              then mkOpenOptions (path +:+ ".key") (oo_KeyHex o) else o
  end.

Definition get_meta (o : option string) : string := match o with Some v => v | None => "" end.

(** [Open], on a database [d] (empty when the file is new). *)
Definition Open `{Crypto} (path : string) (options : option OpenOptions) (d : DB)
    (files : gmap string KeyFile) (w : OpenWorld) : DB * gmap string KeyFile * result OpenError VStore :=
  let opts := key_options path options in
  let '(d1, initialized) :=
    if negb (ow_init w) then (d, None)
    else if get_meta (meta_salt d) =?s ""
         then match ow_salt w with
              | None => (d, None)
              | Some fresh => (set_meta d (Some fresh) (meta_fingerprint d), Some fresh)
              end
         else (d, Some (get_meta (meta_salt d))) in
  match initialized with
  | None => (d1, files, Err DatabaseFailed)
  | Some salt =>
      let storedFingerprint := get_meta (meta_fingerprint d1) in
      if negb (ow_chmod w) then (d1, files, Err DatabaseFailed)
      else
        let '(files1, loaded) := loadMasterKey opts (storedFingerprint =?s "") files w in
        match loaded with
        | Err e => (d1, files1, Err e)
        | Ok key =>
            let fingerprint := SHA256 key in
            if negb (storedFingerprint =?s "") && negb (storedFingerprint =?s fingerprint)
            then (d1, files1, Err KeyMismatch)
            else if storedFingerprint =?s ""
                 then if ow_commit w
                      then let d2 := set_meta d1 (meta_salt d1) (Some fingerprint) in
                           (d2, files1, Ok (mkVStore d2 salt key))
                      else (d1, files1, Err DatabaseFailed)
                 else (d1, files1, Ok (mkVStore d1 salt key))
        end
  end.

(** ** Lemmas: the key file *)

Definition plain_text (t : string) : Prop := forall c, c ∈ chars t -> no_space_byte c = true.

Lemma plain_no_rune t r u v :
  plain_text t -> r ∈ space_runes -> t = u +:+ r +:+ v -> False.
Proof.
  intros Hp Hr ->. pose proof (space_runes_nonempty r Hr) as Hne. destruct r as [|c r]; [simpl in Hne; lia|].
  eapply (no_space_byte_rune c); [|exact Hr|constructor]. apply Hp.
  rewrite !chars_app. apply elem_of_app. right. apply elem_of_app. left. constructor.
Qed.

Lemma plain_trailing t : plain_text t -> trailing_space t = None.
Proof.
  intros Hp. unfold trailing_space. destruct (List.find _ _) as [r|] eqn:E; [|done].
  apply List.find_some in E as [Hin Hs]. apply list_elem_of_In in Hin.
  apply HasSuffix_spec in Hs as [u Hu]. exfalso. eapply (plain_no_rune t r u ""); [done|done|].
  by rewrite str_app_nil_r.
Qed.

Lemma trailing_newline t : trailing_space (t +:+ newline) = Some newline.
Proof.
  unfold trailing_space. destruct (List.find _ _) as [r|] eqn:E.
  - apply List.find_some in E as [Hin Hs]. apply HasSuffix_spec in Hs as [u Hu].
    assert (last (chars r) = Some "010"%char) as Hl.
    { assert (chars r <> []) as Hne.
      { intros Hn. apply list_elem_of_In, space_runes_nonempty in Hin. by destruct r; [simpl in Hin; lia|]. }
      apply (f_equal (fun s => last (chars s))) in Hu. rewrite !chars_app in Hu.
      change (chars newline) with ["010"%char] in Hu. rewrite last_snoc, last_app in Hu.
      destruct (last (chars r)) as [x|] eqn:El; [done|]. by apply last_None in El. }
    f_equal. revert Hl. generalize Hin. clear. intros Hin.
    repeat (destruct Hin as [<-|Hin]; [vm_compute; intros; congruence|]). done.
  - assert (HasSuffix (t +:+ newline) newline = true) as Hs by (apply HasSuffix_spec; by exists t).
    assert (List.In newline space_runes) as Hin by (right; by left).
    pose proof (List.find_none _ _ E newline Hin) as Hn. cbn beta in Hn. congruence.
Qed.

(** The line a key file holds is read back as the key. *)
Lemma TrimSpace_line t : t <> "" -> plain_text t -> TrimSpace (t +:+ newline) = t.
Proof.
  intros Hne Hp. unfold TrimSpace.
  assert (leading_space (t +:+ newline) = None) as Hl.
  { unfold leading_space. destruct (List.find _ _) as [r|] eqn:E; [|done].
    apply List.find_some in E as [Hin Hr]. apply HasPrefix_spec in Hr as [u Hu].
    apply list_elem_of_In in Hin. pose proof (space_runes_nonempty r Hin) as Hrn.
    destruct t as [|c t]; [done|]. destruct r as [|d r]; [simpl in Hrn; lia|].
    rewrite !str_app_cons in Hu. injection Hu as -> _.
    exfalso. eapply (no_space_byte_rune d); [|exact Hin|constructor]. apply Hp. constructor. }
  assert (forall n, trim_left n (t +:+ newline) = t +:+ newline) as ->.
  { intros [|n]; [done|]. cbn [trim_left]. by rewrite Hl. }
  rewrite str_length_app. change (String.length newline) with 1%nat. rewrite Nat.add_1_r.
  cbn [trim_right]. rewrite trailing_newline, str_length_app, Nat.add_sub, str_take_app.
  destruct (String.length t); [done|]. cbn [trim_right]. by rewrite plain_trailing.
Qed.

Lemma HexEncode_plain s : plain_text (HexEncode s).
Proof.
  induction s as [|c s IH]; [by intros ? ?%not_elem_of_nil|]. intros d. cbn [HexEncode].
  assert (forall n, 0 <= n < 16 -> no_space_byte (hex_digit n) = true) as Hd.
  { intros n Hn. assert (n ∈ seqZ 0 16) as Hin by (apply elem_of_seqZ; lia).
    revert n Hn Hin. intros n _ Hin. cbv [seqZ] in Hin. simpl in Hin.
    repeat (apply elem_of_cons in Hin as [->|Hin]; [reflexivity|]). by apply not_elem_of_nil in Hin. }
  pose proof (byte_of_range c). intros Hin.
  apply elem_of_cons in Hin as [->|Hin]; [apply Hd; zdiv|].
  apply elem_of_cons in Hin as [->|Hin]; [apply Hd; zdiv|]. by apply IH.
Qed.

Lemma decodeMasterKey_encode key :
  String.length key = 32%nat -> decodeMasterKey (HexEncode key +:+ newline) = Some key.
Proof.
  intros Hk. unfold decodeMasterKey. rewrite TrimSpace_line, HexDecode_Encode.
  - by rewrite Hk.
  - by destruct key.
  - apply HexEncode_plain.
Qed.

Lemma decodeMasterKey_length value key : decodeMasterKey value = Some key -> String.length key = 32%nat.
Proof.
  unfold decodeMasterKey. destruct (HexDecode _) as [d|]; [|done].
  destruct (String.length d =? 32)%nat eqn:E; [|done]. intros [= <-]. by apply Nat.eqb_eq.
Qed.

(** ** Lemmas: encoding *)

Section VaultFacts.

Context `{Crypto} `{TimeText}.

(** A credential whose JSON text is faithful: UTF-8 strings, a 64-bit port and
    time stamps in range. *)
Definition clean_credential (c : Credential) : bool :=
  forallb valid_utf8 [cr_ID c; cr_Name c; cr_Host c; cr_Username c; cr_PrivateKey c;
                      cr_Passphrase c; cr_Term c]
  && in_int64 (cr_Port c) && time_in_range (cr_CreatedAt c) && time_in_range (cr_UpdatedAt c).

Lemma decode_enc_Credential c :
  clean_credential c = true -> decode_Credential (print (enc_Credential c)) = Some c.
Proof.
  destruct c as [id n h p u k ps t uh cr up]. unfold clean_credential.
  cbn [forallb cr_ID cr_Name cr_Host cr_Username cr_PrivateKey cr_Passphrase cr_Term cr_Port
    cr_CreatedAt cr_UpdatedAt]. intros Hc. bool_facts.
  pose proof (time_format_utf8 cr). pose proof (time_format_utf8 up).
  assert (wire_clean (enc_Credential (mkCredential id n h p u k ps t uh cr up))) as Hw.
  { unfold enc_Credential, enc_time. cbn [cr_ID cr_Name cr_Host cr_Username cr_PrivateKey cr_Passphrase
      cr_Term cr_Port cr_CreatedAt cr_UpdatedAt cr_UseHerdr]. clean_members. }
  unfold decode_Credential, unmarshal. rewrite parse_print_clean by done.
  unfold enc_Credential, omitempty.
  cbn [cr_ID cr_Name cr_Host cr_Username cr_PrivateKey cr_Passphrase cr_Term cr_Port
    cr_CreatedAt cr_UpdatedAt cr_UseHerdr].
  assert (dec_struct Credential_fields
    (JObj ([("id", JStr id); ("name", JStr n); ("host", JStr h); ("port", enc_int p);
            ("username", JStr u); ("privateKey", JStr k)]
           ++ (if ps =?s "" then [] else [("passphrase", JStr ps)])
           ++ [("term", JStr t); ("useHerdr", JBool uh); ("createdAt", enc_time cr);
               ("updatedAt", enc_time up); ("useTmux", JBool uh)])) (zero_Credential, false)
    = Some (mkCredential id n h p u k ps t uh cr up, uh)) as Hd.
  { destruct (ps =?s "") eqn:Eps; bool_facts; subst; cbn -[Atoi Itoa];
      rewrite Atoi_Itoa_int64 by done; cbn -[Atoi Itoa]; rewrite time_parse_format by done;
      cbn -[Atoi Itoa]; rewrite time_parse_format by done; done. }
  cbn [unmarshal_raw]. rewrite Hd. cbn [set_UseHerdr cr_UseHerdr]. by destruct uh.
Qed.

Definition clean_summary (s : Summary) : bool :=
  forallb valid_utf8 [su_ID s; su_Owner s; su_Name s; su_Host s; su_Username s; su_Term s]
  && in_int64 (su_Port s) && time_in_range (su_UpdatedAt s).

Lemma decode_enc_Summary s :
  clean_summary s = true -> decode_Summary (print (enc_Summary s)) = Some s.
Proof.
  destruct s as [id o n h p u t uh pk pp up]. unfold clean_summary.
  cbn [forallb su_ID su_Owner su_Name su_Host su_Username su_Term su_Port su_UpdatedAt]. intros Hc.
  bool_facts. pose proof (time_format_utf8 up).
  assert (wire_clean (enc_Summary (mkSummary id o n h p u t uh pk pp up))) as Hw.
  { unfold enc_Summary, enc_time. cbn [su_ID su_Owner su_Name su_Host su_Username su_Term su_Port
      su_UpdatedAt su_UseHerdr su_HasPrivateKey su_HasPassphrase]. clean_members. }
  unfold decode_Summary, unmarshal. rewrite parse_print_clean by done. cbn [unmarshal_raw].
  assert (dec_struct Summary_fields (enc_Summary (mkSummary id o n h p u t uh pk pp up)) (zero_Summary, false)
          = Some (mkSummary id o n h p u t uh pk pp up, uh)) as ->.
  { cbn -[Atoi Itoa]. rewrite Atoi_Itoa_int64 by done. cbn -[Atoi Itoa].
    by rewrite time_parse_format by done. }
  cbn [set_summary_UseHerdr su_UseHerdr]. by destruct uh.
Qed.

(** ** Lemmas: sealing *)

Lemma isV2_prefix sealed : sealed <> "" -> isV2 (v2Prefix +:+ sealed) = true.
Proof.
  intros Hne. unfold isV2. rewrite str_length_app, str_take_app, String.eqb_refl.
  destruct sealed; [done|]. cbn [String.length]. rewrite andb_true_r. apply Nat.ltb_lt. lia.
Qed.

(** What the vault seals it opens, for the same key and id. *)
Lemma decrypt_encrypt key plaintext aad nonce sealed :
  String.length nonce = NonceSize -> encrypt key plaintext aad (Some nonce) = Some sealed ->
  decrypt key sealed aad = Some plaintext.
Proof.
  unfold encrypt, decrypt. intros Hn. destruct (aes_key_ok key); [|done]. cbn [negb].
  intros [= <-]. rewrite str_length_app, Hn.
  assert ((NonceSize + String.length (Seal key nonce plaintext aad) <? NonceSize)%nat = false) as ->
    by (apply Nat.ltb_ge; lia).
  rewrite <- Hn, str_take_app, str_drop_app. by apply Open_Seal.
Qed.

Lemma decryptRecord_encryptV2 key plaintext aad nonce sealed :
  String.length nonce = NonceSize -> encryptV2 key plaintext aad (Some nonce) = Some sealed ->
  isV2 sealed = true /\ decryptRecord key sealed aad = Some plaintext.
Proof.
  intros Hn. unfold encryptV2. destruct (encrypt _ _ _ _) as [s|] eqn:E; [|done]. intros [= <-].
  assert (s <> "") as Hs.
  { unfold encrypt in E. destruct (aes_key_ok key); [|done]. injection E as <-. by destruct nonce. }
  split; [by apply isV2_prefix|]. unfold decryptRecord. rewrite isV2_prefix by done. simpl negb. cbv iota.
  rewrite str_drop_app. by eapply decrypt_encrypt.
Qed.

(** What a record that opens is: the sealing of its text under this key and
    for this id. *)
Lemma decryptRecord_Some key sealed aad plaintext :
  decryptRecord key sealed aad = Some plaintext ->
  exists nonce, String.length nonce = NonceSize
    /\ sealed = v2Prefix +:+ nonce +:+ Seal key nonce plaintext aad.
Proof.
  unfold decryptRecord. destruct (isV2 sealed) eqn:Ev; [|done]. simpl negb. cbv iota.
  unfold isV2 in Ev. bool_facts.
  assert (sealed = v2Prefix +:+ str_drop (String.length v2Prefix) sealed) as Heq.
  { match goal with X : str_take _ sealed = v2Prefix |- _ => rewrite <- X at 1 end.
    by rewrite str_take_drop. }
  revert Heq. generalize (str_drop (String.length v2Prefix) sealed) as t. intros t ->.
  unfold decrypt. destruct (aes_key_ok key); [|done]. simpl negb. cbv iota.
  destruct (String.length t <? NonceSize)%nat eqn:El; [done|]. apply Nat.ltb_ge in El.
  intros Ho. apply Open_Seal in Ho. exists (str_take NonceSize t).
  split; [rewrite str_length_take; lia|]. by rewrite <- Ho, str_take_drop.
Qed.

Lemma encrypt_Some key plaintext aad nonce :
  aes_key_ok key = true -> exists sealed, encryptV2 key plaintext aad (Some nonce) = Some sealed.
Proof. intros Hk. unfold encryptV2, encrypt. rewrite Hk. by eexists. Qed.

(** ** Lemmas: buckets *)

Lemma for_each_perm bucket : for_each bucket ≡ₚ map_to_list bucket.
Proof. apply merge_sort_Permutation. Qed.

Lemma insert_by_name_perm {A} (name : A -> string) c l : insert_by_name name c l ≡ₚ c :: l.
Proof.
  induction l as [|d l IH]; [done|]. cbn [insert_by_name]. destruct (String.leb _ _); [done|].
  rewrite IH. constructor.
Qed.

Lemma sort_by_name_perm {A} (name : A -> string) l : sort_by_name name l ≡ₚ l.
Proof.
  induction l as [|d l IH]; [done|]. unfold sort_by_name in *. cbn [foldr].
  by rewrite insert_by_name_perm, IH.
Qed.

(** ** The abstract vault

    The credentials that can be read, under their ids. *)

Definition of_result (r : result VaultError Credential) : option Credential :=
  match r with Ok c => Some c | Err _ => None end.

Definition abstract (s : VStore) : gmap string Credential :=
  map_imap (fun id sealed => of_result (read_record s id sealed)) (credentials (db s)).

Lemma abstract_lookup s id : abstract s !! id = of_result (VGet s id).
Proof.
  unfold abstract, VGet. rewrite map_lookup_imap. by destruct (credentials (db s) !! id).
Qed.

(** Two answers of [Get] that agree where it succeeds stamp alike. *)
Lemma stamp_ext get get' c now random :
  (forall id, of_result (get id) = of_result (get' id)) -> stamp get c now random = stamp get' c now random.
Proof.
  intros He. destruct c as [id n h p u k ps t uh cr up]. unfold stamp.
  destruct (id =?s ""); [done|]. destruct (cr =? time_zero); [|done].
  specialize (He id). destruct (get id), (get' id); simpl in He; congruence.
Qed.

Lemma is_ascii_B64 s : is_ascii (B64Encode s) = true.
Proof.
  pose proof (B64Encode_chars s) as Hc. revert Hc. generalize (B64Encode s) as t.
  induction t as [|c t IH]; intros Hc; [done|]. cbn [is_ascii]. rewrite IH.
  - assert (b64_char c = true) as Hb by (apply Hc; constructor). rewrite andb_true_r.
    by destruct c as [[] [] [] [] [] [] [] []].
  - intros d Hd. apply Hc. by constructor.
Qed.

(** ** Lemmas: the operations on the abstract vault *)

Lemma read_record_sealed s id c nonce sealed :
  clean_credential c = true -> String.length nonce = NonceSize ->
  encryptV2 (masterKey s) (print (enc_Credential c)) id (Some nonce) = Some sealed ->
  read_record s id sealed = Ok c.
Proof.
  intros Hc Hn He. unfold read_record.
  destruct (decryptRecord_encryptV2 _ _ _ _ _ Hn He) as [_ ->]. by rewrite decode_enc_Credential.
Qed.

(** A credential whose stamp is clean is stored as stamped. *)
Lemma PutForUser_ok s owner c now random nonce commit :
  let c' := stamp (VGet s) c now random in
  clean_credential c' = true -> aes_key_ok (masterKey s) = true ->
  match nonce with Some n => String.length n = NonceSize | None => True end ->
  let '(s', r) := PutForUser s owner c now random nonce commit in
  masterKey s' = masterKey s /\
  match nonce, commit with
  | Some _, true => r = Ok c' /\ abstract s' = <[cr_ID c' := c']> (abstract s)
  | Some _, false => r = Err CommitFailed /\ s' = s
  | None, _ => r = Err EncryptFailed /\ s' = s
  end.
Proof.
  intros c' Hc Hk Hn. unfold PutForUser. fold c'.
  assert (time_in_range (cr_CreatedAt c') && time_in_range (cr_UpdatedAt c') = true) as Ht.
  { unfold clean_credential in Hc. bool_facts. by apply andb_true_iff. }
  unfold marshal_Credential. rewrite Ht. apply andb_true_iff in Ht as [_ Ht].
  destruct nonce as [n|].
  2:{ unfold encryptV2, encrypt. by rewrite Hk. }
  destruct (encrypt_Some (masterKey s) (print (enc_Credential c')) (cr_ID c') n Hk) as [sealed Hs].
  rewrite Hs. unfold marshal_Summary. cbn [summary_of su_UpdatedAt]. rewrite Ht.
  assert (forall ss, abstract (set_db s (set_buckets (db s) (<[cr_ID c' := sealed]> (credentials (db s))) ss))
                     = <[cr_ID c' := c']> (abstract s)) as Ha.
  { intros ss. unfold abstract. cbn [set_db db set_buckets credentials].
    erewrite map_imap_insert_Some; [done|]. unfold of_result.
    rewrite (read_record_sealed (set_db s _) _ _ n _ Hc Hn Hs). done. }
  destruct (owner =?s ""), commit; split_and!; try done; apply Ha.
Qed.

Lemma VDelete_spec s id commit :
  let '(s', e) := VDelete s id commit in
  masterKey s' = masterKey s /\
  abstract s' = (if (id =?s "") || negb commit then abstract s else delete id (abstract s))
  /\ (e = None <-> id <> "" /\ commit = true).
Proof.
  unfold VDelete. destruct (id =?s "") eqn:Ei; bool_facts; simpl; [by subst; naive_solver|].
  destruct commit; simpl; [|by naive_solver]. split; [done|]. split; [|done].
  unfold abstract. cbn [set_db db set_buckets credentials]. apply map_imap_delete.
Qed.

Lemma ListSummaries_abstract s owner commit :
  let s' := (ListSummaries s owner commit).1 in
  masterKey s' = masterKey s /\ credentials (db s') = credentials (db s) /\ abstract s' = abstract s.
Proof.
  unfold ListSummaries. destruct (owner =?s ""); [done|]. destruct (known_summaries _ _) as [known mine].
  destruct (backfill_summaries _ _ _ _) as [mine' [|b bs]]; [done|].
  destruct (put_summaries _ _); [|done]. by destruct commit.
Qed.

Lemma omap_map_to_list {A B} (f : string -> A -> option B) (m : gmap string A) :
  omap (fun '(i, x) => f i x) (map_to_list m) ≡ₚ (map_to_list (map_imap f m)).*2.
Proof.
  induction m as [|i x m Hi IH] using map_ind; [done|].
  rewrite (map_to_list_insert m i x Hi). cbn [omap list_omap].
  assert (map_imap f m !! i = None) as Hn by (by rewrite map_lookup_imap, Hi).
  rewrite map_imap_insert. destruct (f i x) as [y|].
  - rewrite map_to_list_insert by done. cbn [fmap list_fmap snd]. by rewrite <- IH.
  - by rewrite delete_id.
Qed.

(** The readable records of a list, and the loop that collects them. *)
Definition readable (s : VStore) (rs : list (string * string)) : list Credential :=
  omap (fun '(id, sealed) => of_result (read_record s id sealed)) rs.

Lemma readable_length s rs : (length (readable s rs) <= length rs)%nat.
Proof.
  induction rs as [|[id sealed] rs IH]; [done|]. cbn [readable omap list_omap].
  fold (readable s rs). destruct (of_result _); cbn [length]; lia.
Qed.

Lemma visit_all s rs l k :
  fold_left (fun '(l, skipped) '(id, sealed) =>
      match read_record s id sealed with Ok c => (l ++ [c], skipped) | Err _ => (l, S skipped) end) rs (l, k)
  = (l ++ readable s rs, k + (length rs - length (readable s rs)))%nat.
Proof.
  revert l k; induction rs as [|[id sealed] rs IH]; intros l k; cbn [fold_left length].
  - cbn. rewrite app_nil_r. f_equal. lia.
  - pose proof (readable_length s rs). cbn [readable omap list_omap]. fold (readable s rs).
    destruct (read_record s id sealed) as [c|e]; cbn [of_result length]; rewrite IH; f_equal; try lia.
    by rewrite <- app_assoc.
Qed.

Lemma ListAvailable_spec s :
  let (l, skipped) := ListAvailable s in
  l ≡ₚ (map_to_list (abstract s)).*2 /\ (length l + skipped = size (credentials (db s)))%nat.
Proof.
  unfold ListAvailable. rewrite visit_all. cbn [app Nat.add].
  pose proof (readable_length s (for_each (credentials (db s)))) as Hle.
  assert (readable s (for_each (credentials (db s))) ≡ₚ (map_to_list (abstract s)).*2) as Hp.
  { unfold readable, abstract. by rewrite <- omap_map_to_list, for_each_perm. }
  rewrite sort_by_name_perm. split; [done|].
  assert (length (for_each (credentials (db s))) = size (credentials (db s))) as Hs.
  { rewrite for_each_perm. apply length_map_to_list. }
  rewrite Hs in *. lia.
Qed.

(** ** Runs of the store *)

Inductive vault_op : Type :=
| OpPut (owner : string) (c : Credential) (now : Z) (random : string) (nonce : option string) (commit : bool)
| OpDelete (id : string) (commit : bool)
| OpListSummaries (owner : string) (commit : bool).

Definition vault_step (s : VStore) (op : vault_op) : VStore :=
  match op with
  | OpPut owner c now random nonce commit => (PutForUser s owner c now random nonce commit).1
  | OpDelete id commit => (VDelete s id commit).1
  | OpListSummaries owner commit => (ListSummaries s owner commit).1
  end.

(** What the operations do to the abstract vault: a put that is not stopped by
    the random source or the database inserts, a delete removes. *)
Definition spec_get (m : gmap string Credential) (id : string) : result VaultError Credential :=
  of_option NotExist (m !! id).

Definition spec_step (m : gmap string Credential) (op : vault_op) : gmap string Credential :=
  match op with
  | OpPut _ c now random (Some _) true =>
      let c' := stamp (spec_get m) c now random in <[cr_ID c' := c']> m
  | OpDelete id true => if id =?s "" then m else delete id m
  | _ => m
  end.

Definition op_clean (op : vault_op) : bool :=
  match op with
  | OpPut _ c now _ nonce _ =>
      clean_credential c && time_in_range now
      && match nonce with Some n => (String.length n =? NonceSize)%nat | None => true end
  | _ => true
  end.

Lemma stamp_clean get c now random :
  clean_credential c = true -> time_in_range now = true ->
  (forall id c, get id = Ok c -> time_in_range (cr_CreatedAt c) = true) ->
  clean_credential (stamp get c now random) = true.
Proof.
  destruct c as [id n h p u k ps t uh cr up]. unfold clean_credential, stamp. intros Hc Hn Hg.
  cbn [forallb cr_ID cr_Name cr_Host cr_Port cr_Username cr_PrivateKey cr_Passphrase cr_Term cr_CreatedAt
    cr_UpdatedAt] in Hc. bool_facts.
  assert (valid_utf8 (if t =?s "" then "xterm-256color" else t) = true) by (by destruct (t =?s "")).
  assert (in_int64 (if p =? 0 then 22 else p) = true) by (by destruct (p =? 0)).
  assert (valid_utf8 (B64Encode random) = true) by (apply valid_utf8_ascii, is_ascii_B64).
  assert (time_in_range (match get id with Ok existing => cr_CreatedAt existing | Err _ => cr end) = true)
    by (specialize (Hg id); destruct (get id); [by eapply Hg|done]).
  destruct (id =?s ""); [|destruct (cr =? time_zero)];
    cbn [forallb cr_ID cr_Name cr_Host cr_Port cr_Username cr_PrivateKey cr_Passphrase cr_Term cr_CreatedAt
      cr_UpdatedAt]; repeat match goal with H : ?b = true |- context [?b] => rewrite H end; done.
Qed.

(** What every reachable store satisfies. *)
Definition store_ok (s : VStore) : Prop :=
  aes_key_ok (masterKey s) = true
  /\ map_Forall (fun id c => cr_ID c = id /\ clean_credential c = true) (abstract s).

Lemma store_ok_get s id c :
  store_ok s -> VGet s id = Ok c -> cr_ID c = id /\ clean_credential c = true.
Proof. intros [_ Hs] Hg. apply (Hs id). by rewrite abstract_lookup, Hg. Qed.

Lemma vault_step_refines s op :
  store_ok s -> op_clean op = true ->
  store_ok (vault_step s op) /\ abstract (vault_step s op) = spec_step (abstract s) op.
Proof.
  intros [Hk Ht] Hc. destruct op as [owner c now random nonce commit|id commit|owner commit]; cbn [vault_step].
  - cbn [op_clean] in Hc. bool_facts.
    assert (forall id, of_result (VGet s id) = of_result (spec_get (abstract s) id)) as Hg.
    { intros id. unfold spec_get. rewrite abstract_lookup. by destruct (VGet s id). }
    assert (clean_credential (stamp (VGet s) c now random) = true) as Hs.
    { apply stamp_clean; [done|done|]. intros id c' Hgc.
      destruct (store_ok_get s id c' (conj Hk Ht) Hgc) as [_ Hcl]. unfold clean_credential in Hcl.
      by bool_facts. }
    pose proof (PutForUser_ok s owner c now random nonce commit Hs Hk) as Hp.
    destruct (PutForUser _ _ _ _ _ _ _) as [s' r]. cbn [fst spec_step].
    rewrite <- (stamp_ext (VGet s) _ c now random Hg).
    destruct Hp as [Hm Hp]. { destruct nonce; [|done]. by apply Nat.eqb_eq. }
    unfold store_ok. rewrite Hm.
    destruct nonce as [n|]; [destruct commit|]; destruct Hp as [_ Hp]; rewrite ?Hp; try (by subst).
    split; [|done]. split; [done|]. by apply map_Forall_insert_2.
  - pose proof (VDelete_spec s id commit) as Hd. destruct (VDelete s id commit) as [s' e].
    destruct Hd as (Hm & Ha & _). cbn [fst]. unfold store_ok. rewrite Hm, Ha. cbn [spec_step].
    destruct (id =?s ""), commit; simpl; (split; [split; [done|]|done]); try done. by apply map_Forall_delete.
  - destruct (ListSummaries_abstract s owner commit) as (Hm & _ & Ha). unfold store_ok. by rewrite Hm, Ha.
Qed.

Lemma vault_run_refines ops s :
  store_ok s -> forallb op_clean ops = true ->
  store_ok (fold_left vault_step ops s)
  /\ abstract (fold_left vault_step ops s) = fold_left spec_step ops (abstract s).
Proof.
  revert s; induction ops as [|op ops IH]; intros s Hs Hc; [done|]. cbn [forallb fold_left] in *.
  bool_facts. destruct (vault_step_refines s op Hs) as [Hs' <-]; [done|]. by apply IH.
Qed.

(** ** Lemmas: migration *)

Definition legacy (kv : string * string) : bool := negb (isV2 kv.2).
Definition legacy_count (bucket : gmap string string) : nat :=
  length (List.filter legacy (map_to_list bucket)).

#[local] Instance legacy_filter_perm : Proper (Permutation ==> Permutation) (List.filter legacy).
Proof.
  intros l l' Hp. induction Hp as [|x l l' _ IH|x y l|l l' l'' _ IH _ IH']; cbn [List.filter].
  - done.
  - destruct (legacy x); [by rewrite IH|done].
  - destruct (legacy x), (legacy y); try done. constructor.
  - by rewrite IH.
Qed.

Lemma LegacyCount_eq s : LegacyCount s = legacy_count (credentials (db s)).
Proof.
  unfold LegacyCount, legacy_count.
  assert (forall rs n, fold_left (fun n '(_, sealed) => if isV2 sealed then n else S n) rs n
                       = (n + length (List.filter legacy rs))%nat) as ->.
  { induction rs as [|[id sealed] rs IH]; intros n; cbn [fold_left List.filter length]; [lia|].
    rewrite IH. unfold legacy at 2. cbn [snd]. destruct (isV2 sealed); cbn [negb length]; lia. }
  by rewrite for_each_perm.
Qed.

(** Replacing a legacy record by a current one. *)
Lemma legacy_count_replace bucket id old new :
  bucket !! id = Some old -> isV2 old = false -> isV2 new = true ->
  legacy_count bucket = S (legacy_count (<[id := new]> bucket)).
Proof.
  intros Ho Hv Hn. unfold legacy_count.
  rewrite <- (map_to_list_delete _ _ _ Ho), <- insert_delete_eq,
    map_to_list_insert by (by rewrite lookup_delete_eq).
  cbn [List.filter]. change (legacy (id, old)) with (negb (isV2 old)).
  change (legacy (id, new)) with (negb (isV2 new)). by rewrite Hv, Hn.
Qed.

(** What a record that is written back is. *)
Definition migrates (s : VStore) (legacyKey : string) (nonces : string -> option string)
    (bucket : gmap string string) (id new : string) : Prop :=
  exists old p c, bucket !! id = Some old /\ isV2 old = false /\ decrypt legacyKey old id = Some p
    /\ decode_Credential p = Some c /\ encryptV2 (masterKey s) p id (nonces id) = Some new.

Definition unreadable (legacyKey id sealed : string) : Prop :=
  isV2 sealed = false
  /\ (decrypt legacyKey sealed id = None
      \/ exists p, decrypt legacyKey sealed id = Some p /\ decode_Credential p = None).

Lemma migrate_record_spec s legacyKey nonces bucket id sealed m :
  migrate_record s legacyKey nonces id sealed = Ok m -> bucket !! id = Some sealed ->
  match m with
  | Current => isV2 sealed = true
  | Remains => unreadable legacyKey id sealed
  | Migrated new => migrates s legacyKey nonces bucket id new
  end.
Proof.
  unfold migrate_record. intros Hm Hb. destruct (isV2 sealed) eqn:Ev; [by injection Hm as <-|].
  destruct (decrypt legacyKey sealed id) as [p|] eqn:Ed; [|by injection Hm as <-; split; [|left]].
  destruct (decode_Credential p) as [c|] eqn:Ec.
  - destruct (encryptV2 _ _ _ _) as [new|] eqn:Ee; [|done]. injection Hm as <-. by exists sealed, p, c.
  - injection Hm as <-. split; [done|]. right. by exists p.
Qed.

(** The pass over the bucket: which records are written back, which are left
    as they are, and the counts. *)
Lemma migrate_all_spec s legacyKey nonces bucket rs records remaining :
  migrate_all s legacyKey nonces rs = Ok (records, remaining) ->
  NoDup rs.*1 -> (forall id sealed, (id, sealed) ∈ rs -> bucket !! id = Some sealed) ->
  NoDup records.*1 /\ records.*1 ⊆ rs.*1
  /\ (forall id new, (id, new) ∈ records -> migrates s legacyKey nonces bucket id new)
  /\ (forall id sealed, (id, sealed) ∈ rs -> id ∉ records.*1 ->
        isV2 sealed = true \/ unreadable legacyKey id sealed)
  /\ length (List.filter legacy rs) = (length records + remaining)%nat.
Proof.
  revert records remaining; induction rs as [|[id sealed] rs IH]; intros records remaining Hm Hnd Hb;
    cbn [migrate_all] in Hm.
  { injection Hm as <- <-. split_and!; [constructor|set_solver|set_solver|set_solver|done]. }
  apply res_bind_Ok in Hm as (m & Hr & Hm). apply res_bind_Ok in Hm as ([records' remaining'] & Ha & Hm).
  cbn [fmap list_fmap fst] in *. apply NoDup_cons in Hnd as [Hni Hnd].
  assert (bucket !! id = Some sealed) as Hid by (apply Hb; constructor).
  destruct (IH _ _ Ha Hnd) as (H1 & H2 & H3 & H4 & H5); [intros ? ? ?; apply Hb; by constructor|].
  pose proof (migrate_record_spec _ _ _ _ _ _ _ Hr Hid) as Hs. cbn [List.filter]. unfold legacy at 1. cbn [snd].
  destruct m as [| |new]; injection Hm as <- <-.
  - rewrite Hs. cbn [negb]. split_and!; [done|set_solver|done| |done].
    intros i sl [[= -> ->]|Hin]%elem_of_cons Hn; [by left|by apply H4].
  - pose proof (proj1 Hs) as Hv. rewrite Hv. cbn [negb length]. split_and!; [done|set_solver|done| |lia].
    intros i sl [[= -> ->]|Hin]%elem_of_cons Hn; [by right|by apply H4].
  - assert (isV2 sealed = false) as Hv.
    { destruct Hs as (old & p & c & Ho & Hv & _). rewrite Hid in Ho. by injection Ho as <-. }
    rewrite Hv. cbn [negb length fmap list_fmap fst]. split_and!; [|set_solver| | |lia].
    + constructor; [|done]. intros Hin. by apply H2 in Hin.
    + intros i n [[= -> ->]|Hin]%elem_of_cons; [done|by apply H3].
    + intros i sl [[= -> ->]|Hin]%elem_of_cons Hn; [set_solver|]. apply H4; [done|set_solver].
Qed.

(** Writing the records back. *)
Lemma put_all_lookup records bucket id :
  NoDup records.*1 ->
  match (put_all records bucket) !! id with
  | Some sealed => (id, sealed) ∈ records \/ ((id ∉ records.*1) /\ bucket !! id = Some sealed)
  | None => (id ∉ records.*1) /\ bucket !! id = None
  end.
Proof.
  revert bucket; induction records as [|[k n] records IH]; intros bucket Hnd; cbn [put_all fold_left].
  { cbn. destruct (bucket !! id); [right|]; split; set_solver. }
  cbn [fmap list_fmap fst] in *. apply NoDup_cons in Hnd as [Hk Hnd].
  specialize (IH (<[k := n]> bucket) Hnd). unfold put_all in IH.
  destruct (decide (k = id)) as [->|Hne].
  - destruct (fold_left _ _ _ !! id) as [sealed|].
    + destruct IH as [Hin|[_ Hl]]; left; [by constructor|]. rewrite lookup_insert_eq in Hl.
      injection Hl as <-. constructor.
    + destruct IH as [_ Hl]. by rewrite lookup_insert_eq in Hl.
  - rewrite lookup_insert_ne in IH by done. destruct (fold_left _ _ _ !! id); set_solver.
Qed.

Lemma put_all_count records bucket :
  NoDup records.*1 ->
  (forall id new, (id, new) ∈ records -> isV2 new = true /\ exists old, bucket !! id = Some old /\ isV2 old = false) ->
  legacy_count bucket = (length records + legacy_count (put_all records bucket))%nat.
Proof.
  revert bucket; induction records as [|[k n] records IH]; intros bucket Hnd Hr; [done|].
  cbn [fmap list_fmap fst] in Hnd. apply NoDup_cons in Hnd as [Hk Hnd]. cbn [put_all fold_left length].
  destruct (Hr k n) as (Hn & old & Ho & Hv); [constructor|].
  rewrite (legacy_count_replace _ _ _ _ Ho Hv Hn).
  rewrite (IH (<[k := n]> bucket) Hnd); [done|]. intros id new Hin.
  destruct (Hr id new) as (H1 & old' & H2 & H3); [by constructor|]. split; [done|]. exists old'.
  rewrite lookup_insert_ne; [done|]. intros ->. apply Hk. apply list_elem_of_fmap. by exists (id, new).
Qed.

(** ** Lemmas: summaries *)

Lemma for_each_lookup bucket id raw : (id, raw) ∈ for_each bucket <-> bucket !! id = Some raw.
Proof. rewrite for_each_perm. apply elem_of_map_to_list. Qed.

Lemma for_each_NoDup bucket : NoDup (for_each bucket).*1.
Proof. rewrite for_each_perm. apply NoDup_fst_map_to_list. Qed.

Definition summary_stored (bucket : gmap string string) (id : string) (su : Summary) : Prop :=
  exists raw, bucket !! id = Some raw /\ decode_Summary raw = Some su.

Lemma known_summaries_spec s owner known mine :
  known_summaries s owner = (known, mine) ->
  (forall id, id ∈ known <-> exists su, summary_stored (summaries (db s)) id su)
  /\ (forall id su, mine !! id = Some su <-> summary_stored (summaries (db s)) id su /\ su_Owner su = owner).
Proof.
  unfold known_summaries. intros Hf.
  assert (forall rs known0 mine0, NoDup rs.*1 -> (forall id, id ∈ rs.*1 -> mine0 !! id = None) ->
    fold_left (fun '(known, mine) '(id, raw) =>
      match decode_Summary raw with
      | None => (known, mine)
      | Some summary => ({[ id ]} ∪ known, if su_Owner summary =?s owner then <[id := summary]> mine else mine)
      end) rs (known0, mine0) = (known, mine) ->
    (forall id, id ∈ known <-> id ∈ known0 \/ exists su raw, (id, raw) ∈ rs /\ decode_Summary raw = Some su)
    /\ (forall id su, mine !! id = Some su <-> mine0 !! id = Some su
          \/ exists raw, (id, raw) ∈ rs /\ decode_Summary raw = Some su /\ su_Owner su = owner)) as Hgen.
  { induction rs as [|[k raw] rs IH]; intros known0 mine0 Hnd Hd Hrs; cbn [fold_left] in Hrs.
    { injection Hrs as <- <-. split; set_solver. }
    cbn [fmap list_fmap fst] in *. apply NoDup_cons in Hnd as [Hk Hnd].
    assert (forall x, (k, x) ∉ rs) as Hkr by (intros x Hx; apply Hk, list_elem_of_fmap; by exists (k, x)).
    destruct (decode_Summary raw) as [su0|] eqn:Er.
    - apply IH in Hrs as [H1 H2]; [|done|].
      2:{ intros id Hid. destruct (su_Owner su0 =?s owner); [rewrite lookup_insert_ne|]; set_solver. }
      split; [intros id; rewrite H1; set_solver|]. intros id su. rewrite H2. clear H1 H2 IH.
      specialize (Hd k ltac:(set_solver)).
      destruct (su_Owner su0 =?s owner) eqn:Eo; bool_facts; [destruct (decide (id = k)) as [->|Hne];
        [rewrite lookup_insert_eq|rewrite lookup_insert_ne by done]|]; set_solver.
    - apply IH in Hrs as [H1 H2]; [|done|set_solver].
      split; [intros id; rewrite H1|intros id su; rewrite H2]; set_solver. }
  apply Hgen in Hf as [H1 H2]; [|apply for_each_NoDup|by intros; apply lookup_empty].
  split; [intros id; rewrite H1|intros id su; rewrite H2]; unfold summary_stored;
    setoid_rewrite for_each_lookup; [set_solver|]. rewrite lookup_empty. naive_solver.
Qed.

(** The readable credentials that have no readable summary. *)
Definition unclaimed (s : VStore) (known : gset string) (rs : list (string * string)) (id : string)
    (c : Credential) : Prop :=
  exists sealed, (id, sealed) ∈ rs /\ (id ∉ known) /\ read_record s id sealed = Ok c.

Lemma unclaimed_cons s known id0 sealed0 rs id c :
  unclaimed s known ((id0, sealed0) :: rs) id c
  <-> (id = id0 /\ (id0 ∉ known) /\ read_record s id0 sealed0 = Ok c) \/ unclaimed s known rs id c.
Proof.
  unfold unclaimed. split.
  - intros (sealed & [[= -> ->]|Hin]%elem_of_cons & Hk & Hr); [by left|right; by exists sealed].
  - intros [(-> & Hk & Hr)|(sealed & Hin & Hk & Hr)]; [exists sealed0|exists sealed]; by repeat constructor.
Qed.

Lemma backfill_spec s owner known rs (mine0 mine : gmap string Summary) (bf0 bf : list Summary) :
  NoDup rs.*1 ->
  (forall id c, unclaimed s known rs id c -> cr_ID c = id) ->
  (forall id, id ∈ rs.*1 -> id ∉ known -> mine0 !! id = None) ->
  fold_left (fun '(mine, backfill) '(id, sealed) =>
      if decide (id ∈ known) then (mine, backfill)
      else match read_record s id sealed with
           | Err _ => (mine, backfill)
           | Ok c => let summary := summary_of owner c in
                     (<[cr_ID c := summary]> mine, backfill ++ [summary])
           end) rs (mine0, bf0) = (mine, bf) ->
  (forall id su, mine !! id = Some su <-> mine0 !! id = Some su
      \/ exists c, unclaimed s known rs id c /\ su = summary_of owner c)
  /\ (forall su, su ∈ bf <-> su ∈ bf0 \/ exists id c, unclaimed s known rs id c /\ su = summary_of owner c).
Proof.
  revert mine0 bf0; induction rs as [|[k sealed] rs IH]; intros mine0 bf0 Hnd Hid Hd Hf; cbn [fold_left] in Hf.
  { injection Hf as <- <-. unfold unclaimed. set_solver. }
  cbn [fmap list_fmap fst] in *. apply NoDup_cons in Hnd as [Hk Hnd].
  setoid_rewrite unclaimed_cons in Hid. setoid_rewrite unclaimed_cons.
  destruct (decide (k ∈ known)) as [Hkn|Hkn]; [|destruct (read_record s k sealed) as [c|e] eqn:Er].
  - apply IH in Hf as [H1 H2]; [|done|naive_solver|set_solver].
    setoid_rewrite H1; setoid_rewrite H2. clear -Hkn. naive_solver.
  - assert (cr_ID c = k) as Hc by (apply Hid; left; done).
    apply IH in Hf as [H1 H2]; [|done|naive_solver|].
    2:{ intros id Hin Hn. rewrite Hc, lookup_insert_ne; [|by intros ->]. apply Hd; [by constructor|done]. }
    setoid_rewrite H1; setoid_rewrite H2. setoid_rewrite elem_of_app. setoid_rewrite list_elem_of_singleton.
    assert (mine0 !! k = None) as Hm by (apply Hd; [constructor|done]). rewrite Hc. split.
    + intros id su. destruct (decide (id = k)) as [->|Hne].
      * rewrite lookup_insert_eq. split; [intros [[= <-]|?]; naive_solver|].
        intros [?|(c' & [(_ & _ & [= <-])|Hu] & ->)]; [congruence|by left|]. right. by exists c'.
      * rewrite lookup_insert_ne by done. naive_solver.
    + intros su. naive_solver.
  - apply IH in Hf as [H1 H2]; [|done|naive_solver|set_solver].
    setoid_rewrite H1; setoid_rewrite H2. clear. naive_solver.
Qed.

Definition has_summary (bucket : gmap string string) (id : string) : Prop :=
  exists su, summary_stored bucket id su.

Lemma put_summaries_spec backfill bucket bucket' :
  Forall (fun su => clean_summary su = true) backfill ->
  put_summaries backfill bucket = Some bucket' ->
  (forall id, has_summary bucket id -> has_summary bucket' id)
  /\ (forall su, su ∈ backfill -> has_summary bucket' (su_ID su)).
Proof.
  revert bucket; induction backfill as [|su rest IH]; intros bucket Hc Hp; cbn [put_summaries] in Hp.
  { injection Hp as <-. split; [done|]. by intros su ?%not_elem_of_nil. }
  apply Forall_cons in Hc as [Hsu Hc]. unfold marshal_Summary in Hp.
  destruct (time_in_range (su_UpdatedAt su)); [|done]. apply IH in Hp as [H1 H2]; [|done].
  assert (has_summary (<[su_ID su := print (enc_Summary su)]> bucket) (su_ID su)) as Hnew.
  { exists su. eexists. rewrite lookup_insert_eq. split; [done|]. by apply decode_enc_Summary. }
  split.
  - intros id (su' & raw & Hl & Hd). apply H1. destruct (decide (id = su_ID su)) as [->|Hne]; [done|].
    exists su', raw. by rewrite lookup_insert_ne.
  - intros su' [->|Hin]%elem_of_cons; [by apply H1|by apply H2].
Qed.

Lemma summary_of_clean owner c :
  clean_credential c = true -> valid_utf8 owner = true -> clean_summary (summary_of owner c) = true.
Proof.
  unfold clean_credential, clean_summary. destruct c. cbn -[valid_utf8]. intros Hc Ho. bool_facts.
  repeat match goal with H : ?b = true |- context [?b] => rewrite H end. done.
Qed.

(** ** Lemmas: sorting *)

Lemma insert_by_name_sorted {A} (name : A -> string) c l :
  Sorted (fun a b => String.leb (name a) (name b) = true) l ->
  Sorted (fun a b => String.leb (name a) (name b) = true) (insert_by_name name c l).
Proof.
  induction l as [|d l IH]; intros Hs; cbn [insert_by_name]; [by repeat constructor|].
  destruct (String.leb (name c) (name d)) eqn:E; [constructor; [done|by constructor]|].
  assert (String.leb (name d) (name c) = true) as Hd.
  { destruct (String.leb_total (name c) (name d)); congruence. }
  inversion Hs as [|? ? Hl Hr]; subst. constructor; [by apply IH|].
  destruct l as [|e l]; cbn [insert_by_name]; [by constructor|].
  destruct (String.leb (name c) (name e)); constructor; [done|]. by inversion Hr.
Qed.

Lemma sort_by_name_sorted {A} (name : A -> string) l :
  Sorted (fun a b => String.leb (name a) (name b) = true) (sort_by_name name l).
Proof. induction l as [|c l IH]; [constructor|]. by apply insert_by_name_sorted. Qed.

Lemma ListAvailable_sorted s :
  Sorted (fun a b => String.leb (cr_Name a) (cr_Name b) = true) (ListAvailable s).1.
Proof.
  unfold ListAvailable. rewrite visit_all. apply sort_by_name_sorted.
Qed.

(** The store after a migration whose pass over the bucket succeeded. *)
Lemma migrated_store s legacyKey nonces records remaining :
  (forall id n, nonces id = Some n -> String.length n = NonceSize) ->
  migrate_all s legacyKey nonces (for_each (credentials (db s))) = Ok (records, remaining) ->
  let s' := set_db s (set_buckets (db s) (put_all records (credentials (db s))) (summaries (db s))) in
  (forall id, match credentials (db s) !! id with
              | None => credentials (db s') !! id = None
              | Some sealed =>
                  match (if isV2 sealed then None
                         else match decrypt legacyKey sealed id with
                              | Some p => decode_Credential p
                              | None => None
                              end) with
                  | Some c => VGet s' id = Ok c
                  | None => credentials (db s') !! id = Some sealed
                  end
              end)
  /\ LegacyCount s = (length records + remaining)%nat /\ LegacyCount s' = remaining.
Proof.
  intros Hn Hm s'.
  destruct (migrate_all_spec _ _ _ (credentials (db s)) _ _ _ Hm (for_each_NoDup _)) as (H1 & H2 & H3 & H4 & H5);
    [intros; by apply for_each_lookup|].
  assert (forall id new, (id, new) ∈ records -> isV2 new = true /\
            exists old, credentials (db s) !! id = Some old /\ isV2 old = false) as Hnew.
  { intros id new Hin. destruct (H3 _ _ Hin) as (old & p & c & Ho & Hv & _ & _ & He). split; [|by exists old].
    destruct (nonces id) as [n|] eqn:En; [|unfold encryptV2, encrypt in He; by destruct (negb _)].
    by eapply decryptRecord_encryptV2; [by eapply Hn|]. }
  assert (legacy_count (credentials (db s)) = length records + remaining)%nat as Hc.
  { unfold legacy_count. rewrite <- H5. by rewrite for_each_perm. }
  split; [|rewrite !LegacyCount_eq; split; [done|]; cbn [s' db set_db set_buckets credentials];
    pose proof (put_all_count records _ H1 Hnew); lia].
  intros id. pose proof (put_all_lookup records (credentials (db s)) id H1) as Hp.
  unfold VGet. cbn [s' db set_db set_buckets credentials].
  destruct (credentials (db s) !! id) as [sealed|] eqn:Es.
  2:{ destruct (put_all _ _ !! id) as [new|]; [|done].
      destruct Hp as [Hin|[_ ?]]; [|done]. destruct (Hnew _ _ Hin) as (_ & ? & ? & _). congruence. }
  destruct (put_all _ _ !! id) as [new|]; [|by destruct Hp]. destruct Hp as [Hin|[Hni [= ->]]].
  - destruct (H3 _ _ Hin) as (old & p & c & Ho & Hv & Hd & Hdc & He). assert (old = sealed) as -> by congruence.
    rewrite Hv, Hd, Hdc. destruct (nonces id) as [n|] eqn:En; [|unfold encryptV2, encrypt in He; by destruct (negb _)].
    unfold read_record. destruct (decryptRecord_encryptV2 _ _ _ _ _ (Hn _ _ En) He) as [_ Hr].
    change (masterKey s') with (masterKey s). by rewrite Hr, Hdc.
  - apply for_each_lookup in Es. destruct (H4 _ _ Es Hni) as [->|[-> [->|(p & -> & ->)]]]; done.
Qed.

(** A pass over records that are current or unreadable finds nothing to do. *)
Lemma migrate_all_idle s legacyKey nonces rs :
  (forall id sealed, (id, sealed) ∈ rs -> isV2 sealed = true \/ unreadable legacyKey id sealed) ->
  exists remaining, migrate_all s legacyKey nonces rs = Ok ([], remaining).
Proof.
  induction rs as [|[id sealed] rs IH]; intros Hrs; [by exists 0%nat|]. cbn [migrate_all].
  destruct IH as [r ->]; [intros i x Hin; apply Hrs; by constructor|]. unfold migrate_record.
  destruct (Hrs id sealed) as [->|[-> [->|(p & -> & ->)]]]; [constructor|..]; eexists; reflexivity.
Qed.

(** A second migration with the same key finds nothing to do. *)
Lemma migrate_all_again s s' legacyKey nonces nonces' records remaining :
  (forall id n, nonces id = Some n -> String.length n = NonceSize) ->
  migrate_all s legacyKey nonces (for_each (credentials (db s))) = Ok (records, remaining) ->
  exists remaining', migrate_all s' legacyKey nonces' (for_each (put_all records (credentials (db s))))
                     = Ok ([], remaining').
Proof.
  intros Hn Hm.
  destruct (migrate_all_spec _ _ _ (credentials (db s)) _ _ _ Hm (for_each_NoDup _)) as (H1 & _ & H3 & H4 & _);
    [intros; by apply for_each_lookup|].
  apply migrate_all_idle. intros id sealed Hin. apply for_each_lookup in Hin.
  pose proof (put_all_lookup records (credentials (db s)) id H1) as Hp. rewrite Hin in Hp.
  destruct Hp as [Hr|[Hni Hl]].
  - left. destruct (H3 _ _ Hr) as (old & p & c & _ & _ & _ & _ & He).
    destruct (nonces id) as [n|] eqn:En; [|unfold encryptV2, encrypt in He; by destruct (negb _)].
    by eapply decryptRecord_encryptV2; [by eapply Hn|].
  - apply H4; [by apply for_each_lookup|done].
Qed.

(** ** Lemmas: the master key *)

Lemma fingerprint_nonempty key : (SHA256 key =?s "") = false.
Proof. apply String.eqb_neq. intros E. pose proof (SHA256_size key) as Hs. by rewrite E in Hs. Qed.

(** A key that was loaded has 32 bytes and is loaded again from the files. *)
Lemma loadMasterKey_again opts create files w files1 key :
  loadMasterKey opts create files w = (files1, Ok key) ->
  (forall k, ow_key w = Some k -> String.length k = 32%nat) ->
  String.length key = 32%nat /\ (forall w', loadMasterKey opts false files1 w' = (files1, Ok key)).
Proof.
  unfold loadMasterKey. intros Hl Hk. destruct (negb (_ =?s _)).
  { injection Hl as <- Hd. destruct (decodeMasterKey _) as [k|] eqn:E; [|done]. injection Hd as <-.
    split; [by eapply decodeMasterKey_length|done]. }
  destruct (files !! oo_KeyFile opts) as [[| |raw]|] eqn:Ef; try done.
  - injection Hl as <- Hd. destruct (decodeMasterKey raw) as [k|] eqn:E; [|done]. injection Hd as <-.
    split; [by eapply decodeMasterKey_length|]. intros w'. by rewrite Ef, E.
  - destruct create; [|done]. cbn [negb] in Hl. destruct (ow_key w) as [k|] eqn:E; [|done].
    destruct (ow_create w); [|done]. injection Hl as <- <-. specialize (Hk k eq_refl). split; [done|].
    intros w'. by rewrite lookup_insert_eq, decodeMasterKey_encode.
Qed.

(** What a successful [Open] establishes. *)
Lemma Open_Ok path options d files w d1 files1 s :
  Open path options d files w = (d1, files1, Ok s) ->
  (forall key, ow_key w = Some key -> String.length key = 32%nat) ->
  (forall fresh, ow_salt w = Some fresh -> fresh <> "") ->
  db s = d1 /\ credentials d1 = credentials d /\ summaries d1 = summaries d
  /\ meta_salt d1 = Some (salt s) /\ salt s <> ""
  /\ meta_fingerprint d1 = Some (SHA256 (masterKey s))
  /\ (forall w', loadMasterKey (key_options path options) false files1 w' = (files1, Ok (masterKey s)))
  /\ String.length (masterKey s) = 32%nat.
Proof.
  unfold Open. intros Ho Hkey Hsalt. destruct (ow_init w); [|done]. cbn [negb] in Ho.
  assert (exists d0 salt, (if get_meta (meta_salt d) =?s ""
       then match ow_salt w with
            | None => (d, None)
            | Some fresh => (set_meta d (Some fresh) (meta_fingerprint d), Some fresh)
            end
       else (d, Some (get_meta (meta_salt d)))) = (d0, Some salt)
     /\ credentials d0 = credentials d /\ summaries d0 = summaries d /\ meta_salt d0 = Some salt
     /\ salt <> "" /\ meta_fingerprint d0 = meta_fingerprint d) as (d0 & sl & E & Hcs & Hss & Hms & Hne & _).
  { destruct (get_meta (meta_salt d) =?s "") eqn:E; bool_facts.
    - destruct (ow_salt w) as [fresh|]; [|done]. do 2 eexists. split; [done|]. split_and!; try done. auto.
    - exists d, (get_meta (meta_salt d)). split_and!; try done. destruct (meta_salt d); [done|]. done. }
  rewrite E in Ho. destruct (ow_chmod w); [|done]. cbn [negb] in Ho.
  destruct (loadMasterKey _ _ _ _) as [f [k|e]] eqn:El; [|done].
  apply loadMasterKey_again in El as [Hlen Hload]; [|done].
  destruct (get_meta (meta_fingerprint d0) =?s "") eqn:Ef; cbn [negb andb] in Ho.
  - destruct (ow_commit w); [|done]. injection Ho as <- <- <-. by split_and!.
  - destruct (_ =?s SHA256 k) eqn:Ek; [|done]. injection Ho as <- <- <-. bool_facts.
    split_and!; try done. cbn [masterKey]. rewrite <- Ek. destruct (meta_fingerprint d0); [done|]. done.
Qed.

(** [Open] on a database that was opened before: the key must be found and have
    the stored fingerprint. *)
Lemma Open_again path options d files w salt key :
  meta_salt d = Some salt -> salt <> "" -> meta_fingerprint d = Some (SHA256 key) ->
  Open path options d files w
  = if negb (ow_init w) then (d, files, Err DatabaseFailed)
    else if negb (ow_chmod w) then (d, files, Err DatabaseFailed)
    else let '(files1, loaded) := loadMasterKey (key_options path options) false files w in
         match loaded with
         | Err e => (d, files1, Err e)
         | Ok k => if SHA256 key =?s SHA256 k then (d, files1, Ok (mkVStore d salt k))
                   else (d, files1, Err KeyMismatch)
         end.
Proof.
  intros Hs Hne Hf. unfold Open. rewrite Hs. cbn [get_meta].
  apply String.eqb_neq in Hne. rewrite Hne. destruct (ow_init w); cbn [negb]; [|done].
  rewrite Hf. cbn [get_meta]. rewrite fingerprint_nonempty. destruct (ow_chmod w); cbn [negb]; [|done].
  destruct (loadMasterKey _ _ _ _) as [f [k|e]]; [|done]. cbn [negb andb]. by destruct (SHA256 key =?s _).
Qed.

Lemma loadMasterKey_no_create opts files w files1 r :
  loadMasterKey opts false files w = (files1, r) -> files1 = files.
Proof.
  unfold loadMasterKey. destruct (negb (_ =?s _)); [by intros [= <- _]|].
  destruct (files !! _) as [[| |raw]|]; cbn [negb]; by intros [= <- _].
Qed.

(** The two passes of [ListSummaries] together. *)
Lemma backfill_summaries_spec s owner known mine mine' bf :
  store_ok s ->
  (forall id, id ∈ known <-> has_summary (summaries (db s)) id) ->
  (forall id su, mine !! id = Some su <-> summary_stored (summaries (db s)) id su /\ su_Owner su = owner) ->
  backfill_summaries s owner known mine = (mine', bf) ->
  let unclaimed id c := VGet s id = Ok c /\ ~ has_summary (summaries (db s)) id in
  (forall id su, mine' !! id = Some su <-> (summary_stored (summaries (db s)) id su /\ su_Owner su = owner)
      \/ exists c, unclaimed id c /\ su = summary_of owner c)
  /\ (forall su, su ∈ bf <-> exists id c, unclaimed id c /\ su = summary_of owner c).
Proof.
  intros Hs Hk Hm Hf unclaimed'.
  assert (forall id c, unclaimed s known (for_each (credentials (db s))) id c <-> unclaimed' id c) as Hu.
  { intros id c. unfold unclaimed, unclaimed'. setoid_rewrite for_each_lookup. setoid_rewrite Hk.
    unfold VGet. destruct (credentials (db s) !! id) as [sealed|]; naive_solver. }
  apply backfill_spec in Hf as [H1 H2]; [|apply for_each_NoDup| |].
  - setoid_rewrite H1; setoid_rewrite H2. setoid_rewrite Hm. setoid_rewrite Hu. split; [done|].
    intros su. split; [|by right]. by intros [?%not_elem_of_nil|].
  - intros id c Huc. apply Hu in Huc as [Hg _]. by apply (store_ok_get s id c).
  - intros id _ Hn. apply eq_None_not_Some. intros [su Hsu]. apply Hm in Hsu as [Hsu _].
    apply Hn, Hk. by exists su.
Qed.

End VaultFacts.

Section VaultProperties.

Context `{Crypto} `{TimeText}.

(** C22.  The vault is a finite map: whatever puts, deletes and listings a
    store has seen, with the random source and the database failing at any of
    them, reading an id gives what the map of credentials that runs the same
    operations holds there, and listing gives its values sorted by name, with
    the number of the records that cannot be read. *)
Theorem vault_refines ops s :
  store_ok s -> forallb op_clean ops = true ->
  let s' := fold_left vault_step ops s in
  let m := fold_left spec_step ops (abstract s) in
  (forall id c, VGet s' id = Ok c <-> m !! id = Some c)
  /\ (let (l, skipped) := ListAvailable s' in
      l ≡ₚ (map_to_list m).*2 /\ Sorted (fun a b => String.leb (cr_Name a) (cr_Name b) = true) l
      /\ (length l + skipped = size (credentials (db s')))%nat)
  /\ (forall l, ListAll s' = Ok l -> l ≡ₚ (map_to_list m).*2 /\ length l = size (credentials (db s'))).
Proof.
  intros Hs Hc s' m. destruct (vault_run_refines ops s Hs Hc) as [_ Ha].
  fold s' in Ha. fold m in Ha. rewrite <- Ha. pose proof (ListAvailable_spec s') as Hl. split; [|split].
  - intros id c. rewrite abstract_lookup. destruct (VGet s' id); simpl; naive_solver.
  - pose proof (ListAvailable_sorted s') as Hsort.
    destruct (ListAvailable s') as [l k]. by destruct Hl.
  - unfold ListAll. destruct (ListAvailable s') as [l k]. intros l' Hl'.
    destruct (0 <? k)%nat eqn:Ek; [done|]. injection Hl' as <-. apply Nat.ltb_ge in Ek.
    destruct Hl as [Hp Hn]. split; [done|lia].
Qed.

Context (IDKey : string -> string -> string).

(** What the old key makes of a record. *)
Definition legacy_reading (legacyKey id sealed : string) : option Credential :=
  if isV2 sealed then None
  else match decrypt legacyKey sealed id with
       | Some p => decode_Credential p
       | None => None
       end.

(** What a migration does. *)
Lemma MigrateLegacy_spec s password nonces commit :
  (forall id n, nonces id = Some n -> String.length n = NonceSize) ->
  let legacyKey := IDKey password (salt s) in
  match MigrateLegacyFromPassword IDKey s password nonces commit with
  | (s', Err _) => s' = s
  | (s', Ok (migrated, remaining)) =>
      (forall id, match credentials (db s) !! id with
                  | None => credentials (db s') !! id = None
                  | Some sealed => match legacy_reading legacyKey id sealed with
                                   | Some c => VGet s' id = Ok c
                                   | None => credentials (db s') !! id = Some sealed
                                   end
                  end)
      /\ (LegacyCount s = migrated + remaining)%nat /\ LegacyCount s' = remaining
      /\ summaries (db s') = summaries (db s) /\ masterKey s' = masterKey s /\ salt s' = salt s
  end.
Proof.
  intros Hn key. unfold MigrateLegacyFromPassword. destruct (password =?s ""); [done|]. fold key.
  destruct (migrate_all _ _ _ _) as [[records remaining]|e] eqn:Em; [|done].
  pose proof (migrated_store s key nonces records remaining Hn Em) as (Hl & H1 & H2).
  destruct records as [|r rs]; [|destruct commit; [|done]].
  - split_and!; done.
  - split_and!; done.
Qed.

(** C23.  Migration loses nothing: after it every record the old key reads is
    readable, with the same content, under the master key; every other record
    and the summaries are as they were; the two numbers are those of the
    legacy records migrated and left.  When it fails, for want of a password,
    random bytes or a committed transaction, the store is as it was. *)
Theorem migration_exact s password nonces commit :
  (forall id n, nonces id = Some n -> String.length n = NonceSize) ->
  let legacyKey := IDKey password (salt s) in
  match MigrateLegacyFromPassword IDKey s password nonces commit with
  | (s', Err _) => s' = s
  | (s', Ok (migrated, remaining)) =>
      (forall id, match credentials (db s) !! id with
                  | None => credentials (db s') !! id = None
                  | Some sealed => match legacy_reading legacyKey id sealed with
                                   | Some c => VGet s' id = Ok c
                                   | None => credentials (db s') !! id = Some sealed
                                   end
                  end)
      /\ (LegacyCount s = migrated + remaining)%nat /\ LegacyCount s' = remaining
      /\ summaries (db s') = summaries (db s) /\ masterKey s' = masterKey s /\ salt s' = salt s
  end.
Proof. apply MigrateLegacy_spec. Qed.

(** The master key is chosen once: when a database has been opened, its
    records stay, and every later opening of it with a working file system
    gives the same key and salt; and no later opening, wherever the key comes
    from, succeeds with a key of another fingerprint or creates a new key. *)
Theorem open_keeps_key path options d files w d1 files1 s :
  Open path options d files w = (d1, files1, Ok s) ->
  (forall key, ow_key w = Some key -> String.length key = 32%nat) ->
  (forall fresh, ow_salt w = Some fresh -> fresh <> "") ->
  db s = d1 /\ credentials d1 = credentials d /\ summaries d1 = summaries d
  /\ String.length (masterKey s) = 32%nat
  /\ (forall cs ss w', ow_init w' = true -> ow_chmod w' = true ->
        let later := set_buckets d1 cs ss in
        Open path options later files1 w' = (later, files1, Ok (mkVStore later (salt s) (masterKey s))))
  /\ (forall cs ss path' options' files' w' d' files'' s',
        Open path' options' (set_buckets d1 cs ss) files' w' = (d', files'', Ok s') ->
        SHA256 (masterKey s') = SHA256 (masterKey s) /\ files'' = files').
Proof.
  intros Ho Hkey Hsalt. destruct (Open_Ok _ _ _ _ _ _ _ _ Ho Hkey Hsalt)
    as (Hdb & Hcs & Hss & Hms & Hsne & Hmf & Hload & Hlen). split_and!; try done.
  - intros cs ss w' Hi Hc later. rewrite (Open_again _ _ later _ _ (salt s) (masterKey s)) by done.
    rewrite Hi, Hc, Hload. cbn [negb]. by rewrite String.eqb_refl.
  - intros cs ss path' options' files' w' d' files'' s' Ho'.
    rewrite (Open_again _ _ (set_buckets d1 cs ss) _ _ (salt s) (masterKey s)) in Ho' by done.
    destruct (ow_init w'), (ow_chmod w'); try done. cbn [negb] in Ho'.
    destruct (loadMasterKey _ _ _ _) as [f [k|e]] eqn:El; [|done]. apply loadMasterKey_no_create in El.
    destruct (SHA256 (masterKey s) =?s SHA256 k) eqn:Ek; [|done]. bool_facts. by injection Ho' as <- <- <-.
Qed.

(** Listing the summaries: an owner sees the stored summaries of its own
    and one for every readable credential without a readable summary, sorted by
    name, with the number of legacy records; no credential changes, and from
    then on every readable credential has a summary of its own, so that nobody
    else is shown it. *)
Theorem ListSummaries_complete s owner commit s' l n :
  store_ok s -> valid_utf8 owner = true -> ListSummaries s owner commit = (s', Ok (l, n)) ->
  let known id := exists su, summary_stored (summaries (db s)) id su in
  (forall su, su ∈ l <->
      su_Owner su = owner
      /\ ((exists id, summary_stored (summaries (db s)) id su)
          \/ exists id c, VGet s id = Ok c /\ ~ known id /\ su = summary_of owner c))
  /\ Sorted (fun a b => String.leb (su_Name a) (su_Name b) = true) l
  /\ n = LegacyCount s /\ credentials (db s') = credentials (db s)
  /\ (forall id, known id -> exists su, summary_stored (summaries (db s')) id su)
  /\ (forall id c, VGet s id = Ok c -> exists su, summary_stored (summaries (db s')) id su).
Proof.
  intros Hs Ho Hl known. destruct (ListSummaries_abstract s owner commit) as (_ & Hcred & _).
  rewrite Hl in Hcred. unfold ListSummaries in Hl. destruct (owner =?s ""); [done|].
  destruct (known_summaries s owner) as [kn mine] eqn:Ek. apply known_summaries_spec in Ek as [Hk Hm].
  destruct (backfill_summaries s owner kn mine) as [mine' bf] eqn:Eb.
  destruct (backfill_summaries_spec _ _ _ _ _ _ Hs Hk Hm Eb) as [Hm' Hb].
  assert (Forall (fun su => clean_summary su = true) bf) as Hcl.
  { apply Forall_forall. intros su Hsu. apply Hb in Hsu as (id & c & [Hg _] & ->).
    apply summary_of_clean; [|done]. by apply (store_ok_get s id c). }
  assert (l = sort_by_name su_Name (map_to_list mine').*2 /\ n = LegacyCount s
          /\ put_summaries bf (summaries (db s)) = Some (summaries (db s'))) as (-> & Hn & Hp).
  { destruct bf; [by injection Hl as <- <- <-|]. destruct (put_summaries _ _) as [ss|]; [|done].
    destruct commit; [|done]. by injection Hl as <- <- <-. }
  destruct (put_summaries_spec _ _ _ Hcl Hp) as [H1 H2]. split_and!; try done.
  - intros su. rewrite sort_by_name_perm, list_elem_of_fmap. split.
    + intros ([id su'] & -> & Hin). apply elem_of_map_to_list, Hm' in Hin as [[Hst Ho']|(c & [Hg Hn'] & ->)].
      * split; [done|]. left. by exists id.
      * split; [done|]. right. by exists id, c.
    + intros [Ho' [[id Hst]|(id & c & Hg & Hn' & ->)]];
        [exists (id, su)|exists (id, summary_of owner c)]; (split; [done|]); apply elem_of_map_to_list, Hm';
        [by left|right]. by exists c.
  - apply sort_by_name_sorted.
  - intros id c Hg. destruct (decide (id ∈ kn)) as [Hin|Hni]; [by apply H1, Hk|].
    destruct (store_ok_get s id c Hs Hg) as [<- _]. apply (H2 (summary_of owner c)), Hb.
    exists (cr_ID c), c. split; [|done]. split; [done|]. intros Hx. by apply Hni, Hk.
Qed.

End VaultProperties.

(** ** Witnesses *)

Lemma is_ascii_digits s : all_digits s -> is_ascii s = true.
Proof.
  induction s as [|c s IH]; [done|]. intros Hd. cbn [is_ascii].
  assert (digit_of c <> None) as Hc by (apply Hd; rewrite ContainsByte_cons, Ascii.eqb_refl; done).
  rewrite IH.
  - rewrite andb_true_r. destruct (byte_of c <? 128) eqn:E; [done|]. exfalso. apply Hc. bool_facts.
    unfold digit_of. cases; bool_facts; lia.
  - intros d Hin. apply Hd. by rewrite ContainsByte_cons, Hin, orb_true_r.
Qed.

(** A concrete clock text: the nanoseconds in decimal. *)
Definition toy_in_range (t : Z) : bool := (0 <=? t) && (t <=? int64_max).

Lemma toy_parse_format t : toy_in_range t = true -> Atoi (Itoa (Z.max 0 t)) = Some t.
Proof. unfold toy_in_range. intros H. bool_facts. rewrite Z.max_r by lia. by apply Atoi_Itoa. Qed.

Lemma toy_format_utf8 t : valid_utf8 (Itoa (Z.max 0 t)) = true.
Proof. apply valid_utf8_ascii, is_ascii_digits, Itoa_digits. lia. Qed.

#[local] Instance toy_time : TimeText := {|
  time_format := fun t => Itoa (Z.max 0 t);
  time_parse := Atoi;
  time_in_range := toy_in_range;
  time_parse_format := toy_parse_format;
  time_format_utf8 := toy_format_utf8 |}.

#[local] Existing Instance toy_crypto.

Definition sample_key : string := "0123456789abcdef0123456789ABCDEF".
Definition sample_nonce : string := "nonce-12-byt".
Definition sample_db : DB := mkDB (Some "salt") (Some (SHA256 sample_key)) ∅ ∅.
Definition sample_store : VStore := mkVStore sample_db "salt" sample_key.
Definition sample_credential : Credential :=
  mkCredential "box" "Box" "10.0.0.5" 0 "root" "KEY" "" "" true 7 0.
Definition stored_credential : Credential :=
  mkCredential "box" "Box" "10.0.0.5" 22 "root" "KEY" "" "xterm-256color" true 7 9.

Definition sample_ops : list vault_op :=
  [OpPut "" sample_credential 9 "r" (Some sample_nonce) true;
   OpPut "admin" sample_credential 11 "r" None true;
   OpDelete "box" false; OpDelete "other" true].

Lemma sample_store_ok : store_ok sample_store.
Proof. split; [reflexivity|]. intros id c Hl. vm_compute in Hl. destruct id; discriminate Hl. Qed.

Lemma vault_refines_witness :
  VGet (fold_left vault_step sample_ops sample_store) "box" = Ok stored_credential.
Proof.
  destruct (vault_refines sample_ops sample_store sample_store_ok eq_refl) as [H _].
  apply H. vm_compute. reflexivity.
Defined.

Definition toy_IDKey (password salt : string) : string := pad32 (password +:+ salt).

(** The store with the credential as an old version sealed it. *)
Definition legacy_store : VStore :=
  set_db sample_store (set_buckets sample_db
    {[ "box" := match encrypt (toy_IDKey "pw" "salt") (print (enc_Credential stored_credential)) "box"
                  (Some sample_nonce) with Some r => r | None => "" end;
       "junk" := "not a record" ]} ∅).

Lemma migration_exact_witness :
  match MigrateLegacyFromPassword toy_IDKey legacy_store "pw" (fun _ => Some sample_nonce) true with
  | (s', Ok (1%nat, 1%nat)) => VGet s' "box" = Ok stored_credential
  | _ => False
  end.
Proof.
  assert (forall (id n : string), Some sample_nonce = Some n -> String.length n = NonceSize) as Hn
    by (intros id n [= <-]; reflexivity).
  pose proof (migration_exact toy_IDKey legacy_store "pw" (fun _ => Some sample_nonce) true Hn) as H.
  destruct (MigrateLegacyFromPassword _ _ _ _ _) as [s' [[m r]|e]] eqn:E.
  - assert (m = 1%nat /\ r = 1%nat) as [-> ->].
    { assert (snd (MigrateLegacyFromPassword toy_IDKey legacy_store "pw" (fun _ => Some sample_nonce) true)
              = Ok (1%nat, 1%nat)) as E' by (vm_compute; reflexivity).
      rewrite E in E'. injection E' as -> ->. split; reflexivity. }
    destruct H as [H _]. exact (H "box").
  - assert (is_ok (snd (MigrateLegacyFromPassword toy_IDKey legacy_store "pw" (fun _ => Some sample_nonce)
              true)) = true) as E' by (vm_compute; reflexivity).
    rewrite E in E'. discriminate E'.
Defined.

(** A first opening that creates salt, key and fingerprint. *)
Definition sample_world : OpenWorld :=
  mkOpenWorld true true true true (Some "salt") (Some sample_key).
Definition broken_world : OpenWorld :=
  mkOpenWorld true true true true None (Some "another key of thirty-two bytes.").

Lemma open_keeps_key_witness :
  Open "vault.db" None sample_db {[ "vault.db.key" := Regular (HexEncode sample_key +:+ newline) ]} broken_world
  = (sample_db, {[ "vault.db.key" := Regular (HexEncode sample_key +:+ newline) ]},
     Ok (mkVStore sample_db "salt" sample_key)).
Proof.
  destruct (open_keeps_key "vault.db" None (mkDB None None ∅ ∅) ∅ sample_world sample_db
    {[ "vault.db.key" := Regular (HexEncode sample_key +:+ newline) ]} (mkVStore sample_db "salt" sample_key))
    as (_ & _ & _ & _ & H & _); [vm_compute; reflexivity|intros k [= <-]; reflexivity|intros k [= <-]; discriminate|].
  exact (H ∅ ∅ broken_world eq_refl eq_refl).
Defined.

Lemma ListSummaries_complete_witness :
  let s := (PutForUser sample_store "" sample_credential 9 "r" (Some sample_nonce) true).1 in
  (ListSummaries s "admin" true).2 = Ok ([summary_of "admin" stored_credential], 0%nat)
  /\ exists su, summary_stored (summaries (db (ListSummaries s "admin" true).1)) "box" su.
Proof.
  intros s. assert ((ListSummaries s "admin" true).2 = Ok ([summary_of "admin" stored_credential], 0%nat)) as E
    by (vm_compute; reflexivity).
  split; [exact E|]. destruct (ListSummaries s "admin" true) as [s' r] eqn:El. cbn [snd] in E. subst r.
  destruct (vault_step_refines sample_store (OpPut "" sample_credential 9 "r" (Some sample_nonce) true)
              sample_store_ok eq_refl) as [Hs _].
  destruct (ListSummaries_complete s "admin" true s' _ _ Hs eq_refl El) as (_ & _ & _ & _ & _ & H).
  apply (H "box" stored_credential). vm_compute. reflexivity.
Defined.
