(* ===== verification/VaultSecrecy.v ===== *)
(** * Vaults that differ in their secrets

    Two stores are alike when they hold credentials under the same ids that
    agree in everything but private key and passphrase.  The operations that
    do not hand out a credential answer alike on alike stores, and keep them
    alike: the relation the HTTP server's secrecy theorem is proved with. *)

From stdpp Require Import sorting.
From S2P Require Import Prelude GoStrings GoTime GoEncoding Json JsonDecode Auth Vault.

Section Secrecy.

Context `{Crypto} `{TimeText}.

(** Agreement in everything a summary shows. *)
Definition same_public (c1 c2 : Credential) : Prop := summary_of "" c1 = summary_of "" c2.

Record alike (v1 v2 : VStore) : Prop := {
  alike_ok1 : store_ok v1;
  alike_ok2 : store_ok v2;
  alike_summaries : summaries (db v1) = summaries (db v2);
  alike_versions : forall id, option_Forall2 (fun r1 r2 => isV2 r1 = isV2 r2)
                                (credentials (db v1) !! id) (credentials (db v2) !! id);
  alike_public : forall id, option_Forall2 same_public (abstract v1 !! id) (abstract v2 !! id) }.

Lemma same_public_summary o c1 c2 : same_public c1 c2 -> summary_of o c1 = summary_of o c2.
Proof. destruct c1, c2. unfold same_public, summary_of. cbn. intros Heq. by injection Heq as -> -> -> -> -> -> -> -> -> ->. Qed.

Lemma same_public_id c1 c2 : same_public c1 c2 -> cr_ID c1 = cr_ID c2.
Proof. destruct c1, c2. unfold same_public, summary_of. cbn. intros Heq. by injection Heq. Qed.

(** ** The entries of alike buckets, in order *)

Lemma for_each_sorted bucket : Sorted String.le (for_each bucket).*1.
Proof.
  assert (Total key_le) as Ht.
  { intros [k1 v1] [k2 v2]. unfold key_le. cbn [fst]. destruct (String.leb_total k1 k2); auto. }
  apply (Sorted_fmap fst key_le); [|apply Sorted_merge_sort, Ht].
  intros x y Hxy. unfold String.le. by rewrite Hxy.
Qed.

Lemma for_each_keys (b1 b2 : gmap string string) :
  (forall id, is_Some (b1 !! id) <-> is_Some (b2 !! id)) -> (for_each b1).*1 = (for_each b2).*1.
Proof.
  intros Hd. apply (Sorted_unique String.le); [apply for_each_sorted..|].
  apply NoDup_Permutation; [apply for_each_NoDup..|]. intros id.
  assert (forall b : gmap string string, id ∈ (for_each b).*1 <-> is_Some (b !! id)) as Hk.
  { intros b. rewrite list_elem_of_fmap. split.
    - intros ([k x] & -> & Hin). apply for_each_lookup in Hin. by exists x.
    - intros [x Hx]. exists (id, x). split; [done|]. by apply for_each_lookup. }
  by rewrite !Hk.
Qed.

Definition entry_alike (v1 v2 : VStore) (e1 e2 : string * string) : Prop :=
  e1.1 = e2.1 /\ isV2 e1.2 = isV2 e2.2
  /\ option_Forall2 same_public (of_result (read_record v1 e1.1 e1.2)) (of_result (read_record v2 e2.1 e2.2)).

Lemma entries_alike v1 v2 :
  alike v1 v2 ->
  Forall2 (entry_alike v1 v2) (for_each (credentials (db v1))) (for_each (credentials (db v2))).
Proof.
  intros Ha.
  assert ((for_each (credentials (db v1))).*1 = (for_each (credentials (db v2))).*1) as Hk.
  { apply for_each_keys. intros id. destruct (alike_versions _ _ Ha id); split; intros [? ?]; eauto; done. }
  apply Forall2_same_length_lookup. split.
  - apply (f_equal length) in Hk. by rewrite !length_fmap in Hk.
  - intros i [id1 r1] [id2 r2] H1 H2.
    apply (f_equal (fun l => l !! i)) in Hk. rewrite !list_lookup_fmap, H1, H2 in Hk. injection Hk as ->.
    apply list_elem_of_lookup_2, for_each_lookup in H1. apply list_elem_of_lookup_2, for_each_lookup in H2.
    pose proof (alike_versions _ _ Ha id2) as Hv. rewrite H1, H2 in Hv. inversion Hv; subst.
    pose proof (alike_public _ _ Ha id2) as Hp. rewrite !abstract_lookup in Hp. unfold VGet in Hp.
    rewrite H1, H2 in Hp. done.
Qed.

(** ** The operations on alike stores *)

Lemma LegacyCount_alike v1 v2 : alike v1 v2 -> LegacyCount v1 = LegacyCount v2.
Proof.
  intros Ha. apply entries_alike in Ha. unfold LegacyCount. generalize 0%nat.
  induction Ha as [|[id1 r1] [id2 r2] l1 l2 (_ & Hv & _) _ IH]; intros n; [done|].
  cbn [fold_left]. cbn [snd] in Hv. rewrite Hv. apply IH.
Qed.

Lemma known_summaries_alike v1 v2 o :
  summaries (db v1) = summaries (db v2) -> known_summaries v1 o = known_summaries v2 o.
Proof. intros Hs. unfold known_summaries. by rewrite Hs. Qed.

Lemma backfill_alike v1 v2 o known mine :
  alike v1 v2 -> backfill_summaries v1 o known mine = backfill_summaries v2 o known mine.
Proof.
  intros Ha. apply entries_alike in Ha. unfold backfill_summaries. generalize (mine, @nil Summary).
  induction Ha as [|[id1 r1] [id2 r2] l1 l2 (Hid & _ & Hp) _ IH]; intros [m bf]; [done|].
  cbn [fold_left]. cbn [fst snd] in *. subst id2. destruct (decide (id1 ∈ known)); [apply IH|].
  destruct (read_record v1 id1 r1) as [c1|e1], (read_record v2 id1 r2) as [c2|e2];
    cbn [of_result] in Hp; inversion Hp; subst; [|apply IH].
  rewrite (same_public_summary o c1 c2), (same_public_id c1 c2) by done. apply IH.
Qed.

Lemma abstract_ext v v' :
  credentials (db v') = credentials (db v) -> masterKey v' = masterKey v -> abstract v' = abstract v.
Proof. intros Hc Hm. unfold abstract, read_record. by rewrite Hc, Hm. Qed.

Lemma ListSummaries_alike v1 v2 o commit :
  alike v1 v2 ->
  (ListSummaries v1 o commit).2 = (ListSummaries v2 o commit).2
  /\ alike (ListSummaries v1 o commit).1 (ListSummaries v2 o commit).1.
Proof.
  intros Ha.
  assert (forall ss, alike (set_db v1 (set_buckets (db v1) (credentials (db v1)) ss))
                           (set_db v2 (set_buckets (db v2) (credentials (db v2)) ss))) as Hs.
  { intros ss. destruct Ha as [H1 H2 H3 H4 H5]. split; [exact H1|exact H2|reflexivity|exact H4|exact H5]. }
  unfold ListSummaries. destruct (o =?s ""); [done|].
  rewrite (known_summaries_alike v1 v2 o) by apply Ha. destruct (known_summaries v2 o) as [known mine].
  rewrite (backfill_alike v1 v2 o known mine Ha). destruct (backfill_summaries v2 o known mine) as [mine' bf].
  rewrite (LegacyCount_alike v1 v2 Ha). destruct bf as [|b bf]; [done|].
  rewrite (alike_summaries _ _ Ha). destruct (put_summaries _ _); [|done].
  destruct commit; (split; [reflexivity|]); [apply Hs|exact Ha].
Qed.

Lemma VDelete_alike v1 v2 id commit :
  alike v1 v2 ->
  (VDelete v1 id commit).2 = (VDelete v2 id commit).2 /\ alike (VDelete v1 id commit).1 (VDelete v2 id commit).1.
Proof.
  intros Ha. pose proof (VDelete_spec v1 id commit) as D1. pose proof (VDelete_spec v2 id commit) as D2.
  pose proof (vault_step_refines v1 (OpDelete id commit) (alike_ok1 _ _ Ha) eq_refl) as [O1 _].
  pose proof (vault_step_refines v2 (OpDelete id commit) (alike_ok2 _ _ Ha) eq_refl) as [O2 _].
  cbn [vault_step] in *. unfold VDelete in *. destruct (id =?s ""); [done|].
  destruct commit; cbn [negb orb fst snd] in *; [|done]. split; [done|].
  destruct D1 as (_ & A1 & _), D2 as (_ & A2 & _). split; [done|done|..].
  - cbn [set_db db set_buckets summaries]. by rewrite (alike_summaries _ _ Ha).
  - intros k. cbn [set_db db set_buckets credentials]. rewrite !lookup_delete.
    destruct (decide (id = k)); [constructor|apply (alike_versions _ _ Ha)].
  - intros k. rewrite A1, A2, !lookup_delete. destruct (decide (id = k)); [constructor|].
    apply (alike_public _ _ Ha).
Qed.

(** Stamping the same item on alike stores gives credentials that differ only
    in the time of their creation. *)
Lemma stamp_same_public get1 get2 c now random :
  same_public (stamp get1 c now random) (stamp get2 c now random).
Proof.
  destruct c as [id n h p u k ps t uh cr up]. unfold stamp, same_public, summary_of.
  by destruct (id =?s ""), (cr =? time_zero).
Qed.

Lemma stamp_ID get1 get2 c now random : cr_ID (stamp get1 c now random) = cr_ID (stamp get2 c now random).
Proof. apply same_public_id, stamp_same_public. Qed.

Lemma stamp_store_clean v c now random :
  store_ok v -> clean_credential c = true -> time_in_range now = true ->
  clean_credential (stamp (VGet v) c now random) = true.
Proof.
  intros Hv Hc Hn. apply stamp_clean; [done|done|]. intros id c' Hg.
  destruct (store_ok_get v id c' Hv Hg) as [_ Hcl]. unfold clean_credential in Hcl. by bool_facts.
Qed.

(** What a put of a clean item does, before the commit is decided. *)
Lemma PutForUser_form v o c now random n commit :
  let c' := stamp (VGet v) c now random in
  clean_credential c' = true -> aes_key_ok (masterKey v) = true -> String.length n = NonceSize ->
  exists sealed, isV2 sealed = true /\
    PutForUser v o c now random (Some n) commit
    = if commit
      then (set_db v (set_buckets (db v) (<[cr_ID c' := sealed]> (credentials (db v)))
              (if o =?s "" then summaries (db v)
               else <[cr_ID c' := print (enc_Summary (summary_of o c'))]> (summaries (db v)))), Ok c')
      else (v, Err CommitFailed).
Proof.
  intros c' Hc Hk Hn. unfold PutForUser. fold c'. unfold marshal_Credential, marshal_Summary.
  unfold clean_credential in Hc. bool_facts. cbn [summary_of su_UpdatedAt].
  repeat match goal with X : time_in_range _ = true |- _ => rewrite X; clear X end. cbn [andb].
  destruct (encrypt_Some (masterKey v) (print (enc_Credential c')) (cr_ID c') n Hk) as [sealed Hs].
  exists sealed. split; [by eapply decryptRecord_encryptV2|]. rewrite Hs. by destruct (o =?s ""), commit.
Qed.

Definition same_saved (r1 r2 : result VaultError Credential) : Prop :=
  match r1, r2 with
  | Ok c1, Ok c2 => same_public c1 c2
  | Err e1, Err e2 => e1 = e2
  | _, _ => False
  end.

Lemma PutForUser_alike v1 v2 o c now random nonce commit :
  alike v1 v2 -> op_clean (OpPut o c now random nonce commit) = true ->
  same_saved (PutForUser v1 o c now random nonce commit).2 (PutForUser v2 o c now random nonce commit).2
  /\ alike (PutForUser v1 o c now random nonce commit).1 (PutForUser v2 o c now random nonce commit).1.
Proof.
  intros Ha Hop. set (op := OpPut o c now random nonce commit) in Hop.
  destruct (vault_step_refines v1 op (alike_ok1 _ _ Ha) Hop) as [O1 A1].
  destruct (vault_step_refines v2 op (alike_ok2 _ _ Ha) Hop) as [O2 A2].
  cbn [op_clean op] in Hop. bool_facts.
  assert (clean_credential (stamp (VGet v1) c now random) = true) as C1
    by (apply stamp_store_clean; [apply Ha|done|done]).
  assert (clean_credential (stamp (VGet v2) c now random) = true) as C2
    by (apply stamp_store_clean; [apply Ha|done|done]).
  pose proof (alike_ok1 _ _ Ha) as [K1 _]. pose proof (alike_ok2 _ _ Ha) as [K2 _].
  cbn [vault_step op] in O1, O2, A1, A2.
  destruct nonce as [n|].
  2:{ pose proof (PutForUser_ok v1 o c now random None commit C1 K1 I) as P1.
      pose proof (PutForUser_ok v2 o c now random None commit C2 K2 I) as P2.
      destruct (PutForUser v1 _ _ _ _ _ _) as [s1 r1], (PutForUser v2 _ _ _ _ _ _) as [s2 r2].
      destruct P1 as (_ & -> & ->), P2 as (_ & -> & ->). by split. }
  match goal with X : (_ =? _)%nat = true |- _ => apply Nat.eqb_eq in X; rename X into Hn end.
  destruct (PutForUser_form v1 o c now random n commit C1 K1 Hn) as (x1 & V1 & P1).
  destruct (PutForUser_form v2 o c now random n commit C2 K2 Hn) as (x2 & V2 & P2).
  rewrite P1, P2 in *. destruct commit; [|by split]. cbn [fst snd] in *.
  pose proof (stamp_same_public (VGet v1) (VGet v2) c now random) as Hp.
  rewrite (same_public_id _ _ Hp), (same_public_summary o _ _ Hp) in *. split; [done|]. split; [done|done|..].
  - cbn [set_db db set_buckets summaries]. by rewrite (alike_summaries _ _ Ha).
  - intros k. cbn [set_db db set_buckets credentials]. rewrite !lookup_insert.
    destruct (decide _); [constructor; congruence|apply (alike_versions _ _ Ha)].
  - intros k. rewrite A1, A2. cbn [spec_step op]. rewrite !lookup_insert.
    rewrite !(stamp_ID (spec_get _) (VGet v2)).
    destruct (decide _); [constructor; apply stamp_same_public|apply (alike_public _ _ Ha)].
Qed.

End Secrecy.
