(* ===== verification/HttpServer.v ===== *)
(** * The HTTP server (internal/httpserver/server.go)

    The routes, and the JSON handlers over authentication and the vault.  A
    handler is a function from the state of the server (sessions and vault) and
    a request to the state after it and the answer.

    A request's path is given as [http.ServeMux] matches it: cut at its slashes,
    each segment unescaped; the multiplexer redirects a path that is not clean
    before it routes it.  Random bytes, the clock, the database's commits and
    the theme catalogue are the record [World] of what the calls answer.  The
    WebSocket endpoints are those of [WsHandler] and [Tunnel]; the answers that
    name them stand for running them.  Theme texts and asset contents are not
    modelled: whether an asset exists is an argument. *)

From S2P Require Import Prelude GoStrings GoTime GoEncoding Json JsonDecode Config Auth Vault VaultSecrecy.

(** ** Requests and answers *)

Record HTTPRequest : Type := mkHTTPRequest {
  hr_Method : string; hr_Path : list string; hr_ContentType : string;
  hr_Cookie : option string; hr_Body : string; hr_BodyFails : bool }.

(** [io.ReadAll(io.LimitReader(r.Body, n))]: the body up to [n] bytes, [None]
    when reading fails before them. *)
Definition read_limited (r : HTTPRequest) (n : Z) : option string :=
  if hr_BodyFails r && (len (hr_Body r) <? n) then None
  else Some (str_take (Z.to_nat n) (hr_Body r)).

(** A JSON answer without body is one whose value could not be encoded. *)
Inductive Answer : Type :=
| AnsJSON (status : Z) (body : option json) (cookie : option Cookie)
| AnsStatic (name : string)
| AnsThemes
| AnsNotFound | AnsMethodNotAllowed
| AnsRedirect (path : string)
| ToSSH | ToTunnel.

Definition writeJSON (status : Z) (v : json) : Answer := AnsJSON status (Some v) None.

(** A Go map is encoded with its keys sorted. *)
Definition writeErr (status : Z) (code message : string) : Answer :=
  writeJSON status
    (JObj [("error", JObj [("code", JStr code); ("message", JStr message)]); ("ok", JBool false)]).

Definition ok_body : json := JObj [("ok", JBool true)].

(** The headers of every answer. *)
Definition securityHeaders : list (string * string) := [
  ("X-Content-Type-Options", "nosniff"); ("X-Frame-Options", "DENY");
  ("Referrer-Policy", "no-referrer");
  ("Permissions-Policy", "camera=(), microphone=(), geolocation=()");
  ("Content-Security-Policy", "default-src 'self'; connect-src 'self' ws: wss:; img-src 'self' data:; style-src 'self' 'unsafe-inline'; script-src 'self'; base-uri 'none'; frame-ancestors 'none'; form-action 'self'")].

(** ** Routes *)

Inductive Endpoint : Type :=
| EHealthz | ELogin | ELogout | ESession | EUIConfig
| ECredentialList | ECredentialPut | ECredentialMigrate
| ECredentialGet (id : string) | ECredentialDelete (id : string)
| EWsSSH | EWsTunnel | EIndex | EStatic | EThemesJS.

(** The patterns registered for a path, by method; a more specific pattern
    comes before a less specific one. *)
Definition patterns (path : list string) : list (string * Endpoint) :=
  match path with
  | ["api"; "healthz"] => [("GET", EHealthz)]
  | ["api"; "login"] => [("POST", ELogin)]
  | ["api"; "logout"] => [("POST", ELogout)]
  | ["api"; "session"] => [("GET", ESession)]
  | ["api"; "config"; "ui"] => [("GET", EUIConfig)]
  | ["api"; "credentials"] => [("GET", ECredentialList); ("POST", ECredentialPut)]
  | ["api"; "credentials"; id] =>
      (if id =?s "migrate" then [("POST", ECredentialMigrate)] else [])
      ++ (if id =?s "" then [] else [("GET", ECredentialGet id); ("DELETE", ECredentialDelete id)])
  | ["api"; "ws"; "ssh"] => [("GET", EWsSSH)]
  | ["api"; "ws"; "tunnel"] => [("GET", EWsTunnel)]
  | ["app.js"] | ["style.css"] | ["favicon.svg"] => [("GET", EStatic)]
  | ["themes.js"] => [("GET", EThemesJS)]
  | "vendor" :: _ :: _ => [("GET", EStatic)]
  | _ => []
  end ++ [("GET", EIndex)].

(** A [GET] pattern also serves [HEAD]. *)
Definition method_matches (pattern method : string) : bool :=
  (pattern =?s method) || ((pattern =?s "GET") && (method =?s "HEAD")).

Definition route (method : string) (path : list string) : option Endpoint :=
  option_map snd (List.find (fun p => method_matches p.1 method) (patterns path)).

(** [r.URL.Path] *)
Definition url_path (path : list string) : string := "/" +:+ String.concat "/" path.

(** ** Handlers *)

Record ServerState : Type := mkServerState { st_sessions : Store; st_vault : option VStore }.

Record World : Type := mkWorld {
  w_now : Z;                                  (* when the session is checked *)
  w_later : Z;                                (* the second reading of the clock *)
  w_random : option string;                   (* random bytes of a login, nonce of a stored credential *)
  w_id : string;                              (* random bytes of a new credential id *)
  w_nonces : string -> option string;         (* the nonces of a migration *)
  w_commit : bool;                            (* does the database's transaction commit *)
  w_themes : option (list string);            (* themeCatalog.Names *)
  w_static : string -> bool }.                (* is there such an asset *)

Definition set_sessions (st : ServerState) (s : Store) : ServerState := mkServerState s (st_vault st).
Definition set_vault (st : ServerState) (v : VStore) : ServerState := mkServerState (st_sessions st) (Some v).

(** The body of a login and of a migration. *)
Record loginRequest : Type := mkLogin { lr_Username : string; lr_Password : string; lr_Remember : bool }.

Definition loginRequest_fields : list (field loginRequest) := [
  mkField "username" lr_Username dec_string (fun x l => mkLogin x (lr_Password l) (lr_Remember l));
  mkField "password" lr_Password dec_string (fun x l => mkLogin (lr_Username l) x (lr_Remember l));
  mkField "remember" lr_Remember dec_bool (fun x l => mkLogin (lr_Username l) (lr_Password l) x) ].

Definition migrateRequest_fields : list (field string) := [
  mkField "password" (fun x => x) dec_string (fun x _ => x) ].

Section Handlers.

Context `{Crypto} `{TimeText} (IDKey : string -> string -> string).
Context (cfg : Config) (auth : Authenticator).

Definition handleLogin (st : ServerState) (r : HTTPRequest) (w : World) : ServerState * Answer :=
  if negb (HasPrefix (hr_ContentType r) "application/json")
  then (st, writeErr 400 "BAD_REQUEST" "Content-Type must be application/json")
  else
    match read_limited r 4096 with
    | None => (st, writeErr 400 "BAD_REQUEST" "invalid request body")
    | Some body =>
        match unmarshal (dec_struct loginRequest_fields) body (mkLogin "" "" false) with
        | None => (st, writeErr 400 "BAD_REQUEST" "invalid JSON")
        | Some req =>
            let (s, cookie) := Login auth (st_sessions st) (lr_Username req) (lr_Password req)
                                 (lr_Remember req) (w_random w) (w_now w) (w_later w) in
            (set_sessions st s,
             match cookie with
             | None => writeErr 401 "AUTH_FAILED" "invalid username or password"
             | Some c => AnsJSON 200 (Some ok_body) (Some c)
             end)
        end
    end.

(** The session of the request, and the store after it was looked up. *)
Definition session (st : ServerState) (r : HTTPRequest) (w : World) : ServerState * option SessionInfo :=
  let (s, info) := SessionFromRequest auth (st_sessions st) (hr_Cookie r) (w_now w) in
  (set_sessions st s, info).

Definition handleLogout (st : ServerState) (r : HTTPRequest) (w : World) : ServerState * Answer :=
  let (st, info) := session st r w in
  match info with
  | None => (st, writeErr 401 "AUTH_REQUIRED" "authentication required")
  | Some _ => let (s, cookie) := Logout auth (st_sessions st) (hr_Cookie r) in
              (set_sessions st s, AnsJSON 200 (Some ok_body) (Some cookie))
  end.

Definition handleSession (st : ServerState) (r : HTTPRequest) (w : World) : ServerState * Answer :=
  let (st, info) := session st r w in
  (st, writeJSON 200 (match info with
                      | Some info => JObj [("authenticated", JBool true); ("username", JStr (si_Username info))]
                      | None => JObj [("authenticated", JBool false)]
                      end)).

Definition is_some {A} (o : option A) : bool := match o with Some _ => true | None => false end.

Definition handleUIConfig (st : ServerState) (w : World) : ServerState * Answer :=
  (st, match w_themes w with
       | None => writeErr 500 "THEMES_LOAD_FAILED" "failed to load terminal themes"
       | Some names => writeJSON 200 (JObj
           [("allowPrivateRanges", JBool (Cfg_AllowPrivateRanges (NetworkPolicy cfg)));
            ("credentialStorage", JBool (is_some (st_vault st)));
            ("hostKeyPolicy", JStr (HostKeyPolicy (SSH cfg)));
            ("maxPrivateKeyBytes", enc_int 131072);
            ("privateKeyPersistence", JStr "memory-only");
            ("themes", JArr (map JStr names));
            ("themesDir", JStr (UI_ThemesDir cfg))])
       end).

(** [credentialSession]: the store of credentials for an authenticated
    request, or the refusal. *)
Definition credentialSession (st : ServerState) (r : HTTPRequest) (w : World)
    : ServerState * result Answer (SessionInfo * VStore) :=
  let (st, info) := session st r w in
  (st, match info with
       | None => Err (writeErr 401 "AUTH_REQUIRED" "authentication required")
       | Some info =>
           match st_vault st with
           | None => Err (writeErr 503 "CREDENTIAL_STORAGE_DISABLED" "credential storage is disabled")
           | Some v => Ok (info, v)
           end
       end).

(** [credentialSummary] as JSON. *)
Definition enc_credentialSummary (s : Summary) : json := JObj
  [("id", JStr (su_ID s)); ("name", JStr (su_Name s)); ("host", JStr (su_Host s));
   ("port", enc_int (su_Port s)); ("username", JStr (su_Username s)); ("term", JStr (su_Term s));
   ("useHerdr", JBool (su_UseHerdr s)); ("useTmux", JBool (su_UseHerdr s));
   ("hasPrivateKey", JBool (su_HasPrivateKey s)); ("hasPassphrase", JBool (su_HasPassphrase s));
   ("updatedAt", enc_time (su_UpdatedAt s))].

Definition credentials_body (items : list Summary) (unmigrated : nat) : option json :=
  if forallb (fun s => time_in_range (su_UpdatedAt s)) items
  then Some (JObj [("credentials", JArr (map enc_credentialSummary items));
                   ("removedCredentials", enc_int 0);
                   ("unmigratedCredentials", enc_int (Z.of_nat unmigrated))])
  else None.

Definition handleCredentialList (st : ServerState) (r : HTTPRequest) (w : World) : ServerState * Answer :=
  let (st, session) := credentialSession st r w in
  match session with
  | Err refusal => (st, refusal)
  | Ok (info, v) =>
      let (v, listing) := ListSummaries v (si_Username info) (w_commit w) in
      (set_vault st v,
       match listing with
       | Err _ => writeErr 422 "VAULT_DECRYPT_FAILED" "credential vault could not be decrypted"
       | Ok (items, unmigrated) => AnsJSON 200 (credentials_body items unmigrated) None
       end)
  end.

Definition handleCredentialGet (st : ServerState) (id : string) (r : HTTPRequest) (w : World)
    : ServerState * Answer :=
  let (st, session) := credentialSession st r w in
  (st, match session with
       | Err refusal => refusal
       | Ok (_, v) =>
           match VGet v id with
           | Err NotExist => writeErr 404 "NOT_FOUND" "credential not found"
           | Err _ => writeErr 422 "VAULT_DECRYPT_FAILED" "credential vault could not be decrypted"
           | Ok item => AnsJSON 200 (if time_in_range (cr_CreatedAt item) && time_in_range (cr_UpdatedAt item)
                                  then Some (enc_Credential item) else None) None
           end
       end).

(** The item of a request: trimmed and checked. *)
Definition trim_item (c : Credential) : Credential :=
  let '(mkCredential i n h p u k s t uh a b) := c in
  mkCredential i (TrimSpace n) (TrimSpace h) p (TrimSpace u) k s t uh a b.

Definition check_item (c : Credential) : result Answer Credential :=
  let item := trim_item c in
  reject! (cr_Name item =?s "") || (cr_Host item =?s "") || (cr_Username item =?s "") || (cr_PrivateKey item =?s "")
    with writeErr 400 "BAD_REQUEST" "name, host, username and private key are required" in
  reject! negb (cr_Port item =? 0) && ((cr_Port item <? 1) || (65535 <? cr_Port item))
    with writeErr 400 "INVALID_PORT" "port must be between 1 and 65535" in
  reject! (128 * 1024 <? len (cr_PrivateKey item)) || (8 * 1024 <? len (cr_Passphrase item))
    with writeErr 400 "BAD_REQUEST" "credential is too large" in
  Ok item.

(** The item of a body. *)
Definition read_item (r : HTTPRequest) : result Answer Credential :=
  match read_limited r (256 * 1024 + 1) with
  | None => Err (writeErr 400 "BAD_REQUEST" "credential is too large")
  | Some body =>
      if 256 * 1024 <? len body then Err (writeErr 400 "BAD_REQUEST" "credential is too large")
      else match decode_Credential body with
           | None => Err (writeErr 400 "BAD_REQUEST" "invalid JSON")
           | Some item => check_item item
           end
  end.

(** The summary of a saved credential: it always has a private key. *)
Definition saved_summary (saved : Credential) : Summary :=
  mkSummary (cr_ID saved) "" (cr_Name saved) (cr_Host saved) (cr_Port saved) (cr_Username saved)
    (cr_Term saved) (cr_UseHerdr saved) true (negb (cr_Passphrase saved =?s "")) (cr_UpdatedAt saved).

Definition handleCredentialPut (st : ServerState) (r : HTTPRequest) (w : World) : ServerState * Answer :=
  let (st, session) := credentialSession st r w in
  match session with
  | Err refusal => (st, refusal)
  | Ok (info, v) =>
      match read_item r with
      | Err refusal => (st, refusal)
      | Ok item =>
          let (v, saved) := PutForUser v (si_Username info) item (w_later w) (w_id w) (w_random w) (w_commit w) in
          (set_vault st v,
           match saved with
           | Err _ => writeErr 500 "INTERNAL_ERROR" "failed to save credential"
           | Ok saved => AnsJSON 200 (if time_in_range (cr_UpdatedAt saved)
                                   then Some (enc_credentialSummary (saved_summary saved)) else None) None
           end)
      end
  end.

Definition handleCredentialMigrate (st : ServerState) (r : HTTPRequest) (w : World) : ServerState * Answer :=
  let (st, session) := credentialSession st r w in
  match session with
  | Err refusal => (st, refusal)
  | Ok (_, v) =>
      match read_limited r (16 * 1024 + 1) with
      | None => (st, writeErr 400 "BAD_REQUEST" "migration request is too large")
      | Some body =>
          if 16 * 1024 <? len body
          then (st, writeErr 400 "BAD_REQUEST" "migration request is too large")
          else
            match unmarshal (dec_struct migrateRequest_fields) body "" with
            | None | Some EmptyString => (st, writeErr 400 "BAD_REQUEST" "earlier login password is required")
            | Some password =>
                let (v, outcome) := MigrateLegacyFromPassword IDKey v password (w_nonces w) (w_commit w) in
                (set_vault st v,
                 match outcome with
                 | Err _ => writeErr 500 "VAULT_MIGRATE_FAILED" "credential migration failed"
                 | Ok (migrated, remaining) =>
                     if (migrated =? 0)%nat && (0 <? remaining)%nat
                     then writeErr 422 "VAULT_MIGRATE_FAILED"
                            "the supplied password could not decrypt older credentials"
                     else writeJSON 200 (JObj [("migrated", enc_int (Z.of_nat migrated)); ("ok", JBool true);
                                               ("remaining", enc_int (Z.of_nat remaining))])
                 end)
            end
      end
  end.

Definition handleCredentialDelete (st : ServerState) (id : string) (r : HTTPRequest) (w : World)
    : ServerState * Answer :=
  let (st, session) := credentialSession st r w in
  match session with
  | Err refusal => (st, refusal)
  | Ok (_, v) =>
      let (v, err) := VDelete v id (w_commit w) in
      (set_vault st v,
       match err with
       | Some _ => writeErr 400 "BAD_REQUEST" "failed to delete credential"
       | None => writeJSON 200 ok_body
       end)
  end.

(** [serveFile], [serveStatic] and [handleIndex] *)
Definition serveFile (w : World) (name : string) : Answer :=
  if w_static w name then AnsStatic name else AnsNotFound.

Definition serveStatic (w : World) (r : HTTPRequest) : Answer :=
  let path := TrimPrefix (url_path (hr_Path r)) "/" in
  serveFile w (if path =?s "" then "index.html" else path).

Definition handleIndex (w : World) (r : HTTPRequest) : Answer :=
  if negb (url_path (hr_Path r) =?s "/") then AnsNotFound else serveFile w "index.html".

Definition handleHealthz : Answer := writeJSON 200 ok_body.

(** The multiplexer with the handlers registered by [routes]. *)
Definition serve (st : ServerState) (r : HTTPRequest) (w : World) : ServerState * Answer :=
  match route (hr_Method r) (hr_Path r) with
  | Some EHealthz => (st, handleHealthz)
  | Some ELogin => handleLogin st r w
  | Some ELogout => handleLogout st r w
  | Some ESession => handleSession st r w
  | Some EUIConfig => handleUIConfig st w
  | Some ECredentialList => handleCredentialList st r w
  | Some ECredentialPut => handleCredentialPut st r w
  | Some ECredentialMigrate => handleCredentialMigrate st r w
  | Some (ECredentialGet id) => handleCredentialGet st id r w
  | Some (ECredentialDelete id) => handleCredentialDelete st id r w
  | Some EWsSSH => (st, ToSSH)
  | Some EWsTunnel => (st, ToTunnel)
  | Some EIndex => (st, if bool_decide (hr_Path r = ["vendor"]) then AnsRedirect "/vendor/" else handleIndex w r)
  | Some EStatic => (st, serveStatic w r)
  | Some EThemesJS => (st, AnsThemes)
  | None => (st, AnsMethodNotAllowed)
  end.

(** A run of the server: the answers to a list of requests. *)
Fixpoint serve_all (st : ServerState) (reqs : list (HTTPRequest * World)) : ServerState * list Answer :=
  match reqs with
  | [] => (st, [])
  | (r, w) :: rest => let (st, a) := serve st r w in
                      let (st, answers) := serve_all st rest in (st, a :: answers)
  end.

(** ** Lemmas: the handlers of the credential endpoints *)

Definition is_credential (e : Endpoint) : bool :=
  match e with
  | ECredentialList | ECredentialPut | ECredentialMigrate | ECredentialGet _ | ECredentialDelete _ => true
  | _ => false
  end.

Lemma session_vault st r w : st_vault (session st r w).1 = st_vault st.
Proof. unfold session. by destruct (SessionFromRequest _ _ _ _). Qed.

Lemma session_info st r w :
  (session st r w).2 = snd (SessionFromRequest auth (st_sessions st) (hr_Cookie r) (w_now w)).
Proof. unfold session. by destruct (SessionFromRequest _ _ _ _). Qed.

Lemma credentialSession_eq st r w :
  credentialSession st r w
  = ((session st r w).1,
     match (session st r w).2 with
     | None => Err (writeErr 401 "AUTH_REQUIRED" "authentication required")
     | Some info => match st_vault st with
                    | None => Err (writeErr 503 "CREDENTIAL_STORAGE_DISABLED" "credential storage is disabled")
                    | Some v => Ok (info, v)
                    end
     end).
Proof.
  unfold credentialSession. pose proof (session_vault st r w) as Hv.
  destruct (session st r w) as [st' info]. cbn [fst snd] in *. by rewrite Hv.
Qed.

(** A refused request reaches no vault. *)
Lemma credential_refused st r w e refusal :
  route (hr_Method r) (hr_Path r) = Some e -> is_credential e = true ->
  (credentialSession st r w).2 = Err refusal ->
  serve st r w = ((session st r w).1, refusal).
Proof.
  intros He Hc Hr. unfold serve. rewrite He. rewrite credentialSession_eq in Hr. cbn [snd] in Hr.
  destruct e; try done; unfold handleCredentialList, handleCredentialPut, handleCredentialMigrate,
    handleCredentialGet, handleCredentialDelete; rewrite credentialSession_eq, Hr; done.
Qed.

(** Endpoints that change the vault. *)
Definition changes_vault (e : Endpoint) : bool :=
  match e with
  | ECredentialList | ECredentialPut | ECredentialMigrate | ECredentialDelete _ => true
  | _ => false
  end.

Lemma other_keeps_vault st r w :
  match route (hr_Method r) (hr_Path r) with Some e => changes_vault e = false | None => True end ->
  st_vault (serve st r w).1 = st_vault st.
Proof.
  unfold serve. pose proof (session_vault st r w) as Hv.
  destruct (route _ _) as [[]|]; try done; intros _.
  - unfold handleLogin. cases.
  - unfold handleLogout. destruct (session st r w) as [st' [info|]]; [|done]. by destruct (Logout _ _ _).
  - unfold handleSession. by destruct (session st r w).
  - unfold handleCredentialGet. rewrite credentialSession_eq. done.
Qed.

End Handlers.

(** ** What the server shows of the secrets *)

Section ServerProperties.

Context `{Crypto} `{TimeText} (IDKey : string -> string -> string).
Context (cfg : Config) (auth : Authenticator).

Definition states_alike (st1 st2 : ServerState) : Prop :=
  st_sessions st1 = st_sessions st2 /\ option_Forall2 alike (st_vault st1) (st_vault st2).

(** The endpoints that may answer with a credential or depend on its text. *)
Definition discloses (e : Endpoint) : bool :=
  match e with ECredentialGet _ | ECredentialMigrate => true | _ => false end.

(** A request to the other endpoints; an item it saves is clean text, with the
    clock in range and a nonce of the right size. *)
Definition discreet (rw : HTTPRequest * World) : bool :=
  let (r, w) := rw in
  match route (hr_Method r) (hr_Path r) with
  | Some ECredentialPut =>
      match read_item r with
      | Ok item => op_clean (OpPut "" item (w_later w) (w_id w) (w_random w) (w_commit w))
      | Err _ => true
      end
  | Some e => negb (discloses e)
  | None => true
  end.

Lemma set_vault_alike st1 st2 v1 v2 :
  states_alike st1 st2 -> alike v1 v2 -> states_alike (set_vault st1 v1) (set_vault st2 v2).
Proof. intros [Hs _] Hv. split; [done|by constructor]. Qed.

Lemma session_alike st1 st2 r w :
  states_alike st1 st2 ->
  states_alike (session auth st1 r w).1 (session auth st2 r w).1
  /\ (session auth st1 r w).2 = (session auth st2 r w).2.
Proof.
  intros [Hs Hv]. unfold session. rewrite Hs. by destruct (SessionFromRequest _ _ _ _).
Qed.

(** The store a credential request gets, on both sides. *)
Lemma credentialSession_alike st1 st2 r w :
  states_alike st1 st2 ->
  states_alike (credentialSession auth st1 r w).1 (credentialSession auth st2 r w).1
  /\ ((exists refusal, (credentialSession auth st1 r w).2 = Err refusal
                       /\ (credentialSession auth st2 r w).2 = Err refusal)
      \/ (exists info v1 v2, (credentialSession auth st1 r w).2 = Ok (info, v1)
            /\ (credentialSession auth st2 r w).2 = Ok (info, v2) /\ alike v1 v2)).
Proof.
  intros Ha. rewrite !credentialSession_eq. destruct (session_alike st1 st2 r w Ha) as [Hs Hi].
  cbn [fst snd]. split; [done|]. rewrite Hi. destruct (session auth st2 r w).2 as [info|]; [|left; by eexists].
  destruct Ha as [_ Hv]. inversion Hv; subst; [right; by do 3 eexists|left; by eexists].
Qed.

Lemma handleCredentialPut_alike st1 st2 r w :
  states_alike st1 st2 ->
  (forall item, read_item r = Ok item ->
     op_clean (OpPut "" item (w_later w) (w_id w) (w_random w) (w_commit w)) = true) ->
  (handleCredentialPut auth st1 r w).2 = (handleCredentialPut auth st2 r w).2
  /\ states_alike (handleCredentialPut auth st1 r w).1 (handleCredentialPut auth st2 r w).1.
Proof.
  intros Ha Hi. unfold handleCredentialPut. destruct (credentialSession_alike st1 st2 r w Ha) as [Hs Hc].
  destruct (credentialSession auth st1 r w) as [s1 c1], (credentialSession auth st2 r w) as [s2 c2].
  cbn [fst snd] in *. destruct Hc as [(refusal & -> & ->)|(info & v1 & v2 & -> & -> & Hv)]; [done|].
  destruct (read_item r) as [item|]; [|done].
  destruct (PutForUser_alike v1 v2 (si_Username info) item (w_later w) (w_id w) (w_random w)
              (w_commit w) Hv (Hi item eq_refl)) as [Hr Hv'].
  destruct (PutForUser v1 _ _ _ _ _ _) as [v1' r1], (PutForUser v2 _ _ _ _ _ _) as [v2' r2].
  cbn [fst snd] in *. split; [|by apply set_vault_alike].
  destruct r1 as [x1|], r2 as [x2|]; try done. cbn [same_saved] in Hr.
  destruct x1, x2. unfold same_public, summary_of in Hr. cbn in Hr.
  injection Hr as -> -> -> -> -> -> -> _ Hp ->. unfold saved_summary, enc_credentialSummary. cbn. by rewrite Hp.
Qed.

(** One request, on states that differ in their secrets. *)
Lemma serve_alike st1 st2 r w :
  states_alike st1 st2 -> discreet (r, w) = true ->
  (serve IDKey cfg auth st1 r w).2 = (serve IDKey cfg auth st2 r w).2
  /\ states_alike (serve IDKey cfg auth st1 r w).1 (serve IDKey cfg auth st2 r w).1.
Proof.
  intros Ha Hd. unfold serve. cbn [discreet] in Hd. destruct (session_alike st1 st2 r w Ha) as [Hs Hi].
  destruct (credentialSession_alike st1 st2 r w Ha) as [Hs' Hc].
  destruct (route _ _) as [[]|]; try done; try (by split).
  - unfold handleLogin. destruct (HasPrefix _ _); cbn [negb]; [|by split]. destruct (read_limited r 4096); [|by split].
    destruct (unmarshal _ _ _); [|by split]. rewrite (proj1 Ha). destruct (Login _ _ _ _ _ _ _ _).
    split; [done|]. by destruct Ha.
  - unfold handleLogout. destruct (session auth st1 r w) as [s1 i1], (session auth st2 r w) as [s2 i2].
    cbn [fst snd] in *. subst i2. destruct i1; [|done]. rewrite (proj1 Hs).
    destruct (Logout _ _ _). split; [done|]. by destruct Hs.
  - unfold handleSession. destruct (session auth st1 r w) as [s1 i1], (session auth st2 r w) as [s2 i2].
    cbn [fst snd] in *. by subst i2.
  - unfold handleUIConfig. split; [|done]. destruct Ha as [_ Hv]. cbn [snd]. by inversion Hv.
  - unfold handleCredentialList.
    destruct (credentialSession auth st1 r w) as [s1 c1], (credentialSession auth st2 r w) as [s2 c2].
    cbn [fst snd] in *. destruct Hc as [(refusal & -> & ->)|(info & v1 & v2 & -> & -> & Hv)]; [done|].
    destruct (ListSummaries_alike v1 v2 (si_Username info) (w_commit w) Hv) as [Hl Hv'].
    destruct (ListSummaries v1 _ _) as [v1' l1], (ListSummaries v2 _ _) as [v2' l2]. cbn [fst snd] in *.
    subst l2. split; [done|by apply set_vault_alike].
  - apply handleCredentialPut_alike; [done|]. intros item Hr. by rewrite Hr in Hd.
  - unfold handleCredentialDelete.
    destruct (credentialSession auth st1 r w) as [s1 c1], (credentialSession auth st2 r w) as [s2 c2].
    cbn [fst snd] in *. destruct Hc as [(refusal & -> & ->)|(info & v1 & v2 & -> & -> & Hv)]; [done|].
    destruct (VDelete_alike v1 v2 id (w_commit w) Hv) as [Hl Hv'].
    destruct (VDelete v1 _ _) as [v1' l1], (VDelete v2 _ _) as [v2' l2]. cbn [fst snd] in *.
    subst l2. split; [done|by apply set_vault_alike].
Qed.

(** ** Lemmas: a saved credential stays *)

Lemma PutForUser_other v o c now random nonce commit id :
  cr_ID (stamp (VGet v) c now random) <> id ->
  VGet (PutForUser v o c now random nonce commit).1 id = VGet v id.
Proof.
  intros Hne. unfold PutForUser. destruct (marshal_Credential _); [|done]. destruct (encryptV2 _ _ _ _); [|done].
  assert (forall ss, VGet (set_db v (set_buckets (db v)
            (<[cr_ID (stamp (VGet v) c now random) := s0]> (credentials (db v))) ss)) id = VGet v id) as Hg.
  { intros ss. unfold VGet at 1. cbn [set_db db set_buckets credentials]. by rewrite lookup_insert_ne. }
  destruct (o =?s ""), commit; try done; try apply Hg; destruct (marshal_Summary _); try done; apply Hg.
Qed.

Lemma VDelete_other v id' commit id : id' <> id -> VGet (VDelete v id' commit).1 id = VGet v id.
Proof.
  intros Hne. unfold VDelete. destruct (id' =?s ""); [done|]. destruct commit; [|done]. cbn [negb fst].
  unfold VGet. cbn [set_db db set_buckets credentials]. by rewrite lookup_delete_ne.
Qed.

Lemma ListSummaries_get v o commit id : VGet (ListSummaries v o commit).1 id = VGet v id.
Proof.
  destruct (ListSummaries_abstract v o commit) as (Hm & Hc & _). unfold VGet, read_record. by rewrite Hm, Hc.
Qed.

(** A readable record is current, so that migration leaves it. *)
Lemma migrate_get v password nonces commit id c :
  VGet v id = Ok c -> VGet (MigrateLegacyFromPassword IDKey v password nonces commit).1 id = Ok c.
Proof.
  intros Hg. unfold MigrateLegacyFromPassword. destruct (password =?s ""); [done|].
  destruct (migrate_all _ _ _ _) as [[records remaining]|e] eqn:Em; [|done].
  destruct records as [|x xs]; [done|]. destruct commit; [|done]. cbn [fst].
  destruct (migrate_all_spec _ _ _ (credentials (db v)) _ _ _ Em (for_each_NoDup _)) as (H1 & _ & H3 & _);
    [intros; by apply for_each_lookup|].
  pose proof (put_all_lookup (x :: xs) (credentials (db v)) id H1) as Hp.
  rewrite <- Hg. unfold VGet in *. cbn [set_db db set_buckets credentials].
  destruct (credentials (db v) !! id) as [sealed|] eqn:Es; [|done].
  assert (isV2 sealed = true) as Hv.
  { unfold read_record, decryptRecord in Hg. by destruct (isV2 sealed). }
  destruct (put_all _ _ !! id) as [new|]; [|by destruct Hp]. destruct Hp as [Hin|[_ [= ->]]]; [|done].
  destruct (H3 _ _ Hin) as (old & p & c' & Ho & Hold & _). congruence.
Qed.

(** Requests that neither save to an id nor delete it. *)
Definition spares (id : string) (rw : HTTPRequest * World) : bool :=
  let (r, w) := rw in
  match route (hr_Method r) (hr_Path r) with
  | Some ECredentialPut =>
      match read_item r with
      | Ok item => negb ((if cr_ID item =?s "" then B64Encode (w_id w) else cr_ID item) =?s id)
      | Err _ => true
      end
  | Some (ECredentialDelete id') => negb (id' =?s id)
  | _ => true
  end.

Definition holds (st : ServerState) (id : string) (c : Credential) : Prop :=
  exists v, st_vault st = Some v /\ VGet v id = Ok c.

Lemma stamp_id get c now random :
  cr_ID (stamp get c now random) = if cr_ID c =?s "" then B64Encode random else cr_ID c.
Proof.
  destruct c as [i n h p u k ps t uh cr up]. unfold stamp. cbn [cr_ID].
  by destruct (i =?s ""), (cr =? time_zero).
Qed.

Lemma serve_keeps st r w id c :
  holds st id c -> spares id (r, w) = true -> holds (serve IDKey cfg auth st r w).1 id c.
Proof.
  intros (v & Hv & Hg) Hsp. cbn [spares] in Hsp.
  pose proof (other_keeps_vault IDKey cfg auth st r w) as Ho.
  destruct (route (hr_Method r) (hr_Path r)) as [e|] eqn:He; [|exists v; by rewrite Ho].
  destruct (changes_vault e) eqn:Hce; [|exists v; by rewrite Ho]. clear Ho.
  destruct (credentialSession auth st r w).2 as [[info v']|refusal] eqn:Hc.
  2:{ rewrite (credential_refused IDKey cfg auth _ _ _ _ _ He ltac:(by destruct e) Hc). cbn [fst].
      exists v. by rewrite session_vault. }
  assert (v' = v) as ->.
  { rewrite credentialSession_eq, Hv in Hc. cbn [snd] in Hc.
    destruct (session auth st r w).2; [by injection Hc|done]. }
  assert (exists st1, credentialSession auth st r w = (st1, Ok (info, v)) /\ st_vault st1 = Some v)
    as (st1 & Hs & Hv1).
  { rewrite credentialSession_eq in *. cbn [snd] in Hc. rewrite Hc. eexists. split; [done|].
    by rewrite session_vault. }
  unfold serve. rewrite He. destruct e; try done.
  - unfold handleCredentialList. rewrite Hs. pose proof (ListSummaries_get v (si_Username info) (w_commit w) id).
    destruct (ListSummaries v _ _) as [v2 l]. cbn [fst] in *. exists v2. split; [done|congruence].
  - unfold handleCredentialPut. rewrite Hs. destruct (read_item r) as [item|]; [|by exists v].
    pose proof (PutForUser_other v (si_Username info) item (w_later w) (w_id w) (w_random w) (w_commit w) id)
      as Hp. rewrite stamp_id in Hp. apply negb_true_iff, String.eqb_neq in Hsp. specialize (Hp Hsp).
    destruct (PutForUser v _ _ _ _ _ _) as [v2 l]. cbn [fst] in *. exists v2. split; [done|congruence].
  - unfold handleCredentialMigrate. rewrite Hs. destruct (read_limited r _) as [body|]; [|by exists v].
    destruct (_ <? len body); [by exists v|].
    destruct (unmarshal _ _ _) as [[|p0 pw]|]; [by exists v| |by exists v].
    pose proof (migrate_get v (String p0 pw) (w_nonces w) (w_commit w) id c Hg).
    destruct (MigrateLegacyFromPassword _ _ _ _ _) as [v2 l]. cbn [fst] in *. by exists v2.
  - unfold handleCredentialDelete. rewrite Hs. apply negb_true_iff, String.eqb_neq in Hsp.
    pose proof (VDelete_other v _ (w_commit w) id Hsp). destruct (VDelete v _ _) as [v2 l]. cbn [fst] in *.
    exists v2. split; [done|congruence].
Qed.

Lemma serve_all_keeps reqs st id c :
  holds st id c -> forallb (spares id) reqs = true -> holds (serve_all IDKey cfg auth st reqs).1 id c.
Proof.
  revert st; induction reqs as [|[r w] reqs IH]; intros st Hh Hs; [done|]. cbn [forallb serve_all] in *.
  bool_facts. pose proof (serve_keeps st r w id c Hh ltac:(done)) as Hh'.
  destruct (serve IDKey cfg auth st r w) as [st' a]. cbn [fst] in Hh'. specialize (IH st' Hh' ltac:(done)).
  by destruct (serve_all IDKey cfg auth st' reqs).
Qed.

(** The item of a body that holds a printed credential. *)
Lemma read_item_of_body r c item :
  hr_Body r = print (enc_Credential c) -> hr_BodyFails r = false -> len (hr_Body r) <= 256 * 1024 ->
  clean_credential c = true -> check_item c = Ok item -> read_item r = Ok item.
Proof.
  intros Hb Hbf Hlen Hc Hi. unfold read_item, read_limited. rewrite Hbf. cbn [andb].
  assert (str_take (Z.to_nat (256 * 1024 + 1)) (hr_Body r) = hr_Body r) as ->.
  { apply str_take_short. unfold len in Hlen. lia. }
  assert ((256 * 1024 <? len (hr_Body r)) = false) as -> by (apply Z.ltb_ge; lia).
  by rewrite Hb, decode_enc_Credential.
Qed.

(** Reading a credential the vault holds. *)
Lemma serve_get st r w id c :
  hr_Method r = "GET" -> hr_Path r = ["api"; "credentials"; id] -> id <> "" ->
  is_Some (snd (SessionFromRequest auth (st_sessions st) (hr_Cookie r) (w_now w))) ->
  holds st id c -> time_in_range (cr_CreatedAt c) = true -> time_in_range (cr_UpdatedAt c) = true ->
  (serve IDKey cfg auth st r w).2 = AnsJSON 200 (Some (enc_Credential c)) None.
Proof.
  intros Hm Hp Hid [info Hi] (v & Hv & Hg) H1 H2. unfold serve. rewrite Hm, Hp.
  assert (route "GET" ["api"; "credentials"; id] = Some (ECredentialGet id)) as ->.
  { apply String.eqb_neq in Hid. unfold route, patterns. rewrite Hid. by destruct (id =?s "migrate"). }
  unfold handleCredentialGet. rewrite credentialSession_eq, session_info, Hi, Hv. cbn [snd].
  by rewrite Hg, H1, H2.
Qed.


(** C16.  No session, no vault: whatever endpoint of the credentials an
    unauthenticated request reaches is answered with AUTH_REQUIRED and leaves
    the vault alone, an authenticated one without a vault is told that storage
    is disabled, and the vault changes only in a request with a valid session
    to one of the endpoints that list, save, migrate or delete. *)
Theorem credentials_guarded st r w :
  let info := snd (SessionFromRequest auth (st_sessions st) (hr_Cookie r) (w_now w)) in
  let '(st', a) := serve IDKey cfg auth st r w in
  (forall e, route (hr_Method r) (hr_Path r) = Some e -> is_credential e = true ->
     (info = None -> a = writeErr 401 "AUTH_REQUIRED" "authentication required" /\ st_vault st' = st_vault st)
     /\ (is_Some info -> st_vault st = None ->
         a = writeErr 503 "CREDENTIAL_STORAGE_DISABLED" "credential storage is disabled"))
  /\ (st_vault st' <> st_vault st ->
      is_Some info /\ exists e, route (hr_Method r) (hr_Path r) = Some e /\ changes_vault e = true).
Proof.
  intros info. destruct (serve IDKey cfg auth st r w) as [st' a] eqn:E.
  assert (forall e refusal, route (hr_Method r) (hr_Path r) = Some e -> is_credential e = true ->
            (credentialSession auth st r w).2 = Err refusal ->
            st' = (session auth st r w).1 /\ a = refusal) as Href.
  { intros e refusal He Hc Hr. rewrite (credential_refused IDKey cfg auth _ _ _ _ _ He Hc Hr) in E.
    by injection E as <- <-. }
  pose proof (session_vault auth st r w) as Hv. pose proof (session_info auth st r w) as Hi. fold info in Hi.
  rewrite credentialSession_eq in Href. cbn [snd] in Href. rewrite Hi in Href. split.
  - intros e He Hc. split.
    + intros Hn. rewrite Hn in Href. destruct (Href e _ He Hc eq_refl) as [-> ->]. by rewrite Hv.
    + intros [i Hs] Hno. rewrite Hs, Hno in Href. by destruct (Href e _ He Hc eq_refl) as [_ ->].
  - intros Hch. pose proof (other_keeps_vault IDKey cfg auth st r w) as Ho. rewrite E in Ho. cbn [fst] in Ho.
    destruct (route _ _) as [e|] eqn:He; [|by destruct (Hch (Ho I))].
    destruct (changes_vault e) eqn:Hce; [|by destruct (Hch (Ho eq_refl))].
    split; [|by exists e]. destruct info as [i|]; [by eexists|].
    destruct (Href e _ eq_refl ltac:(by destruct e) eq_refl) as [-> _]. by destruct Hch.
Qed.

(** C17.  What is saved is served: when an authenticated request saves a
    credential, the answer is its summary, and after any further requests that
    do not save to its id or delete it, an authenticated request for the id is
    answered with the credential as it was saved. *)
Theorem saved_credential_served st r w v info c item nonce :
  hr_Method r = "POST" -> hr_Path r = ["api"; "credentials"] ->
  hr_Body r = print (enc_Credential c) -> hr_BodyFails r = false -> len (hr_Body r) <= 256 * 1024 ->
  snd (SessionFromRequest auth (st_sessions st) (hr_Cookie r) (w_now w)) = Some info ->
  st_vault st = Some v -> store_ok v ->
  clean_credential c = true -> check_item c = Ok item -> clean_credential item = true ->
  time_in_range (w_later w) = true -> w_random w = Some nonce -> String.length nonce = NonceSize ->
  w_commit w = true -> w_id w <> "" ->
  let saved := stamp (VGet v) item (w_later w) (w_id w) in
  exists st', serve IDKey cfg auth st r w
              = (st', AnsJSON 200 (Some (enc_credentialSummary (saved_summary saved))) None)
    /\ forall reqs r' w',
         forallb (spares (cr_ID saved)) reqs = true ->
         let st'' := (serve_all IDKey cfg auth st' reqs).1 in
         hr_Method r' = "GET" -> hr_Path r' = ["api"; "credentials"; cr_ID saved] ->
         is_Some (snd (SessionFromRequest auth (st_sessions st'') (hr_Cookie r') (w_now w'))) ->
         (serve IDKey cfg auth st'' r' w').2 = AnsJSON 200 (Some (enc_Credential saved)) None.
Proof.
  intros Hm Hp Hb Hbf Hlen Hi Hv Hok Hc Hitem Hclean Hnow Hr Hn Hcm Hwid saved.
  assert (read_item r = Ok item) as Hri by (apply (read_item_of_body r c); done).
  pose proof (stamp_store_clean v item (w_later w) (w_id w) Hok Hclean Hnow) as Hsc. fold saved in Hsc.
  pose proof (proj1 Hok) as Hk.
  pose proof (PutForUser_ok v (si_Username info) item (w_later w) (w_id w) (Some nonce) true Hsc Hk Hn) as Hput.
  unfold serve at 1. rewrite Hm, Hp. change (route "POST" ["api"; "credentials"]) with (Some ECredentialPut).
  cbv iota. unfold handleCredentialPut. rewrite credentialSession_eq, session_info, Hi, Hv, Hri, Hr, Hcm.
  destruct (PutForUser v _ item _ _ _ _) as [v' res]. destruct Hput as (_ & -> & Ha). fold saved in Ha.
  assert (time_in_range (cr_CreatedAt saved) = true /\ time_in_range (cr_UpdatedAt saved) = true) as [Ht1 Ht2]
    by (unfold clean_credential in Hsc; by bool_facts).
  fold saved. rewrite Ht2. eexists. split; [done|]. intros reqs r' w' Hsp Hm' Hp' His.
  assert (cr_ID saved <> "") as Hne.
  { unfold saved. rewrite stamp_id. destruct (cr_ID item =?s "") eqn:E; bool_facts; [|done].
    by apply B64Encode_nonempty. }
  apply (serve_get _ r' w' (cr_ID saved)); try done. apply serve_all_keeps; [|done].
  exists v'. split; [done|]. pose proof (abstract_lookup v' (cr_ID saved)) as Hl.
  rewrite Ha, lookup_insert_eq in Hl. destruct (VGet v' (cr_ID saved)); cbn [of_result] in Hl; congruence.
Qed.

End ServerProperties.

(** ** Witnesses *)

#[local] Existing Instance toy_crypto.
#[local] Existing Instance toy_time.

Definition sample_sessions : Store :=
  fst (Login sample_auth (NewStore 0) "admin" "pw" false (Some sample_random) 0 0).
Definition sample_cookie : option string := Some (signedToken sample_auth sample_token).
Definition sample_state (v : VStore) : ServerState := mkServerState sample_sessions (Some v).

Definition sample_request (method : string) (path : list string) (body : string) : HTTPRequest :=
  mkHTTPRequest method path "application/json" sample_cookie body false.
Definition list_request : HTTPRequest := sample_request "GET" ["api"; "credentials"] "".
Definition put_request : HTTPRequest :=
  sample_request "POST" ["api"; "credentials"] (print (enc_Credential sample_credential)).
Definition get_request : HTTPRequest := sample_request "GET" ["api"; "credentials"; "box"] "".
Definition delete_request (id : string) : HTTPRequest :=
  sample_request "DELETE" ["api"; "credentials"; id] "".

Definition sample_World : World :=
  mkWorld 1 9 (Some sample_nonce) "r" (fun _ => None) true None (fun _ => false).

Lemma saved_credential_served_witness :
  exists st', fst (serve toy_IDKey Default sample_auth (sample_state sample_store) put_request sample_World) = st'
    /\ (serve toy_IDKey Default sample_auth
         (serve_all toy_IDKey Default sample_auth st'
            [(list_request, sample_World); (delete_request "other", sample_World)]).1
         get_request sample_World).2
       = AnsJSON 200 (Some (enc_Credential stored_credential)) None.
Proof.
  destruct (saved_credential_served toy_IDKey Default sample_auth (sample_state sample_store) put_request
    sample_World sample_store (mkSessionInfo "admin" (12 * Hour)) sample_credential sample_credential sample_nonce
    eq_refl eq_refl eq_refl eq_refl) as (st' & Hs & Hg);
    [vm_compute; discriminate|vm_compute; reflexivity|reflexivity|exact sample_store_ok
    |vm_compute; reflexivity..|discriminate|].
  exists st'. split; [rewrite Hs; reflexivity|].
  assert (st' = fst (serve toy_IDKey Default sample_auth (sample_state sample_store) put_request sample_World))
    as E by (rewrite Hs; reflexivity).
  apply (Hg [(list_request, sample_World); (delete_request "other", sample_World)] get_request sample_World);
    [vm_compute; reflexivity|reflexivity|reflexivity|].
  rewrite E. vm_compute. eexists. reflexivity.
Defined.

(** The sample store with one of two keys in it. *)
Definition keyed (key : string) : Credential :=
  mkCredential "box" "Box" "10.0.0.5" 0 "root" key "" "" true 7 0.
Definition keyed_store (key : string) : VStore :=
  (PutForUser sample_store "" (keyed key) 9 "r" (Some sample_nonce) true).1.

Lemma keyed_lookup key id :
  clean_credential (stamp (VGet sample_store) (keyed key) 9 "r") = true -> id <> "box" ->
  credentials (db (keyed_store key)) !! id = None.
Proof.
  intros Hc Hne. unfold keyed_store.
  destruct (PutForUser_form sample_store "" (keyed key) 9 "r" sample_nonce true Hc eq_refl eq_refl)
    as (x & _ & ->).
  cbn [fst set_db db set_buckets credentials]. rewrite stamp_id, lookup_insert_ne by (cbn; congruence).
  reflexivity.
Qed.

Lemma keyed_alike : alike (keyed_store "KEY") (keyed_store "another, longer KEY").
Proof.
  split.
  - apply (vault_step_refines sample_store (OpPut "" (keyed "KEY") 9 "r" (Some sample_nonce) true)
             sample_store_ok). reflexivity.
  - apply (vault_step_refines sample_store (OpPut "" (keyed "another, longer KEY") 9 "r" (Some sample_nonce) true)
             sample_store_ok). reflexivity.
  - reflexivity.
  - intros id. destruct (decide (id = "box")) as [->|Hne]; [vm_compute; by constructor|].
    rewrite !keyed_lookup by done. constructor.
  - intros id. rewrite !abstract_lookup. unfold VGet.
    destruct (decide (id = "box")) as [->|Hne]; [vm_compute; by constructor|].
    rewrite !keyed_lookup by done. constructor.
Qed.


(** The sample list request without its cookie. *)
Definition anonymous_request : HTTPRequest :=
  mkHTTPRequest "GET" ["api"; "credentials"] "" None "" false.

Lemma credentials_guarded_witness :
  (serve toy_IDKey Default sample_auth (sample_state sample_store) anonymous_request sample_World).2
  = writeErr 401 "AUTH_REQUIRED" "authentication required".
Proof.
  pose proof (credentials_guarded toy_IDKey Default sample_auth (sample_state sample_store)
                anonymous_request sample_World) as H.
  cbv zeta in H. destruct (serve _ _ _ _ _ _) as [st' a].
  apply (proj1 H ECredentialList); reflexivity.
Defined.
