(* ===== verification/CliError.v ===== *)
(** * The terminal client's errors (internal/cli)

    The [error] values the client looks inside ([errors.Is], [errors.As],
    [websocket.IsCloseError]), their texts, and the answers it reads out of the
    server's error and closed messages. *)

From S2P Require Import Prelude GoStrings Json JsonDecode WsProtocol WsHandler.

(** ** Errors *)

#[warnings="-register-all"]
Inductive cerror : Type :=
| EOF                                            (* io.EOF *)
| Canceled                                       (* context.Canceled *)
| CloseError (code : Z) (text shown : string)    (* websocket.CloseError and its message *)
| NetError (timeout : bool) (text : string)      (* a net.Error *)
| RemoteExit (code : Z) (message : string)       (* cli.RemoteExit *)
| Plain (text : string)                          (* any other error *)
| Wrap (prefix : string) (cause : cerror).       (* fmt.Errorf(prefix + `%w`, cause) *)

(** [err.Error()] *)
Fixpoint cError (e : cerror) : string :=
  match e with
  | EOF => "EOF"
  | Canceled => "context canceled"
  | CloseError _ _ shown => shown
  | NetError _ text => text
  | RemoteExit code message =>
      if message =?s "" then "remote closed with status " +:+ Itoa code else message
  | Plain text => text
  | Wrap prefix cause => prefix +:+ cError cause
  end.

(** The first error of the chain a test accepts. *)
Fixpoint in_chain {A} (test : cerror -> option A) (e : cerror) : option A :=
  match test e with
  | Some a => Some a
  | None => match e with
            | Wrap _ cause => in_chain test cause
            | _ => None
            end
  end.

Definition is_EOF (e : cerror) : bool :=
  bool_decide (is_Some (in_chain (fun e => match e with EOF => Some tt | _ => None end) e)).
Definition is_Canceled (e : cerror) : bool :=
  bool_decide (is_Some (in_chain (fun e => match e with Canceled => Some tt | _ => None end) e)).
Definition as_CloseError (e : cerror) : option (Z * string) :=
  in_chain (fun e => match e with CloseError c t _ => Some (c, t) | _ => None end) e.
Definition as_NetError (e : cerror) : option bool :=
  in_chain (fun e => match e with NetError t _ => Some t | _ => None end) e.
Definition as_RemoteExit (e : cerror) : option (Z * string) :=
  in_chain (fun e => match e with RemoteExit c m => Some (c, m) | _ => None end) e.

(** [websocket.IsCloseError(err, codes...)]: whether the error itself is a
    close error with one of the codes. *)
Definition IsCloseError (e : cerror) (codes : list Z) : bool :=
  match e with
  | CloseError c _ _ => existsb (fun code => c =? code) codes
  | _ => false
  end.

Definition CloseNormalClosure : Z := 1000.
Definition CloseGoingAway : Z := 1001.

(** ** Error and closed messages *)

(** [_ = json.Unmarshal(raw, &x)] into a struct: a member of the wrong type
    leaves its field as it was, and the others are stored.  (A mistyped exit
    status makes Go's pointer non-nil with 0 behind it, which the caller cannot
    tell from nil.) *)
Fixpoint fill_members {T} (fs : list (field T)) (m : list (string * json)) (cur : T) : T :=
  match m with
  | [] => cur
  | (k, v) :: m =>
      fill_members fs m
        match find_field fs k with
        | Some d => default cur (d v cur)
        | None => cur
        end
  end.

Definition unmarshal_ignoring_error {T} (fs : list (field T)) (raw : option json) (zero : T) : T :=
  match raw with
  | Some (JObj m) => fill_members fs m zero
  | _ => zero
  end.

Definition read_ErrorData (raw : option json) : ErrorData :=
  unmarshal_ignoring_error ErrorData_fields raw (mkErrorData "" "").
Definition read_ClosedData (raw : option json) : ClosedData :=
  unmarshal_ignoring_error ClosedData_fields raw (mkClosedData "" None).

(** The error a client makes of an error message, with a text for an empty
    one. *)
Definition server_error (fallback : string) (raw : option json) : cerror :=
  let ed := read_ErrorData raw in
  let message := if ed_Message ed =?s "" then fallback else ed_Message ed in
  if ed_Code ed =?s "" then Plain message else Plain (ed_Code ed +:+ ": " +:+ message).

(** What one frame means while the client waits for an answer: done, an error,
    or to be skipped. *)
Definition wait_frame (accept : string) (reject : Message -> option cerror) (f : Frame)
    : option (result cerror unit) :=
  match f with
  | TextMessage payload =>
      match DecodeMessage payload with
      | None => None
      | Some message =>
          if Type_ message =?s accept then Some (Ok tt)
          else Err <$> reject message
      end
  | _ => None
  end.

(** A loop over the frames that arrive; [rerr] is the error of the read after
    the last one.  The frames left over are those a later loop reads. *)
Fixpoint wait_loop (step : Frame -> option (result cerror unit)) (what : string) (frames : list Frame)
    (rerr : cerror) : result cerror (list Frame) :=
  match frames with
  | [] => Err (Wrap what rerr)
  | f :: rest =>
      match step f with
      | None => wait_loop step what rest rerr
      | Some (Ok _) => Ok rest
      | Some (Err e) => Err e
      end
  end.

(** ** Lemmas *)

(** When decoding succeeds, ignoring its error changes nothing. *)
Lemma fill_members_ok {T} (fs : list (field T)) m cur t :
  dec_members fs m cur = Some t -> fill_members fs m cur = t.
Proof.
  revert cur; induction m as [|[k v] m IH]; intros cur H; cbn in H |- *; [by simplify_eq|].
  destruct (find_field fs k) as [d|]; [|by apply IH].
  destruct (d v cur) as [c|]; [|done]. by apply IH.
Qed.

Lemma unmarshal_ignoring_ok {T} (fs : list (field T)) raw zero t :
  unmarshal_raw (dec_struct fs) raw zero = Some t -> unmarshal_ignoring_error fs raw zero = t.
Proof.
  destruct raw as [[]|]; cbn; intros H; simplify_eq; try done. by apply fill_members_ok.
Qed.

Lemma read_ErrorData_enc e : read_ErrorData (Some (enc_ErrorData e)) = e.
Proof. apply unmarshal_ignoring_ok, enc_ErrorData_ok. Qed.

Lemma read_ClosedData_enc c :
  (forall n, cl_ExitStatus c = Some n -> in_int64 n = true) -> read_ClosedData (Some (enc_ClosedData c)) = c.
Proof. intros H. by apply unmarshal_ignoring_ok, enc_ClosedData_ok. Qed.

(** What [wait_loop] did: it skipped frames and then stopped at one, or ran
    out. *)
Lemma wait_loop_spec step what frames rerr :
  (exists f rest r, wait_loop step what frames rerr = match r with Ok _ => Ok rest | Err e => Err e end
     /\ step f = Some r
     /\ exists skipped, frames = skipped ++ f :: rest /\ Forall (fun g => step g = None) skipped)
  \/ (wait_loop step what frames rerr = Err (Wrap what rerr) /\ Forall (fun g => step g = None) frames).
Proof.
  induction frames as [|f frames IH]; cbn [wait_loop]; [right; by split|].
  destruct (step f) as [r|] eqn:E.
  - left. exists f, frames, r. split; [by destruct r|]. split; [done|]. by exists [].
  - destruct IH as [(g & rest & r & Hw & Hg & sk & -> & HF)|[Hw HF]].
    + left. exists g, rest, r. split_and!; [done..|]. exists (f :: sk). split; [done|by constructor].
    + right. split; [done|by constructor].
Qed.

Lemma wait_loop_skip step what skipped frames rerr :
  Forall (fun g => step g = None) skipped ->
  wait_loop step what (skipped ++ frames) rerr = wait_loop step what frames rerr.
Proof. induction 1 as [|f l Hf _ IH]; cbn; [done|]. by rewrite Hf. Qed.

(** Walking a chain. *)
Lemma in_chain_wrap {A} (test : cerror -> option A) p e :
  test (Wrap p e) = None -> in_chain test (Wrap p e) = in_chain test e.
Proof. intros H. cbn. by rewrite H. Qed.
