(* ===== verification/CliOptions.v ===== *)
(** * What the terminal client is asked to do (internal/cli/cli.go)

    The options of a run, the destination on the command line, the choice of a
    saved credential, the client's URLs and its [Origin], and the connect
    request that the options and a saved credential give.

    [url.Parse] is an argument: the model starts at its result.  So are the
    file system, the terminal's size, [strconv.Quote] and the Unicode tables
    behind [strings.ToLower] and [strings.EqualFold] outside ASCII. *)

From S2P Require Import Prelude GoStrings GoTime Json JsonDecode Netip NetworkPolicy Config WsProtocol SshClient WsHandler CliError.

Definition maxKeyBytes : Z := 128 * 1024.
Definition maxInputBytes : Z := 32 * 1024.
Definition defaultCols : Z := 80.
Definition defaultRows : Z := 24.
Definition defaultTimeout : Z := 45 * Second.

Record Options : Type := mkOptions {
  o_ServerURL : string; o_WebUser : string; o_WebPassword : string; o_ProxyURL : string;
  o_NoProxy : bool; o_InsecureTLS : bool; o_PrivateConnect : bool; o_IdentityFile : string;
  o_Passphrase : string; o_Saved : string; o_ListSaved : bool; o_Host : string; o_Port : Z;
  o_SSHUser : string; o_Term : string; o_UseTmux : bool; o_TmuxSession : string;
  o_Timeout : Z; o_UserAgent : string }.

(** Changed copies of the options. *)
Definition with_target (host : string) (port : Z) (o : Options) : Options :=
  mkOptions (o_ServerURL o) (o_WebUser o) (o_WebPassword o) (o_ProxyURL o) (o_NoProxy o)
    (o_InsecureTLS o) (o_PrivateConnect o) (o_IdentityFile o) (o_Passphrase o) (o_Saved o)
    (o_ListSaved o) host port (o_SSHUser o) (o_Term o) (o_UseTmux o) (o_TmuxSession o)
    (o_Timeout o) (o_UserAgent o).
Definition with_user (user : string) (o : Options) : Options :=
  mkOptions (o_ServerURL o) (o_WebUser o) (o_WebPassword o) (o_ProxyURL o) (o_NoProxy o)
    (o_InsecureTLS o) (o_PrivateConnect o) (o_IdentityFile o) (o_Passphrase o) (o_Saved o)
    (o_ListSaved o) (o_Host o) (o_Port o) user (o_Term o) (o_UseTmux o) (o_TmuxSession o)
    (o_Timeout o) (o_UserAgent o).
Definition with_private (private : bool) (o : Options) : Options :=
  mkOptions (o_ServerURL o) (o_WebUser o) (o_WebPassword o) (o_ProxyURL o) (o_NoProxy o)
    (o_InsecureTLS o) private (o_IdentityFile o) (o_Passphrase o) (o_Saved o)
    (o_ListSaved o) (o_Host o) (o_Port o) (o_SSHUser o) (o_Term o) (o_UseTmux o) (o_TmuxSession o)
    (o_Timeout o) (o_UserAgent o).

Record credentialSummary : Type := mkCredSummary {
  cs_ID : string; cs_Name : string; cs_Host : string; cs_Port : Z; cs_Username : string;
  cs_Term : string; cs_UseTmux : bool }.

Record savedCredential : Type := mkSaved {
  sv_ID : string; sv_Name : string; sv_Host : string; sv_Port : Z; sv_Username : string;
  sv_PrivateKey : string; sv_Passphrase : string; sv_Term : string;
  sv_UseTmux : bool; sv_UseHerdr : bool }.

(** ** Destinations *)

Section Parse.

Context (Quote : string -> string).

(** A byte that is no ASCII digit makes the port invalid: another Unicode digit
    passes the first test of the code, and then [Atoi] rejects it with the same
    error. *)
Definition parsePort (s : string) : result cerror Z :=
  let invalid := Plain ("invalid port " +:+ Quote s) in
  reject! (s =?s "") || ContainsFunc (fun c => bool_decide (digit_of c = None)) s with invalid in
  match Atoi s with
  | Some port => reject! (port <? 1) || (65535 <? port) with invalid in Ok port
  | None => Err invalid
  end.

(** The destination after the user name. *)
Definition parse_host_port (user s : string) : result cerror (string * string * Z) :=
  if HasPrefix s "[" then
    match IndexByte s "]"%char with
    | None => Err (Plain "invalid IPv6 destination")
    | Some e =>
        let host := str_drop 1 (str_take e s) in
        let rest := str_drop (S e) s in
        reject! host =?s "" with Plain "missing host" in
        if rest =?s "" then Ok (user, host, 0)
        else
          require! HasPrefix rest ":" else Plain "invalid destination" in
          let! port := parsePort (str_drop 1 rest) in
          Ok (user, host, port)
    end
  else
    match SplitHostPort s with
    | Some (h, p) =>
        let! port := parsePort p in
        reject! h =?s "" with Plain "missing host" in
        Ok (user, h, port)
    | None =>
        reject! s =?s "" with Plain "missing host" in
        Ok (user, s, 0)
    end.

Definition ParseDestination (s : string) : result cerror (string * string * Z) :=
  let s := TrimSpace s in
  reject! s =?s "" with Plain "missing destination" in
  reject! GoStrings.Contains s "://"
    with Plain "destination must be [user@]host[:port], not a URL" in
  match LastIndexByte s "@"%char with
  | Some i =>
      let user := str_take i s in
      reject! TrimSpace user =?s "" with Plain "missing username before @" in
      parse_host_port user (str_drop (S i) s)
  | None => parse_host_port "" s
  end.

(** ** Saved credentials *)

Context (unicode_EqualFold : string -> string -> bool) (unicode_ToLower : string -> string).

Definition lower (s : string) : string := if is_ascii s then ascii_lower s else unicode_ToLower s.

Definition exact_match (nameOrID : string) (item : credentialSummary) : bool :=
  (cs_ID item =?s nameOrID) || EqualFold unicode_EqualFold (cs_Name item) nameOrID.

Definition prefix_match (nameOrID : string) (item : credentialSummary) : bool :=
  HasPrefix (cs_ID item) nameOrID || HasPrefix (lower (cs_Name item)) (lower nameOrID).

(** The loop of [matchSaved]: an exact match ends it, the prefix matches seen so
    far are kept. *)
Fixpoint match_items (nameOrID : string) (items matches : list credentialSummary)
    : string + list credentialSummary :=
  match items with
  | [] => inr matches
  | item :: items =>
      if exact_match nameOrID item then inl (cs_ID item)
      else match_items nameOrID items
             (if prefix_match nameOrID item then matches ++ [item] else matches)
  end.

Definition matchSaved (items : list credentialSummary) (nameOrID : string) : result cerror string :=
  let nameOrID := TrimSpace nameOrID in
  reject! nameOrID =?s "" with Plain "saved credential id or name is required" in
  match match_items nameOrID items [] with
  | inl id => Ok id
  | inr [item] => Ok (cs_ID item)
  | inr (_ :: _ :: _) => Err (Plain ("saved credential " +:+ Quote nameOrID +:+ " is ambiguous"))
  | inr [] => Err (Plain ("saved credential " +:+ Quote nameOrID +:+ " not found"))
  end.

End Parse.

(** ** Terminal size and identity files *)

Definition clampSize (cols rows : Z) : Z * Z :=
  let cols := if cols <? 20 then 20 else cols in
  let cols := if 500 <? cols then 500 else cols in
  let rows := if rows <? 5 then 5 else rows in
  let rows := if 200 <? rows then 200 else rows in
  (cols, rows).

Section Files.

(** [os.ReadFile], [os.UserHomeDir] and [filepath.Join]. *)
Context (ReadFile : string -> result cerror string) (UserHomeDir : option string)
        (Join : string -> string -> string).

Definition expandPath (path : string) : string :=
  if (path =?s "~") || HasPrefix path "~/" || HasPrefix path ("~" +:+ String bslash "") then
    match UserHomeDir with
    | None => path
    | Some home => if path =?s "~" then home else Join home (str_drop 2 path)
    end
  else path.

Definition readIdentityFile (path : string) : result cerror string :=
  let path := expandPath path in
  let! data := map_err (Wrap "identity file: ") (ReadFile path) in
  reject! maxKeyBytes <? len data with Plain "identity file is too large" in
  reject! TrimSpace data =?s "" with Plain ("identity file " +:+ path +:+ " is empty") in
  Ok data.

(** The key and the file it came from. *)
Fixpoint first_identity (home : string) (names : list string) : option (string * string) :=
  match names with
  | [] => None
  | name :: names =>
      let path := Join (Join home ".ssh") name in
      match ReadFile path with
      | Err _ => first_identity home names
      | Ok data => if (len data =? 0) || (maxKeyBytes <? len data) then first_identity home names
                   else Some (data, path)
      end
  end.

Definition readDefaultIdentity : result cerror (string * string) :=
  let missing := Plain "private key is required (-i or --saved)" in
  let! home := of_option missing UserHomeDir in
  of_option missing (first_identity home ["id_ed25519"; "id_ecdsa"; "id_rsa"]).

End Files.

(** ** Lemmas *)

(** A clamped size is within the server's limits. *)
Lemma clampSize_range cols rows :
  20 <= fst (clampSize cols rows) <= 500 /\ 5 <= snd (clampSize cols rows) <= 200.
Proof. unfold clampSize. cbn [fst snd]. repeat case_match; bool_facts; lia. Qed.

Lemma LastIndexByte_None s c : IndexByte s c = None -> LastIndexByte s c = None.
Proof.
  induction s as [|d s IH]; [done|]. cbn. destruct (Ascii.eqb d c); [done|].
  destruct (IndexByte s c); [done|]. by rewrite IH.
Qed.

Lemma str_drop_past s c t : str_drop (S (String.length s)) (s +:+ String c t) = t.
Proof. induction s as [|d s IH]; [by destruct t|]. rewrite str_app_cons. exact IH. Qed.

Lemma ContainsByte_None s c : IndexByte s c = None -> ContainsByte s c = false.
Proof. unfold ContainsByte. by intros ->. Qed.

Lemma HasPrefix_no_byte s c t :
  s <> "" -> IndexByte s c = None -> HasPrefix (s +:+ t) (String c "") = false.
Proof.
  intros Hne Hs. apply not_true_is_false. intros (u & Hu)%HasPrefix_spec.
  destruct s as [|d s]; [done|]. rewrite !str_app_cons in Hu. injection Hu as -> _. cbn [IndexByte] in Hs.
  by rewrite Ascii.eqb_refl in Hs.
Qed.

(** A host name and a port without colons and brackets. *)
Lemma SplitHostPort_name host port :
  (forall c, ContainsByte ":[]" c = true -> IndexByte host c = None /\ IndexByte port c = None) ->
  SplitHostPort (host +:+ ":" +:+ port) = Some (host, port).
Proof.
  intros H. destruct (H ":"%char eq_refl) as [Hh Hp], (H "["%char eq_refl) as [Hh1 Hp1],
    (H "]"%char eq_refl) as [Hh2 Hp2].
  unfold SplitHostPort. change (":" +:+ port) with (String ":" port).
  rewrite (LastIndexByte_app host ":"%char port Hp), str_take_app, str_drop_past.
  assert (HasPrefix (host +:+ String ":" port) "[" = false) as ->.
  { destruct host as [|d host]; [done|]. by apply HasPrefix_no_byte. }
  rewrite (ContainsByte_None _ _ Hh). change (str_drop 0 ?s) with s.
  assert (forall c, IndexByte host c = None -> IndexByte port c = None -> Ascii.eqb ":" c = false ->
            ContainsByte (host +:+ String ":" port) c = false) as Hno.
  { intros c H1 H2 H3. apply ContainsByte_None, IndexByte_app_None. split; [done|]. cbn [IndexByte]. by rewrite H3, H2. }
  by rewrite !Hno.
Qed.

Lemma ContainsFunc_digits s : all_digits s -> ContainsFunc (fun c => bool_decide (digit_of c = None)) s = false.
Proof.
  induction s as [|d s IH]; intros H; [done|]. cbn [ContainsFunc].
  rewrite bool_decide_eq_false_2 by (apply H; by rewrite ContainsByte_cons, Ascii.eqb_refl).
  apply IH. intros c Hc. apply H. by rewrite ContainsByte_cons, Hc, orb_true_r.
Qed.

Lemma parsePort_Itoa Quote port : 1 <= port <= 65535 -> parsePort Quote (Itoa port) = Ok port.
Proof.
  intros Hp. unfold parsePort.
  assert ((Itoa port =?s "") = false) as -> by (apply String.eqb_neq, Itoa_nonempty).
  rewrite ContainsFunc_digits by (apply Itoa_digits; lia). cbn [orb].
  rewrite Atoi_Itoa by (unfold int64_max; lia).
  assert ((port <? 1) = false) as -> by (apply Z.ltb_ge; lia).
  by assert ((65535 <? port) = false) as -> by (apply Z.ltb_ge; lia).
Qed.

Lemma Itoa_plain port c : 0 <= port -> ContainsByte ":[]@" c = true -> IndexByte (Itoa port) c = None.
Proof.
  intros Hp Hc. apply Itoa_no_byte; [done|].
  rewrite !ContainsByte_cons, !orb_true_iff, !Ascii.eqb_eq in Hc.
  destruct Hc as [<-|[<-|[<-|[<-|Hc]]]]; done.
Qed.

(** The part of a destination after the user, as people write it. *)
Definition host_port_text (host : string) (port : Z) : string :=
  if port =? 0 then if ContainsByte host ":"%char then "[" +:+ host +:+ "]" else host
  else JoinHostPort host (Itoa port).

(** Hosts that can be written down: not empty, no brackets and no [@]. *)
Definition plain_host (host : string) : Prop :=
  host <> "" /\ forall c, ContainsByte "[]@" c = true -> IndexByte host c = None.

Lemma parse_bracketed Quote user host rest port :
  plain_host host -> rest = "" /\ port = 0 \/ rest = ":" +:+ Itoa port /\ 1 <= port <= 65535 ->
  parse_host_port Quote user ("[" +:+ host +:+ String "]" rest) = Ok (user, host, port).
Proof.
  intros [Hne Hh] Hrest. unfold parse_host_port.
  assert (HasPrefix ("[" +:+ host +:+ String "]" rest) "[" = true) as -> by done.
  assert (IndexByte ("[" +:+ host +:+ String "]" rest) "]"%char = Some (S (String.length host))) as ->.
  { change ("[" +:+ host +:+ String "]" rest) with (String "[" (host +:+ String "]" rest)). cbn [IndexByte].
    change (Ascii.eqb "[" "]") with false. cbv iota. by rewrite IndexByte_app_absent by (by apply Hh). }
  change ("[" +:+ host +:+ String "]" rest) with (String "[" (host +:+ String "]" rest)).
  set (text := host +:+ String "]" rest).
  assert (str_drop 1 (str_take (S (String.length host)) (String "[" text)) = host) as ->.
  { cbn [str_take]. change (str_drop 1 (String "[" ?s)) with (str_drop 0 s). unfold text.
    rewrite str_take_app. by destruct host. }
  assert (str_drop (S (S (String.length host))) (String "[" text) = rest) as ->.
  { change (str_drop (S (String.length host)) text = rest). apply str_drop_past. }
  apply String.eqb_neq in Hne. rewrite Hne.
  destruct Hrest as [[-> ->]|[-> Hp]]; [done|].
  assert ((":" +:+ Itoa port =?s "") = false) as -> by done.
  assert (HasPrefix (":" +:+ Itoa port) ":" = true) as -> by (apply HasPrefix_spec; eauto).
  change (str_drop 1 (":" +:+ Itoa port)) with (str_drop 0 (Itoa port)).
  assert (str_drop 0 (Itoa port) = Itoa port) as -> by (by destruct (Itoa port)).
  by rewrite parsePort_Itoa.
Qed.

Lemma parse_host_port_text Quote user host port :
  plain_host host -> port = 0 \/ 1 <= port <= 65535 ->
  parse_host_port Quote user (host_port_text host port) = Ok (user, host, port).
Proof.
  intros Hp Hport. unfold host_port_text, JoinHostPort.
  destruct (ContainsByte host ":"%char) eqn:Ec.
  - destruct (port =? 0) eqn:E0; bool_facts.
    + apply (parse_bracketed Quote user host "" port); auto.
    + apply (parse_bracketed Quote user host (":" +:+ Itoa port) port); [done|]. right. split; [done|lia].
  - assert (IndexByte host ":"%char = None) as Hcol.
    { unfold ContainsByte in Ec. by destruct (IndexByte host ":"%char). }
    destruct Hp as [Hne Hh]. unfold parse_host_port.
    assert (forall t, HasPrefix (host +:+ t) "[" = false) as Hbr.
    { intros t. apply HasPrefix_no_byte; [done|]. by apply Hh. }
    destruct (port =? 0) eqn:E0; bool_facts.
    + specialize (Hbr ""). rewrite str_app_nil_r in Hbr. rewrite Hbr. unfold SplitHostPort.
      rewrite (LastIndexByte_None _ _ Hcol). apply String.eqb_neq in Hne. rewrite Hne. by subst.
    + rewrite Hbr, SplitHostPort_name.
      * rewrite parsePort_Itoa by lia. cbn [res_bind]. apply String.eqb_neq in Hne. by rewrite Hne.
      * intros c Hc. split; [|apply Itoa_plain; [lia|]].
        -- rewrite !ContainsByte_cons, !orb_true_iff, !Ascii.eqb_eq in Hc.
           destruct Hc as [<-|[<-|[<-|Hc]]]; [done|by apply Hh..|done].
        -- rewrite !ContainsByte_cons in *. repeat rewrite orb_true_iff in *. tauto.
Qed.

Lemma host_port_text_no_at host port :
  plain_host host -> 0 <= port -> IndexByte (host_port_text host port) "@"%char = None.
Proof.
  intros [_ Hh] Hp. specialize (Hh "@"%char eq_refl). unfold host_port_text, JoinHostPort.
  assert (IndexByte (Itoa port) "@"%char = None) as Hi by (by apply Itoa_plain).
  destruct (port =? 0), (ContainsByte host ":"%char); rewrite ?IndexByte_app_None; done.
Qed.

(** ** Properties *)

(** A destination as it is written on the command line. *)
Definition destination_text (user host : string) (port : Z) : string :=
  if user =?s "" then host_port_text host port else user +:+ "@" +:+ host_port_text host port.

(** Destinations parse back: a user, a host and a port written as
    [user@host:port], with brackets around a host that has colons, and with the
    user or the port (0) left out, are what [ParseDestination] returns.  The
    user may contain [@]. *)
Theorem ParseDestination_roundtrip :
  forall Quote user host port,
    plain_host host -> port = 0 \/ 1 <= port <= 65535 ->
    user = "" \/ TrimSpace user <> "" ->
    no_space_ends (destination_text user host port) ->
    GoStrings.Contains (destination_text user host port) "://" = false ->
    ParseDestination Quote (destination_text user host port) = Ok (user, host, port).
Proof.
  intros Quote user host port Hh Hp Hu Hsp Hurl. unfold ParseDestination.
  rewrite (TrimSpace_id _ Hsp), Hurl.
  assert (IndexByte (host_port_text host port) "@"%char = None) as Hat
    by (apply host_port_text_no_at; [done|lia]).
  assert (destination_text user host port <> "") as Hne.
  { destruct Hh as [Hne _]. unfold destination_text, host_port_text, JoinHostPort.
    destruct user; cbn; [|done]. destruct (port =? 0), (ContainsByte host ":"%char); try done. by destruct host. }
  apply String.eqb_neq in Hne. rewrite Hne. unfold destination_text.
  destruct (user =?s "") eqn:Eu; bool_facts.
  - subst. rewrite (LastIndexByte_None _ _ Hat). by apply parse_host_port_text.
  - change ("@" +:+ host_port_text host port) with (String "@" (host_port_text host port)).
    rewrite (LastIndexByte_app user _ _ Hat), str_take_app, str_drop_past.
    destruct Hu as [?|Hu]; [done|]. apply String.eqb_neq in Hu. rewrite Hu. by apply parse_host_port_text.
Qed.

Lemma ParseDestination_roundtrip_witness :
  ParseDestination (fun s => s) "ops@corp@[2001:db8::1]:2222" = Ok ("ops@corp", "2001:db8::1", 2222).
Proof.
  apply (ParseDestination_roundtrip (fun s => s) "ops@corp" "2001:db8::1" 2222).
  - split; [discriminate|]. intros c Hc. rewrite !ContainsByte_cons, !orb_true_iff, !Ascii.eqb_eq in Hc.
    destruct Hc as [<-|[<-|[<-|Hc]]]; [reflexivity..|discriminate].
  - right. lia.
  - right. vm_compute. discriminate.
  - split; vm_compute; reflexivity.
  - vm_compute. reflexivity.
Defined.

(** The first element of a list that passes a test is unique. *)
Lemma first_exact {A} (test : A -> bool) pre x post pre' y post' :
  Forall (fun i => test i = false) pre -> test x = true ->
  Forall (fun i => test i = false) pre' -> test y = true ->
  pre ++ x :: post = pre' ++ y :: post' -> x = y.
Proof.
  intros Hp. revert pre'; induction Hp as [|z pre Hz _ IH]; intros pre' Hx Hp' Hy Heq;
    destruct Hp' as [|w pre' Hw Hp']; cbn in Heq; simplify_eq; try done; try congruence. by eapply IH.
Qed.

Section Matching.

Context (fold : string -> string -> bool) (lower_table : string -> string).

Lemma match_items_spec name items acc :
  match match_items fold lower_table name items acc with
  | inl id => exists pre item post, items = pre ++ item :: post /\ id = cs_ID item
                /\ exact_match fold name item = true /\ Forall (fun i => exact_match fold name i = false) pre
  | inr found => Forall (fun i => exact_match fold name i = false) items
                 /\ found = acc ++ List.filter (prefix_match lower_table name) items
  end.
Proof.
  revert acc; induction items as [|i items IH]; intros acc; cbn [match_items List.filter].
  - split; [by constructor|]. by rewrite app_nil_r.
  - destruct (exact_match fold name i) eqn:E; [by exists [], i, items; split_and!|].
    specialize (IH (if prefix_match lower_table name i then acc ++ [i] else acc)).
    destruct (match_items _ _ _ _ _).
    + destruct IH as (pre & item & post & -> & -> & He & HF). exists (i :: pre), item, post.
      split_and!; [done..|by constructor].
    + destruct IH as [HF ->]. split; [by constructor|]. destruct (prefix_match lower_table name i); [|done].
      by rewrite <- app_assoc.
Qed.

End Matching.

(** [matchSaved] picks what was named: the first credential whose id is
    the text or whose name is it up to case; if there is none, the only
    credential whose id or name begins with it; and it refuses an empty text,
    a text nothing begins with, and one that several begin with. *)
Theorem matchSaved_spec :
  forall Quote fold lower_table items text,
    let name := TrimSpace text in
    let prefixed := List.filter (prefix_match lower_table name) items in
    let r := matchSaved Quote fold lower_table items text in
    (name = "" -> is_ok r = false)
    /\ (name <> "" -> forall pre item post,
         items = pre ++ item :: post -> exact_match fold name item = true ->
         Forall (fun i => exact_match fold name i = false) pre -> r = Ok (cs_ID item))
    /\ (name <> "" -> Forall (fun i => exact_match fold name i = false) items ->
         match prefixed with
         | [item] => r = Ok (cs_ID item)
         | [] => r = Err (Plain ("saved credential " +:+ Quote name +:+ " not found"))
         | _ => r = Err (Plain ("saved credential " +:+ Quote name +:+ " is ambiguous"))
         end).
Proof.
  intros Quote fold lower_table items text name prefixed r. subst r. unfold matchSaved. fold name.
  split_and!.
  - by intros ->.
  - intros Hne%String.eqb_neq pre item post -> He Hpre. rewrite Hne.
    pose proof (match_items_spec fold lower_table name (pre ++ item :: post) []) as Hm.
    destruct (match_items _ _ _ _ _).
    + destruct Hm as (pre' & item' & post' & Heq & -> & He' & Hpre').
      by rewrite (first_exact _ _ _ _ _ _ _ Hpre He Hpre' He' Heq).
    + destruct Hm as [HF _]. rewrite Forall_forall in HF. specialize (HF item). rewrite HF in He; [done|].
      apply elem_of_app. right. by constructor.
  - intros Hne%String.eqb_neq HF. rewrite Hne.
    pose proof (match_items_spec fold lower_table name items []) as Hm.
    destruct (match_items _ _ _ _ _).
    + destruct Hm as (pre & item & post & -> & _ & He & _). rewrite Forall_forall in HF.
      rewrite HF in He; [done|]. apply elem_of_app. right. by constructor.
    + destruct Hm as [_ ->]. cbn [app]. fold prefixed. by destruct prefixed as [|? [|? ?]].
Qed.

Definition sample_items : list credentialSummary :=
  [mkCredSummary "k9" "production" "p.example" 22 "root" "" false;
   mkCredSummary "c4" "Prod" "q.example" 22 "root" "" false].

Lemma matchSaved_spec_witness :
  matchSaved (fun s => s) (fun _ _ => false) (fun s => s) sample_items " prod " = Ok "c4"
  /\ matchSaved (fun s => s) (fun _ _ => false) (fun s => s) sample_items "k" = Ok "k9".
Proof.
  split.
  - destruct (matchSaved_spec (fun s => s) (fun _ _ => false) (fun s => s) sample_items " prod ") as (_ & H & _).
    refine (H _ [mkCredSummary "k9" "production" "p.example" 22 "root" "" false]
              (mkCredSummary "c4" "Prod" "q.example" 22 "root" "" false) [] eq_refl _ _);
      [vm_compute; discriminate|vm_compute; reflexivity|repeat constructor].
  - destruct (matchSaved_spec (fun s => s) (fun _ _ => false) (fun s => s) sample_items "k") as (_ & _ & H).
    refine (H _ _); [vm_compute; discriminate|repeat constructor].
Defined.
