(* ===== verification/CliUrl.v ===== *)
(** * The client's URLs (internal/cli/cli.go)

    What [newClient] makes of the server's URL: the checks of the scheme and of
    private connections, the proxy, the [Origin] header, and the addresses of
    the HTTP and WebSocket endpoints.  A [URL] is what [url.Parse] returned. *)

From S2P Require Import Prelude GoStrings Netip NetworkPolicy Config WsHandler CliError CliOptions.

(** ** [net/url] *)

Record URL : Type := mkURL {
  URL_Scheme : string; URL_User : option (string * option string); URL_Host : string;
  URL_Path : string; URL_RawQuery : string; URL_Fragment : string }.

Definition set_scheme (scheme : string) (u : URL) : URL :=
  mkURL scheme (URL_User u) (URL_Host u) (URL_Path u) (URL_RawQuery u) (URL_Fragment u).
Definition set_host (host : string) (u : URL) : URL :=
  mkURL (URL_Scheme u) (URL_User u) host (URL_Path u) (URL_RawQuery u) (URL_Fragment u).
(** A new path, without query and fragment. *)
Definition set_path (path : string) (u : URL) : URL :=
  mkURL (URL_Scheme u) (URL_User u) (URL_Host u) path "" "".

Definition validOptionalPort (port : string) : bool :=
  match port with
  | EmptyString => true
  | String c digits => Ascii.eqb c ":"%char
                       && negb (ContainsFunc (fun c => bool_decide (digit_of c = None)) digits)
  end.

Definition splitHostPort (hostPort : string) : string * string :=
  let '(host, port) :=
    match LastIndexByte hostPort ":"%char with
    | Some colon => if validOptionalPort (str_drop colon hostPort)
                    then (str_take colon hostPort, str_drop (S colon) hostPort)
                    else (hostPort, "")
    | None => (hostPort, "")
    end in
  (if HasPrefix host "[" && HasSuffix host "]"
   then str_take (String.length host - 2) (str_drop 1 host) else host, port).

Definition Hostname (u : URL) : string := fst (splitHostPort (URL_Host u)).
Definition Port (u : URL) : string := snd (splitHostPort (URL_Host u)).

(** Which bytes of a host are escaped when a URL is printed. *)
Definition host_literals : string := q "!$&()*+,;=:[]<>'-_.~" +:+ String (chr 39) "".
Definition host_byte (c : ascii) : bool :=
  let b := byte_of c in
  ((97 <=? b) && (b <=? 122)) || ((65 <=? b) && (b <=? 90)) || ((48 <=? b) && (b <=? 57))
  || ContainsByte host_literals c.

Definition upperhex (d : Z) : ascii := if d <? 10 then chr (48 + d) else chr (55 + d).

Fixpoint escape_host (s : string) : string :=
  match s with
  | EmptyString => ""
  | String c s =>
      if host_byte c then String c (escape_host s)
      else String "%" (String (upperhex (byte_of c / 16))
                         (String (upperhex (byte_of c mod 16)) (escape_host s)))
  end.

(** [(&url.URL{Scheme, Host}).String()] *)
Definition origin_string (scheme host : string) : string :=
  if host =?s "" then scheme +:+ ":" else scheme +:+ "://" +:+ escape_host host.

(** ** The client's addresses *)

(** The port the scheme has by default, written out. *)
Definition explicit_default_port (scheme : string) (u : URL) : bool :=
  ((scheme =?s "https") && (Port u =?s "443")) || ((scheme =?s "http") && (Port u =?s "80")).

Definition originFromURL (u : URL) : string :=
  let scheme := if URL_Scheme u =?s "wss" then "https"
                else if URL_Scheme u =?s "ws" then "http" else URL_Scheme u in
  let host := if explicit_default_port scheme u then Hostname u else URL_Host u in
  origin_string scheme host.

Definition apiURL (base : URL) (path : string) : URL :=
  set_path (TrimSuffix (URL_Path base) "/" +:+ path) base.

Definition websocketURL (base : URL) (path : string) : URL :=
  let u := if URL_Scheme base =?s "https" then set_scheme "wss" base
           else if URL_Scheme base =?s "http" then set_scheme "ws" base else base in
  set_path (TrimSuffix (URL_Path u) "/" +:+ path) u.

Definition wsURL (base : URL) : URL := websocketURL base "/api/ws/ssh".
Definition tunnelWSURL (base : URL) : URL := websocketURL base "/api/ws/tunnel".

(** ** [newClient] *)

(** The function that picks a proxy for a request: none, the one of the
    environment, or a fixed one. *)
Inductive ProxyFunc : Type := NoProxy | ProxyFromEnvironment | ProxyURL (u : URL).

Record Client : Type := mkClient {
  c_opt : Options; c_base : URL; c_origin : string; c_proxy : ProxyFunc; c_private : bool }.

Section NewClient.

Context (Parse : string -> option URL) (Getenv : string -> string) (Quote : string -> string).

Definition proxyFunc (opt : Options) : result cerror ProxyFunc :=
  if o_NoProxy opt then Ok NoProxy
  else
    let raw := TrimSpace (o_ProxyURL opt) in
    let raw := if raw =?s "" then TrimSpace (Getenv "GOWEBSSH_PROXY") else raw in
    if raw =?s "" then Ok ProxyFromEnvironment
    else
      let invalid := Plain ("invalid HTTP proxy URL " +:+ Quote raw) in
      let! u := of_option invalid (Parse raw) in
      reject! (URL_Scheme u =?s "") || (URL_Host u =?s "") with invalid in
      require! EqualFoldASCII (URL_Scheme u) "http" || EqualFoldASCII (URL_Scheme u) "https"
        else Plain ("unsupported proxy scheme " +:+ Quote (URL_Scheme u)
                      +:+ " (want http or https)") in
      Ok (ProxyURL u).

(** The base URL with the scheme of HTTP. *)
Definition http_base (base : URL) : result cerror URL :=
  let scheme := URL_Scheme base in
  if (scheme =?s "http") || (scheme =?s "https") then Ok base
  else if scheme =?s "ws" then Ok (set_scheme "http" base)
  else if scheme =?s "wss" then Ok (set_scheme "https" base)
  else Err (Plain ("unsupported WebSSH URL scheme " +:+ Quote scheme)).

Definition newClient (opt : Options) : result cerror Client :=
  let invalid := Plain ("invalid WebSSH URL " +:+ Quote (o_ServerURL opt)) in
  let! base := of_option invalid (Parse (TrimSpace (o_ServerURL opt))) in
  reject! URL_Host base =?s "" with invalid in
  let! base := http_base base in
  reject! o_PrivateConnect opt && negb (URL_Scheme base =?s "https")
    with Plain "private connection mode requires an HTTPS/WSS URL" in
  reject! o_PrivateConnect opt && o_InsecureTLS opt
    with Plain "private connection mode requires certificate verification; remove --insecure" in
  reject! o_PrivateConnect opt && bool_decide (is_Some (URL_User base))
    with Plain "private connection URL must not contain user information" in
  let! proxy := proxyFunc opt in
  Ok (mkClient opt base (originFromURL base) proxy (o_PrivateConnect opt)).

End NewClient.

(** ** Lemmas *)

Lemma escape_host_id s : forallb host_byte (chars s) = true -> escape_host s = s.
Proof.
  induction s as [|c s IH]; [done|]. intros H. cbn in H. bool_facts. cbn. rewrite H. f_equal. auto.
Qed.

Lemma str_take_prefix_inj n s t : str_take n s = s +:+ t -> t = "".
Proof.
  intros H. apply (f_equal String.length) in H. rewrite str_length_take, str_length_app in H.
  destruct t; [done|]. cbn in H. lia.
Qed.

(** A host name is shorter than the host it was cut from when a port is
    written. *)
Lemma Hostname_shorter u : Port u <> "" -> (String.length (Hostname u) < String.length (URL_Host u))%nat.
Proof.
  unfold Port, Hostname, splitHostPort. destruct (LastIndexByte (URL_Host u) ":"%char) as [i|]; [|done].
  destruct (validOptionalPort _); [|done]. cbn [fst snd]. intros Hp.
  assert (S i < String.length (URL_Host u))%nat as Hi.
  { destruct (Nat.le_gt_cases (String.length (URL_Host u)) (S i)) as [Hle|]; [|done].
    destruct Hp.
    assert (String.length (str_drop (S i) (URL_Host u)) = 0%nat) as H0 by (rewrite str_length_drop; lia).
    by destruct (str_drop (S i) (URL_Host u)). }
  destruct (_ && _); rewrite ?str_length_take, ?str_length_drop, ?str_length_take; lia.
Qed.

Lemma newClient_scheme Parse Getenv Quote opt c :
  newClient Parse Getenv Quote opt = Ok c ->
  (URL_Scheme (c_base c) = "http" \/ URL_Scheme (c_base c) = "https")
  /\ URL_Host (c_base c) <> "" /\ c_origin c = originFromURL (c_base c)
  /\ c_private c = o_PrivateConnect opt
  /\ (c_private c = true -> URL_Scheme (c_base c) = "https" /\ o_InsecureTLS opt = false).
Proof.
  unfold newClient. intros H. ok_path H. injection H as <-. cbn.
  unfold http_base in *. bool_facts.
  assert ((URL_Scheme a0 = "http" \/ URL_Scheme a0 = "https") /\ URL_Host a0 <> "") as [Hs Hh].
  { destruct ((URL_Scheme a =?s "http") || (URL_Scheme a =?s "https")) eqn:E.
    - simplify_eq. apply orb_true_iff in E as [E|E]; bool_facts; auto.
    - destruct (URL_Scheme a =?s "ws"); [simplify_eq; cbn; auto|].
      destruct (URL_Scheme a =?s "wss"); [simplify_eq; cbn; auto|done]. }
  split_and!; [done..|]. intros Hp. rewrite Hp in *. cbn [andb] in *. by bool_facts.
Qed.

(** ** Properties *)

(** The server's request for what the client sends. *)
Definition request_of (base : URL) (r : Request) : Prop :=
  Req_Host r = URL_Host base /\ Header_Get r "Origin" = originFromURL base.

(** The server's check of what the client sends. *)
Lemma checkOrigin_client :
  forall base fold cfg r,
    URL_Scheme base = "http" \/ URL_Scheme base = "https" ->
    URL_Host base <> "" -> Hostname base <> "" ->
    forallb host_byte (chars (URL_Host base)) = true ->
    forallb host_byte (chars (Hostname base)) = true ->
    AllowedOrigins (Server cfg) = [] -> request_of base r ->
    checkOrigin fold cfg r = true
    <-> explicit_default_port (URL_Scheme base) base = false
        \/ (URL_Scheme base = "https" /\ Hostname base = SplitFirst (URL_Host base) ":"%char).
Proof.
  intros base fold cfg r Hs Hh Hn He1 He2 Ha [Hrh Ho]. unfold checkOrigin. rewrite Ha, Ho. cbn [existsb].
  unfold originFromURL.
  assert (forall T (x y z : T), (if URL_Scheme base =?s "wss" then x else if URL_Scheme base =?s "ws" then y else z) = z)
    as -> by (intros; by destruct Hs as [->| ->]).
  set (scheme := URL_Scheme base) in *.
  set (host := if explicit_default_port scheme base then Hostname base else URL_Host base).
  assert (host <> "" /\ escape_host host = host) as [Hne He].
  { unfold host. destruct (explicit_default_port _ _); split; auto using escape_host_id. }
  unfold origin_string. apply String.eqb_neq in Hne as Hne'. rewrite Hne', He.
  assert (isSameOrigin r (scheme +:+ "://" +:+ host)
          = (host =?s URL_Host base)
            || ((scheme =?s "https") && (host =?s SplitFirst (URL_Host base) ":"%char))) as Hi.
  { unfold isSameOrigin, TrimPrefix. rewrite Hrh.
    destruct Hs as [-> | ->]; cbn; by rewrite ?orb_false_r. }
  assert ((scheme +:+ "://" +:+ host =?s "") = false) as -> by (by destruct Hs as [-> | ->]).
  rewrite Hi. clear He Hi. subst host. destruct (explicit_default_port scheme base) eqn:Ed.
  - assert ((Hostname base =?s URL_Host base) = false) as ->.
    { apply String.eqb_neq. intros He0. assert (Port base <> "") as Hp.
      { unfold explicit_default_port in Ed. intros Hp. rewrite Hp in Ed. by destruct Hs as [H|H]; rewrite H in Ed. }
      apply Hostname_shorter in Hp. rewrite He0 in Hp. lia. }
    cbn [orb]. destruct (_ && _) eqn:E.
    + apply andb_true_iff in E as [E1 E2]. bool_facts. split; [intros _; right; by split|done].
    + split; [done|]. intros [?|[H1 H2]]; [done|]. apply String.eqb_eq in H1, H2.
      by rewrite H1, H2 in E.
  - rewrite String.eqb_refl. cbn [orb]. split; auto.
Qed.

(** The client's [Origin] against the server's check: a server that allows
    no other origins accepts the client's WebSocket request exactly if the
    server's URL does not spell out the default port of its scheme, or is an
    HTTPS URL whose host name is the text before the first colon.  So
    [http://host:80] and [https://[::1]:443] are refused. *)
Theorem client_origin_accepted :
  forall base fold cfg r,
    URL_Scheme base = "http" \/ URL_Scheme base = "https" ->
    URL_Host base <> "" -> Hostname base <> "" ->
    forallb host_byte (chars (URL_Host base)) = true ->
    forallb host_byte (chars (Hostname base)) = true ->
    AllowedOrigins (Server cfg) = [] -> request_of base r ->
    checkOrigin fold cfg r = true
    <-> explicit_default_port (URL_Scheme base) base = false
        \/ (URL_Scheme base = "https" /\ Hostname base = SplitFirst (URL_Host base) ":"%char).
Proof. exact checkOrigin_client. Qed.

Definition sample_base (scheme host : string) : URL := mkURL scheme None host "/shell/" "" "".
Definition sample_ws_request (base : URL) : Request :=
  mkRequest (fun h => if h =?s "Origin" then originFromURL base else "") (URL_Host base)
    "192.0.2.1:5000" None.

Lemma client_origin_accepted_witness :
  checkOrigin (fun _ _ => false) Default (sample_ws_request (sample_base "https" "web.example:443")) = true
  /\ ~ checkOrigin (fun _ _ => false) Default (sample_ws_request (sample_base "http" "web.example:80")) = true.
Proof.
  split.
  - apply (client_origin_accepted (sample_base "https" "web.example:443")); [by right|done..|by split|].
    right. by split.
  - intros H. apply (client_origin_accepted (sample_base "http" "web.example:80")) in H;
      [|by left|done..|by split]. by destruct H as [H|[H _]].
Defined.
