(* ===== verification/CliTunnel.v ===== *)
(** * The client's end of a tunnel (internal/cli/tunnel.go)

    [RunTunnel] relays standard input and output to a target behind the server:
    the checks of the options, the handshake, the two copy loops and how a relay
    ends, each loop by itself (its goroutines are CliTunnelConcurrent).  The
    theorems compose this end with the server's ([Tunnel]).

    What [Read] returns is a list of results, the bytes and the error that came
    with them; a list without an error is a reader that is still open.  Frames
    are those of the connection, and [rerr] is the error of the read after the
    last one. *)

From S2P Require Import Prelude GoStrings GoTime Json JsonDecode Netip NetworkPolicy Config WsProtocol WsHandler Tunnel CliError CliOptions CliUrl.

(** ** The handshake *)

Definition waitTunnelConnected (frames : list Frame) (rerr : cerror) : result cerror (list Frame) :=
  wait_loop (wait_frame "tunnel-connected" (fun message =>
               if Type_ message =?s "error"
               then Some (server_error "tunnel connection failed" (Data message)) else None))
    "waiting for tunnel: " frames rerr.

(** ** The copy loops *)

Definition tunnel_eof : Frame := TextMessage (EncodeMessage "tunnel-eof" None).

(** [copyTunnelInput]: the frames sent, and what it returned ([None] while the
    reader is open).  [send] is the answer of a write to the connection. *)
Fixpoint copyTunnelInput (send : Frame -> option cerror) (reads : list (string * option cerror))
    : list Frame * option (option cerror) :=
  match reads with
  | [] => ([], None)
  | (data, err) :: rest =>
      match (if 0 <? len data then send (BinaryMessage data) else None) with
      | Some writeErr => ([], Some (Some writeErr))
      | None =>
          let sent := if 0 <? len data then [BinaryMessage data] else [] in
          match err with
          | Some e =>
              if is_EOF e then
                match send tunnel_eof with
                | Some writeErr => (sent, Some (Some writeErr))
                | None => (sent ++ [tunnel_eof], Some None)
                end
              else (sent, Some (Some e))
          | None => let (frames, r) := copyTunnelInput send rest in (sent ++ frames, r)
          end
      end
  end.

(** The error of a failed [writeFull]; [werr] is the one the writer reported. *)
Definition write_error (werr : cerror) (r : WriteResult) : option cerror :=
  match r with
  | WriteOk => None
  | ErrShortWrite => Some (Plain "short write")
  | _ => Some werr
  end.

(** [writeFull] is the loop of the server's [writeAll]. *)
Definition writeFull {W} `{Writer W} (w : W) (payload : string) : W * WriteResult := writeAll w payload.

(** [derr] is the error of decoding a text that is no message. *)
Fixpoint copyTunnelOutput {W} `{Writer W} (werr derr : cerror) (w : W) (frames : list Frame) (rerr : cerror)
    : W * cerror :=
  match frames with
  | [] => (w, rerr)
  | BinaryMessage payload :: rest =>
      let (w, r) := writeFull w payload in
      match write_error werr r with
      | Some e => (w, e)
      | None => copyTunnelOutput werr derr w rest rerr
      end
  | TextMessage payload :: rest =>
      match DecodeMessage payload with
      | None => (w, derr)
      | Some message =>
          if Type_ message =?s "error"
          then let ed := read_ErrorData (Data message) in (w, Plain (ed_Code ed +:+ ": " +:+ ed_Message ed))
          else copyTunnelOutput werr derr w rest rerr
      end
  | OtherMessage :: rest => copyTunnelOutput werr derr w rest rerr
  end.

(** The result of [relayTunnel] from the first error its goroutines report. *)
Definition relayTunnel (err : option cerror) : option cerror :=
  match err with
  | None => None
  | Some e =>
      if is_EOF e || is_Canceled e then None
      else if IsCloseError e [CloseNormalClosure; CloseGoingAway] then None
      else Some (Wrap "tunnel relay: " e)
  end.

(** ** [RunTunnel] *)

(** [RLogin] is [login] and [RDial] is [dialTunnelWS], which in private mode takes
    the server's address for the endpoint's host ([dialWSURL] of CliHttp). *)
Inductive TunnelEffect : Type :=
| RLogin | RDial (endpoint : URL) | RSend (f : Frame) | RRelay | RCloseInput | RCloseConn | RCloseIdle.

(** The options with their defaults, and the checks. *)
Definition tunnel_options (opt : Options) : result cerror Options :=
  reject! TrimSpace (o_ServerURL opt) =?s ""
    with Plain "WebSSH URL is required (--url or GOWEBSSH_URL)" in
  reject! TrimSpace (o_WebUser opt) =?s ""
    with Plain "WebSSH username is required (--web-user or GOWEBSSH_USERNAME)" in
  reject! o_WebPassword opt =?s ""
    with Plain "WebSSH password is required in --stdio mode (set GOWEBSSH_PASSWORD or --web-password)" in
  let host := TrimSpace (o_Host opt) in
  reject! host =?s "" with Plain "tunnel destination host is required" in
  let port := if o_Port opt =? 0 then 22 else o_Port opt in
  reject! (port <? 1) || (65535 <? port)
    with Plain "tunnel destination port must be between 1 and 65535" in
  Ok (mkOptions (o_ServerURL opt) (o_WebUser opt) (o_WebPassword opt) (o_ProxyURL opt) (o_NoProxy opt)
        (o_InsecureTLS opt) (o_PrivateConnect opt) (o_IdentityFile opt) (o_Passphrase opt)
        (o_Saved opt) (o_ListSaved opt) host port (o_SSHUser opt) (o_Term opt) (o_UseTmux opt)
        (o_TmuxSession opt)
        (if o_Timeout opt <=? 0 then defaultTimeout else o_Timeout opt)
        (if o_UserAgent opt =?s "" then "go-webssh-cli" else o_UserAgent opt)).

Definition tunnel_connect_frame (host : string) (port : Z) : Frame :=
  TextMessage (EncodeMessage "tunnel-connect" (Some (enc_TunnelConnectData (mkTunnelConnectData host port)))).

Section RunTunnel.

(** [newClient] and the answers of the network: login, the dial of an endpoint,
    a write, the frames until reading fails, and the first error of the relay's
    goroutines. *)
Context (new_client : Options -> result cerror Client)
        (login : Client -> option cerror) (dial : URL -> option cerror) (send : Frame -> option cerror)
        (frames : list Frame) (rerr : cerror) (first_err : option cerror).

Definition RunTunnel (opt : Options) : list TunnelEffect * option cerror :=
  match tunnel_options opt with
  | Err e => ([], Some e)
  | Ok opt =>
      match new_client opt with
      | Err e => ([], Some e)
      | Ok client =>
          match login client with
          | Some e => ([RLogin; RCloseIdle], Some e)
          | None =>
              let endpoint := tunnelWSURL (c_base client) in
              match dial endpoint with
              | Some e => ([RLogin; RDial endpoint; RCloseIdle], Some e)
              | None =>
                  let hello := tunnel_connect_frame (o_Host opt) (o_Port opt) in
                  let opened := [RLogin; RDial endpoint; RSend hello] in
                  let closed := [RCloseConn; RCloseIdle] in
                  match send hello with
                  | Some e => (opened ++ closed, Some (Wrap "send tunnel connect: " e))
                  | None =>
                      match waitTunnelConnected frames rerr with
                      | Err e => (opened ++ closed, Some e)
                      | Ok _ => (opened ++ [RRelay; RCloseConn; RCloseInput] ++ closed, relayTunnel first_err)
                      end
                  end
              end
          end
      end
  end.

End RunTunnel.

(** ** Lemmas *)

(** The bytes read up to the first error, the bytes that came with it
    included. *)
Fixpoint stdin_bytes (reads : list (string * option cerror)) : string :=
  match reads with
  | [] => ""
  | (data, None) :: rest => data +:+ stdin_bytes rest
  | (data, Some _) :: _ => data
  end.

Lemma len_pos s : (0 <? len s) = negb (s =?s "").
Proof. by destruct s. Qed.

(** The frames a client sends for an input it reads to its end: non-empty
    chunks that make up the input, and the end marker. *)
Lemma copyTunnelInput_eof send reads frames :
  copyTunnelInput send reads = (frames, Some None) ->
  exists chunks, frames = map BinaryMessage chunks ++ [tunnel_eof]
    /\ concat_str chunks = stdin_bytes reads
    /\ Forall (fun c => c <> "" /\ c ∈ map fst reads /\ send (BinaryMessage c) = None) chunks.
Proof.
  revert frames; induction reads as [|[data err] reads IH]; intros frames H; cbn [copyTunnelInput] in H; [done|].
  assert (forall l : list string, concat_str ((if 0 <? len data then [data] else []) ++ l) = data +:+ concat_str l) as Hcat.
  { intros l. rewrite len_pos. by destruct data. }
  assert (Forall (fun c => c <> "" /\ c ∈ data :: map fst reads /\ send (BinaryMessage c) = None)
            (if 0 <? len data then [data] else []) \/ exists e, (if 0 <? len data then send (BinaryMessage data) else None) = Some e) as Hone.
  { rewrite len_pos. destruct (data =?s "") eqn:E; bool_facts; cbn [negb]; [left; by constructor|].
    destruct (send (BinaryMessage data)) eqn:Es; [right; eauto|]. left.
    constructor; [|by constructor]. split_and!; [done|by constructor|done]. }
  assert ((if 0 <? len data then [BinaryMessage data] else [])
          = map BinaryMessage (if 0 <? len data then [data] else [])) as Hmap by (by destruct (0 <? len data)).
  destruct Hone as [Hone|[e He]]; [|by rewrite He in H].
  destruct (if 0 <? len data then send (BinaryMessage data) else None) as [e|] eqn:Ew; [done|].
  destruct err as [e|].
  - destruct (is_EOF e); [|done]. destruct (send tunnel_eof); [done|]. injection H as <-.
    exists (if 0 <? len data then [data] else []). rewrite Hmap. split_and!; [done| |done].
    specialize (Hcat []). rewrite app_nil_r in Hcat. rewrite Hcat. apply str_app_nil_r.
  - destruct (copyTunnelInput send reads) as [fs r] eqn:Ec. injection H as <- ->.
    destruct (IH fs eq_refl) as (chunks & -> & Hc & HF).
    exists ((if 0 <? len data then [data] else []) ++ chunks). split_and!.
    + by rewrite Hmap, map_app, app_assoc.
    + rewrite Hcat, Hc. done.
    + apply Forall_app. split; [done|]. eapply Forall_impl; [exact HF|].
      intros c (? & ? & ?). split_and!; [done|by right|done].
Qed.

(** What the server's loop makes of such frames. *)
Lemma DecodeMessage_eof : DecodeMessage (EncodeMessage "tunnel-eof" None) = Some (mkMessage "tunnel-eof" None).
Proof. vm_compute. reflexivity. Qed.

Lemma copy_chunks {W} `{TunnelTarget W} (w : W) chunks n w' m e :
  copyWebSocketToTarget w (map BinaryMessage chunks ++ [tunnel_eof]) n = (w', m, e) ->
  e <> UnexpectedMessage
  /\ (e <> WriteFailed -> exists w1, accepted w1 = accepted w +:+ concat_str chunks
        /\ w' = if is_TCPConn w1 then fst (CloseWrite w1) else w1).
Proof.
  revert w n; induction chunks as [|c chunks IH]; intros w n Hc; cbn [map app copyWebSocketToTarget tunnel_eof] in Hc.
  - rewrite DecodeMessage_eof in Hc. cbn [Type_ negb] in Hc.
    change (negb ("tunnel-eof" =?s "tunnel-eof")) with false in Hc. cbv iota in Hc.
    assert (accepted w = accepted w +:+ concat_str []) as Ha by (cbn; by rewrite str_app_nil_r).
    destruct (is_TCPConn w) eqn:Et.
    + destruct (CloseWrite w) as [w1 [|]] eqn:Ew; simplify_eq; split; try done;
        intros _; exists w; by rewrite Et, Ew.
    + simplify_eq. split; [done|]. intros _. exists w'. by rewrite Et.
  - destruct (writeAll w c) as [w1 r] eqn:Ew. apply writeAll_spec in Ew as (_ & k & Ha & Hk & Hok).
    destruct r; [|by simplify_eq..].
    apply IH in Hc as [He Hw]. split; [done|]. intros Hne. destruct (Hw Hne) as (w2 & H2 & ->).
    exists w2. split; [|done]. rewrite H2, Ha, (Hok eq_refl), str_take_all. cbn. by rewrite str_app_assoc.
Qed.

Lemma str_take_length_app s t n : str_take (String.length s + n) (s +:+ t) = s +:+ str_take n t.
Proof. induction s as [|c s IH]; [done|]. rewrite !str_app_cons. cbn. by rewrite IH. Qed.

Lemma str_take_within n t u : (n <= String.length t)%nat -> str_take n (t +:+ u) = str_take n t.
Proof.
  revert n; induction t as [|c t IH]; intros n Hn.
  - destruct n; [by destruct u|cbn in Hn; lia].
  - rewrite str_app_cons. destruct n as [|n]; [done|]. cbn in *. f_equal. apply IH. lia.
Qed.

(** The client's output loop on binary frames. *)
Lemma copyTunnelOutput_binary {W} `{Writer W} werr derr (w : W) payloads rerr w' e :
  copyTunnelOutput werr derr w (map BinaryMessage payloads) rerr = (w', e) ->
  (exists n, accepted w' = accepted w +:+ str_take n (concat_str payloads))
  /\ (e = rerr /\ accepted w' = accepted w +:+ concat_str payloads \/ e = werr \/ e = Plain "short write").
Proof.
  revert w; induction payloads as [|p payloads IH]; intros w H0; cbn [map copyTunnelOutput] in H0.
  - simplify_eq. split; [exists 0%nat|left]; cbn; by rewrite str_app_nil_r.
  - unfold writeFull in H0. destruct (writeAll w p) as [w1 r] eqn:Ew.
    apply writeAll_spec in Ew as (Hf & k & Ha & Hk & Hok).
    destruct r; cbn [write_error] in H0; try done.
    2,3: simplify_eq; split; [exists k; cbn; by rewrite Ha, str_take_within|by auto].
    apply IH in H0 as [(n & Hn) Hc]. rewrite (Hok eq_refl), str_take_all in Ha. split.
    + exists (String.length p + n)%nat. rewrite Hn, Ha, str_app_assoc. f_equal. cbn.
      by rewrite str_take_length_app.
    + destruct Hc as [[-> Hc]|Hc]; [|by auto]. left. split; [done|]. rewrite Hc, Ha. cbn. by rewrite str_app_assoc.
Qed.

(** ** Lemmas: the handshake against the server *)

(** What a user of the client can read when a tunnel is refused. *)
Definition tunnel_refusals : list (string * string) := [
  ("INVALID_HOST", "host is required and must not exceed 253 characters");
  ("INVALID_HOST", "host is required");
  ("INVALID_HOST", "host must not include URL scheme");
  ("INVALID_HOST", "failed to resolve host");
  ("INVALID_HOST", "host resolved to no addresses");
  ("INVALID_PORT", "port must be between 1 and 65535");
  ("TUNNEL_PORT_DENIED", "target port is not allowed for TCP tunnels");
  ("NETWORK_DENIED", "target host is blocked by network policy");
  ("TUNNEL_CONNECT_FAILED", "failed to connect to tunnel target")].

Lemma checkAddr_error p a e : checkAddr p a = Some e -> e = network_denied.
Proof. unfold checkAddr. intros H. repeat case_match; by simplify_eq. Qed.

Lemma check_resolved_error p ips r e : check_resolved p ips r = Err e -> e = network_denied.
Proof.
  revert r; induction ips as [|ip ips IH]; intros r H; cbn in H; [done|].
  destruct (AddrFromSlice ip); [|by simplify_eq].
  destruct (checkAddr p _) eqn:E; [|by eapply IH]. simplify_eq. by eapply checkAddr_error.
Qed.

Lemma ResolveAllowedHostPort_error lookup p host port e :
  ResolveAllowedHostPort lookup p host port = Err e -> (pe_Code e, pe_Message e) ∈ tunnel_refusals.
Proof.
  intros H. apply list_elem_of_In. unfold ResolveAllowedHostPort in H.
  assert (e = network_denied -> In (pe_Code e, pe_Message e) tunnel_refusals) as Hnd
    by (intros ->; vm_compute; tauto).
  repeat match type of H with
  | (if ?c then _ else _) = _ => destruct c; [by simplify_eq; vm_compute; tauto|]
  end.
  destruct (ParseAddr _).
  - destruct (checkAddr _ _) eqn:E; [|done]. simplify_eq. apply Hnd. by eapply checkAddr_error.
  - destruct (lookup _); [|by simplify_eq; vm_compute; tauto].
    destruct (_ =? 0)%nat; [by simplify_eq; vm_compute; tauto|].
    apply res_bind_Err in H as [H|(x & _ & H)]; [|done]. apply Hnd. by eapply check_resolved_error.
Qed.

(** The text frames a client receives for the server's effects. *)
Definition received (es : list TEffect) : list Frame :=
  omap (fun e => match e with
                 | TSend m => Some (TextMessage (print_line (enc_Message m)))
                 | _ => None
                 end) es.

Lemma received_dialled address typ data :
  received [TDial address; TOpen; TSend (mkMessage typ data)] = [TextMessage (print_line (enc_Message (mkMessage typ data)))].
Proof. reflexivity. Qed.

Lemma wait_refusal code message rerr :
  (code, message) ∈ tunnel_refusals ->
  waitTunnelConnected (received [t_sendError code message]) rerr = Err (Plain (code +:+ ": " +:+ message)).
Proof.
  unfold tunnel_refusals. intros H. in_list H; injection H as -> ->; vm_compute; reflexivity.
Qed.

Lemma wait_connected host port rerr :
  valid_utf8 host = true -> in_int64 port = true ->
  waitTunnelConnected
    [TextMessage (print_line (enc_Message (mkMessage "tunnel-connected"
       (Some (enc_TunnelConnectedData (mkTunnelConnectedData host port))))))] rerr = Ok [].
Proof.
  intros Hh Hp. unfold waitTunnelConnected. cbn [wait_loop wait_frame].
  rewrite (proj2 (proj2 (wire_read _ "tunnel-connected"
    (enc_TunnelConnectedData_clean (mkTunnelConnectedData host port) Hh Hp) eq_refl))). done.
Qed.

(** The client's first frame, as the server reads it. *)
Lemma tunnel_first_hello host port :
  valid_utf8 host = true -> in_int64 port = true ->
  tunnel_first (Some (tunnel_connect_frame host port))
  = Ok (Some (enc_TunnelConnectData (mkTunnelConnectData host port))).
Proof.
  intros Hh Hp. unfold tunnel_first, tunnel_connect_frame.
  by rewrite (proj1 (wire_read _ "tunnel-connect"
    (enc_TunnelConnectData_clean (mkTunnelConnectData host port) Hh Hp) eq_refl)).
Qed.

Lemma res_bind_ok {E A B} (a : A) (f : A -> result E B) : res_bind (Ok a) f = f a.
Proof. reflexivity. Qed.

Lemma refused code message :
  existsb (fun r => (fst r =?s code) && (snd r =?s message)) tunnel_refusals = true ->
  (code, message) ∈ tunnel_refusals.
Proof.
  intros ([c m] & Hin & H)%existsb_exists. cbn [fst snd] in H. bool_facts. subst. by apply list_elem_of_In.
Qed.

Lemma tunnel_target_hello cfg policy lookup host port :
  in_int64 port = true ->
  match tunnel_target cfg policy lookup (Some (enc_TunnelConnectData (mkTunnelConnectData host port))) with
  | Ok (h, p, _) => h = TrimSpace host /\ in_int64 p = true
  | Err es => exists code message, (code, message) ∈ tunnel_refusals /\ es = [t_sendError code message]
  end.
Proof.
  intros Hi. unfold tunnel_target. rewrite enc_TunnelConnectData_ok by done.
  cbn [of_option res_bind tc_Host tc_Port]. set (p := if port =? 0 then 22 else port).
  assert (in_int64 p = true) as Hp by (unfold p; by destruct (port =? 0)).
  destruct (_ || _); [eexists _, _; split; [|reflexivity]; by apply refused|].
  destruct (tunnelPortAllowed cfg p); [|eexists _, _; split; [|reflexivity]; by apply refused].
  destruct (ResolveAllowedHostPort _ _ _ _) eqn:Er; cbn [map_err res_bind]; [done|].
  eexists _, _. split; [|reflexivity]. by eapply ResolveAllowedHostPort_error.
Qed.

(** What [RunTunnel] has checked before it connects. *)
Lemma tunnel_options_Ok opt opt' :
  tunnel_options opt = Ok opt' ->
  TrimSpace (o_Host opt') = o_Host opt' /\ o_Host opt' <> "" /\ 1 <= o_Port opt' <= 65535
  /\ o_Host opt' = TrimSpace (o_Host opt) /\ (o_Port opt <> 0 -> o_Port opt' = o_Port opt)
  /\ (o_Port opt = 0 -> o_Port opt' = 22).
Proof.
  unfold tunnel_options. intros H. ok_path H. injection H as <-. cbn. bool_facts.
  split_and!; [apply TrimSpace_idemp|done|lia|lia|done| |].
  - intros Hp%Z.eqb_neq. by rewrite Hp.
  - by intros ->.
Qed.

(** ** Properties *)

(** A tunnel carries bytes end to end.  From the client: once its input has
    ended, the frames it sent are accepted by the server's loop (non-empty, each
    within the server's limit when a read fills at most the 32 KiB buffer), and
    unless writing to the target failed, the target has received exactly the
    bytes of the input, the last read included, and only then was its write
    side closed.  To the client: what arrives at standard output is the bytes
    read from the target in order, and all of those the server delivered unless
    writing to standard output failed. *)
Theorem tunnel_end_to_end :
  (forall W `{TunnelTarget W} (w : W) send reads frames,
     copyTunnelInput send reads = (frames, Some None) ->
     Forall (fun r => len (fst r) <= maxInputBytes) reads ->
     Forall (fun p => p <> "" /\ len p <= tunnelMaxMessageBytes) (binary_payloads frames)
     /\ forall w' m e, copyWebSocketToTarget w frames 0 = (w', m, e) ->
          e <> UnexpectedMessage
          /\ (e <> WriteFailed -> exists w1, accepted w1 = accepted w +:+ stdin_bytes reads
                /\ w' = if is_TCPConn w1 then fst (CloseWrite w1) else w1))
  /\ (forall W `{Writer W} (w : W) send_ok reads out m werr derr rerr w' e,
     copyTargetToWebSocket send_ok reads 0 = (out, m) ->
     copyTunnelOutput werr derr w (map BinaryMessage out) rerr = (w', e) ->
     exists handled rest n, reads = handled ++ rest
       /\ accepted w' = accepted w +:+ str_take n (concat_str (map fst handled))
       /\ (e <> werr -> e <> Plain "short write" ->
           e = rerr /\ accepted w' = accepted w +:+ concat_str (map fst handled))).
Proof.
  split.
  - intros W HW w send reads frames H Hlen. apply copyTunnelInput_eof in H as (chunks & -> & Hc & HF). split.
    + rewrite Forall_forall in Hlen. assert (binary_payloads (map BinaryMessage chunks ++ [tunnel_eof]) = chunks) as ->.
      { clear. unfold binary_payloads. induction chunks as [|c chunks IH]; [done|]. cbn. by f_equal. }
      rewrite Forall_forall in HF |- *. intros c Hin. destruct (HF c Hin) as (Hne & Hr & _). split; [done|].
      apply list_elem_of_fmap in Hr as (r & -> & Hr). apply Hlen in Hr.
      unfold tunnelMaxMessageBytes, maxInputBytes in *. lia.
    + intros w' m e Hs. apply copy_chunks in Hs as [He Hw]. split; [done|]. intros Hne.
      destruct (Hw Hne) as (w1 & H1 & ->). exists w1. by rewrite H1, Hc.
  - intros W HW w send_ok reads out m werr derr rerr w' e Hs Hc.
    apply copyTargetToWebSocket_spec in Hs as (_ & _ & handled & rest & Hr & Hcat & _); [|lia].
    apply copyTunnelOutput_binary in Hc as [(n & Hn) Hc].
    exists handled, rest, n. rewrite <- Hcat. split_and!; [done..|]. intros H1 H2.
    destruct Hc as [[-> Hc]|[?|?]]; done.
Qed.

Definition sample_stdin : list (string * option cerror) :=
  [("SSH-2.0", None); ("", None); ("-client", Some (Wrap "read: " EOF))].

Lemma tunnel_end_to_end_witness :
  (exists w1, accepted w1 = "SSH-2.0-client"
     /\ mkBuffer 3 "SSH-2.0-client" = if is_TCPConn w1 then fst (CloseWrite w1) else w1)
  /\ accepted (mkBuffer 2 "abc") = "abc".
Proof.
  split.
  - destruct (proj1 tunnel_end_to_end Buffer buffer_target (mkBuffer 3 "") (fun _ => None) sample_stdin
      [BinaryMessage "SSH-2.0"; BinaryMessage "-client"; tunnel_eof]) as [_ Hs].
    + vm_compute. reflexivity.
    + repeat constructor; vm_compute; congruence.
    + apply (Hs (mkBuffer 3 "SSH-2.0-client") 14 ReadFailed); [vm_compute; reflexivity|discriminate].
  - destruct (proj2 tunnel_end_to_end Buffer buffer_writer (mkBuffer 2 "") (fun _ => true)
      [("ab", false); ("c", true)] ["ab"; "c"] 3 (Plain "w") (Plain "d") EOF (mkBuffer 2 "abc") EOF)
      as (handled & rest & n & _ & _ & H); [vm_compute; reflexivity..|].
    destruct H as [_ _]; [discriminate..|reflexivity].
Defined.

(** The two ends agree on the target: the request that a checked client
    sends is read by the server as that very host and port, and is refused only
    for a host over 253 bytes, a port the server does not list, or by the
    network policy. *)
Theorem tunnel_request_agrees :
  forall cfg policy lookup opt opt',
    tunnel_options opt = Ok opt' -> valid_utf8 (o_Host opt') = true ->
    let host := o_Host opt' in
    let port := o_Port opt' in
    exists raw, tunnel_first (Some (tunnel_connect_frame host port)) = Ok raw
      /\ tunnel_target cfg policy lookup raw
         = if 253 <? len host
           then Err [t_sendError "INVALID_HOST" "host is required and must not exceed 253 characters"]
           else if negb (tunnelPortAllowed cfg port)
           then Err [t_sendError "TUNNEL_PORT_DENIED" "target port is not allowed for TCP tunnels"]
           else match ResolveAllowedHostPort lookup policy host port with
                | Ok address => Ok (host, port, address)
                | Err pe => Err [t_sendError (pe_Code pe) (pe_Message pe)]
                end.
Proof.
  intros cfg policy lookup opt opt' Ho Hu host port.
  apply tunnel_options_Ok in Ho as (Ht & Hne & Hp & _). fold host in Ht, Hne, Hu. fold port in Hp.
  assert (in_int64 port = true) as Hi by (apply in_int64_spec; unfold int64_min, int64_max; lia).
  eexists. split; [by apply tunnel_first_hello|]. unfold tunnel_target.
  rewrite enc_TunnelConnectData_ok by done. cbn [of_option res_bind tc_Host tc_Port]. rewrite Ht.
  assert ((port =? 0) = false) as -> by (apply Z.eqb_neq; lia).
  apply String.eqb_neq in Hne. rewrite Hne. cbn [orb].
  destruct (253 <? len host); [done|]. destruct (tunnelPortAllowed cfg port); [|done]. cbn [negb].
  by destruct (ResolveAllowedHostPort _ _ _ _).
Qed.

Definition sample_options (host : string) (port : Z) : Options :=
  mkOptions "https://web.example" "admin" "pw" "" true false false "" "" "" false host port "" "" false "" 0 "".

Lemma tunnel_request_agrees_witness :
  exists raw, tunnel_first (Some (tunnel_connect_frame "public.example" 443)) = Ok raw
    /\ tunnel_target tunnel_config sample_policy sample_lookup raw
       = Ok ("public.example", 443, "8.8.4.4:443").
Proof.
  destruct (tunnel_options (sample_options " public.example " 443)) as [opt'|] eqn:E; [|discriminate E].
  destruct (tunnel_request_agrees tunnel_config sample_policy sample_lookup _ _ E) as (raw & H1 & H2);
    vm_compute in E; injection E as <-; [vm_compute; reflexivity|].
  exists raw. split; [exact H1|]. rewrite H2. vm_compute. reflexivity.
Defined.

(** The client learns how its tunnel went: what it reports after its
    request is success exactly if the server connected to the target, and
    otherwise one of nine errors with the server's code and message. *)
Theorem tunnel_outcome_reported :
  forall cfg policy lookup host port dial_ok es opened ok rerr,
    valid_utf8 host = true -> valid_utf8 (TrimSpace host) = true -> in_int64 port = true ->
    connect cfg policy lookup (Some (tunnel_connect_frame host port)) dial_ok true = (es, opened, ok) ->
    opened = ok
    /\ if ok then waitTunnelConnected (received es) rerr = Ok []
       else exists code message, (code, message) ∈ tunnel_refusals
              /\ waitTunnelConnected (received es) rerr = Err (Plain (code +:+ ": " +:+ message)).
Proof.
  intros cfg policy lookup host port dial_ok es opened ok rerr Hu Hut Hi H.
  pose proof (tunnel_first_hello host port Hu Hi) as Hf.
  generalize dependent (tunnel_connect_frame host port). intros f H Hf.
  unfold connect in H. rewrite Hf in H. rewrite res_bind_ok in H.
  pose proof (tunnel_target_hello cfg policy lookup host port Hi) as Ht.
  destruct (tunnel_target _ _ _ _) as [[[h p] address]|refusal].
  - destruct Ht as [-> Hp]. destruct (dial_ok address); cbn [negb] in H; injection H as <- <- <-;
      (split; [reflexivity|]).
    + rewrite received_dialled. by apply wait_connected.
    + change (received (TDial address :: ?es)) with (received es). exists "TUNNEL_CONNECT_FAILED", "failed to connect to tunnel target".
      split; [|apply wait_refusal]; apply refused; reflexivity.
  - destruct Ht as (code & message & Hin & ->). injection H as <- <- <-. split; [reflexivity|].
    exists code, message. split; [exact Hin|by apply wait_refusal].
Qed.

Lemma tunnel_outcome_reported_witness :
  waitTunnelConnected (received (connect tunnel_config sample_policy sample_lookup
    (Some (tunnel_connect_frame "public.example" 443)) (fun _ => true) true).1.1) EOF = Ok [].
Proof.
  apply (tunnel_outcome_reported tunnel_config sample_policy sample_lookup "public.example" 443
    (fun _ => true) _ true true EOF); vm_compute; reflexivity.
Defined.
