(* ===== verification/CliSession.v ===== *)
(** * The client's end of a session (internal/cli/session.go)

    The relay of an interactive session: standard input to [input] messages, the
    frames of the server to standard output, resize and keep-alive messages, and
    how a session ends for the user, each loop by itself (its goroutines are CliConcurrent).  The theorems compose this end with the
    server's ([WsHandler]).

    Reads, frames and errors are as in [CliTunnel]; a cancelled context, which
    the loops test before each step, is an error [Canceled] at the end of their
    input.  The terminal's modes and the reset of its mouse modes
    are in CliTerm. *)

From S2P Require Import Prelude GoStrings GoTime Json JsonDecode GoFloat NetworkPolicy Config WsProtocol SshClient WsHandler Tunnel CliError CliOptions CliUrl CliTunnel.

(** ** Texts for the user *)

Definition describeDisconnect (err : option cerror) : string :=
  match err with
  | None => "connection closed"
  | Some e =>
      match as_CloseError e with
      | Some (code, text) =>
          if text =?s "" then "WebSocket closed (code " +:+ Itoa code +:+ ")"
          else "WebSocket closed (code " +:+ Itoa code +:+ "): " +:+ text
      | None =>
          if bool_decide (as_NetError e = Some true) then "WebSocket read timeout"
          else if is_EOF e then "peer closed the connection"
          else if is_Canceled e then "connection canceled"
          else cError e
      end
  end.

Definition describeRemoteExit (exit : option (Z * string)) : string :=
  match exit with
  | None => "remote session closed"
  | Some (code, message) =>
      if message =?s "" then "remote session exited with status " +:+ Itoa code
      else if negb (code =? 0) then message +:+ " (exit status " +:+ Itoa code +:+ ")"
      else message
  end.

(** The line of [writeDisconnectNotice]. *)
Definition disconnect_notice (reason : string) : string :=
  "go-webssh-cli: disconnected: " +:+ (if reason =?s "" then "connection closed" else reason)
    +:+ String (chr 10) "".

(** ** Towards the server *)

(** [sendJSON("input", string(buf[:n]))] *)
Definition stdin_frame (chunk : string) : Frame :=
  TextMessage (EncodeMessage "input" (Some (JStr chunk))).

(** [copyStdin]: the frames sent and what it returned. *)
Fixpoint copyStdin (send : Frame -> option cerror) (reads : list (string * option cerror))
    : list Frame * option (option cerror) :=
  match reads with
  | [] => ([], None)
  | (data, err) :: rest =>
      match (if 0 <? len data then send (stdin_frame data) else None) with
      | Some sendErr => ([], Some (Some sendErr))
      | None =>
          let sent := if 0 <? len data then [stdin_frame data] else [] in
          match err with
          | Some e => (sent, Some (if is_EOF e then None else Some e))
          | None => let (frames, r) := copyStdin send rest in (sent ++ frames, r)
          end
      end
  end.

(** [keepAlive]: a ping for every tick, with the time in milliseconds as a float,
    until the context is done. *)
Definition ping_frame (millis : Z) : result cerror Frame :=
  match enc_float (float_of_Z millis) with
  | Some v => Ok (TextMessage (EncodeMessage "ping" (Some v)))
  | None => Err (Plain "json: unsupported value")
  end.

Fixpoint keepAlive (send : Frame -> option cerror) (ticks : list Z) : list Frame * cerror :=
  match ticks with
  | [] => ([], Canceled)
  | t :: ticks =>
      match ping_frame t with
      | Err e => ([], e)
      | Ok f => match send f with
                | Some e => ([], e)
                | None => let (frames, e) := keepAlive send ticks in (f :: frames, e)
                end
      end
  end.

(** The message of a changed window. *)
Definition resize_frame (cols rows : Z) : Frame :=
  let (c, r) := clampSize cols rows in
  TextMessage (EncodeMessage "resize" (Some (enc_ResizeData (mkResizeData c r)))).

(** ** From the server *)

Section Reading.

(** Standard output, and the error its [Write] reports. *)
Context {W : Type} `{Writer W} (werr : cerror).

(** One call of [Stdout.Write]. *)
Definition write_stdout (w : W) (data : string) : W * option cerror :=
  let '(w', _, err) := Write w data in
  (w', if err : bool then Some (Wrap "stdout: " werr) else None).

Definition handleText (w : W) (data : string) : W * option cerror :=
  match DecodeMessage data with
  | None => (w, None)
  | Some msg =>
      if Type_ msg =?s "output" then
        match unmarshal_raw dec_string (Data msg) "" with
        | Some text => if text =?s "" then (w, None) else write_stdout w text
        | None => (w, None)
        end
      else if Type_ msg =?s "error" then (w, Some (server_error "session error" (Data msg)))
      else if Type_ msg =?s "closed" then
        let cd := read_ClosedData (Data msg) in
        (w, Some (RemoteExit (default 0 (cl_ExitStatus cd)) (cl_Reason cd)))
      else (w, None)
  end.

Fixpoint readLoop (w : W) (frames : list Frame) (rerr : cerror) : W * cerror :=
  match frames with
  | [] => (w, rerr)
  | f :: rest =>
      let (w, err) := match f with
                      | BinaryMessage data => write_stdout w data
                      | TextMessage data => handleText w data
                      | OtherMessage => (w, None)
                      end in
      match err with
      | Some e => (w, e)
      | None => readLoop w rest rerr
      end
  end.

End Reading.

Definition waitConnected (frames : list Frame) (rerr : cerror) : result cerror (list Frame) :=
  wait_loop (wait_frame "connected" (fun message =>
               if Type_ message =?s "error" then Some (server_error "connect failed" (Data message))
               else if Type_ message =?s "closed" then
                 let reason := cl_Reason (read_ClosedData (Data message)) in
                 Some (Plain (if reason =?s "" then "connection closed before connected" else reason))
               else None))
    "waiting for connected: " frames rerr.

(** ** The end of a session *)

(** [relay] from the error of the read loop: its result and the notice it
    printed.  (The read loop ends with an error only, so the rest of [relay]
    does not run.) *)
Definition relay (readErr : cerror) : option cerror * option string :=
  match as_RemoteExit readErr with
  | Some (code, message) =>
      if code =? 0 then (None, Some (disconnect_notice (describeRemoteExit (Some (code, message)))))
      else (Some (RemoteExit code message), None)
  | None =>
      if IsCloseError readErr [CloseNormalClosure; CloseGoingAway] || is_EOF readErr || is_Canceled readErr
      then (None, Some (disconnect_notice (describeDisconnect (Some readErr))))
      else (Some (Plain ("disconnected: " +:+ describeDisconnect (Some readErr))), None)
  end.

(** The end of the client's [main]: the exit code, and what is printed. *)
Definition exit_of (err : option cerror) : Z * option string :=
  match err with
  | None => (0, None)
  | Some e =>
      match as_RemoteExit e with
      | Some (code, message) =>
          (code, if negb (message =?s "") && negb (code =? 0)
                 then Some ("go-webssh-cli: " +:+ message) else None)
      | None => (1, Some ("go-webssh-cli: " +:+ cError e))
      end
  end.

(** ** Lemmas *)

Lemma copyStdin_frames send reads frames r :
  copyStdin send reads = (frames, Some r) ->
  exists chunks, frames = map stdin_frame chunks
    /\ Forall (fun c => c <> "" /\ c ∈ map fst reads) chunks
    /\ (r = None -> concat_str chunks = stdin_bytes reads).
Proof.
  revert frames r; induction reads as [|[data err] reads IH]; intros frames r H0; cbn [copyStdin] in H0; [done|].
  rewrite len_pos in H0. destruct (data =?s "") eqn:Ed; bool_facts; cbn [negb] in H0.
  - subst. destruct err as [e|]; [injection H0 as <- _; exists []; split_and!; [done|by constructor|done]|].
    destruct (copyStdin send reads) as [fs r'] eqn:Ec. injection H0 as <- ->.
    destruct (IH _ _ eq_refl) as (chunks & -> & HF & Hc). exists chunks. split_and!; [done| |done].
    eapply Forall_impl; [exact HF|]. intros c [? ?]. split; [done|by right].
  - destruct (send (stdin_frame data)) as [e|];
      [injection H0 as <- <-; exists []; split_and!; [done|by constructor|done]|].
    destruct err as [e|].
    + injection H0 as <- _. exists [data]. split_and!; [done| |intros _; cbn; by rewrite str_app_nil_r].
      constructor; [|by constructor]. split; [done|by constructor].
    + destruct (copyStdin send reads) as [fs r'] eqn:Ec. injection H0 as <- ->.
      destruct (IH _ _ eq_refl) as (chunks & -> & HF & Hc). exists (data :: chunks). split_and!; [done| |].
      * constructor; [split; [done|by constructor]|]. eapply Forall_impl; [exact HF|].
        intros c [? ?]. split; [done|by right].
      * intros Hr. cbn. by rewrite <- (Hc Hr).
Qed.

(** What the server's read loop makes of one chunk: the text with each invalid
    byte replaced. *)
Lemma handle_stdin_frame stdin_ok chunk :
  len (utf8_clean chunk) <= maxInputMsgBytes ->
  len (EncodeMessage "input" (Some (JStr chunk))) <= maxInputMsgBytes + 2048 ->
  handle_frame stdin_ok (stdin_frame chunk) = ([StdinWrite (utf8_clean chunk)], stdin_ok (utf8_clean chunk)).
Proof.
  intros Hl Hm. unfold handle_frame, stdin_frame. cbn [frame_data].
  rewrite (proj2 (Z.ltb_ge _ _) Hm).
  assert (DecodeMessage (EncodeMessage "input" (Some (JStr chunk)))
          = Some (mkMessage "input" (Some (JStr (utf8_clean chunk))))) as ->.
  { unfold DecodeMessage, EncodeMessage, unmarshal. rewrite parse_print; [|done|done]. reflexivity. }
  cbn [Type_ Data]. change ("input" =?s "input") with true. cbv iota. cbn [unmarshal_raw dec_string].
  by rewrite (proj2 (Z.ltb_ge _ _) Hl).
Qed.

(** A chunk that reaches the shell. *)
Definition deliverable (chunk : string) : Prop :=
  len (utf8_clean chunk) <= maxInputMsgBytes
  /\ len (EncodeMessage "input" (Some (JStr chunk))) <= maxInputMsgBytes + 2048.

Lemma read_loop_stdin stdin_ok chunks :
  Forall deliverable chunks -> (forall c, stdin_ok c = true) ->
  read_loop stdin_ok (map stdin_frame chunks) = map StdinWrite (map utf8_clean chunks).
Proof.
  intros HF Hok. induction HF as [|c chunks [H1 H2] _ IH]; [done|]. cbn [map read_loop].
  rewrite handle_stdin_frame by done. rewrite Hok, IH. done.
Qed.

(** The read loop over binary frames that are written without error. *)
Lemma readLoop_output {W} `{Writer W} werr (w : W) outs rest rerr w1 e :
  readLoop werr w (map BinaryMessage outs ++ rest) rerr = (w1, e) ->
  (exists w2, readLoop werr w2 rest rerr = (w1, e)) \/ e = Wrap "stdout: " werr.
Proof.
  revert w; induction outs as [|o outs IH]; intros w H0; [left; by exists w|].
  cbn [map app readLoop] in H0. destruct (write_stdout werr w o) as [w2 err] eqn:E.
  unfold write_stdout in E. destruct (Write w o) as [[w3 n] [|]]; simplify_eq; [by right|by eapply IH].
Qed.

(** ** Lemmas: what survives the encoding *)

Lemma to_valid_length fuel s :
  (String.length s <= fuel)%nat -> (String.length s <= String.length (to_valid fuel s))%nat.
Proof.
  revert s; induction fuel as [|f IH]; intros s Hf; [lia|].
  destruct s as [|c s]; [done|]. cbn [to_valid]. destruct (rune_len (String c s)) as [n|] eqn:En.
  - pose proof (rune_len_pos _ _ En) as Hn. rewrite str_length_app, str_length_take.
    specialize (IH (str_drop n (String c s))). rewrite str_length_drop in IH.
    cbn [String.length] in *. rewrite Nat.min_l by lia. lapply IH; [intros; lia|lia].
  - rewrite str_length_app. specialize (IH s). cbn [String.length] in *.
    change (String.length (EncodeRune RuneError)) with 3%nat. lapply IH; [intros; lia|lia].
Qed.

Lemma utf8_clean_length s : (String.length s <= String.length (utf8_clean s))%nat.
Proof. by apply to_valid_length. Qed.

Lemma to_valid_fixed fuel s :
  (String.length s <= fuel)%nat -> to_valid fuel s = s -> valid_utf8_go fuel s = true.
Proof.
  revert s; induction fuel as [|f IH]; intros s Hf Hs; [by destruct s; [|cbn in Hf; lia]|].
  destruct s as [|c s]; [done|]. cbn [to_valid valid_utf8_go] in *.
  destruct (rune_len (String c s)) as [n|] eqn:En.
  - pose proof (rune_len_pos _ _ En) as Hn. apply IH.
    + rewrite str_length_drop. cbn [String.length] in *. lia.
    + rewrite <- (str_take_drop n (String c s)) in Hs at 3. by apply str_app_inj_l in Hs.
  - exfalso. apply (f_equal String.length) in Hs. rewrite str_length_app in Hs.
    pose proof (to_valid_length f s) as Hl. cbn [String.length] in *.
    change (String.length (EncodeRune RuneError)) with 3%nat in Hs. lapply Hl; [intros; lia|lia].
Qed.

Lemma utf8_clean_fixed s : utf8_clean s = s <-> valid_utf8 s = true.
Proof. split; [by apply to_valid_fixed|apply utf8_clean_id]. Qed.

Lemma str_app_inj_length s t u v :
  String.length s = String.length t -> s +:+ u = t +:+ v -> s = t /\ u = v.
Proof.
  revert t; induction s as [|c s IH]; intros [|d t] Hl He; cbn in Hl; try done.
  rewrite !str_app_cons in He. injection He as -> He. injection Hl as Hl.
  by destruct (IH t Hl He) as [-> ->].
Qed.

Lemma concat_clean_length l :
  (String.length (concat_str l) <= String.length (concat_str (map utf8_clean l)))%nat.
Proof.
  induction l as [|c l IH]; [done|].
  change (concat_str (map utf8_clean (c :: l))) with (utf8_clean c +:+ concat_str (map utf8_clean l)).
  change (concat_str (c :: l)) with (c +:+ concat_str l).
  rewrite !str_length_app. pose proof (utf8_clean_length c). lia.
Qed.

Lemma concat_clean l :
  concat_str (map utf8_clean l) = concat_str l <-> Forall (fun c => valid_utf8 c = true) l.
Proof.
  induction l as [|c l IH]; [split; [by constructor|done]|].
  change (concat_str (map utf8_clean (c :: l))) with (utf8_clean c +:+ concat_str (map utf8_clean l)).
  change (concat_str (c :: l)) with (c +:+ concat_str l). rewrite Forall_cons. split.
  - intros H. assert (String.length (utf8_clean c) = String.length c) as Hl.
    { pose proof (utf8_clean_length c). pose proof (concat_clean_length l).
      apply (f_equal String.length) in H. rewrite !str_length_app in H. lia. }
    apply str_app_inj_length in H as [H1 H2]; [|done]. split; [by apply utf8_clean_fixed|by apply IH].
  - intros [H1 H2]. rewrite (utf8_clean_id _ H1). by rewrite (proj2 IH H2).
Qed.

(** The length of a printed ASCII string. *)
Fixpoint printed_length (s : string) : nat :=
  match s with
  | EmptyString => 0
  | String c s => String.length (print_byte c) + printed_length s
  end.

Lemma print_body_ascii fuel s :
  is_ascii s = true -> (String.length s <= fuel)%nat -> String.length (print_body fuel s) = printed_length s.
Proof.
  revert fuel; induction s as [|c s IH]; intros fuel Ha Hf; [by destruct fuel|].
  destruct fuel as [|f]; [cbn in Hf; lia|]. cbn [is_ascii] in Ha. bool_facts.
  cbn [print_body]. rewrite rune_len_ascii by done.
  change (str_take 1 (String c s)) with (String c (str_take 0 s)).
  change (str_drop 1 (String c s)) with (str_drop 0 s).
  assert (str_take 0 s = "" /\ str_drop 0 s = s) as [-> ->] by (by destruct s).
  cbn [print_rune printed_length]. rewrite str_length_app, IH; [done|done|cbn in Hf; lia].
Qed.

(** The length of an input message: 26 bytes around the printed text. *)
Lemma input_message_length s :
  is_ascii s = true -> len (EncodeMessage "input" (Some (JStr s))) = Z.of_nat (printed_length s) + 26.
Proof.
  intros Ha. pose proof (print_body_ascii (String.length s) s Ha (le_n _)) as Hp.
  assert (EncodeMessage "input" (Some (JStr s))
          = (q "{'type':'input','data':'" +:+ (print_body (String.length s) s +:+ String dquote "")) +:+ "}") as ->
    by reflexivity.
  rewrite !len_app. unfold len at 2. rewrite Hp. change (len (q _)) with 24. change (len "}") with 1.
  change (len (String dquote "")) with 1. lia.
Qed.

(** Bytes whose printed form takes at most two: everything in ASCII but the
    control characters other than tab, newline, return, backspace and form feed,
    and [<], [>] and [&]. *)
Definition cheap_byte (c : ascii) : bool :=
  (byte_of c <? 128) && (String.length (print_byte c) <=? 2)%nat.

Lemma cheap_length s :
  forallb cheap_byte (chars s) = true -> is_ascii s = true /\ (printed_length s <= 2 * String.length s)%nat.
Proof.
  induction s as [|c s IH]; [by split|]. intros H. cbn [chars String.list_ascii_of_string forallb] in H.
  fold (chars s) in H. unfold cheap_byte in H at 1. bool_facts.
  match goal with X : forallb _ _ = true |- _ => destruct (IH X) as [Ha Hl] end.
  match goal with X : (_ <=? _)%nat = true |- _ => apply Nat.leb_le in X end.
  cbn [is_ascii printed_length String.length]. split; [|lia]. rewrite Ha. apply andb_true_iff.
  split; [by apply Z.ltb_lt|done].
Qed.

Lemma cheap_deliverable chunk :
  forallb cheap_byte (chars chunk) = true -> len chunk <= maxInputBytes -> deliverable chunk.
Proof.
  intros H Hl. apply cheap_length in H as [Ha Hp]. split.
  - rewrite utf8_clean_id by (by apply valid_utf8_ascii). unfold maxInputMsgBytes, maxInputBytes in *. lia.
  - rewrite input_message_length by done. unfold maxInputMsgBytes, maxInputBytes, len in *. lia.
Qed.

Fixpoint repeat_char (n : nat) (c : ascii) : string :=
  match n with
  | O => ""
  | S n => String c (repeat_char n c)
  end.

Lemma repeat_char_facts n c :
  byte_of c < 128 ->
  String.length (repeat_char n c) = n /\ is_ascii (repeat_char n c) = true
  /\ printed_length (repeat_char n c) = (n * String.length (print_byte c))%nat.
Proof.
  intros Hc%Z.ltb_lt. induction n as [|n (H1 & H2 & H3)]; [done|].
  cbn [repeat_char String.length is_ascii printed_length]. rewrite H1, H2, H3, Hc. done.
Qed.

(** ** Properties *)

(** What is typed or piped reaches the shell: when the client's input has
    ended, the chunks it sent make up the input, and if the server's limits
    admit each chunk, the shell is given one text per chunk, in order, and these
    texts together are the input exactly if every chunk is UTF-8 by itself. *)
Theorem session_input_end_to_end :
  forall send reads frames stdin_ok,
    copyStdin send reads = (frames, Some None) ->
    (forall c, c ∈ map fst reads -> deliverable c) -> (forall c, stdin_ok c = true) ->
    exists texts, read_loop stdin_ok frames = map StdinWrite texts
      /\ exists chunks, frames = map stdin_frame chunks /\ concat_str chunks = stdin_bytes reads
      /\ (concat_str texts = stdin_bytes reads <-> Forall (fun c => valid_utf8 c = true) chunks).
Proof.
  intros send reads frames stdin_ok H Hd Hok. apply copyStdin_frames in H as (chunks & -> & HF & Hc).
  exists (map utf8_clean chunks). split.
  - apply read_loop_stdin; [|done]. eapply Forall_impl; [exact HF|]. intros c [_ Hin]. by apply Hd.
  - exists chunks. split_and!; [done|by apply Hc|]. rewrite <- (Hc eq_refl). apply concat_clean.
Qed.

Lemma session_input_end_to_end_witness :
  exists texts, read_loop (fun _ => true) [stdin_frame "ls -l"; stdin_frame " /etc"] = map StdinWrite texts.
Proof.
  destruct (session_input_end_to_end (fun _ => None) [("ls -l", None); (" /etc", Some EOF)]
    [stdin_frame "ls -l"; stdin_frame " /etc"] (fun _ => true)) as (texts & H & _).
  - vm_compute. reflexivity.
  - intros c Hc. cbn in Hc. in_list Hc; subst; split; vm_compute; congruence.
  - reflexivity.
  - exists texts. exact H.
Defined.

(** C39.  Where the client's chunks and the server's limits fit, and where they
    do not.  A full read of plain text (no control characters but the usual
    ones, no [<], [>], [&]) is always delivered; but a full read of 32 KiB of
    [<] becomes a message the server refuses, and it then ends the session; and
    a read that ends inside a character corrupts it: the input is UTF-8, the
    text that reaches the shell is not the input. *)
Theorem stdin_chunk_limits :
  (forall chunk, forallb cheap_byte (chars chunk) = true -> len chunk <= maxInputBytes -> deliverable chunk)
  /\ (exists chunk, is_ascii chunk = true /\ len chunk = maxInputBytes
        /\ forall stdin_ok, handle_frame stdin_ok (stdin_frame chunk)
                            = ([sendError "BAD_REQUEST" "message too large"], false))
  /\ (exists chunk1 chunk2, valid_utf8 (chunk1 +:+ chunk2) = true
        /\ fst (copyStdin (fun _ => None) [(chunk1, None); (chunk2, Some EOF)])
           = [stdin_frame chunk1; stdin_frame chunk2]
        /\ exists text1 text2,
             read_loop (fun _ => true) [stdin_frame chunk1; stdin_frame chunk2] = [StdinWrite text1; StdinWrite text2]
             /\ text1 +:+ text2 <> chunk1 +:+ chunk2).
Proof.
  split_and!; [apply cheap_deliverable| |].
  - destruct (repeat_char_facts (Z.to_nat maxInputBytes) "<" eq_refl) as (Hl & Ha & Hp).
    exists (repeat_char (Z.to_nat maxInputBytes) "<").
    assert (len (repeat_char (Z.to_nat maxInputBytes) "<") = maxInputBytes) as Hlen.
    { unfold len. rewrite Hl. unfold maxInputBytes. lia. }
    split_and!; [done|done|]. intros stdin_ok. unfold handle_frame, stdin_frame. cbn [frame_data].
    rewrite input_message_length by done. rewrite Hp.
    change (String.length (print_byte "<")) with 6%nat.
    assert ((maxInputMsgBytes + 2048 <? Z.of_nat (Z.to_nat maxInputBytes * 6) + 26) = true) as ->; [|done].
    apply Z.ltb_lt. unfold maxInputMsgBytes, maxInputBytes. lia.
  - exists (bytes [104; 195]), (bytes [169]). split; [vm_compute; reflexivity|].
    split; [vm_compute; reflexivity|]. exists (bytes [104; 239; 191; 189]), (bytes [239; 191; 189]).
    split; [vm_compute; reflexivity|]. vm_compute. discriminate.
Qed.

Lemma stdin_chunk_limits_witness : deliverable "echo hello".
Proof. apply (proj1 stdin_chunk_limits); vm_compute; congruence. Defined.

(** ** The end of a session *)

(** The text frames a client receives for the effects of the server's session. *)
Definition session_messages (es : list Effect) : list Frame :=
  omap (fun e => match e with
                 | SendJSON v => Some (TextMessage (print_line v))
                 | _ => None
                 end) es.

(** The documented contract of [io.Writer] that the client's read loop relies
    on, as it ignores the count: a short write comes with an error. *)
Definition full_writes (W : Type) `{Writer W} : Prop :=
  forall w p w' n, Write w p = (w', n, false) -> n = String.length p.

Lemma closed_message reason status :
  valid_utf8 reason = true -> (forall n, status = Some n -> in_int64 n = true) ->
  DecodeMessage (print_line (map_message "closed" (enc_ClosedData (mkClosedData reason status))))
  = Some (mkMessage "closed" (Some (enc_ClosedData (mkClosedData reason status)))).
Proof.
  intros Hr Hs. refine (proj1 (proj2 (wire_read _ "closed" _ eq_refl))). unfold enc_ClosedData. cbn [cl_Reason cl_ExitStatus].
  destruct status as [n|]; [specialize (Hs n eq_refl)|]; unfold enc_int; clean_members.
Qed.

Lemma handleText_closed {W} `{Writer W} werr (w : W) reason status :
  valid_utf8 reason = true -> (forall n, status = Some n -> in_int64 n = true) ->
  handleText werr w (print_line (map_message "closed" (enc_ClosedData (mkClosedData reason status))))
  = (w, Some (RemoteExit (default 0 status) reason)).
Proof.
  intros Hr Hs. unfold handleText. rewrite closed_message by done. cbn [Type_ Data].
  change ("closed" =?s "output") with false. change ("closed" =?s "error") with false.
  change ("closed" =?s "closed") with true. cbv iota. by rewrite read_ClosedData_enc.
Qed.

Lemma session_messages_serve stdin_ok inputs shell :
  Forall deliverable inputs -> (forall c, stdin_ok c = true) ->
  session_messages (WsHandler.serve stdin_ok (map stdin_frame inputs) (Some shell))
  = [TextMessage (print_line (map_message "closed"
       (enc_ClosedData (mkClosedData "ssh session closed" (exit_status shell)))))].
Proof.
  intros Hd Hok. unfold WsHandler.serve. rewrite read_loop_stdin by done. unfold session_messages.
  rewrite omap_app. assert (forall l, omap (fun e => match e with
    | SendJSON v => Some (TextMessage (print_line v)) | _ => None end) (map StdinWrite l) = []) as -> by (by induction l).
  done.
Qed.

(** Output that is written without error arrives whole. *)
Lemma readLoop_outputs {W} `{Writer W} werr (w : W) outs rest rerr w' e :
  full_writes W -> readLoop werr w (map BinaryMessage outs ++ rest) rerr = (w', e) ->
  e = Wrap "stdout: " werr
  \/ exists w1, accepted w1 = accepted w +:+ concat_str outs /\ readLoop werr w1 rest rerr = (w', e).
Proof.
  intros Hfull. revert w; induction outs as [|o outs IH]; intros w H0.
  { right. exists w. by rewrite str_app_nil_r. }
  cbn [map app readLoop] in H0. unfold write_stdout in H0. destruct (Write w o) as [[w2 n] [|]] eqn:Ew.
  - simplify_eq. by left.
  - pose proof (Write_accepts _ _ _ _ _ Ew) as Ha. rewrite (Hfull _ _ _ _ Ew), str_take_all in Ha.
    apply IH in H0 as [?|(w1 & H1 & H2)]; [by left|right]. exists w1. split; [|done].
    change (concat_str (o :: outs)) with (o +:+ concat_str outs). by rewrite H1, Ha, str_app_assoc.
Qed.

(** What the shell printed: the bytes of the reads up to the one that fails,
    whose own bytes count. *)
Fixpoint shell_output (reads : list (string * bool)) : string :=
  match reads with
  | [] => ""
  | (data, failed) :: rest => data +:+ (if failed : bool then "" else shell_output rest)
  end.

Lemma copyOutput_bytes reads : concat_str (copyOutput reads) = shell_output reads.
Proof.
  induction reads as [|[data failed] reads IH]; [done|]. cbn [copyOutput shell_output].
  rewrite concat_str_app. f_equal; [|by destruct failed].
  rewrite len_pos. destruct (data =?s "") eqn:E; bool_facts; [by subst|]. cbn. by rewrite str_app_nil_r.
Qed.

(** The end of a session reaches the user: when the shell ends, the client
    has written all the shell printed, in order, if the server had sent it
    before the closing message (what is sent after it is not read any more), and
    its process exits with the shell's status; a shell that ended without a
    status counts as success. *)
Theorem session_exit_end_to_end :
  forall W `{Writer W} (w : W) werr stdin_ok inputs shell output late rerr w' e,
    full_writes W -> Forall deliverable inputs -> (forall c, stdin_ok c = true) ->
    (forall code, shell = ExitStatus code -> in_int64 code = true) ->
    readLoop werr w
      (map BinaryMessage (copyOutput output)
         ++ session_messages (WsHandler.serve stdin_ok (map stdin_frame inputs) (Some shell))
         ++ map BinaryMessage late) rerr = (w', e) ->
    e = Wrap "stdout: " werr
    \/ (accepted w' = accepted w +:+ shell_output output
        /\ e = RemoteExit (default 0 (exit_status shell)) "ssh session closed"
        /\ fst (exit_of (fst (relay e))) = default 0 (exit_status shell)).
Proof.
  intros W HW w werr stdin_ok inputs shell output late rerr w' e Hfull Hd Hok Hcode H.
  rewrite session_messages_serve in H by done.
  apply readLoop_outputs in H as [?|(w1 & H1 & H)]; [by left| |done]. right. rewrite copyOutput_bytes in H1.
  cbn [app readLoop] in H. rewrite handleText_closed in H; [|done|].
  - injection H as <- <-. split_and!; [done..|]. unfold relay. cbn [as_RemoteExit in_chain].
    destruct (_ =? 0) eqn:E; bool_facts; [by rewrite E|done].
  - destruct shell; cbn; intros n [= <-]; [done|by apply Hcode].
Qed.

(** A standard output for the witnesses: it takes everything. *)
#[export] Instance string_writer : Writer string.
Proof.
  refine {| Write := fun w p => (w +:+ p, String.length p, false); accepted := fun w => w |}.
  - by intros w p w' n e [= <- <- <-].
  - intros w p w' n e [= <- <- <-]. by rewrite str_take_all.
Defined.

Lemma session_exit_end_to_end_witness :
  fst (exit_of (fst (relay (RemoteExit 3 "ssh session closed")))) = 3.
Proof.
  destruct (session_exit_end_to_end string "" (Plain "w") (fun _ => true) ["exit 3"] (ExitStatus 3)
    [("go", false); ("", false); ("od", true); ("?", true)] ["lost"]
    EOF "good" (RemoteExit 3 "ssh session closed")) as [H|(_ & _ & H)].
  - by intros w p w' n [= _ <-].
  - constructor; [split; vm_compute; congruence|constructor].
  - reflexivity.
  - by intros code [= <-].
  - vm_compute. reflexivity.
  - discriminate H.
  - exact H.
Defined.
