(* ===== verification/CliOutput.v ===== *)
(** * What the client prints of a concurrent session

    The messages that the goroutines of WsConcurrent put on the wire, read by
    the client's loop of CliSession: the client stops at the closing message,
    which the server may send before the last output. *)

From S2P Require Import Prelude GoStrings Json JsonDecode WsProtocol WsHandler Tunnel WsConcurrent WsTeardown CliError CliTunnel CliSession.

(** The messages the client acts on: it skips pongs and metrics. *)
Definition client_frames (fs : list Written) : list Frame :=
  omap (fun f => match f with
                 | WJSON v => Some (TextMessage (print_line v))
                 | WOutput _ data => Some (BinaryMessage data)
                 | WPong _ | WMetrics _ => None
                 end) fs.

(** The shell prints a line and ends; the handler sees the end before the copier
    has sent the line. *)
Definition losing_schedule : list (Thread * Choice) :=
  [(Copier Stdout, Go); (Copier Stdout, Returns "bye" true); (Waiter, Go); (Waiter, Exits ExitOk); (Waiter, Go);
   (Handler, PickShell); (Handler, Go); (Handler, Go); (Handler, Go);
   (Copier Stdout, Go); (Copier Stdout, Go); (Copier Stdout, Go);
   (Copier Stderr, Go); (Copier Stderr, Returns "" true); (Handler, Go); (Handler, Go);
   (MetricsLoop, Go); (Handler, Go); (Handler, Go); (Handler, Go); (Handler, Go); (Handler, Go)].

Lemma readLoop_closed {W} `{Writer W} werr (w : W) outs rest reason status rerr w' e :
  full_writes W -> valid_utf8 reason = true -> (forall n, status = Some n -> in_int64 n = true) ->
  readLoop werr w (map BinaryMessage outs ++ TextMessage (print_line (closed_json reason status)) :: rest) rerr = (w', e) ->
  e = Wrap "stdout: " werr
  \/ (accepted w' = accepted w +:+ concat_str outs /\ e = RemoteExit (default 0 status) reason).
Proof.
  intros Hfull Hr Hs Hl. apply readLoop_outputs in Hl as [?|(w1 & H1 & Hl)]; [by left| |done].
  right. cbn [readLoop] in Hl. unfold closed_json in Hl. rewrite handleText_closed in Hl by done.
  injection Hl as <- <-. done.
Qed.

(** At the end of a session without failed writes all output was sent. *)
Lemma all_output_sent r :
  reachable r -> handler r = HDone -> broken (sh r) = false ->
  outputs Stdout (wire (sh r)) = cp_read (out r) /\ outputs Stderr (wire (sh r)) = cp_read (err r).
Proof.
  intros Hr Hd Hb. destruct (session_inv r Hr) as [_ Hst _ [[_ Ho] [_ He] _ _] _].
  assert (joined r = true) as Hj by (apply (st_join _ Hst); rewrite Hd; cbn; lia).
  specialize (Ho Hb). specialize (He Hb). unfold joined, in_hand in *. bool_facts.
  destruct (cp_pc (out r)); try done. destruct (cp_pc (err r)); try done. by rewrite !app_nil_r in *.
Qed.

(** C30.  The end of the shell's output can be lost: the server may send its closing
    message before output that was already read from the shell, and the client
    stops there: it prints nothing of it and reports success, with no write
    having failed.  When all output precedes the closing message, the client
    prints all of it, and that is everything that was read from both streams. *)
Theorem session_output_lost :
  (exists r, reachable r /\ handler r = HDone /\ broken (sh r) = false /\ cp_read (out r) = ["bye"]
     /\ outputs Stdout (wire (sh r)) = ["bye"]
     /\ forall W (HW : Writer W) (w : W) werr rerr, full_writes W ->
          readLoop werr w (client_frames (wire (sh r))) rerr = (w, RemoteExit 0 "ssh session closed")
          /\ fst (exit_of (fst (relay (RemoteExit 0 "ssh session closed")))) = 0)
  /\ forall r outs reason status W (HW : Writer W) (w : W) werr rerr w' e,
       reachable r -> handler r = HDone -> broken (sh r) = false -> full_writes W ->
       valid_utf8 reason = true -> (forall n, status = Some n -> in_int64 n = true) ->
       client_frames (wire (sh r)) = map BinaryMessage outs ++ [TextMessage (print_line (closed_json reason status))] ->
       readLoop werr w (client_frames (wire (sh r))) rerr = (w', e) ->
       e = Wrap "stdout: " werr
       \/ (accepted w' = accepted w +:+ concat_str outs /\ e = RemoteExit (default 0 status) reason
           /\ outputs Stdout (wire (sh r)) = cp_read (out r) /\ outputs Stderr (wire (sh r)) = cp_read (err r)).
Proof.
  split.
  - exists (after losing_schedule). split; [apply after_reachable; vm_compute; by eexists|].
    split_and!; [vm_compute; reflexivity..|]. intros W HW w werr rerr _.
    assert (wire (sh (after losing_schedule))
            = [WJSON (closed_json "ssh session closed" (Some 0)); WOutput Stdout "bye"]) as -> by (vm_compute; reflexivity).
    split; [|vm_compute; reflexivity]. cbn [client_frames omap list_omap readLoop]. unfold closed_json.
    rewrite handleText_closed; [done|done|]. by intros n [= <-].
  - intros * Hr Hd Hb Hfull Hv Hs Hw Hl. rewrite Hw in Hl. apply readLoop_closed in Hl as [?|[H1 H2]]; [by left| |done..].
    destruct (all_output_sent r Hr Hd Hb) as [H3 H4]. right. by split_and!.
Qed.

Lemma session_output_lost_witness :
  outputs Stdout (wire (sh (after sample_schedule))) = ["login: "; "file"].
Proof.
  destruct (proj2 session_output_lost (after sample_schedule) ["login: "; "file"] "ssh session closed" (Some 0)
    string string_writer "" (Plain "w") EOF "login: file" (RemoteExit 0 "ssh session closed")) as [H|(_ & _ & H & _)].
  - apply after_reachable. vm_compute. by eexists.
  - vm_compute. reflexivity.
  - vm_compute. reflexivity.
  - by intros w p w' n [= _ <-].
  - reflexivity.
  - by intros n [= <-].
  - vm_compute. reflexivity.
  - vm_compute. reflexivity.
  - discriminate H.
  - rewrite H. vm_compute. reflexivity.
Defined.
