(* ===== verification/CliTerm.v ===== *)
(** * The client's terminal (internal/cli/term.go, term_windows.go, session.go)

    Raw mode and its restoration, the size of the window and its changes, hidden
    password input, prompts from a pipe, and the relay with the terminal around
    it.  The operating system's calls answer through arguments; the bits of a
    terminal's modes are constants of golang.org/x/sys and differ between
    platforms: the records [Unix] and [Console]. *)

From S2P Require Import Prelude GoStrings GoTime Json JsonDecode WsProtocol WsHandler Tunnel CliError CliOptions CliTunnel CliSession.

(** ** Unix *)

(** Flag bits and indices of golang.org/x/sys/unix. *)
Record Unix : Type := mkUnix {
  IGNBRK : Z; BRKINT : Z; PARMRK : Z; ISTRIP : Z; INLCR : Z; IGNCR : Z; ICRNL : Z; IXON : Z;
  OPOST : Z; ECHO : Z; ECHONL : Z; ICANON : Z; ISIG : Z; IEXTEN : Z;
  CSIZE : Z; PARENB : Z; CS8 : Z; VMIN : nat; VTIME : nat }.

Record Termios : Type := mkTermios { Iflag : Z; Oflag : Z; Cflag : Z; Lflag : Z; Cc : list Z }.

(** A file of the process: [None] is no terminal (the ioctl fails). *)
Definition Tty : Type := option Termios.

Definition isTerminal (t : Tty) : bool := bool_decide (is_Some t).

(** [IoctlSetTermios]; [fails] is its error. *)
Definition IoctlSetTermios (fails : option cerror) (new : Termios) (t : Tty) : Tty * option cerror :=
  match fails with Some e => (t, Some e) | None => (Some new, None) end.

Definition lor_all (l : list Z) : Z := foldr Z.lor 0 l.

Section UnixTerminal.

Context (K : Unix) (ENOTTY : cerror).

(** [x &^= bits] *)
Definition raw_mode (old : Termios) : Termios :=
  mkTermios
    (Z.ldiff (Iflag old) (lor_all [IGNBRK K; BRKINT K; PARMRK K; ISTRIP K; INLCR K; IGNCR K; ICRNL K; IXON K]))
    (Z.ldiff (Oflag old) (OPOST K))
    (Z.lor (Z.ldiff (Cflag old) (lor_all [CSIZE K; PARENB K])) (CS8 K))
    (Z.ldiff (Lflag old) (lor_all [ECHO K; ECHONL K; ICANON K; ISIG K; IEXTEN K]))
    (<[VTIME K := 0]> (<[VMIN K := 1]> (Cc old))).

(** [makeRaw]: the terminal, and the mode that [restore] sets. *)
Definition makeRaw (set_fails : option cerror) (t : Tty) : Tty * result cerror Termios :=
  match t with
  | None => (t, Err ENOTTY)
  | Some old => let (t', err) := IoctlSetTermios set_fails (raw_mode old) t in
                (t', match err with Some e => Err e | None => Ok old end)
  end.

(** [windowSize] of the answer of TIOCGWINSZ: columns and rows as 16-bit
    numbers. *)
Definition windowSize (ws : option (Z * Z)) : option (Z * Z) :=
  match ws with
  | Some (col, row) => if (col =? 0) || (row =? 0) then None else Some (col, row)
  | None => None
  end.

(** The loop of [readPassword]: each read gives a byte or none, and maybe an
    error; [None] while it is still reading. *)
Fixpoint read_secret (reads : list (option ascii * option cerror)) (buf : string)
    : option (string * option cerror) :=
  match reads with
  | [] => None
  | (byte, err) :: rest =>
      let continue buf := match err with
                          | Some e => Some (buf, Some e)
                          | None => read_secret rest buf
                          end in
      match byte with
      | Some c =>
          let b := byte_of c in
          if (b =? 10) || (b =? 13) then Some (buf, None)
          else if (b =? 127) || (b =? 8) then continue (str_take (String.length buf - 1) buf)
          else continue (buf +:+ String c "")
      | None => continue buf
      end
  end.

(** [readPassword]: the terminal during the reads, the terminal afterwards, and
    the result.  [restore_fails] is the error of the deferred ioctl. *)
Definition hidden_mode (old : Termios) : Termios :=
  mkTermios (Iflag old) (Oflag old) (Cflag old) (Z.ldiff (Lflag old) (ECHO K)) (Cc old).

Definition readPassword (set_fails restore_fails : option cerror) (reads : list (option ascii * option cerror))
    (t : Tty) : Tty * option (Tty * result cerror string) :=
  match t with
  | None => (t, Some (t, Err ENOTTY))
  | Some old =>
      match IoctlSetTermios set_fails (hidden_mode old) t with
      | (t', Some e) => (t', Some (t', Err e))
      | (t', None) =>
          (t', option_map (fun r : string * option cerror =>
                 (fst (IoctlSetTermios restore_fails old t'),
                  match snd r with Some e => Err e | None => Ok (fst r) end)) (read_secret reads ""))
      end
  end.

End UnixTerminal.

(** ** Windows *)

(** Console mode bits of golang.org/x/sys/windows. *)
Record Console : Type := mkConsole {
  ENABLE_ECHO_INPUT : Z; ENABLE_LINE_INPUT : Z; ENABLE_PROCESSED_INPUT : Z; ENABLE_MOUSE_INPUT : Z;
  ENABLE_EXTENDED_FLAGS : Z; ENABLE_VIRTUAL_TERMINAL_INPUT : Z;
  ENABLE_PROCESSED_OUTPUT : Z; ENABLE_WRAP_AT_EOL_OUTPUT : Z; ENABLE_VIRTUAL_TERMINAL_PROCESSING : Z }.

(** The console: the modes of the two handles ([None] when [GetConsoleMode]
    fails) and its code pages. *)
Record Win : Type := mkWin { in_mode : option Z; out_mode : option Z; out_cp : Z; in_cp : Z }.

Definition utf8CodePage : Z := 65001.

Section WindowsTerminal.

(** Which modes a console accepts for each handle; a code page is always
    accepted, and 0 is what asking for it answers on failure. *)
Context (K : Console) (in_ok out_ok : Z -> bool) (no_console refused : cerror).

Definition set_in (m : Z) (w : Win) : Win * bool :=
  if in_ok m then (mkWin (Some m) (out_mode w) (out_cp w) (in_cp w), true) else (w, false).
Definition set_out (m : Z) (w : Win) : Win * bool :=
  if out_ok m then (mkWin (in_mode w) (Some m) (out_cp w) (in_cp w), true) else (w, false).
Definition set_out_cp (p : Z) (w : Win) : Win := mkWin (in_mode w) (out_mode w) p (in_cp w).
Definition set_in_cp (p : Z) (w : Win) : Win := mkWin (in_mode w) (out_mode w) (out_cp w) p.

Definition raw_in (m : Z) : Z :=
  Z.lor (Z.ldiff m (lor_all [ENABLE_ECHO_INPUT K; ENABLE_LINE_INPUT K; ENABLE_PROCESSED_INPUT K; ENABLE_MOUSE_INPUT K]))
    (lor_all [ENABLE_EXTENDED_FLAGS K; ENABLE_VIRTUAL_TERMINAL_INPUT K]).

Definition raw_out (m : Z) : Z :=
  Z.lor m (lor_all [ENABLE_PROCESSED_OUTPUT K; ENABLE_WRAP_AT_EOL_OUTPUT K; ENABLE_VIRTUAL_TERMINAL_PROCESSING K]).

(** [makeRaw] on the input handle; what [restore] needs is the state before. *)
Definition win_makeRaw (w : Win) : Win * result cerror Win :=
  match in_mode w with
  | None => (w, Err no_console)
  | Some inMode =>
      let '(w1, ok) :=
        match set_in (raw_in inMode) w with
        | (w1, true) => (w1, true)
        | (w1, false) => set_in (Z.ldiff (raw_in inMode) (ENABLE_VIRTUAL_TERMINAL_INPUT K)) w1
        end in
      if negb ok then (w1, Err refused)
      else
        let w2 := match out_mode w1 with
                  | None => w1
                  | Some outMode =>
                      match set_out (raw_out outMode) w1 with
                      | (w2, true) => w2
                      | (w2, false) =>
                          fst (set_out (Z.lor outMode (lor_all [ENABLE_PROCESSED_OUTPUT K; ENABLE_WRAP_AT_EOL_OUTPUT K])) w2)
                      end
                  end in
        (set_in_cp utf8CodePage (set_out_cp utf8CodePage w2), Ok w)
  end.

(** The function [makeRaw] returns, from the state before. *)
Definition win_restore (before w : Win) : Win :=
  let w := match in_mode before with Some m => fst (set_in m w) | None => w end in
  let w := match out_mode before with Some m => fst (set_out m w) | None => w end in
  let w := if negb (out_cp before =? 0) then set_out_cp (out_cp before) w else w in
  if negb (in_cp before =? 0) then set_in_cp (in_cp before) w else w.

End WindowsTerminal.

(** A 16-bit signed number, as the console's coordinates wrap around. *)
Definition wrap16 (z : Z) : Z := (z + 32768) mod 65536 - 32768.

(** [info.Window]: left, top, right and bottom, inclusive. *)
Record SmallRect : Type := mkRect { r_Left : Z; r_Top : Z; r_Right : Z; r_Bottom : Z }.

(** The two answers are those of the handle and of standard output. *)
Definition win_windowSize (info stdout_info : option SmallRect) : option (Z * Z) :=
  match (match info with Some i => Some i | None => stdout_info end) with
  | None => None
  | Some i =>
      let cols := wrap16 (wrap16 (r_Right i - r_Left i) + 1) in
      let rows := wrap16 (wrap16 (r_Bottom i - r_Top i) + 1) in
      if (cols <=? 0) || (rows <=? 0) then None else Some (cols, rows)
  end.

(** The line of a hidden read: up to 512 bytes, without the line ends at its
    end. *)
Fixpoint trim_line_end (fuel : nat) (s : string) : string :=
  match fuel with
  | O => s
  | S f =>
      if HasSuffix s (String (chr 10) "") || HasSuffix s (String (chr 13) "")
      then trim_line_end f (str_take (String.length s - 1) s) else s
  end.

Definition win_readPassword (K : Console) (in_ok out_ok : Z -> bool) (no_console refused : cerror)
    (ReadFile : result cerror string) (w : Win) : Win * result cerror string :=
  match in_mode w with
  | None => (w, Err no_console)
  | Some mode =>
      match set_in in_ok (Z.ldiff mode (ENABLE_ECHO_INPUT K)) w with
      | (w1, false) => (w1, Err refused)
      | (w1, true) =>
          (fst (set_in in_ok mode w1), res_bind ReadFile (fun s => Ok (trim_line_end (String.length s) s)))
      end
  end.

(** [notifyResize], which polls: the sizes at which it calls back, from the size
    at the start and the answers at the ticks. *)
Fixpoint resize_calls (last : Z * Z) (ticks : list (option (Z * Z))) : list (Z * Z) :=
  match ticks with
  | [] => []
  | None :: ticks => resize_calls last ticks
  | Some s :: ticks =>
      if bool_decide (s = last) then resize_calls last ticks else s :: resize_calls s ticks
  end.

Definition win_notifyResize (first : option (Z * Z)) (ticks : list (option (Z * Z))) : list (Z * Z) :=
  resize_calls (default (0, 0) first) ticks.

(** ** Prompts *)

(** One read of standard input, as in [copyStdin]. *)
Definition Reads : Type := list (string * option cerror).

Definition drop_cr (s : string) : string := TrimSuffix s (String (chr 13) "").

(** [bufio.Scanner.Scan] on the first line: the line, or false with the error;
    and the reads left.  What was read beyond the line stays in the scanner's
    buffer and goes away with it.  [idle] counts reads without bytes, of which a
    hundred in a row are allowed; [None] while it is still reading. *)
Fixpoint Scan (idle : nat) (reads : Reads) (buf : string) : option (result (option cerror) string * Reads) :=
  match CutByte buf (chr 10) with
  | Some (line, _) => Some (Ok (drop_cr line), reads)
  | None =>
      if 64 * 1024 <=? len buf then Some (Err (Some (Plain "bufio.Scanner: token too long")), reads)
      else match reads with
           | [] => None
           | (data, err) :: rest =>
               match err with
               | Some e =>
                   let buf := buf +:+ data in
                   match CutByte buf (chr 10) with
                   | Some (line, _) => Some (Ok (drop_cr line), rest)
                   | None => if buf =?s "" then Some (Err (if is_EOF e then None else Some e), rest)
                             else Some (Ok (drop_cr buf), rest)
                   end
               | None =>
                   if data =?s "" then
                     if (100 <=? idle)%nat
                     then Some (if buf =?s "" then Err (Some (Plain "multiple Read calls return no data or error"))
                                else Ok (drop_cr buf), rest)
                     else Scan (S idle) rest buf
                   else Scan 0 rest (buf +:+ data)
               end
           end
  end.

(** [promptSecret] when standard input is no terminal. *)
Definition promptSecret (reads : Reads) : option (result cerror string * Reads) :=
  option_map (fun x : result (option cerror) string * Reads =>
    (match fst x with
     | Ok line => Ok line
     | Err (Some e) => Err e
     | Err None => Err (Plain "password is required")
     end, snd x)) (Scan 0 reads "").

(** ** The relay with the terminal around it *)

Definition ESC : string := String (chr 27) "".
Definition terminalMouseReset : string :=
  ESC +:+ "[?9l" +:+ ESC +:+ "[?1000l" +:+ ESC +:+ "[?1002l" +:+ ESC +:+ "[?1003l" +:+ ESC +:+ "[?1005l"
  +:+ ESC +:+ "[?1006l" +:+ ESC +:+ "[?1015l" +:+ ESC +:+ "[?1016l".

Section Relay.

Context (K : Unix) (ENOTTY : cerror) {W : Type} `{Writer W} (werr : cerror).

(** [stdout] is the file of standard output, if there is one. *)
Definition resetTerminalMouseModes (stdout : option Tty) (w : W) : W :=
  match stdout with
  | Some t => if isTerminal t then fst (fst (Write w terminalMouseReset)) else w
  | None => w
  end.

(** What [relay] leaves: the terminal of standard input while the session ran
    and afterwards, standard output, and its result with the notice. *)
Record RelayRun : Type := mkRelayRun {
  rr_during : option Tty; rr_after : option Tty; rr_out : W; rr_result : option cerror * option string }.

Definition relay_terminal (stdin stdout : option Tty) (set_fails restore_fails : option cerror) (w : W)
    (frames : list Frame) (rerr : cerror) : RelayRun :=
  let w := resetTerminalMouseModes stdout w in
  let session (during : option Tty) (restore : option Tty -> option Tty) :=
    let (w, readErr) := readLoop werr w frames rerr in
    mkRelayRun during (restore during) (resetTerminalMouseModes stdout w) (relay readErr) in
  match stdin with
  | Some t =>
      if isTerminal t then
        match makeRaw K ENOTTY set_fails t with
        | (t', Err e) => mkRelayRun (Some t') (Some t') w (Some (Wrap "set raw terminal: " e), None)
        | (t', Ok old) => session (Some t') (option_map (fun t => fst (IoctlSetTermios restore_fails old t)))
        end
      else session stdin (fun t => t)
  | None => session stdin (fun t => t)
  end.

End Relay.

(** The callback of a resize: the message for the window of standard output. *)
Definition resize_message (stdout_size : option (option (Z * Z))) : option Frame :=
  match stdout_size with
  | Some (Some (cols, rows)) => Some (resize_frame cols rows)
  | _ => None
  end.

(** [notifyResize] on Unix: every signal that is received (of those that arrive
    while one is handled, one stays) asks for the size and sends it. *)
Definition notifyResize (answers : list (option (option (Z * Z)))) : list Frame := omap resize_message answers.

(** ** Lemmas: modes *)

Lemma land_ldiff x bits sub : Z.land sub bits = sub -> Z.land (Z.ldiff x bits) sub = 0.
Proof.
  intros Hs. rewrite <- Hs. apply Z.bits_inj'. intros n _. rewrite !Z.land_spec, Z.ldiff_spec, Z.bits_0.
  by destruct (Z.testbit x n), (Z.testbit bits n), (Z.testbit sub n).
Qed.

Lemma land_lor_all x l : x ∈ l -> Z.land x (lor_all l) = x.
Proof.
  intros Hin. apply Z.bits_inj'. intros n _. rewrite Z.land_spec. induction l as [|y l IH]; [by apply not_elem_of_nil in Hin|].
  cbn [lor_all foldr]. fold (lor_all l). rewrite Z.lor_spec.
  apply elem_of_cons in Hin as [->|Hin]; [by destruct (Z.testbit y n)|].
  specialize (IH Hin). by destruct (Z.testbit x n), (Z.testbit y n).
Qed.

(** A bit in no mask is left alone. *)
Lemma testbit_ldiff_other x bits n : Z.testbit bits n = false -> Z.testbit (Z.ldiff x bits) n = Z.testbit x n.
Proof. intros Hn. rewrite Z.ldiff_spec, Hn. apply andb_true_r. Qed.

(** ** Lemmas: prompts *)

Definition newline_byte : ascii := chr 10.

Lemma Scan_found idle reads line tail :
  IndexByte line newline_byte = None ->
  Scan idle reads (line +:+ String newline_byte tail) = Some (Ok (drop_cr line), reads).
Proof. intros Hn. destruct reads; cbn [Scan]; by rewrite CutByte_app. Qed.

(** A line that comes with more in one read. *)
Lemma Scan_line line tail rest :
  IndexByte line newline_byte = None ->
  Scan 0 ((line +:+ String newline_byte tail, None) :: rest) "" = Some (Ok (drop_cr line), rest).
Proof.
  intros Hn. cbn [Scan]. change (CutByte "" (chr 10)) with (@None (string * string)). cbv iota.
  change (64 * 1024 <=? len "") with false. cbv iota.
  assert ((line +:+ String newline_byte tail =?s "") = false) as ->.
  { apply String.eqb_neq. by destruct line. }
  rewrite str_app_nil_l. by apply Scan_found.
Qed.

(** ** Lemmas: hidden input *)

Inductive Key : Type := Typed (c : ascii) | Erase (backspace : bool).

Definition key_byte (k : Key) : ascii :=
  match k with Typed c => c | Erase true => chr 8 | Erase false => chr 127 end.

(** A byte that is neither an erasing key nor a line end. *)
Definition text_byte (c : ascii) : bool := negb (bool_decide (byte_of c ∈ [8; 10; 13; 127])).

(** What a line of keys comes to: an erasing key takes back the last byte that
    is left, if any. *)
Inductive yields : list Key -> string -> Prop :=
| yields_nil : yields [] ""
| yields_type ks s c : yields ks s -> yields (ks ++ [Typed c]) (s +:+ String c "")
| yields_erase ks s c b : yields ks (s +:+ String c "") -> yields (ks ++ [Erase b]) s
| yields_erase_nothing ks b : yields ks "" -> yields (ks ++ [Erase b]) "".

Definition read_key (k : Key) : option ascii * option cerror := (Some (key_byte k), None).

Lemma str_snoc s : s = "" \/ exists t c, s = t +:+ String c "".
Proof.
  induction s as [|c s IH]; [by left|right]. destruct IH as [->|(t & d & ->)].
  - by exists "", c.
  - by exists (String c t), d.
Qed.

Lemma take_but_last t c : str_take (String.length (t +:+ String c "") - 1) (t +:+ String c "") = t.
Proof.
  rewrite str_length_app. change (String.length (String c "")) with 1%nat. rewrite Nat.add_sub. apply str_take_app.
Qed.

(** Reading one more key. *)
Lemma read_secret_key k rest buf :
  match k with Typed c => text_byte c = true | _ => True end ->
  read_secret (read_key k :: rest) buf
  = read_secret rest (match k with Typed c => buf +:+ String c "" | Erase _ => str_take (String.length buf - 1) buf end).
Proof.
  intros Hk. destruct k as [c|b]; [|by destruct b].
  unfold text_byte in Hk. rewrite negb_true_iff, bool_decide_eq_false in Hk. cbn.
  assert ((byte_of c =? 10) = false /\ (byte_of c =? 13) = false /\ (byte_of c =? 127) = false /\ (byte_of c =? 8) = false)
    as (-> & -> & -> & ->); [|done].
  split_and!; apply Z.eqb_neq; intros He; apply Hk; rewrite He; set_solver.
Qed.

Lemma read_secret_keys ks1 ks2 rest s :
  Forall (fun k => match k with Typed c => text_byte c = true | _ => True end) (ks1 ++ ks2) -> yields ks1 s ->
  exists s', yields (ks1 ++ ks2) s' /\ read_secret (map read_key ks2 ++ rest) s = read_secret rest s'.
Proof.
  revert ks1 s; induction ks2 as [|k ks IH]; intros ks1 s HF Hy.
  { exists s. by rewrite app_nil_r. }
  pose proof (proj1 (Forall_app _ _ _) HF) as [_ HF2]. apply Forall_cons in HF2 as [Hk _].
  cbn [map app]. rewrite read_secret_key by done.
  replace (ks1 ++ k :: ks) with ((ks1 ++ [k]) ++ ks) in * by (by rewrite <- app_assoc).
  apply IH; [done|]. destruct k as [c|b]; [by constructor|].
  destruct (str_snoc s) as [->|(t & c & ->)]; [by constructor|]. rewrite take_but_last. by econstructor.
Qed.

(** ** Properties *)

(** Unix constants of Linux, for the witnesses. *)
Definition linux : Unix := {|
  IGNBRK := 1; BRKINT := 2; PARMRK := 8; ISTRIP := 32; INLCR := 64; IGNCR := 128; ICRNL := 256; IXON := 1024;
  OPOST := 1; ECHO := 8; ECHONL := 64; ICANON := 2; ISIG := 1; IEXTEN := 32768;
  CSIZE := 48; PARENB := 256; CS8 := 48; VMIN := 6; VTIME := 5 |}.

Definition cooked : Termios := mkTermios 17664 5 191 35387 (replicate 19 3).

(** C36.  The user's terminal comes back: whatever the session does and however it
    ends, after [relay] the terminal of standard input has the modes it had
    before, if the ioctl that restores them succeeds; if raw mode cannot be set,
    it is untouched and the session does not start.  While the session runs the
    terminal neither echoes nor edits lines nor turns keys into signals, and
    passes 8-bit characters one by one; modes outside the masks are unchanged. *)
Theorem relay_restores_terminal :
  forall K ENOTTY W `{Writer W} (w : W) werr stdin stdout set_fails frames rerr,
    (VMIN K < 19)%nat -> (VTIME K < 19)%nat -> VMIN K <> VTIME K ->
    let r := relay_terminal K ENOTTY werr stdin stdout set_fails None w frames rerr in
    rr_after r = stdin
    /\ (forall old e, stdin = Some (Some old) -> set_fails = Some e ->
          rr_during r = stdin /\ rr_result r = (Some (Wrap "set raw terminal: " e), None))
    /\ (forall old, stdin = Some (Some old) -> set_fails = None -> length (Cc old) = 19%nat ->
          exists raw, rr_during r = Some (Some raw)
            /\ Forall (fun bit => Z.land (Lflag raw) bit = 0) [ECHO K; ECHONL K; ICANON K; ISIG K; IEXTEN K]
            /\ Forall (fun bit => Z.land (Iflag raw) bit = 0)
                 [IGNBRK K; BRKINT K; PARMRK K; ISTRIP K; INLCR K; IGNCR K; ICRNL K; IXON K]
            /\ Z.land (Oflag raw) (OPOST K) = 0 /\ Z.land (Cflag raw) (CS8 K) = CS8 K
            /\ Cc raw !! VMIN K = Some 1 /\ Cc raw !! VTIME K = Some 0
            /\ (forall i, i <> VMIN K -> i <> VTIME K -> Cc raw !! i = Cc old !! i)
            /\ forall n, Z.testbit (OPOST K) n = false -> Z.testbit (Oflag raw) n = Z.testbit (Oflag old) n).
Proof.
  intros K ENOTTY W HW w werr stdin stdout set_fails frames rerr Hmin Htime Hne r. subst r.
  unfold relay_terminal. destruct (readLoop _ _ _ _) as [w1 e1] eqn:El.
  destruct stdin as [[old|]|].
  - change (isTerminal (Some old)) with true. cbn [makeRaw].
    destruct set_fails as [e|]; cbn [IoctlSetTermios]; split_and!; try done.
    + intros old0 e0 [= <-] [= <-]. done.
    + intros old0 [= <-] _ Hlen. exists (raw_mode K old). split; [done|].
      cbn [raw_mode Lflag Iflag Oflag Cflag Cc]. split_and!.
      * rewrite Forall_forall. intros bit Hb. by apply land_ldiff, land_lor_all.
      * rewrite Forall_forall. intros bit Hb. by apply land_ldiff, land_lor_all.
      * apply land_ldiff, Z.land_diag.
      * apply Z.bits_inj'. intros n _. rewrite Z.land_spec, Z.lor_spec. by destruct (Z.testbit (CS8 K) n), (Z.testbit _ n).
      * rewrite list_lookup_insert_ne by done. apply list_lookup_insert_eq. lia.
      * apply list_lookup_insert_eq. rewrite length_insert. lia.
      * intros i H1 H2. by rewrite !list_lookup_insert_ne.
      * intros n. apply testbit_ldiff_other.
  - cbn. by split_and!.
  - cbn. by split_and!.
Qed.

Lemma relay_restores_terminal_witness :
  rr_after (relay_terminal linux (Plain "ENOTTY") (Plain "w") (Some (Some cooked)) (Some (Some cooked)) None None ""
    [BinaryMessage "hello"] EOF) = Some (Some cooked).
Proof.
  refine (proj1 (relay_restores_terminal linux (Plain "ENOTTY") string "" (Plain "w") (Some (Some cooked))
    (Some (Some cooked)) None [BinaryMessage "hello"] EOF _ _ _)); cbn; lia.
Defined.

(** Hidden input: the line that is read without echo is what the keys before the
    line end come to when erasing keys take back what precedes them; during the
    reads only the echo is off, and afterwards the terminal is as before.  Two
    limits: an erasing key takes back a byte, not a character; and at the end of
    input, where a read gives no byte and no error, the loop never returns. *)
Theorem hidden_input_edits :
  forall K ENOTTY old keys line_end rest,
    Forall (fun k => match k with Typed c => text_byte c = true | _ => True end) keys ->
    line_end = chr 10 \/ line_end = chr 13 ->
    let reads := map read_key keys ++ (Some line_end, None) :: rest in
    (exists s, yields keys s
       /\ readPassword K ENOTTY None None reads (Some old)
          = (Some (hidden_mode K old), Some (Some old, Ok s)))
    /\ Z.land (Lflag (hidden_mode K old)) (ECHO K) = 0
    /\ (exists c1 c2 s, valid_utf8 (String c1 (String c2 "")) = true /\ valid_utf8 s = false
          /\ readPassword K ENOTTY None None
               (map read_key [Typed c1; Typed c2; Erase false] ++ (Some line_end, None) :: rest) (Some old)
             = (Some (hidden_mode K old), Some (Some old, Ok s)))
    /\ (forall n, snd (readPassword K ENOTTY None None (map read_key keys ++ replicate n (None, None)) (Some old)) = None).
Proof.
  intros K ENOTTY old keys line_end rest HF Hend reads. subst reads.
  assert (forall s r, read_secret ((Some line_end, None) :: r) s = Some (s, None)) as Hline
    by (intros s r; by destruct Hend as [-> | ->]).
  split_and!.
  - destruct (read_secret_keys [] keys ((Some line_end, None) :: rest) "" HF yields_nil) as (s & Hy & Hr).
    exists s. split; [exact Hy|]. cbn [readPassword IoctlSetTermios]. by rewrite Hr, Hline.
  - apply land_ldiff, Z.land_diag.
  - exists (chr 195), (chr 169), (String (chr 195) ""). split_and!; [vm_compute; reflexivity..|].
    cbn [readPassword IoctlSetTermios map app]. rewrite !read_secret_key by done. by rewrite Hline.
  - intros n. destruct (read_secret_keys [] keys (replicate n (None, None)) "" HF yields_nil) as (s & _ & Hr).
    cbn [readPassword IoctlSetTermios]. rewrite Hr. cbn [snd]. clear Hr HF.
    assert (read_secret (replicate n (None, None)) s = None) as ->; [|done].
    induction n as [|n IH]; [done|]. exact IH.
Qed.

Lemma hidden_input_edits_witness :
  exists s, yields [Typed "a"; Typed "x"; Erase true; Typed "b"] s.
Proof.
  destruct (proj1 (hidden_input_edits linux (Plain "ENOTTY") cooked [Typed "a"; Typed "x"; Erase true; Typed "b"] (chr 13) []
    ltac:(repeat constructor) (or_intror eq_refl))) as (s & H & _).
  exists s. exact H.
Defined.

(** Prompts that read a pipe: a prompt takes the first line, but everything that
    came in the same read goes with it.  Lines that arrive one by one answer one
    prompt after the other and leave the rest of the input for the session; two
    lines that arrive together do not: the second prompt fails although its
    answer was sent, and so does a session whose input arrived with the
    password. *)
Theorem prompts_lose_input :
  (forall line1 line2 rest,
     IndexByte line1 newline_byte = None -> IndexByte line2 newline_byte = None ->
     exists reads,
       promptSecret ((line1 +:+ String newline_byte "", None) :: (line2 +:+ String newline_byte "", None) :: rest)
       = Some (Ok (drop_cr line1), reads)
       /\ promptSecret reads = Some (Ok (drop_cr line2), rest))
  /\ (forall line1 more, IndexByte line1 newline_byte = None ->
        exists reads,
          promptSecret [(line1 +:+ String newline_byte more, None); ("", Some EOF)] = Some (Ok (drop_cr line1), reads)
          /\ promptSecret reads = Some (Err (Plain "password is required"), [])
          /\ copyStdin (fun _ => None) reads = ([], Some None)).
Proof.
  split.
  - intros line1 line2 rest H1 H2. unfold promptSecret. rewrite Scan_line by done. eexists. split; [reflexivity|].
    cbn [snd]. by rewrite Scan_line.
  - intros line1 more H1. unfold promptSecret. rewrite Scan_line by done. eexists. split; [reflexivity|]. by split.
Qed.

Lemma prompts_lose_input_witness :
  exists reads, promptSecret [("web-secret" +:+ String newline_byte ("key-secret" +:+ String newline_byte ""), None);
                              ("", Some EOF)] = Some (Ok "web-secret", reads)
    /\ promptSecret reads = Some (Err (Plain "password is required"), []).
Proof.
  destruct (proj2 prompts_lose_input "web-secret" ("key-secret" +:+ String newline_byte "") eq_refl) as (reads & H1 & H2 & _).
  exists reads. split; [exact H1|exact H2].
Defined.

(** The Windows console comes back too: if the console accepts the modes it has,
    and reports its code pages, then after [makeRaw] and the function it returns
    it is as it was, whatever it refused in between; and a [makeRaw] that fails
    has changed nothing. *)
Theorem console_restored :
  forall K in_ok out_ok no_console refused w,
    (forall m, in_mode w = Some m -> in_ok m = true) -> (forall m, out_mode w = Some m -> out_ok m = true) ->
    out_cp w <> 0 -> in_cp w <> 0 ->
    match win_makeRaw K in_ok out_ok no_console refused w with
    | (w', Ok before) => win_restore in_ok out_ok before w' = w /\ out_cp w' = utf8CodePage /\ in_cp w' = utf8CodePage
    | (w', Err _) => w' = w
    end.
Proof.
  intros K in_ok out_ok no_console refused [im om oc ic] Hin Hout Hoc Hic. cbn [in_mode out_mode out_cp in_cp] in *.
  unfold win_makeRaw, win_restore. cbn [in_mode out_mode out_cp in_cp].
  assert ((oc =? 0) = false /\ (ic =? 0) = false) as [Eo Ei] by (split; by apply Z.eqb_neq).
  destruct im as [m|]; [|done]. specialize (Hin m eq_refl).
  unfold set_in, set_out. cbn [in_mode out_mode out_cp in_cp].
  destruct om as [o|]; [specialize (Hout o eq_refl)|];
    repeat (case_match; cbn [negb fst in_mode out_mode out_cp in_cp set_in_cp set_out_cp] in *; simplify_eq;
      rewrite ?Eo, ?Ei, ?Hin, ?Hout in *); cbn; rewrite ?Eo, ?Ei, ?Hin, ?Hout; done.
Qed.

Lemma console_restored_witness :
  let w := mkWin (Some 503) (Some 3) 437 437 in
  let K := mkConsole 4 2 1 16 128 512 1 2 4 in
  let in_ok m := negb (Z.testbit m 9) in let out_ok m := negb (Z.testbit m 2) in
  exists w', win_makeRaw K in_ok out_ok EOF EOF w = (w', Ok w) /\ win_restore in_ok out_ok w w' = w.
Proof.
  intros w K in_ok out_ok. exists (mkWin (Some 480) (Some 3) 65001 65001). split; [vm_compute; reflexivity|].
  pose proof (console_restored K in_ok out_ok EOF EOF w ltac:(intros m [= <-]; vm_compute; reflexivity)
    ltac:(intros m [= <-]; vm_compute; reflexivity) ltac:(vm_compute; discriminate) ltac:(vm_compute; discriminate)) as H.
  assert (win_makeRaw K in_ok out_ok EOF EOF w = (mkWin (Some 480) (Some 3) 65001 65001, Ok w)) as Hr by (vm_compute; reflexivity).
  rewrite Hr in H. apply H.
Defined.

(** ** The window *)

(** A number of at most three digits. *)
Lemma short_number n : 0 <= n < 501 -> len (Itoa n) <= 3.
Proof.
  intros Hn. assert (forallb (fun n => len (Itoa n) <=? 3) (seqZ 0 501) = true) as H by (vm_compute; reflexivity).
  rewrite forallb_forall in H. apply Z.leb_le, H, list_elem_of_In, elem_of_seqZ. lia.
Qed.

Lemma resize_message_length c r :
  0 <= c < 501 -> 0 <= r < 501 ->
  len (EncodeMessage "resize" (Some (enc_ResizeData (mkResizeData c r)))) <= 52.
Proof.
  intros Hc%short_number Hr%short_number.
  assert (EncodeMessage "resize" (Some (enc_ResizeData (mkResizeData c r)))
          = q "{'type':'resize','data':{'cols':" +:+ (Itoa c +:+ (q ",'rows':" +:+ (Itoa r +:+ "}}")))) as ->.
  { unfold EncodeMessage, enc_Message, enc_ResizeData, enc_int. cbn -[Itoa]. rewrite ?str_app_assoc. reflexivity. }
  rewrite !len_app. change (len (q "{'type':'resize','data':{'cols':")) with 32. change (len (q ",'rows':")) with 8.
  change (len "}}") with 2. lia.
Qed.

Lemma handle_resize stdin_ok cols rows :
  handle_frame stdin_ok (resize_frame cols rows)
  = ([WindowChange (snd (clampSize cols rows)) (fst (clampSize cols rows))], true).
Proof.
  unfold resize_frame. pose proof (clampSize_range cols rows) as [Hc Hr].
  destruct (clampSize cols rows) as [c r]. cbn [fst snd] in Hc, Hr.
  unfold handle_frame. cbn [frame_data fst snd].
  pose proof (resize_message_length c r ltac:(lia) ltac:(lia)) as Hl.
  assert (in_int64 c = true /\ in_int64 r = true) as [Hic Hir]
    by (rewrite !in_int64_spec; unfold int64_min, int64_max; lia).
  rewrite (proj1 (wire_read _ "resize" (enc_ResizeData_clean (mkResizeData c r) Hic Hir) eq_refl)).
  cbn [Type_ Data]. rewrite enc_ResizeData_ok by done. cbn [rd_Cols rd_Rows].
  rewrite (proj2 (Z.ltb_ge _ _)) by (unfold maxInputMsgBytes; lia).
  change ("resize" =?s "input") with false. change ("resize" =?s "resize") with true. cbv iota.
  assert ((r <? 5) || (200 <? r) || (c <? 20) || (500 <? c) = false) as ->; [|done].
  rewrite !orb_false_iff, !Z.ltb_ge. lia.
Qed.

Lemma resize_calls_last last0 ticks :
  last (last0 :: resize_calls last0 ticks) = last (last0 :: omap id ticks).
Proof.
  revert last0; induction ticks as [|[s|] ticks IH]; intros last0; cbn [resize_calls omap list_omap id]; [done| |apply IH].
  case_bool_decide; [subst; rewrite IH|].
  - by destruct (omap id ticks).
  - specialize (IH s). cbn in IH |- *. by rewrite <- IH.
Qed.

(** Consecutive elements differ. *)
Definition no_repeat {A} (l : list A) : Prop := forall i x y, l !! i = Some x -> l !! S i = Some y -> x <> y.

Lemma resize_calls_differ last0 ticks : no_repeat (last0 :: resize_calls last0 ticks).
Proof.
  revert last0; induction ticks as [|[s|] ticks IH]; intros last0; cbn [resize_calls].
  - intros [|i] x y _ Hy; by rewrite ?lookup_nil in Hy.
  - case_bool_decide as Hd; [apply IH|]. intros [|i] x y Hx Hy; [by simplify_eq/=|]. exact (IH s i x y Hx Hy).
  - apply IH.
Qed.

Lemma read_loop_resizes stdin_ok sizes :
  read_loop stdin_ok (map (fun s => resize_frame (fst s) (snd s)) sizes)
  = map (fun s => WindowChange (snd (clampSize (fst s) (snd s))) (fst (clampSize (fst s) (snd s)))) sizes.
Proof.
  induction sizes as [|s sizes IH]; [done|]. cbn [map read_loop]. by rewrite handle_resize, IH.
Qed.

(** Changes of the window reach the shell: the poll of the Windows client calls
    back exactly when the answer differs from the last one, so no two calls in a
    row are for the same size and the last is for the last size the console
    reported; and the message of every call, brought into the limits by the client,
    passes the server's check of the limits and changes the shell's window, even
    for sizes far outside them. *)
Theorem resize_reaches_shell :
  forall stdin_ok first ticks,
    let calls := win_notifyResize first ticks in
    no_repeat (default (0, 0) first :: calls)
    /\ last (default (0, 0) first :: calls) = last (default (0, 0) first :: omap id ticks)
    /\ read_loop stdin_ok (map (fun s => resize_frame (fst s) (snd s)) calls)
       = map (fun s => WindowChange (snd (clampSize (fst s) (snd s))) (fst (clampSize (fst s) (snd s)))) calls
    /\ forall s, s ∈ calls -> 20 <= fst (clampSize (fst s) (snd s)) <= 500 /\ 5 <= snd (clampSize (fst s) (snd s)) <= 200.
Proof.
  intros stdin_ok first ticks calls. subst calls. unfold win_notifyResize. split_and!.
  - apply resize_calls_differ.
  - apply resize_calls_last.
  - apply read_loop_resizes.
  - intros [c r] _. apply clampSize_range.
Qed.

Example resizes_sent :
  win_notifyResize (Some (80, 24)) [Some (80, 24); None; Some (100, 30); Some (100, 30); Some (900, 30)]
  = [(100, 30); (900, 30)].
Proof. reflexivity. Qed.
