(* ===== verification/CliConcurrent.v ===== *)
(** * The goroutines of a client's session (internal/cli/session.go)

    [relay] runs the read loop itself and starts three goroutines: standard
    input to [input] messages, keep-alive, and the messages of a changed window.
    They share the WebSocket under [writeMu], the context and the channel [errc]
    of capacity three; the process goes on when [relay] has returned, without
    waiting for them.

    As in WsConcurrent an event lets one goroutine take its next atomic step,
    with the world's answer at that step.  What the read loop makes of a frame
    is [handleText] and [write_stdout] of CliSession, and that the loop as a
    whole is [readLoop] there is a theorem here. *)

From S2P Require Import Prelude Concurrency GoStrings Json JsonDecode WsProtocol WsHandler Tunnel CliError CliOptions CliTunnel CliSession CliTerm.

(** ** What is shared *)

Inductive CThread : Type := CMain | CStdin | CPing | CResize | Interrupt.

#[global] Instance CThread_eq_dec : EqDecision CThread.
Proof. solve_decision. Defined.

(** What the world answers at a step. *)
Inductive CAnswer : Type :=
| KGo
| KFails (e : cerror)                          (* a read or write of the WebSocket fails *)
| KReads (data : string) (err : option cerror) (* [Stdin.Read] *)
| KReceives (f : Frame)                        (* [conn.ReadMessage] *)
| KTick (millis : Z)                           (* the keep-alive ticker, and the time *)
| KSignal (size : option (option (Z * Z))).    (* the window changed; its size *)

(** [k_sent] are the frames that went out, with the goroutine that sent each;
    after [k_broken] every write fails; [k_open] until [Run] closes the
    WebSocket. *)
Record CShared : Type := mkCShared {
  k_mu : option CThread; k_sent : list (CThread * Frame); k_broken : bool; k_cancelled : bool;
  k_errc : list (option cerror); k_open : bool }.

Definition k_lock m s := mkCShared m (k_sent s) (k_broken s) (k_cancelled s) (k_errc s) (k_open s).
Definition k_send x s := mkCShared (k_mu s) (k_sent s ++ [x]) (k_broken s) (k_cancelled s) (k_errc s) (k_open s).
Definition k_break s := mkCShared (k_mu s) (k_sent s) true (k_cancelled s) (k_errc s) (k_open s).
Definition k_cancel s := mkCShared (k_mu s) (k_sent s) (k_broken s) true (k_errc s) (k_open s).
Definition k_report r s := mkCShared (k_mu s) (k_sent s) (k_broken s) (k_cancelled s) (k_errc s ++ [r]) (k_open s).
Definition k_close s := mkCShared (k_mu s) (k_sent s) (k_broken s) (k_cancelled s) (k_errc s) false.

(** ** [sendJSON] *)

(** Where a write is, and after the call what it answered. *)
Inductive CSend : Type := Writing_at (w : Writing) (err : option cerror).

(** [inr]: the write is over. *)
Definition send_step (me : CThread) (f : Frame) (p : CSend) (a : CAnswer) (s : CShared)
    : option (CShared * (CSend + option cerror)) :=
  match p, a with
  | Writing_at Locking _, KGo =>
      match k_mu s with None => Some (k_lock (Some me) s, inl (Writing_at Sending None)) | Some _ => None end
  | Writing_at Sending _, KGo =>
      if k_broken s || negb (k_open s) then None else Some (k_send (me, f) s, inl (Writing_at Unlocking None))
  | Writing_at Sending _, KFails e => Some (k_break s, inl (Writing_at Unlocking (Some e)))
  | Writing_at Unlocking err, KGo => Some (k_lock None s, inr err)
  | _, _ => None
  end.

Definition start_send : CSend := Writing_at Locking None.

(** What [relay] puts on [errc] for the error of a loop. *)
Definition wrap_relay (what : string) (r : option cerror) : option cerror :=
  match r with
  | Some e => Some (if is_Canceled e then e else Wrap what e)
  | None => None
  end.

(** ** [copyStdin] *)

Inductive SinPc : Type :=
| SinCheck                                     (* [ctx.Err()] *)
| SinRead
| SinSend (p : CSend) (chunk : string) (rerr : option cerror)
| SinReport (r : option cerror)                (* [errc <- err] *)
| SinDone.

(** With the reads that gave bytes so far. *)
Record SinState : Type := mkSin { sin_pc : SinPc; sin_chunks : list string }.

Definition sin_return (r : option cerror) : SinPc := SinReport (wrap_relay "stdin relay: " r).

Definition sin_after (rerr : option cerror) : SinPc :=
  match rerr with
  | None => SinCheck
  | Some e => sin_return (if is_EOF e then None else Some e)
  end.

Definition report_step (r : option cerror) (s : CShared) : option CShared :=
  if (3 <=? length (k_errc s))%nat then None else Some (k_report r s).

Definition sin_step (a : CAnswer) (s : CShared) (p : SinState) : option (CShared * SinState) :=
  let goto pc := mkSin pc (sin_chunks p) in
  match sin_pc p, a with
  | SinCheck, KGo => Some (s, goto (if k_cancelled s then sin_return (Some Canceled) else SinRead))
  | SinRead, KReads data err =>
      if maxInputBytes <? len data then None
      else if 0 <? len data then Some (s, mkSin (SinSend start_send data err) (sin_chunks p ++ [data]))
      else Some (s, goto (sin_after err))
  | SinSend q chunk err, _ =>
      '(s', r) ← send_step CStdin (stdin_frame chunk) q a s;
      Some (s', goto match r with
                     | inl q' => SinSend q' chunk err
                     | inr (Some sendErr) => sin_return (Some sendErr)
                     | inr None => sin_after err
                     end)
  | SinReport r, KGo => s' ← report_step r s; Some (s', goto SinDone)
  | _, _ => None
  end.

(** ** [keepAlive] *)

Inductive KeepPc : Type :=
| KeepSelect
| KeepSend (p : CSend) (f : Frame)
| KeepReport (r : option cerror)
| KeepDone.

Definition keep_return (e : cerror) : KeepPc := KeepReport (wrap_relay "keepalive: " (Some e)).

Definition keep_step (a : CAnswer) (s : CShared) (p : KeepPc) : option (CShared * KeepPc) :=
  match p, a with
  | KeepSelect, KGo => if k_cancelled s then Some (s, keep_return Canceled) else None
  | KeepSelect, KTick millis =>
      Some (s, match ping_frame millis with Ok f => KeepSend start_send f | Err e => keep_return e end)
  | KeepSend q f, _ =>
      '(s', r) ← send_step CPing f q a s;
      Some (s', match r with
                | inl q' => KeepSend q' f
                | inr (Some sendErr) => keep_return sendErr
                | inr None => KeepSelect
                end)
  | KeepReport r, KGo => s' ← report_step r s; Some (s', KeepDone)
  | _, _ => None
  end.

(** ** [notifyResize] with the callback of [relay] *)

Inductive ResizePc : Type :=
| RzSelect
| RzSend (p : CSend) (f : Frame)
| RzDone.

Definition resize_step (a : CAnswer) (s : CShared) (p : ResizePc) : option (CShared * ResizePc) :=
  match p, a with
  | RzSelect, KGo => if k_cancelled s then Some (s, RzDone) else None
  | RzSelect, KSignal size =>
      Some (s, match resize_message size with Some f => RzSend start_send f | None => RzSelect end)
  | RzSend q f, _ =>
      '(s', r) ← send_step CResize f q a s;
      Some (s', match r with inl q' => RzSend q' f | inr _ => RzSelect end)
  | _, _ => None
  end.

(** ** [readLoop], the end of [relay], and the deferred close of [Run]

    An error of the WebSocket is none of the client's own [RemoteExit] values. *)

Section Client.

Context {W : Type} `{Writer W} (werr : cerror).

(** One turn of the read loop. *)
Definition read_frame (w : W) (f : Frame) : W * option cerror :=
  match f with
  | BinaryMessage data => write_stdout werr w data
  | TextMessage data => handleText werr w data
  | OtherMessage => (w, None)
  end.

Inductive MnPc : Type :=
| MnCheck                                      (* [ctx.Err()] *)
| MnRead
| MnCancel (e : cerror)                        (* the loop returned [e]; [cancel()] *)
| MnReturn (r : option cerror * option string) (* what [relay] returns and the notice it printed *)
| MnDone (r : option cerror * option string).

(** With standard output and the frames received so far. *)
Record MnState : Type := mkMn { mn_pc : MnPc; mn_out : W; mn_frames : list Frame }.

Definition mn_step (a : CAnswer) (s : CShared) (p : MnState) : option (CShared * MnState) :=
  let goto pc := mkMn pc (mn_out p) (mn_frames p) in
  match mn_pc p, a with
  | MnCheck, KGo => Some (s, goto (if k_cancelled s then MnCancel Canceled else MnRead))
  | MnRead, KReceives f =>
      let (w, err) := read_frame (mn_out p) f in
      Some (s, mkMn (match err with Some e => MnCancel e | None => MnCheck end) w (mn_frames p ++ [f]))
  | MnRead, KFails e =>
      match as_RemoteExit e with None => Some (s, goto (MnCancel e)) | Some _ => None end
  | MnCancel e, KGo => Some (k_cancel s, goto (MnReturn (relay e)))
  | MnReturn r, KGo => Some (k_close s, goto (MnDone r))
  | _, _ => None
  end.

(** ** The client *)

Record CliState : Type := mkCli {
  csh : CShared; mn : MnState; sin : SinState; keep : KeepPc; rsz : ResizePc }.

Definition cli_started (w : W) : CliState :=
  mkCli (mkCShared None [] false false [] true) (mkMn MnCheck w []) (mkSin SinCheck []) KeepSelect RzSelect.

(** [Interrupt]: a signal cancels the context of [main]. *)
Definition cli_step (e : CThread * CAnswer) (r : CliState) : option CliState :=
  let (t, a) := e in
  match t with
  | CMain => '(s, p) ← mn_step a (csh r) (mn r); Some (mkCli s p (sin r) (keep r) (rsz r))
  | CStdin => '(s, p) ← sin_step a (csh r) (sin r); Some (mkCli s (mn r) p (keep r) (rsz r))
  | CPing => '(s, p) ← keep_step a (csh r) (keep r); Some (mkCli s (mn r) (sin r) p (rsz r))
  | CResize => '(s, p) ← resize_step a (csh r) (rsz r); Some (mkCli s (mn r) (sin r) (keep r) p)
  | Interrupt => match a with KGo => Some (mkCli (k_cancel (csh r)) (mn r) (sin r) (keep r) (rsz r)) | _ => None end
  end.

Fixpoint cli_run (es : list (CThread * CAnswer)) (r : CliState) : option CliState :=
  match es with
  | [] => Some r
  | e :: es => r' ← cli_step e r; cli_run es r'
  end.

Definition cli_reachable (w : W) (r : CliState) : Prop := exists es, cli_run es (cli_started w) = Some r.

End Client.

Arguments MnState : clear implicits.
Arguments CliState : clear implicits.

(** ** Lemmas: steps *)

(** A step of a write, by cases. *)
Inductive send_spec (me : CThread) (f : Frame) (s : CShared) : CSend -> CShared -> CSend + option cerror -> Prop :=
| ss_lock err : k_mu s = None ->
    send_spec me f s (Writing_at Locking err) (k_lock (Some me) s) (inl (Writing_at Sending None))
| ss_send err : k_broken s = false -> k_open s = true ->
    send_spec me f s (Writing_at Sending err) (k_send (me, f) s) (inl (Writing_at Unlocking None))
| ss_fail err e : send_spec me f s (Writing_at Sending err) (k_break s) (inl (Writing_at Unlocking (Some e)))
| ss_unlock err : send_spec me f s (Writing_at Unlocking err) (k_lock None s) (inr err).

Lemma send_step_spec me f p a s s' r : send_step me f p a s = Some (s', r) -> send_spec me f s p s' r.
Proof.
  unfold send_step. destruct p as [w err]. intros H. repeat case_match; simplify_eq; try by constructor.
  bool_facts. by constructor.
Qed.

(** Split a step [X] of one goroutine into the cases of the code. *)
Ltac split_cstep X :=
  repeat match type of X with
         | None = Some _ => discriminate X
         | Some _ = Some _ => injection X as <- <-
         | send_step _ _ _ _ _ ≫= _ = Some _ =>
             let S := fresh "S" in
             apply bind_Some in X as ([? ?] & S & X); apply send_step_spec in S; destruct S
         | (?o ≫= _) = Some _ => destruct o eqn:?; cbn [mbind option_bind] in X
         | context [match ?y with _ => _ end] => destruct y eqn:?
         end.

(** The cases of a step of the client. *)
Ltac cstep_cases H :=
  match type of H with cli_step _ ?ev ?r = Some _ =>
    destruct ev as [t a], r as [[mu st br ca ec op] [mpc mw mf] [spc sch] kp rz];
    cbn [cli_step] in H;
    destruct t; [apply bind_Some in H as ([s' p'] & H & [= <-]) ..|];
    cbn [csh mn sin keep rsz] in *;
    [unfold mn_step in H|unfold sin_step in H|unfold keep_step in H|unfold resize_step in H|];
    cbn [mn_pc mn_out mn_frames sin_pc sin_chunks k_mu k_sent k_broken k_cancelled k_errc k_open] in H;
    [split_cstep H..|destruct a; try discriminate H; injection H as <-];
    repeat match goal with
           | X : report_step _ _ = Some _ |- _ =>
               unfold report_step in X; cbn [k_errc] in X; destruct (3 <=? _)%nat eqn:?; [discriminate X|injection X as <-]
           end
  end.

(** ** Lemmas: the lock and the channel *)

Definition csend_holds (p : CSend) : bool := let (w, _) := p in mid_write w.

Definition c_holds {W} (r : CliState W) (t : CThread) : bool :=
  match t with
  | CStdin => match sin_pc (sin r) with SinSend p _ _ => csend_holds p | _ => false end
  | CPing => match keep r with KeepSend p _ => csend_holds p | _ => false end
  | CResize => match rsz r with RzSend p _ => csend_holds p | _ => false end
  | CMain | Interrupt => false
  end.

Definition c_lock_inv {W} (r : CliState W) : Prop := forall t, c_holds r t = true <-> k_mu (csh r) = Some t.

(** Each of the two loops reports once. *)
Definition reported {W} (r : CliState W) : nat :=
  ((match sin_pc (sin r) with SinDone => 1 | _ => 0 end) + match keep r with KeepDone => 1 | _ => 0 end)%nat.

(** ** Lemmas: what was sent *)

Definition sent_by (t : CThread) (l : list (CThread * Frame)) : list Frame :=
  omap (fun x => if decide (fst x = t) then Some (snd x) else None) l.

Lemma sent_by_add t l u f : sent_by t (l ++ [(u, f)]) = sent_by t l ++ (if decide (u = t) then [f] else []).
Proof. unfold sent_by. rewrite omap_app. f_equal. cbn. by destruct (decide (u = t)). Qed.

(** A chunk that was read and is not sent yet. *)
Definition sin_hand (p : SinPc) : list string :=
  match p with
  | SinSend (Writing_at Unlocking _) _ _ => []
  | SinSend _ chunk _ => [chunk]
  | _ => []
  end.

(** What the other goroutines send. *)
Definition sent_ok (x : CThread * Frame) : Prop :=
  match fst x with
  | CStdin => exists chunk, snd x = stdin_frame chunk
  | CPing => exists millis, ping_frame millis = Ok (snd x)
  | CResize => exists size, resize_message size = Some (snd x)
  | CMain | Interrupt => False
  end.

Section Inv.

Context {W : Type} `{Writer W} (werr : cerror) (w0 : W).

Record stdin_inv (s : CShared) (p : SinState) : Prop := {
  si_prefix : sent_by CStdin (k_sent s) `prefix_of` map stdin_frame (sin_chunks p);
  si_sync : k_broken s = false -> sent_by CStdin (k_sent s) ++ map stdin_frame (sin_hand (sin_pc p))
                                  = map stdin_frame (sin_chunks p) }.

Record sent_inv (r : CliState W) : Prop := {
  sn_sent : Forall sent_ok (k_sent (csh r));
  sn_keep : forall p f, keep r = KeepSend p f -> sent_ok (CPing, f);
  sn_rsz : forall p f, rsz r = RzSend p f -> sent_ok (CResize, f) }.

(** [readLoop] over the frames ends with [e]; the error of a read is no
    [RemoteExit]. *)
Definition ended (frames : list Frame) (w : W) (e : cerror) : Prop :=
  exists rerr, as_RemoteExit rerr = None /\ readLoop werr w0 frames rerr = (w, e).

(** The read loop so far, as [readLoop] would run. *)
Definition mn_sim (p : MnState W) : Prop :=
  match mn_pc p with
  | MnCheck | MnRead =>
      forall rest rerr, readLoop werr w0 (mn_frames p ++ rest) rerr = readLoop werr (mn_out p) rest rerr
  | MnCancel e => ended (mn_frames p) (mn_out p) e
  | MnReturn r | MnDone r => exists e, r = relay e /\ ended (mn_frames p) (mn_out p) e
  end.

Record cli_inv (r : CliState W) : Prop := {
  ci_lock : c_lock_inv r;
  ci_errc : length (k_errc (csh r)) = reported r;
  ci_stdin : stdin_inv (csh r) (sin r);
  ci_sent : sent_inv r;
  ci_sim : mn_sim (mn r);
  ci_open : k_open (csh r) = match mn_pc (mn r) with MnDone _ => false | _ => true end;
  ci_cancel : match mn_pc (mn r) with MnReturn _ | MnDone _ => k_cancelled (csh r) = true | _ => True end }.

Lemma cli_step_lock e r r' : c_lock_inv r -> cli_step werr e r = Some r' -> c_lock_inv r'.
Proof.
  intros Hmu Hs. refine (lock_update (fst e) (c_holds r) (c_holds r') _ _ Hmu _ _); clear Hmu.
  - cstep_cases Hs; by intros [].
  - cstep_cases Hs; cbn in *; simplify_eq; auto;
      unfold sin_return, sin_after, keep_return; repeat case_match; simplify_eq; cbn; auto.
Qed.

Lemma cli_step_errc e r r' :
  length (k_errc (csh r)) = reported r -> cli_step werr e r = Some r' -> length (k_errc (csh r')) = reported r'.
Proof.
  unfold reported. intros Hl Hs. cstep_cases Hs; cbn in *; simplify_eq; try done;
    unfold report_step, sin_return, sin_after, keep_return in *; repeat case_match; simplify_eq; cbn; rewrite ?length_app; cbn; try done; lia.
Qed.

Lemma cli_step_stdin e r r' :
  stdin_inv (csh r) (sin r) -> cli_step werr e r = Some r' -> stdin_inv (csh r') (sin r').
Proof.
  intros [H1 H2] Hs. cstep_cases Hs; constructor; cbn -[sent_by] in *; simplify_eq; try done.
  all: unfold report_step, sin_return, sin_after in *; repeat case_match; simplify_eq; cbn -[sent_by] in *; try done.
  all: rewrite ?sent_by_add, ?map_app, ?decide_True by done; rewrite ?decide_False, ?app_nil_r in * by done; try done.
  - by apply prefix_app_r.
  - intros Hb. by rewrite <- (H2 Hb).
  - rewrite <- H2 by done. by apply prefix_app.
Qed.

Lemma cli_step_sent e r r' : sent_inv r -> cli_step werr e r = Some r' -> sent_inv r'.
Proof.
  intros [H1 H2 H3] Hs. cstep_cases Hs; constructor; cbn in *; intros; simplify_eq; try done; eauto.
  all: repeat case_match; simplify_eq; eauto; (rewrite Forall_app, Forall_singleton; split; [done|cbn; eauto]).
Qed.

Lemma read_frame_loop w f rest rerr :
  readLoop werr w (f :: rest) rerr
  = let (w', err) := read_frame werr w f in
    match err with Some e => (w', e) | None => readLoop werr w' rest rerr end.
Proof. reflexivity. Qed.

Lemma cli_step_sim e r r' : mn_sim (mn r) -> cli_step werr e r = Some r' -> mn_sim (mn r').
Proof.
  intros Hi Hs. cstep_cases Hs; try exact Hi; unfold mn_sim in *; cbn in *; simplify_eq.
  - destruct ca; [|done]. specialize (Hi [] Canceled). rewrite app_nil_r in Hi. by exists Canceled.
  - specialize (Hi [] e). rewrite app_nil_r in Hi. by exists e.
  - destruct o as [e|].
    + exists EOF. split; [done|]. rewrite Hi, read_frame_loop. by rewrite Heqp.
    + intros rest rerr. rewrite <- app_assoc, Hi. cbn [app]. rewrite read_frame_loop. by rewrite Heqp.
  - by exists e.
Qed.

Lemma cli_started_inv : cli_inv (cli_started w0).
Proof.
  constructor; try done. by intros [].
Qed.

Lemma cli_step_inv e r r' : cli_inv r -> cli_step werr e r = Some r' -> cli_inv r'.
Proof.
  intros [H1 H2 H3 H4 H5 H6 H7] Hs.
  constructor; eauto using cli_step_lock, cli_step_errc, cli_step_stdin, cli_step_sent, cli_step_sim.
  - clear -H6 Hs. cstep_cases Hs; cbn in *; try done. 2: by destruct o. by destruct ca.
  - clear -H7 Hs. cstep_cases Hs; cbn in *; try done. all: try by destruct o. by destruct ca. by destruct mpc.
Qed.

Lemma cli_run_inv es r r' : cli_inv r -> cli_run werr es r = Some r' -> cli_inv r'.
Proof.
  revert r; induction es as [|e es IH]; intros r Hi Hs; cbn [cli_run] in Hs; [by simplify_eq|].
  apply bind_Some in Hs as (r1 & H1 & Hs). eauto using cli_step_inv.
Qed.

Lemma client_inv r : cli_reachable werr w0 r -> cli_inv r.
Proof. intros [es Hs]. eapply cli_run_inv, Hs. apply cli_started_inv. Qed.

End Inv.

(** ** Properties *)

(** C27.  The goroutines of a client's session: at every moment at most one is
    writing on the WebSocket; standard input goes out chunk by chunk in order;
    the two loops never wait for room in [errc]; [relay] has the result that
    [readLoop] and [relay] of CliSession give for the frames received, and is
    never held up by the other goroutines: when reading fails it returns, with
    the context cancelled.  But a cancelled context alone does not end it: while
    the read loop waits for a frame, only a frame or a failed read moves it. *)
Theorem client_session :
  forall W (HW : Writer W) werr (w0 : W) r, cli_reachable werr w0 r ->
    (forall t t', c_holds r t = true -> c_holds r t' = true -> t = t')
    /\ sent_by CStdin (k_sent (csh r)) `prefix_of` map stdin_frame (sin_chunks (sin r))
    /\ (forall e, sin_pc (sin r) = SinReport e -> is_Some (cli_step werr (CStdin, KGo) r))
    /\ (forall e, keep r = KeepReport e -> is_Some (cli_step werr (CPing, KGo) r))
    /\ (forall res, mn_pc (mn r) = MnDone res ->
          k_cancelled (csh r) = true /\ exists e rerr, res = relay e
            /\ readLoop werr w0 (mn_frames (mn r)) rerr = (mn_out (mn r), e))
    /\ (exists es r' res, Forall (fun e => fst e = CMain) es /\ cli_run werr es r = Some r' /\ mn_pc (mn r') = MnDone res)
    /\ (mn_pc (mn r) = MnRead -> forall e r', cli_step werr e r = Some r' ->
          mn_pc (mn r') = MnRead \/ (exists f, e = (CMain, KReceives f)) \/ exists x, e = (CMain, KFails x)).
Proof.
  intros W HW werr w0 r Hr. destruct (client_inv werr w0 r Hr) as [Hl He [Hp _] _ Hsim _ Hca]. split_and!.
  - intros t t' H1 H2. apply Hl in H1, H2. congruence.
  - exact Hp.
  - intros e Hpc. assert (length (k_errc (csh r)) <= 2)%nat as Hle by (rewrite He; unfold reported; rewrite Hpc; by destruct (keep r); lia).
    cbn [cli_step]. unfold sin_step. rewrite Hpc. unfold report_step. rewrite (proj2 (Nat.leb_gt _ _)) by lia. by eexists.
  - intros e Hpc. assert (length (k_errc (csh r)) <= 2)%nat as Hle by (rewrite He; unfold reported; rewrite Hpc; destruct (sin_pc (sin r)); lia).
    cbn [cli_step]. unfold keep_step. rewrite Hpc. unfold report_step. rewrite (proj2 (Nat.leb_gt _ _)) by lia. by eexists.
  - intros res Hpc. unfold mn_sim in Hsim. rewrite Hpc in *. destruct Hsim as (e & -> & rerr & _ & H). split; [done|by exists e, rerr].
  - clear. destruct r as [s [pc w fs] si kp rz].
    assert (forall es, (exists r' res, cli_run werr (map (pair CMain) es) (mkCli s (mkMn pc w fs) si kp rz) = Some r'
                        /\ mn_pc (mn r') = MnDone res) ->
            exists es r' res, Forall (fun e => fst e = CMain) es /\ cli_run werr es (mkCli s (mkMn pc w fs) si kp rz) = Some r'
                        /\ mn_pc (mn r') = MnDone res) as Hrun.
    { intros es (r' & res & H1 & H2). exists (map (pair CMain) es), r', res. split; [|done].
      apply Forall_forall. intros e (a & -> & _)%list_elem_of_fmap. done. }
    destruct pc as [| |e|r|r].
    + destruct (k_cancelled s) eqn:E; [apply (Hrun [KGo; KGo; KGo])|apply (Hrun [KGo; KFails EOF; KGo; KGo])];
        cbn; rewrite E; cbn; by eexists _, _.
    + apply (Hrun [KFails EOF; KGo; KGo]). by eexists _, _.
    + apply (Hrun [KGo; KGo]). by eexists _, _.
    + apply (Hrun [KGo]). by eexists _, _.
    + apply (Hrun []). by eexists _, _.
  - clear. intros Hpc e r' Hs. cstep_cases Hs; cbn in *; simplify_eq; auto; right; eauto.
Qed.

(** A signal while the client waits for a frame. *)
Lemma client_session_witness :
  exists r, cli_run (Plain "closed") [(CMain, KGo); (Interrupt, KGo)] (cli_started "") = Some r
    /\ k_cancelled (csh r) = true
    /\ forall e r', cli_step (Plain "closed") e r = Some r' ->
         mn_pc (mn r') = MnRead \/ (exists f, e = (CMain, KReceives f)) \/ exists x, e = (CMain, KFails x).
Proof.
  eexists. split; [reflexivity|]. split; [reflexivity|].
  apply (client_session string string_writer (Plain "closed") ""); [by exists [(CMain, KGo); (Interrupt, KGo)]|reflexivity].
Defined.
