(* ===== verification/SessionSystem.v ===== *)
(** * A session with both its ends

    The goroutines of the server (WsConcurrent) and of the client
    (CliConcurrent) as one system: a frame that the client sent is later
    received by the server's read loop, and a message of the server by the
    client's, each direction in order.  Between them any goroutine of either
    side may move at any time.  The theorems hold for every schedule and say
    what a user sees of the shell and the shell of the user. *)

From S2P Require Import Prelude Concurrency GoStrings GoTime Json JsonDecode GoFloat Binary64 WsProtocol WsHandler Tunnel Metrics WsConcurrent WsTeardown WsMessages CliError CliTunnel CliSession CliTerm CliConcurrent.

(** ** The system *)

Inductive SysEvent : Type :=
| OnServer (e : Thread * Choice)
| OnClient (e : CThread * CAnswer)
| Upstream                                     (* the server receives the client's next frame *)
| Downstream.                                  (* the client receives the server's next message *)

Section System.

Context {W : Type} `{Writer W} (werr : cerror).

(** With the frames and messages received so far. *)
Record System : Type := mkSystem { srv : SessState; cli : CliState W; up : nat; down : nat }.

Definition sys_step (ev : SysEvent) (y : System) : option System :=
  match ev with
  | OnServer (Reader, Receives _) | OnClient (CMain, KReceives _) => None
  | OnServer e => s ← step e (srv y); Some (mkSystem s (cli y) (up y) (down y))
  | OnClient e => c ← cli_step werr e (cli y); Some (mkSystem (srv y) c (up y) (down y))
  | Upstream =>
      x ← k_sent (csh (cli y)) !! up y; s ← step (Reader, Receives (snd x)) (srv y);
      Some (mkSystem s (cli y) (S (up y)) (down y))
  | Downstream =>
      f ← wire (sh (srv y)) !! down y; c ← cli_step werr (CMain, KReceives (frame_of f)) (cli y);
      Some (mkSystem (srv y) c (up y) (S (down y)))
  end.

Fixpoint sys_run (es : list SysEvent) (y : System) : option System :=
  match es with
  | [] => Some y
  | e :: es => y' ← sys_step e y; sys_run es y'
  end.

(** After the handshake; [w] is the client's standard output. *)
Definition sys_started (w : W) : System := mkSystem started (cli_started w) 0 0.

End System.

Arguments System : clear implicits.

(** A schedule whose answers are values of the machine's types. *)
Definition event_ok (ev : SysEvent) : Prop :=
  match ev with OnServer (_, c) => choice_ok c | _ => True end.

(** The shell ended with [x]. *)
Definition exited (es : list SysEvent) (x : ShellExit) : Prop := OnServer (Waiter, Exits x) ∈ es.

(** ** Lemmas: what the client makes of messages *)

Definition output_data (f : Written) : option string := match f with WOutput _ data => Some data | _ => None end.
Definition printed (fs : list Written) : list string := omap output_data fs.

Lemma json_frame_ignored {W} `{Writer W} werr (w : W) typ v :
  valid_utf8 typ = true -> (typ =?s "output") = false -> (typ =?s "error") = false -> (typ =?s "closed") = false ->
  (forall x, v = Some x -> wire_clean x) ->
  read_frame werr w (json_frame typ v) = (w, None).
Proof.
  intros Hu H1 H2 H3 Hv. unfold json_frame, read_frame, handleText. destruct v as [x|]; [|by vm_compute].
  rewrite (proj1 (proj2 (wire_read x typ (Hv x eq_refl) Hu))). cbn [Type_]. by rewrite H1, H2, H3.
Qed.

Lemma enc_float_clean f v : valid_float f = true -> enc_float f = Some v -> wire_clean v.
Proof.
  intros Hf Hv. destruct (enc_float_number f v) as (lit & -> & Hn); [by destruct f|done|].
  split_and!; [exact Hn|done|]. cbn. unfold maxNestingDepth. lia.
Qed.

(** The end of the read loop at a closing or error message. *)
Definition ends_with (exits : ShellExit -> Prop) (e : cerror) : Prop :=
  (exists text, e = Plain text) \/ e = RemoteExit 0 "client disconnected"
  \/ exists x, exits x /\ e = RemoteExit (default 0 (exit_status x)) "ssh session closed".

Lemma read_message {W} `{Writer W} werr (w : W) exits f :
  full_writes W -> message_ok exits f -> (forall code, exits (ExitStatus code) -> in_int64 code = true) ->
  exists w' err, read_frame werr w (frame_of f) = (w', err)
    /\ (exists tail, accepted w' +:+ tail = accepted w +:+ default "" (output_data f)
                     /\ (err = None -> tail = ""))
    /\ forall e, err = Some e -> e = Wrap "stdout: " werr \/ ends_with exits e.
Proof.
  intros Hfull Hm Hx. destruct f as [v|t|d|src data]; cbn [frame_of output_data default from_option].
  - destruct Hm as [(msg & -> & Hu)|[->|(x & Hin & ->)]]; unfold closed_json.
    + unfold read_frame, handleText, error_json. assert (wire_clean (enc_ErrorData (mkErrorData "BAD_REQUEST" msg))) as Hc.
      { apply wire_clean_obj. cbn [forallb snd fst clean_member]. unfold clean_member. cbn [snd fst ed_Code ed_Message].
        by rewrite Hu. }
      rewrite (proj1 (proj2 (wire_read _ "error" Hc eq_refl))). cbn [Type_ Data].
      change ("error" =?s "output") with false. change ("error" =?s "error") with true. cbv iota.
      eexists w, _. split; [reflexivity|]. split; [exists ""; by rewrite !str_app_nil_r|].
      intros e [= <-]. right. left. unfold server_error. destruct (_ =?s ""); by eexists.
    + unfold read_frame. rewrite handleText_closed by done. eexists w, _. split; [reflexivity|].
      split; [exists ""; by rewrite !str_app_nil_r|]. intros e [= <-]. right. right. by left.
    + unfold read_frame. rewrite handleText_closed; [|done|intros n Hn; destruct x as [|code|]; cbn in Hn; simplify_eq; auto].
      eexists w, _. split; [reflexivity|]. split; [exists ""; by rewrite !str_app_nil_r|].
      intros e [= <-]. right. right. right. by exists x.
  - rewrite json_frame_ignored by (done || by intros; eapply enc_float_clean). eexists w, None. split; [done|].
    split; [exists ""; by rewrite !str_app_nil_r|done].
  - rewrite json_frame_ignored by (done || by intros; eapply enc_MetricsData_clean). eexists w, None. split; [done|].
    split; [exists ""; by rewrite !str_app_nil_r|done].
  - unfold read_frame, write_stdout. destruct (Write w data) as [[w' n] e] eqn:E. eexists w', _. split; [reflexivity|].
    pose proof (Write_accepts _ _ _ _ _ E) as Ha. split.
    + exists (str_drop n data). rewrite Ha, str_app_assoc, str_take_drop. split; [done|].
      destruct e; [done|]. intros _. rewrite (Hfull _ _ _ _ E). clear.
      induction data as [|c d IH]; [done|exact IH].
    + intros e' He. destruct e; simplify_eq. by left.
Qed.

Lemma read_messages {W} `{Writer W} werr exits rerr fs (w w' : W) e :
  full_writes W -> Forall (message_ok exits) fs -> (forall code, exits (ExitStatus code) -> in_int64 code = true) ->
  readLoop werr w (map frame_of fs) rerr = (w', e) ->
  (exists tail, accepted w' +:+ tail = accepted w +:+ concat_str (printed fs))
  /\ (e = rerr /\ accepted w' = accepted w +:+ concat_str (printed fs) \/ e = Wrap "stdout: " werr \/ ends_with exits e).
Proof.
  intros Hfull HF Hx. revert w; induction HF as [|f fs Hm _ IH]; intros w Hl.
  { injection Hl as <- <-. split; [exists ""; by rewrite !str_app_nil_r|left; split; [done|by rewrite str_app_nil_r]]. }
  cbn [map] in Hl. rewrite read_frame_loop in Hl.
  destruct (read_message werr w exits f Hfull Hm Hx) as (w1 & err & Hr & (tail & Ha & Ht) & He). rewrite Hr in Hl.
  assert (concat_str (printed (f :: fs)) = default "" (output_data f) +:+ concat_str (printed fs)) as Hp.
  { unfold printed. cbn [omap list_omap]. by destruct (output_data f). }
  rewrite Hp. destruct err as [e1|].
  - injection Hl as <- <-. split; [|right; by apply He]. exists (tail +:+ concat_str (printed fs)).
    by rewrite <- str_app_assoc, Ha, str_app_assoc.
  - rewrite (Ht eq_refl), str_app_nil_r in Ha. rewrite <- str_app_assoc, <- Ha. by apply IH.
Qed.

(** ** Lemmas: both directions *)

Lemma wire_grows e r r' : step e r = Some r' -> wire (sh r) `prefix_of` wire (sh r').
Proof.
  intros H. step_by_cases H; cbn in *; try done; try (by apply prefix_app_r);
    by repeat match goal with |- context [if ?b then _ else _] => destruct b end.
Qed.

Lemma sent_grows {W} `{Writer W} werr e r r' :
  cli_step werr e r = Some r' -> k_sent (csh r) `prefix_of` k_sent (csh r').
Proof. intros Hs. cstep_cases Hs; cbn in *; try done; by apply prefix_app_r. Qed.

(** Only a received frame moves the client's read loop past a frame. *)
Lemma frames_kept {W} `{Writer W} werr e r r' :
  (forall f, e <> (CMain, KReceives f)) -> cli_step werr e r = Some r' -> mn_frames (mn r') = mn_frames (mn r).
Proof. intros Hne Hs. cstep_cases Hs; cbn in *; try done. by destruct (Hne f). Qed.

Lemma frame_received {W} `{Writer W} werr f r r' :
  cli_step werr (CMain, KReceives f) r = Some r' ->
  mn_frames (mn r') = mn_frames (mn r) ++ [f] /\ k_sent (csh r') = k_sent (csh r).
Proof.
  intros Hs. cbn [cli_step] in Hs. apply bind_Some in Hs as ([s p] & Hs & [= <-]). unfold mn_step in Hs.
  destruct (mn_pc (mn r)); try discriminate Hs. destruct (read_frame werr (mn_out (mn r)) f). by injection Hs as <- <-.
Qed.

Lemma receive_keeps_wire f r r' : step (Reader, Receives f) r = Some r' -> wire (sh r') = wire (sh r).
Proof.
  intros H. cbn [step] in H. destruct (crashed r); [discriminate H|].
  apply bind_Some in H as ([s p] & H & [= <-]). unfold read_step in H.
  destruct (reader r); try discriminate H; [|by destruct w].
  destruct (conn_open (sh r)); [|discriminate H]. destruct (handle_frame _ f) as [es g].
  by apply bind_Some in H as (p' & _ & [= <- <-]).
Qed.

Lemma take_grown {A} n (l l' : list A) : (n <= length l)%nat -> l `prefix_of` l' -> take n l' = take n l.
Proof. intros Hn [k ->]. by apply take_app_le. Qed.

Section Invariant.

Context {W : Type} `{Writer W} (werr : cerror) (w0 : W).

Record sys_inv (exits : ShellExit -> Prop) (y : System W) : Prop := {
  sy_srv : Inv (srv y);
  sy_messages : messages_inv exits (srv y);
  sy_typed : typed_inv (take (up y) (map snd (k_sent (csh (cli y))))) (srv y);
  sy_cli : cli_inv werr w0 (cli y);
  sy_frames : mn_frames (mn (cli y)) = map frame_of (take (down y) (wire (sh (srv y))));
  sy_up : (up y <= length (k_sent (csh (cli y))))%nat;
  sy_down : (down y <= length (wire (sh (srv y))))%nat }.

Lemma sys_started_inv exits : sys_inv exits (sys_started w0).
Proof.
  constructor; cbn; [apply started_inv|apply started_messages|apply started_typed|apply cli_started_inv|done|lia|lia].
Qed.

Lemma server_moves exits e y s :
  (forall f, e <> (Reader, Receives f)) -> (forall x, e = (Waiter, Exits x) -> exits x) -> choice_ok (snd e) ->
  sys_inv exits y -> step e (srv y) = Some s -> sys_inv exits (mkSystem s (cli y) (up y) (down y)).
Proof.
  intros Hne Hx Hc [H1 H2 H3 H4 H5 H6 H7] Hs. pose proof (wire_grows _ _ _ Hs) as Hw.
  constructor; cbn [srv cli up down]; [by eapply session_step_inv|by eapply step_messages| |done| |done|].
  - eapply step_typed; [done|apply H1|done|done].
  - by rewrite (take_grown _ _ _ H7 Hw).
  - apply prefix_length in Hw. lia.
Qed.

Lemma client_moves exits e y c :
  (forall f, e <> (CMain, KReceives f)) ->
  sys_inv exits y -> cli_step werr e (cli y) = Some c -> sys_inv exits (mkSystem (srv y) c (up y) (down y)).
Proof.
  intros Hne [H1 H2 H3 H4 H5 H6 H7] Hs. pose proof (sent_grows _ _ _ _ Hs) as Hw.
  constructor; cbn [srv cli up down]; [done|done| |by eapply cli_step_inv| | |done].
  - rewrite !firstn_map in *. by rewrite (take_grown _ _ _ H6 Hw).
  - by rewrite (frames_kept _ _ _ _ Hne Hs).
  - apply prefix_length in Hw. lia.
Qed.

Lemma sys_step_inv exits ev y y' :
  event_ok ev -> (forall x, ev = OnServer (Waiter, Exits x) -> exits x) ->
  sys_inv exits y -> sys_step werr ev y = Some y' -> sys_inv exits y'.
Proof.
  intros Hok Hx Hi Hs. destruct ev as [[t c]|[t a]| |].
  - assert (exists s, step (t, c) (srv y) = Some s /\ y' = mkSystem s (cli y) (up y) (down y)
              /\ forall f, (t, c) <> (Reader, Receives f)) as (s & H1 & -> & Hne).
    { destruct t, c; try discriminate Hs; apply bind_Some in Hs as (s & Hs & [= <-]); by exists s. }
    eapply server_moves; [done| |done|done|done]. intros x [= -> ->]. by apply Hx.
  - assert (exists s, cli_step werr (t, a) (cli y) = Some s /\ y' = mkSystem (srv y) s (up y) (down y)
              /\ forall f, (t, a) <> (CMain, KReceives f)) as (s & H1 & -> & Hne).
    { destruct t, a; try discriminate Hs; apply bind_Some in Hs as (s & Hs & [= <-]); by exists s. }
    by eapply client_moves.
  - cbn [sys_step] in Hs. apply bind_Some in Hs as ([t f] & Hf & Hs). apply bind_Some in Hs as (s & Hs & [= <-]).
    cbn [snd] in Hs. destruct Hi as [H1 H2 H3 H4 H5 H6 H7]. pose proof (receive_keeps_wire _ _ _ Hs) as Hw.
    constructor; cbn [srv cli up down]; [by eapply session_step_inv|by eapply (step_messages _ (Reader, Receives f))| |done|by rewrite Hw| |by rewrite Hw].
    + erewrite take_S_r; [by eapply step_receives|]. rewrite list_lookup_fmap, Hf. done.
    + apply lookup_lt_Some in Hf. lia.
  - cbn [sys_step] in Hs. apply bind_Some in Hs as (f & Hf & Hs). apply bind_Some in Hs as (c & Hs & [= <-]).
    destruct Hi as [H1 H2 H3 H4 H5 H6 H7]. destruct (frame_received _ _ _ _ Hs) as [Hfr Hse].
    constructor; cbn [srv cli up down]; [done|done|by rewrite Hse|by eapply cli_step_inv| |by rewrite Hse|].
    + rewrite Hfr, H5. erewrite take_S_r by done. by rewrite map_app.
    + apply lookup_lt_Some in Hf. lia.
Qed.

Lemma sys_run_inv exits es y y' :
  Forall event_ok es -> (forall x, exited es x -> exits x) ->
  sys_inv exits y -> sys_run werr es y = Some y' -> sys_inv exits y'.
Proof.
  revert y; induction es as [|e es IH]; intros y Hok Hx Hi Hs; cbn [sys_run] in Hs; [by simplify_eq|].
  apply Forall_cons in Hok as [He Hok]. apply bind_Some in Hs as (y1 & H1 & Hs).
  apply (IH y1); [done| | |done].
  - intros x Hin. apply Hx. by right.
  - eapply sys_step_inv; [done| |done|done]. intros x ->. apply Hx. by left.
Qed.

End Invariant.

(** ** Lemmas: what the shell is given *)

Lemma input_of_stdin chunk : deliverable chunk -> input_of (stdin_frame chunk) = Some (utf8_clean chunk).
Proof. intros [H1 H2]. unfold input_of. by rewrite handle_stdin_frame. Qed.

Lemma input_of_ping millis f : ping_frame millis = Ok f -> input_of f = None.
Proof.
  unfold ping_frame. destruct (enc_float (float_of_Z millis)) as [v|] eqn:Ev; [|done]. intros [= <-].
  apply enc_float_number in Ev as (lit & -> & Hn); [|apply float_of_Z_valid].
  unfold input_of, handle_frame. cbn [frame_data]. destruct (_ <? _); [done|].
  assert (wire_clean (JNum lit)) as Hc by (split_and!; [exact Hn|done|cbn; unfold maxNestingDepth; lia]).
  rewrite (proj1 (wire_read _ "ping" Hc eq_refl)). cbn [Type_ Data].
  change ("ping" =?s "input") with false. change ("ping" =?s "resize") with false. change ("ping" =?s "ping") with true.
  cbv iota. by destruct (unmarshal_raw _ _ _).
Qed.

Lemma input_of_resize size f : resize_message size = Some f -> input_of f = None.
Proof.
  destruct size as [[[cols rows]|]|]; cbn [resize_message]; intros H; simplify_eq. unfold input_of. by rewrite handle_resize.
Qed.

(** Only standard input types. *)
Lemma inputs_of_sent l : Forall sent_ok l -> inputs_of (map snd l) = inputs_of (sent_by CStdin l).
Proof.
  unfold inputs_of, sent_by. induction 1 as [|[t f] l Hx _ IH]; [done|]. cbn [map omap list_omap fst snd].
  destruct t; cbn in Hx; cbn [decide decide_rel CThread_eq_dec CThread_rec CThread_rect].
  - done.
  - rewrite decide_True by done. cbn [omap list_omap]. by rewrite IH.
  - rewrite decide_False by done. destruct Hx as [m Hx]. by rewrite (input_of_ping _ _ Hx).
  - rewrite decide_False by done. destruct Hx as [m Hx]. by rewrite (input_of_resize _ _ Hx).
  - done.
Qed.

Lemma inputs_of_stdin chunks : Forall deliverable chunks -> inputs_of (map stdin_frame chunks) = map utf8_clean chunks.
Proof.
  unfold inputs_of. induction 1 as [|c l Hc _ IH]; [done|]. cbn [map omap list_omap].
  by rewrite input_of_stdin, IH.
Qed.

Lemma inputs_prefix fs gs : fs `prefix_of` gs -> inputs_of fs `prefix_of` inputs_of gs.
Proof. intros [k ->]. rewrite inputs_app. by apply prefix_app_r. Qed.

Lemma take_prefix_of {A} n (l : list A) : take n l `prefix_of` l.
Proof. exists (drop n l). by rewrite take_drop. Qed.

Lemma outputs_prefix src fs gs : fs `prefix_of` gs -> outputs src fs `prefix_of` outputs src gs.
Proof. intros [k ->]. unfold outputs. rewrite omap_app. by apply prefix_app_r. Qed.

(** ** Properties *)

(** Everything that was read from standard input is on its way no more. *)
Definition all_typed {W} (y : System W) : Prop :=
  ssh_open (sh (srv y)) = true /\ reading (reader (srv y)) = true /\ reader_hand (reader (srv y)) = []
  /\ k_broken (csh (cli y)) = false /\ sin_hand (sin_pc (sin (cli y))) = []
  /\ up y = length (k_sent (csh (cli y))).

(** A schedule for the witnesses: the client pings, the user types a line, the
    shell prints one and ends with status 3. *)
Definition session_schedule : list SysEvent :=
  let client t a := OnClient (t, a) in
  let server t c := OnServer (t, c) in
  [client CMain KGo; client CPing (KTick 1700000000000); client CPing KGo; client CPing KGo; client CPing KGo;
   client CStdin KGo; client CStdin (KReads "ls" (Some EOF)); client CStdin KGo; client CStdin KGo; client CStdin KGo;
   Upstream; server Reader Go; server Reader Go; server Reader Go; Downstream; client CMain KGo;
   Upstream; server Reader Go; server Reader Go; server Reader Go; server Reader Go;
   server (Copier Stdout) Go; server (Copier Stdout) (Returns "file" true);
   server (Copier Stdout) Go; server (Copier Stdout) Go; server (Copier Stdout) Go;
   Downstream; client CMain KGo;
   server Waiter Go; server Waiter (Exits (ExitStatus 3)); server Waiter Go;
   server Handler PickShell; server Handler Go; server Handler Go; server Handler Go;
   Downstream; client CMain KGo; client CMain KGo].

Definition sys_after (es : list SysEvent) : System string :=
  default (sys_started "") (sys_run (Plain "closed") es (sys_started "")).

Lemma sys_after_run es : is_Some (sys_run (Plain "closed") es (sys_started "")) ->
  sys_run (Plain "closed") es (sys_started "") = Some (sys_after es).
Proof. intros [y Hs]. unfold sys_after. by rewrite Hs. Qed.

Example session_schedule_result :
  let y := sys_after session_schedule in
  typed (sh (srv y)) = ["ls"] /\ mn_out (mn (cli y)) = "file"
  /\ match mn_pc (mn (cli y)) with MnDone res => fst (exit_of (fst res)) | _ => -1 end = 3.
Proof. vm_compute. repeat split. Qed.

(** C3.  What a user types reaches the shell, in order, under every schedule of
    the goroutines of both ends: at every moment the texts the shell was given
    are the first of the chunks that were read from standard input, each as
    UTF-8, whatever pings and resizes go between; and all of them once nothing
    is on its way.  This holds for chunks that the server's limits admit, the
    text and its message ([deliverable]); one they do not admit ends the session
    (CliSession.stdin_chunk_limits). *)
Theorem typed_in_order :
  forall W (HW : Writer W) werr (w0 : W) es y,
    Forall event_ok es -> sys_run werr es (sys_started w0) = Some y ->
    Forall deliverable (sin_chunks (sin (cli y))) ->
    typed (sh (srv y)) `prefix_of` map utf8_clean (sin_chunks (sin (cli y)))
    /\ (all_typed y -> typed (sh (srv y)) = map utf8_clean (sin_chunks (sin (cli y)))).
Proof.
  intros W HW werr w0 es y Hok Hs Hd.
  destruct (sys_run_inv werr w0 (exited es) es _ y Hok (fun x Hx => Hx) (sys_started_inv werr w0 _) Hs)
    as [_ _ [Ht Hty] [_ _ [Hp Hsy] [Hse _ _] _ _ _] _ _ _].
  pose proof (inputs_of_sent _ Hse) as He. rewrite <- (inputs_of_stdin _ Hd). split.
  - etransitivity; [exact Ht|]. etransitivity; [apply inputs_prefix, take_prefix_of|]. rewrite He. by apply inputs_prefix.
  - intros (H1 & H2 & H3 & H4 & H5 & H6). specialize (Hty H1 H2). specialize (Hsy H4).
    rewrite H3, app_nil_r in Hty. rewrite H5, app_nil_r in Hsy. rewrite Hty, H6, <- Hsy, <- He.
    by rewrite <- (length_map snd), firstn_all.
Qed.

Lemma typed_in_order_witness :
  typed (sh (srv (sys_after (firstn 21 session_schedule)))) = ["ls"].
Proof.
  destruct (typed_in_order string string_writer (Plain "closed") "" (firstn 21 session_schedule)
    (sys_after (firstn 21 session_schedule))) as [_ H].
  - repeat constructor.
  - apply sys_after_run. vm_compute. by eexists.
  - assert (sin_chunks (sin (cli (sys_after (firstn 21 session_schedule)))) = ["ls"]) as -> by (vm_compute; reflexivity).
    constructor; [split; vm_compute; congruence|constructor].
  - etransitivity; [apply H; split_and!; vm_compute; reflexivity|vm_compute; reflexivity].
Defined.

(** C4.  What the shell prints reaches the user, in order: at every moment the
    client has written the output of the messages it received, up to a failed
    write, and all of it while its read loop runs; and these are the first
    chunks that the server read from each of the shell's streams. *)
Theorem shown_in_order :
  forall W (HW : Writer W) werr (w0 : W) es y,
    full_writes W -> Forall event_ok es -> sys_run werr es (sys_started w0) = Some y ->
    let received := take (down y) (wire (sh (srv y))) in
    (exists tail, accepted (mn_out (mn (cli y))) +:+ tail = accepted w0 +:+ concat_str (printed received))
    /\ (mn_pc (mn (cli y)) = MnRead -> accepted (mn_out (mn (cli y))) = accepted w0 +:+ concat_str (printed received))
    /\ outputs Stdout received `prefix_of` cp_read (out (srv y))
    /\ outputs Stderr received `prefix_of` cp_read (err (srv y)).
Proof.
  intros W HW werr w0 es y Hfull Hok Hs received.
  destruct (sys_run_inv werr w0 (exited es) es _ y Hok (fun x Hx => Hx) (sys_started_inv werr w0 _) Hs)
    as [[_ _ _ [[Ho _] [He _] _ _] _] [Hm _ _ _ _ _] _ [_ _ _ _ Hsim _ _] Hfr _ _].
  assert (Forall (message_ok (exited es)) received) as HF by (by apply Forall_take).
  assert (forall code, exited es (ExitStatus code) -> in_int64 code = true) as Hx.
  { intros code Hin. rewrite Forall_forall in Hok. exact (Hok _ Hin). }
  assert (exists rerr e, readLoop werr w0 (map frame_of received) rerr = (mn_out (mn (cli y)), e)
    /\ (mn_pc (mn (cli y)) = MnRead -> rerr = EOF /\ e = EOF)) as (rerr & e & Hl & Hrun).
  { fold received in Hfr. unfold mn_sim in Hsim. rewrite Hfr in Hsim. destruct (mn_pc (mn (cli y))) as [| |e|r|r].
    - exists EOF, EOF. specialize (Hsim [] EOF). by rewrite app_nil_r in Hsim.
    - exists EOF, EOF. specialize (Hsim [] EOF). by rewrite app_nil_r in Hsim.
    - destruct Hsim as (rerr & _ & Hl). by exists rerr, e.
    - destruct Hsim as (e & _ & rerr & _ & Hl). by exists rerr, e.
    - destruct Hsim as (e & _ & rerr & _ & Hl). by exists rerr, e. }
  destruct (read_messages _ (exited es) _ _ _ _ _ Hfull HF Hx Hl) as [Ht He']. split_and!; [exact Ht| | |].
  - intros Hpc. destruct (Hrun Hpc) as [-> ->].
    destruct He' as [[_ ?]|[?|[[? ?]|[?|(? & _ & ?)]]]]; [done|discriminate..].
  - etransitivity; [apply outputs_prefix, take_prefix_of|exact Ho].
  - etransitivity; [apply outputs_prefix, take_prefix_of|exact He].
Qed.

Lemma shown_in_order_witness :
  accepted (mn_out (mn (cli (sys_after (firstn 28 session_schedule))))) = "file".
Proof.
  destruct (shown_in_order string string_writer (Plain "closed") "" (firstn 28 session_schedule)
    (sys_after (firstn 28 session_schedule))) as (_ & H & _).
  - by intros w p w' n [= _ <-].
  - repeat constructor.
  - apply sys_after_run. vm_compute. by eexists.
  - etransitivity; [apply H|]; vm_compute; reflexivity.
Defined.

(** C8.  The client's exit status is the shell's.  A client that has ended read
    an error, when its status is 0 or 1; or the closing message of a client that
    left, with 0; or the closing message of a shell that did end, and then its
    status is the one the shell ended with, or 0 if there was none. *)
Theorem exit_status_true :
  forall W (HW : Writer W) werr (w0 : W) es y res,
    full_writes W -> as_RemoteExit werr = None -> Forall event_ok es ->
    sys_run werr es (sys_started w0) = Some y -> mn_pc (mn (cli y)) = MnDone res ->
    let code := fst (exit_of (fst res)) in
    exists e, res = relay e
      /\ (as_RemoteExit e = None /\ (code = 0 \/ code = 1)
          \/ e = RemoteExit 0 "client disconnected" /\ code = 0
          \/ exists x, exited es x /\ e = RemoteExit (default 0 (exit_status x)) "ssh session closed"
                       /\ code = default 0 (exit_status x)).
Proof.
  intros W HW werr w0 es y res Hfull Hwerr Hok Hs Hpc code.
  destruct (sys_run_inv werr w0 (exited es) es _ y Hok (fun x Hx => Hx) (sys_started_inv werr w0 _) Hs)
    as [_ [Hm _ _ _ _ _] _ [_ _ _ _ Hsim _ _] Hfr _ _].
  assert (Forall (message_ok (exited es)) (take (down y) (wire (sh (srv y))))) as HF by (by apply Forall_take).
  assert (forall code, exited es (ExitStatus code) -> in_int64 code = true) as Hx.
  { intros c Hin. rewrite Forall_forall in Hok. exact (Hok _ Hin). }
  unfold mn_sim in Hsim. rewrite Hfr, Hpc in Hsim. destruct Hsim as (e & -> & rerr & Hr & Hl). subst code.
  exists e. split; [done|].
  assert (as_RemoteExit e = None -> fst (exit_of (fst (relay e))) = 0 \/ fst (exit_of (fst (relay e))) = 1) as Hown.
  { intros He. unfold relay. rewrite He. destruct (_ || _); cbn; auto. }
  destruct (read_messages _ (exited es) _ _ _ _ _ Hfull HF Hx Hl) as [_ [[-> _]|[->|[[text ->]|[->|(x & Hin & ->)]]]]].
  - left. auto.
  - left. assert (as_RemoteExit (Wrap "stdout: " werr) = None) as He by exact Hwerr. auto.
  - left. auto.
  - right. by left.
  - right. right. exists x. split_and!; [done..|]. unfold relay. cbn [as_RemoteExit in_chain].
    destruct (_ =? 0) eqn:E; bool_facts; [by rewrite E|done].
Qed.

Lemma exit_status_true_witness :
  exists x, exited session_schedule x /\ exit_status x = Some 3.
Proof.
  destruct (exit_status_true string string_writer (Plain "closed") "" session_schedule (sys_after session_schedule)
    (Some (RemoteExit 3 "ssh session closed"), None)) as (e & He & [(_ & [H|H])|[(_ & H)|(x & Hx & _ & H)]]).
  - by intros w p w' n [= _ <-].
  - reflexivity.
  - repeat constructor.
  - apply sys_after_run. vm_compute. by eexists.
  - vm_compute. reflexivity.
  - discriminate H.
  - discriminate H.
  - discriminate H.
  - exists x. split; [exact Hx|]. destruct x as [|c|]; cbn in H; [discriminate H|by rewrite H|discriminate H].
Defined.

(** The length of a message around a number. *)
Lemma ping_length lit : len (EncodeMessage "ping" (Some (JNum lit))) = len lit + 23.
Proof.
  assert (EncodeMessage "ping" (Some (JNum lit)) = q "{'type':'ping','data':" +:+ (lit +:+ "}")) as -> by reflexivity.
  rewrite !len_app. change (len (q _)) with 22. change (len "}") with 1. lia.
Qed.

(** C38.  The time in a ping comes back in the pong: the client's milliseconds, as
    a float in JSON, are read by the server as the same float, and what it
    prints into the pong reads as that float again, whose integer value is the
    client's time. *)
Theorem ping_comes_back :
  forall millis stdin_ok, 0 <= millis < 2 ^ 53 ->
    exists f text lit, ping_frame millis = Ok f
      /\ handle_frame stdin_ok f = ([SendPong (float_of_Z millis)], true)
      /\ frame_of (WPong (float_of_Z millis)) = TextMessage text
      /\ DecodeMessage text = Some (mkMessage "pong" (Some (JNum lit)))
      /\ ParseFloatLit lit = Some (float_of_Z millis) /\ int_of_float (float_of_Z millis) = millis.
Proof.
  intros millis stdin_ok Hm.
  assert (valid_float (float_of_Z millis) = true /\ int_of_float (float_of_Z millis) = millis) as [Hv Hi].
  { destruct (decide (millis = 0)) as [->|]; [by split|].
    pose proof (float_of_Z_valid millis) as Hv64. destruct (float_of_Z_exact millis) as (k & p & Hk & Hp & Hf); [lia|].
    rewrite Hf in *. split; [exact Hv64|]. unfold int_of_float, trunc_float.
    rewrite Z.shiftl_opp_r, Z.shiftr_div_pow2, Hp by lia. apply Z.div_mul. lia. }
  destruct (json_float_roundtrip _ Hv) as (lit & Hj & Hn & Hr & Hlen).
  assert (wire_clean (JNum lit)) as Hc by (split_and!; [exact Hn|done|cbn; unfold maxNestingDepth; lia]).
  eexists _, _, lit. split; [unfold ping_frame, enc_float; rewrite Hj; reflexivity|].
  split; [|split; [cbn [frame_of]; unfold json_frame, enc_float; rewrite Hj; reflexivity|]].
  - unfold handle_frame. cbn [frame_data]. rewrite ping_length.
    rewrite (proj2 (Z.ltb_ge _ _)) by (unfold maxInputMsgBytes; lia).
    rewrite (proj1 (wire_read _ "ping" Hc eq_refl)). cbn [Type_ Data].
    change ("ping" =?s "input") with false. change ("ping" =?s "resize") with false. change ("ping" =?s "ping") with true.
    cbv iota. cbn [unmarshal_raw dec_float]. by rewrite Hr.
  - split; [exact (proj1 (proj2 (wire_read _ "pong" Hc eq_refl)))|done].
Qed.

Lemma ping_comes_back_witness :
  exists f, ping_frame 1700000000123 = Ok f
    /\ handle_frame (fun _ => true) f = ([SendPong (float_of_Z 1700000000123)], true).
Proof.
  destruct (ping_comes_back 1700000000123 (fun _ => true)) as (f & _ & _ & H1 & H2 & _); [lia|].
  exists f. split; [exact H1|exact H2].
Defined.
