(* ===== verification/CliTunnelConcurrent.v ===== *)
(** * The goroutines of a client's tunnel (internal/cli/tunnel.go)

    [relayTunnel] starts a goroutine for standard input, one for standard
    output and one that closes the WebSocket when the context is done; it waits
    for the first error on [errCh], a channel of capacity two, and takes the
    tunnel down.  Only the first of them writes on the WebSocket, so there is no
    lock.

    The model is in the style of TunnelConcurrent, the other end: a call of
    [Write] on standard output is one step, and that the loops do what
    [copyTunnelInput] and [copyTunnelOutput] of CliTunnel do is a theorem. *)

From S2P Require Import Prelude GoStrings Json JsonDecode WsProtocol WsHandler Tunnel TunnelConcurrent CliError CliOptions CliTunnel CliSession.

(** ** What is shared *)

Inductive RThread : Type := RMain | RInput | ROutput | RWatch | RSignal.

Inductive RAnswer : Type :=
| LGo
| LFails (e : cerror)                          (* a read or write of the WebSocket fails *)
| LReads (data : string) (err : option cerror) (* [input.Read] *)
| LReceives (f : Frame)                        (* [conn.ReadMessage] *)
| LRelayDone.                                  (* the other branch of the watcher's [select] *)

(** [r_ctx] is the context of [RunTunnel], [r_relay] that of [relayTunnel], which
    is derived from it; [r_input] until standard input is closed. *)
Record RShared : Type := mkRShared {
  r_sent : list Frame; r_broken : bool; r_open : bool; r_ctx : bool; r_relay : bool;
  r_errCh : list (option cerror); r_input : bool }.

Definition r_send f s := mkRShared (r_sent s ++ [f]) (r_broken s) (r_open s) (r_ctx s) (r_relay s) (r_errCh s) (r_input s).
Definition r_break s := mkRShared (r_sent s) true (r_open s) (r_ctx s) (r_relay s) (r_errCh s) (r_input s).
Definition r_close s := mkRShared (r_sent s) (r_broken s) false (r_ctx s) (r_relay s) (r_errCh s) (r_input s).
Definition r_signal s := mkRShared (r_sent s) (r_broken s) (r_open s) true true (r_errCh s) (r_input s).
Definition r_cancel s := mkRShared (r_sent s) (r_broken s) (r_open s) (r_ctx s) true (r_errCh s) (r_input s).
Definition r_errs l s := mkRShared (r_sent s) (r_broken s) (r_open s) (r_ctx s) (r_relay s) l (r_input s).
Definition r_close_input s := mkRShared (r_sent s) (r_broken s) (r_open s) (r_ctx s) (r_relay s) (r_errCh s) false.

Definition r_report (x : option cerror) (s : RShared) : option RShared :=
  if (2 <=? length (r_errCh s))%nat then None else Some (r_errs (r_errCh s ++ [x]) s).

(** A write on the WebSocket: what is left to do, or the error. *)
Definition r_write (f : Frame) (a : RAnswer) (s : RShared) : option (RShared * option cerror) :=
  match a with
  | LGo => if r_broken s || negb (r_open s) then None else Some (r_send f s, None)
  | LFails e => Some (r_break s, Some e)
  | _ => None
  end.

(** ** [copyTunnelInput] *)

Inductive LiPc : Type :=
| LiRead
| LiWrite (data : string) (rerr : option cerror)
| LiEof                                        (* the message for the end of input *)
| LiReport (e : cerror)                        (* [errCh <- err] *)
| LiEnd (r : option cerror).

(** With the reads that gave bytes so far. *)
Record LiState : Type := mkLi { li_pc : LiPc; li_chunks : list string }.

Definition li_after (rerr : option cerror) : LiPc :=
  match rerr with
  | None => LiRead
  | Some e => if is_EOF e then LiEof else LiReport e
  end.

Definition li_step (a : RAnswer) (s : RShared) (i : LiState) : option (RShared * LiState) :=
  let goto pc := mkLi pc (li_chunks i) in
  match li_pc i, a with
  | LiRead, LReads data err =>
      if 32 * 1024 <? len data then None
      else if 0 <? len data then Some (s, mkLi (LiWrite data err) (li_chunks i ++ [data]))
      else Some (s, goto (li_after err))
  | LiWrite data err, _ =>
      '(s', r) ← r_write (BinaryMessage data) a s;
      Some (s', goto match r with Some e => LiReport e | None => li_after err end)
  | LiEof, _ =>
      '(s', r) ← r_write tunnel_eof a s;
      Some (s', goto match r with Some e => LiReport e | None => LiEnd None end)
  | LiReport e, LGo => s' ← r_report (Some e) s; Some (s', goto (LiEnd (Some e)))
  | _, _ => None
  end.

(** ** [copyTunnelOutput] *)

Section Client.

Context {W : Type} `{Writer W} (werr derr : cerror).

Inductive LoPc : Type :=
| LoRead
| LoWrite (rest : string)                      (* in [writeFull], with what is left *)
| LoReport (e : cerror)
| LoEnd (e : cerror).

(** With standard output and the frames so far. *)
Record LoState : Type := mkLo { lo_pc : LoPc; lo_out : W; lo_frames : list Frame }.

Definition lo_dispatch (f : Frame) : LoPc :=
  match f with
  | BinaryMessage payload => LoWrite payload
  | TextMessage payload =>
      match DecodeMessage payload with
      | None => LoReport derr
      | Some message =>
          if Type_ message =?s "error"
          then let ed := read_ErrorData (Data message) in LoReport (Plain (ed_Code ed +:+ ": " +:+ ed_Message ed))
          else LoRead
      end
  | OtherMessage => LoRead
  end.

Definition lo_step (a : RAnswer) (s : RShared) (o : LoState) : option (RShared * LoState) :=
  let goto pc := mkLo pc (lo_out o) (lo_frames o) in
  match lo_pc o, a with
  | LoRead, LReceives f => if r_open s then Some (s, mkLo (lo_dispatch f) (lo_out o) (lo_frames o ++ [f])) else None
  | LoRead, LFails e => Some (s, goto (LoReport e))
  | LoWrite rest, LGo =>
      if rest =?s "" then Some (s, goto LoRead)
      else
        let '(w', count, err) := Write (lo_out o) rest in
        Some (s, mkLo (if err : bool then LoReport werr
                       else if (count =? 0)%nat then LoReport (Plain "short write") else LoWrite (str_drop count rest))
                   w' (lo_frames o))
  | LoReport e, LGo => s' ← r_report (Some e) s; Some (s', goto (LoEnd e))
  | _, _ => None
  end.

(** ** The watcher, and [relayTunnel] itself *)

Inductive LwPc : Type := LwSelect | LwClose | LwEnd.

Definition lw_step (a : RAnswer) (s : RShared) (p : LwPc) : option (RShared * LwPc) :=
  match p, a with
  | LwSelect, LGo => if r_ctx s then Some (s, LwClose) else None
  | LwSelect, LRelayDone => if r_relay s then Some (s, LwEnd) else None
  | LwClose, LGo => Some (r_close s, LwEnd)
  | _, _ => None
  end.

Inductive LmPc : Type :=
| LmReceive                                    (* [<-errCh] *)
| LmCancel (x : option cerror)
| LmCloseConn (x : option cerror)
| LmCloseInput (x : option cerror)
| LmDone (result : option cerror).

Definition lm_step (a : RAnswer) (s : RShared) (p : LmPc) : option (RShared * LmPc) :=
  match p, a with
  | LmReceive, LGo => match r_errCh s with [] => None | x :: l => Some (r_errs l s, LmCancel x) end
  | LmCancel x, LGo => Some (r_cancel s, LmCloseConn x)
  | LmCloseConn x, LGo => Some (r_close s, LmCloseInput x)
  | LmCloseInput x, LGo => Some (r_close_input s, LmDone (relayTunnel x))
  | _, _ => None
  end.

(** ** The client's tunnel *)

Record RelayState : Type := mkRelay { rsh : RShared; rmain : LmPc; rin : LiState; rout : LoState; rwatch : LwPc }.

Definition relay_started (w : W) : RelayState :=
  mkRelay (mkRShared [] false true false false [] true) LmReceive (mkLi LiRead []) (mkLo LoRead w []) LwSelect.

Definition relay_step (e : RThread * RAnswer) (r : RelayState) : option RelayState :=
  let (t, a) := e in
  match t with
  | RMain => '(s, p) ← lm_step a (rsh r) (rmain r); Some (mkRelay s p (rin r) (rout r) (rwatch r))
  | RInput => '(s, p) ← li_step a (rsh r) (rin r); Some (mkRelay s (rmain r) p (rout r) (rwatch r))
  | ROutput => '(s, p) ← lo_step a (rsh r) (rout r); Some (mkRelay s (rmain r) (rin r) p (rwatch r))
  | RWatch => '(s, p) ← lw_step a (rsh r) (rwatch r); Some (mkRelay s (rmain r) (rin r) (rout r) p)
  | RSignal => match a with
               | LGo => Some (mkRelay (r_signal (rsh r)) (rmain r) (rin r) (rout r) (rwatch r))
               | _ => None
               end
  end.

Fixpoint relay_run (es : list (RThread * RAnswer)) (r : RelayState) : option RelayState :=
  match es with
  | [] => Some r
  | e :: es => r' ← relay_step e r; relay_run es r'
  end.

Definition relay_reachable (w : W) (r : RelayState) : Prop := exists es, relay_run es (relay_started w) = Some r.

End Client.

Arguments LoState : clear implicits.
Arguments RelayState : clear implicits.

(** ** Lemmas: standard output *)

Section Output.

Context {W : Type} `{Writer W} (werr derr : cerror) (w0 : W).

(** What [copyTunnelOutput] does from a point of its body on. *)
Definition lo_future (pc : LoPc) (w : W) (rest : list Frame) (rerr : cerror) : W * cerror :=
  match pc with
  | LoRead => copyTunnelOutput werr derr w rest rerr
  | LoWrite q =>
      let (w', r) := writeFull w q in
      match write_error werr r with Some e => (w', e) | None => copyTunnelOutput werr derr w' rest rerr end
  | LoReport e | LoEnd e => (w, e)
  end.

Record lo_inv (o : LoState W) : Prop := {
  lo_sim : match lo_pc o with
           | LoReport e | LoEnd e => exists rerr, copyTunnelOutput werr derr w0 (lo_frames o) rerr = (lo_out o, e)
           | pc => forall rest rerr, copyTunnelOutput werr derr w0 (lo_frames o ++ rest) rerr = lo_future pc (lo_out o) rest rerr
           end;
  lo_bytes : exists tail, accepted (lo_out o) +:+ tail = accepted w0 +:+ concat_str (binary_payloads (lo_frames o))
               /\ match lo_pc o with LoRead => tail = "" | LoWrite rest => tail = rest | _ => True end }.

Lemma lo_dispatch_future w f rest rerr :
  copyTunnelOutput werr derr w (f :: rest) rerr = lo_future (lo_dispatch derr f) w rest rerr.
Proof.
  destruct f as [p|p|]; cbn [copyTunnelOutput lo_dispatch lo_future]; [|done..].
  destruct (DecodeMessage p) as [m|]; [|done]. by destruct (Type_ m =?s "error").
Qed.

Lemma lo_step_inv a s o s' o' : lo_inv o -> lo_step werr derr a s o = Some (s', o') -> lo_inv o'.
Proof.
  intros [Hsim (tail & Hb & Ht)] Hs. destruct o as [pc w frames]. cbn [lo_pc lo_out lo_frames] in *.
  unfold lo_step in Hs. cbn [lo_pc lo_out lo_frames] in Hs.
  destruct pc as [|q|e|e], a as [|e'| |f|]; try discriminate Hs.
  - injection Hs as <- <-. constructor; cbn [lo_pc lo_out lo_frames]; [|by exists tail].
    exists e'. specialize (Hsim [] e'). by rewrite app_nil_r in Hsim.
  - destruct (r_open s); [|discriminate Hs]. injection Hs as <- <-. subst tail. rewrite str_app_nil_r in Hb.
    assert (forall rest rerr, copyTunnelOutput werr derr w0 ((frames ++ [f]) ++ rest) rerr
                              = lo_future (lo_dispatch derr f) w rest rerr) as Hf.
    { intros rest rerr. rewrite <- app_assoc, Hsim. cbn [app lo_future]. apply lo_dispatch_future. }
    constructor; cbn [lo_pc lo_out lo_frames].
    + destruct (lo_dispatch derr f); try exact Hf; exists EOF; specialize (Hf [] EOF); by rewrite app_nil_r in Hf.
    + exists (concat_str (binary_payloads [f])). rewrite binary_payloads_app, concat_str_app, Hb, str_app_assoc.
      split; [done|]. destruct f as [p|p|]; cbn; [by repeat case_match|by rewrite str_app_nil_r|done].
  - destruct (q =?s "") eqn:Eq.
    + injection Hs as <- <-. apply String.eqb_eq in Eq as ->. subst tail. constructor; [exact Hsim|by exists ""].
    + destruct (Write w q) as [[w' count] err] eqn:Ew. injection Hs as <- <-. subst tail.
      pose proof (Write_accepts _ _ _ _ _ Ew) as Ha. cbn [lo_future] in Hsim. unfold writeFull in Hsim.
      rewrite (writeAll_step _ q Eq) in Hsim. rewrite Ew in Hsim.
      constructor; cbn [lo_pc lo_out lo_frames].
      * destruct err; [exists EOF|destruct (count =? 0)%nat; [exists EOF|exact Hsim]];
          specialize (Hsim [] EOF); by rewrite app_nil_r in Hsim.
      * exists (str_drop count q). rewrite Ha, str_app_assoc, str_take_drop. split; [done|].
        destruct err; [done|]. by destruct (count =? 0)%nat.
  - apply bind_Some in Hs as (s1 & _ & [= <- <-]). by constructor; [|exists tail].
Qed.

End Output.

(** ** Lemmas: standard input *)

(** What was sent: the chunks, and the message for the end at the end. *)
Record li_inv (s : RShared) (i : LiState) : Prop := {
  li_shape : exists sent lost eof, r_sent s = map BinaryMessage sent ++ eof /\ sent ++ lost = li_chunks i
    /\ match li_pc i with
       | LiRead | LiEof => lost = [] /\ eof = []
       | LiWrite d _ => lost = [d] /\ eof = []
       | LiEnd None => lost = [] /\ eof = [tunnel_eof]
       | LiReport _ | LiEnd (Some _) => eof = []
       end }.

Lemma li_inv_other s s' i : r_sent s' = r_sent s -> li_inv s i -> li_inv s' i.
Proof. intros Hs [Hi]. constructor. by rewrite Hs. Qed.

Lemma li_step_inv a s i s' i' : li_inv s i -> li_step a s i = Some (s', i') -> li_inv s' i'.
Proof.
  intros [(sent & lost & eof & Hs & Hc & Hpc)] H. destruct i as [pc chunks]. unfold li_step in H. cbn [li_pc li_chunks] in *.
  destruct pc as [|d err| |e|r].
  - destruct a as [| |data err| |]; try discriminate H. destruct (_ <? len data); [discriminate H|].
    destruct Hpc as [-> ->]. rewrite app_nil_r in Hc. subst chunks.
    destruct (0 <? len data); injection H as <- <-; constructor; cbn [li_pc li_chunks].
    + by exists sent, [data], [].
    + exists sent, [], []. split_and!; [done|apply app_nil_r|]. unfold li_after. by destruct err as [e|]; [destruct (is_EOF e)|].
  - apply bind_Some in H as ([s1 r] & Hw & [= <- <-]). destruct Hpc as [-> ->].
    unfold r_write in Hw. destruct a; try discriminate Hw.
    + destruct (_ || _); [discriminate Hw|]. injection Hw as <- <-. constructor; cbn [li_pc li_chunks r_send r_sent].
      exists (sent ++ [d]), [], []. rewrite Hs, map_app, !app_nil_r. split_and!; [done|done|].
      unfold li_after. by destruct err as [e|]; [destruct (is_EOF e)|].
    + injection Hw as <- <-. constructor; cbn [li_pc li_chunks r_break r_sent]. by exists sent, [d], [].
  - apply bind_Some in H as ([s1 r] & Hw & [= <- <-]). destruct Hpc as [-> ->].
    unfold r_write in Hw. destruct a; try discriminate Hw.
    + destruct (_ || _); [discriminate Hw|]. injection Hw as <- <-. constructor; cbn [li_pc li_chunks r_send r_sent].
      exists sent, [], [tunnel_eof]. by rewrite Hs, app_nil_r.
    + injection Hw as <- <-. constructor; cbn [li_pc li_chunks r_break r_sent]. by exists sent, [], [].
  - destruct a; try discriminate H. apply bind_Some in H as (s1 & Hw & [= <- <-]). unfold r_report in Hw.
    destruct (_ <=? _)%nat; [discriminate Hw|]. injection Hw as <-. constructor. by exists sent, lost, eof.
  - destruct a; discriminate H.
Qed.

(** A relay sends chunks, and then the end of input. *)
Lemma sent_frames s i :
  li_inv s i ->
  exists sent eof, r_sent s = map BinaryMessage sent ++ eof /\ sent `prefix_of` li_chunks i
    /\ (eof = [] \/ eof = [tunnel_eof] /\ sent = li_chunks i /\ li_pc i = LiEnd None).
Proof.
  intros [(sent & lost & eof & Hs & Hc & Hpc)]. exists sent, eof. split; [done|]. split; [by exists lost|].
  destruct (li_pc i) as [| | |e|[e|]]; try (left; apply Hpc); [].
  destruct Hpc as [-> ->]. right. by rewrite app_nil_r in Hc.
Qed.

(** ** The whole relay *)

Section Relay.

Context {W : Type} `{Writer W} (werr derr : cerror) (w0 : W).

(** The results of the two directions: on the channel, or taken from it. *)
Definition r_results (r : RelayState W) : nat :=
  ((match li_pc (rin r) with LiEnd (Some _) => 1 | _ => 0 end) + match lo_pc (rout r) with LoEnd _ => 1 | _ => 0 end)%nat.

Definition lm_phase (p : LmPc) : nat :=
  match p with LmReceive => 0 | LmCancel _ => 1 | LmCloseConn _ => 2 | LmCloseInput _ => 3 | LmDone _ => 4 end.

Record relay_inv (r : RelayState W) : Prop := {
  rv_in : li_inv (rsh r) (rin r);
  rv_out : lo_inv werr derr w0 (rout r);
  rv_errs : (length (r_errCh (rsh r)) + (if (lm_phase (rmain r) =? 0)%nat then 0 else 1) = r_results r)%nat;
  rv_relay : (2 <= lm_phase (rmain r))%nat -> r_relay (rsh r) = true;
  rv_open : (3 <= lm_phase (rmain r))%nat -> r_open (rsh r) = false;
  rv_input : r_input (rsh r) = (lm_phase (rmain r) <=? 3)%nat }.

(** What a step of a loop leaves alone. *)
Lemma li_step_keeps a s i s' i' :
  li_step a s i = Some (s', i') ->
  r_open s' = r_open s /\ r_relay s' = r_relay s /\ r_input s' = r_input s
  /\ (length (r_errCh s') + match li_pc i with LiEnd (Some _) => 1 | _ => 0 end
      = length (r_errCh s) + match li_pc i' with LiEnd (Some _) => 1 | _ => 0 end)%nat.
Proof.
  unfold li_step. destruct i as [pc chunks]. cbn [li_pc li_chunks]. intros Hs.
  destruct pc as [|d err| |e|r], a as [|e'|data rerr|f|]; try discriminate Hs; unfold r_write, r_report in Hs;
    repeat case_match; cbn in Hs; simplify_eq; cbn; rewrite ?length_app; cbn; split_and!; try done; try lia;
    unfold li_after in *; repeat case_match; try done; lia.
Qed.

Lemma lo_step_keeps a s o s' o' :
  lo_step werr derr a s o = Some (s', o') ->
  r_sent s' = r_sent s /\ r_open s' = r_open s /\ r_relay s' = r_relay s /\ r_input s' = r_input s
  /\ (length (r_errCh s') + match lo_pc o with LoEnd _ => 1 | _ => 0 end
      = length (r_errCh s) + match lo_pc o' with LoEnd _ => 1 | _ => 0 end)%nat.
Proof.
  unfold lo_step. destruct o as [pc w frames]. cbn [lo_pc lo_out lo_frames]. intros Hs.
  destruct pc as [|q|e|e], a as [|e'|data rerr|f|]; try discriminate Hs; unfold r_report in Hs;
    repeat case_match; cbn in Hs; simplify_eq; cbn; rewrite ?length_app; cbn; split_and!; try done; try lia;
    unfold lo_dispatch in *; repeat case_match; try done; lia.
Qed.

Lemma relay_step_inv e r r' : relay_inv r -> relay_step werr derr e r = Some r' -> relay_inv r'.
Proof.
  intros [H1 H2 H3 H4 H5 H6] Hs. destruct e as [t a], r as [s m i o w]. cbn [relay_step rsh rmain rin rout rwatch] in *.
  unfold r_results in *. cbn [rin rout] in *. destruct t.
  - apply bind_Some in Hs as ([s' m'] & Hs & [= <-]). unfold lm_step in Hs.
    destruct m as [|x|x|x|x], a; try discriminate Hs; [destruct (r_errCh s) as [|x l] eqn:E; [discriminate Hs|]|..];
      injection Hs as <- <-;
      (constructor; cbn; unfold r_results in *; cbn in *; intros;
        [by apply (fun E => li_inv_other _ _ _ E H1)|done|try exact H3; try (rewrite <- H3, ?E; cbn; lia)|try done; try lia; try (apply H4; lia)|try done; try lia; try (apply H5; lia)|try done; try lia]).
  - apply bind_Some in Hs as ([s' i'] & Hs & [= <-]). pose proof (li_step_keeps _ _ _ _ _ Hs) as (K1 & K2 & K3 & K4).
    constructor; cbn; [by eapply li_step_inv|done|unfold r_results; cbn; lia|by rewrite K2|by rewrite K1|by rewrite K3].
  - apply bind_Some in Hs as ([s' o'] & Hs & [= <-]). pose proof (lo_step_keeps _ _ _ _ _ Hs) as (K0 & K1 & K2 & K3 & K4).
    constructor; cbn; [by apply (fun E => li_inv_other _ _ _ E H1)|by eapply lo_step_inv|unfold r_results; cbn; lia|by rewrite K2|by rewrite K1|by rewrite K3].
  - apply bind_Some in Hs as ([s' w'] & Hs & [= <-]). unfold lw_step in Hs.
    destruct w, a; try discriminate Hs; [destruct (r_ctx s); [|discriminate Hs]|destruct (r_relay s) eqn:Er; [|discriminate Hs]|];
      injection Hs as <- <-; (constructor; try done; by apply (fun E => li_inv_other _ _ _ E H1)).
  - destruct a; try discriminate Hs. injection Hs as <-. constructor; try done; by apply (fun E => li_inv_other _ _ _ E H1).
Qed.

Lemma relay_started_inv : relay_inv (relay_started w0).
Proof.
  constructor; cbn; try done; try lia; constructor; cbn; try done.
  - by exists [], [], [].
  - exists "". by rewrite str_app_nil_r.
Qed.

Lemma relay_run_inv es r r' : relay_inv r -> relay_run werr derr es r = Some r' -> relay_inv r'.
Proof.
  revert r; induction es as [|e es IH]; intros r Hi Hs; cbn [relay_run] in Hs; [by simplify_eq|].
  apply bind_Some in Hs as (r1 & H1 & Hs). eauto using relay_step_inv.
Qed.

End Relay.

(** ** Whose errors they are, and how long the messages *)

Section Ends.

Context {W : Type} `{Writer W} (werr derr : cerror) (w0 : W).

(** The result of a direction that ended. *)
Definition reported (i : LiState) (o : LoState W) (x : option cerror) : Prop :=
  exists e, x = Some e /\ (li_pc i = LiEnd (Some e) \/ lo_pc o = LoEnd e).

(** What [relayTunnel] took from the channel. *)
Definition lm_taken (p : LmPc) : list (option cerror) :=
  match p with LmCancel x | LmCloseConn x | LmCloseInput x => [x] | _ => [] end.

Record ends_inv (r : RelayState W) : Prop := {
  en_chunks : Forall (fun d => len d <= 32 * 1024) (li_chunks (rin r));
  en_errs : Forall (reported (rin r) (rout r)) (r_errCh (rsh r) ++ lm_taken (rmain r));
  en_done : forall res, rmain r = LmDone res -> exists x, reported (rin r) (rout r) x /\ res = relayTunnel x }.

Lemma reported_more i o i' o' x :
  (forall e, li_pc i = LiEnd e -> li_pc i' = LiEnd e) -> (forall e, lo_pc o = LoEnd e -> lo_pc o' = LoEnd e) ->
  reported i o x -> reported i' o' x.
Proof. intros Hi Ho (e & -> & [He|He]); exists e; auto. Qed.

(** A step of a loop leaves the channel alone or adds its own result. *)
Lemma li_step_report a s i s' i' :
  li_step a s i = Some (s', i') ->
  (forall e, li_pc i <> LiEnd e)
  /\ (r_errCh s' = r_errCh s \/ exists e, r_errCh s' = r_errCh s ++ [Some e] /\ li_pc i' = LiEnd (Some e))
  /\ (Forall (fun d => len d <= 32 * 1024) (li_chunks i) -> Forall (fun d => len d <= 32 * 1024) (li_chunks i')).
Proof.
  destruct i as [pc chunks]. unfold li_step. cbn [li_pc li_chunks]. intros Hs.
  destruct pc as [|d err| |e|r].
  - destruct a as [| |data err| |]; try discriminate Hs. destruct (_ <? len data) eqn:El; [discriminate Hs|].
    apply Z.ltb_ge in El. split; [done|].
    destruct (0 <? len data); injection Hs as <- <-; (split; [by left|]); intros HF; [|done].
    apply Forall_app. by split; [|repeat constructor].
  - apply bind_Some in Hs as ([s1 r] & Hw & [= <- <-]). split; [done|]. split; [left|done].
    unfold r_write in Hw. destruct a; try discriminate Hw; [destruct (_ || _); [discriminate Hw|]|]; by injection Hw as <- <-.
  - apply bind_Some in Hs as ([s1 r] & Hw & [= <- <-]). split; [done|]. split; [left|done].
    unfold r_write in Hw. destruct a; try discriminate Hw; [destruct (_ || _); [discriminate Hw|]|]; by injection Hw as <- <-.
  - destruct a; try discriminate Hs. apply bind_Some in Hs as (s1 & Hw & [= <- <-]). unfold r_report in Hw.
    destruct (_ <=? _)%nat; [discriminate Hw|]. injection Hw as <-. split; [done|]. split; [right; by exists e|done].
  - destruct a; discriminate Hs.
Qed.

Lemma lo_step_report a s (o : LoState W) s' o' :
  lo_step werr derr a s o = Some (s', o') ->
  (forall e, lo_pc o <> LoEnd e)
  /\ (r_errCh s' = r_errCh s \/ exists e, r_errCh s' = r_errCh s ++ [Some e] /\ lo_pc o' = LoEnd e).
Proof.
  destruct o as [pc w frames]. unfold lo_step. cbn [lo_pc lo_out lo_frames]. intros Hs.
  destruct pc as [|q|e|e], a as [|e'|data rerr|f|]; try discriminate Hs; split; try done.
  - injection Hs as <- <-. by left.
  - destruct (r_open s); [|discriminate Hs]. injection Hs as <- <-. by left.
  - destruct (q =?s ""); [injection Hs as <- <-; by left|]. destruct (Write w q) as [[w' n] b]. injection Hs as <- <-. by left.
  - apply bind_Some in Hs as (s1 & Hw & [= <- <-]). unfold r_report in Hw.
    destruct (_ <=? _)%nat; [discriminate Hw|]. injection Hw as <-. right. by exists e.
Qed.

Lemma ends_step e r r' : ends_inv r -> relay_step werr derr e r = Some r' -> ends_inv r'.
Proof.
  intros [H1 H2 H3] Hs. destruct e as [t a], r as [s m i o w]. cbn [relay_step rsh rmain rin rout rwatch] in *. destruct t.
  - apply bind_Some in Hs as ([s' m'] & Hs & [= <-]). unfold lm_step in Hs.
    destruct m as [|x|x|x|x], a; try discriminate Hs;
      [destruct (r_errCh s) as [|x l] eqn:E; [discriminate Hs|]|..]; injection Hs as <- <-;
      constructor; cbn [rsh rmain rin rout r_errs r_cancel r_close r_close_input r_errCh lm_taken] in *; try done.
    + rewrite app_nil_r in H2. apply Forall_cons in H2 as [Hx H2]. apply Forall_app. by split; [|repeat constructor].
    + by apply Forall_app in H2 as [H2 _]; rewrite app_nil_r.
    + intros res [= <-]. apply Forall_app in H2 as [_ H2]. apply Forall_cons in H2 as [Hx _]. by exists x.
  - apply bind_Some in Hs as ([s' i'] & Hs & [= <-]). destruct (li_step_report _ _ _ _ _ Hs) as (K1 & K2 & K3).
    assert (forall x, reported i o x -> reported i' o x) as Hmore.
    { intros x. apply reported_more; [intros e He; by destruct (K1 e)|done]. }
    constructor; cbn [rsh rmain rin rout].
    + by apply K3.
    + apply Forall_app in H2 as [H2 H2']. apply Forall_app. split; [|eapply Forall_impl; eauto].
      destruct K2 as [->|(e & -> & He)]; [eapply Forall_impl; eauto|].
      apply Forall_app. split; [eapply Forall_impl; eauto|]. repeat constructor. exists e. auto.
    + intros res Hr. destruct (H3 res Hr) as (x & Hx & ->). eauto.
  - apply bind_Some in Hs as ([s' o'] & Hs & [= <-]). destruct (lo_step_report _ _ _ _ _ Hs) as (K1 & K2).
    assert (forall x, reported i o x -> reported i o' x) as Hmore.
    { intros x. apply reported_more; [done|intros e He; by destruct (K1 e)]. }
    constructor; cbn [rsh rmain rin rout].
    + done.
    + apply Forall_app in H2 as [H2 H2']. apply Forall_app. split; [|eapply Forall_impl; eauto].
      destruct K2 as [->|(e & -> & He)]; [eapply Forall_impl; eauto|].
      apply Forall_app. split; [eapply Forall_impl; eauto|]. repeat constructor. exists e. auto.
    + intros res Hr. destruct (H3 res Hr) as (x & Hx & ->). eauto.
  - apply bind_Some in Hs as ([s' w'] & Hs & [= <-]). unfold lw_step in Hs.
    destruct w, a; try discriminate Hs; [destruct (r_ctx s); [|discriminate Hs]|destruct (r_relay s); [|discriminate Hs]|];
      by injection Hs as <- <-.
  - destruct a; try discriminate Hs. by injection Hs as <-.
Qed.

Lemma ends_started : ends_inv (relay_started w0).
Proof. constructor; cbn; [constructor|constructor|done]. Qed.

Lemma ends_run es r r' : ends_inv r -> relay_run werr derr es r = Some r' -> ends_inv r'.
Proof.
  revert r; induction es as [|e es IH]; intros r Hi Hs; cbn [relay_run] in Hs; [by simplify_eq|].
  apply bind_Some in Hs as (r1 & H1 & Hs). eauto using ends_step.
Qed.

End Ends.

(** ** Properties *)

(** A schedule for the witnesses: the input ends after one chunk, one message
    comes, then the server closes. *)
Definition relay_schedule : list (RThread * RAnswer) :=
  [(RInput, LReads "SSH-2.0-a" None); (RInput, LGo); (RInput, LReads "" (Some EOF)); (RInput, LGo);
   (ROutput, LReceives (BinaryMessage "SSH-2.0-b")); (ROutput, LGo); (ROutput, LGo);
   (ROutput, LFails (CloseError CloseNormalClosure "tunnel closed" "")); (ROutput, LGo);
   (RMain, LGo); (RMain, LGo); (RMain, LGo); (RMain, LGo)].

Definition relay_after (es : list (RThread * RAnswer)) : RelayState string :=
  default (relay_started "") (relay_run (Plain "write") (Plain "decode") es (relay_started "")).

(** The client's end of a tunnel, under every schedule of its goroutines:
    what it sends are the chunks of standard input in order, and the message for
    the end only after all of them; what it writes to standard output is what
    [copyTunnelOutput] writes for the frames so far; neither direction ever
    waits for the channel; and it ends with the first error of a direction,
    judged by [relayTunnel], with the WebSocket and standard input closed. *)
Theorem client_tunnel :
  forall W (HW : Writer W) werr derr (w0 : W) r,
    relay_reachable werr derr w0 r ->
    (exists sent eof, r_sent (rsh r) = map BinaryMessage sent ++ eof /\ sent `prefix_of` li_chunks (rin r)
       /\ (eof = [] \/ eof = [tunnel_eof] /\ sent = li_chunks (rin r) /\ li_pc (rin r) = LiEnd None))
    /\ (lo_pc (rout r) = LoRead -> forall rest rerr,
          copyTunnelOutput werr derr w0 (lo_frames (rout r) ++ rest) rerr
          = copyTunnelOutput werr derr (lo_out (rout r)) rest rerr)
    /\ (forall e, li_pc (rin r) = LiReport e \/ lo_pc (rout r) = LoReport e -> (length (r_errCh (rsh r)) < 2)%nat)
    /\ (forall res, rmain r = LmDone res ->
          r_open (rsh r) = false /\ r_input (rsh r) = false
          /\ exists e, res = relayTunnel (Some e)
               /\ (li_pc (rin r) = LiEnd (Some e)
                   \/ exists rerr, copyTunnelOutput werr derr w0 (lo_frames (rout r)) rerr = (lo_out (rout r), e))).
Proof.
  intros W HW werr derr w0 r [es Hs].
  destruct (relay_run_inv werr derr w0 es _ r (relay_started_inv werr derr w0) Hs)
    as [Hli [Hsim _] He _ Hop Hin].
  destruct (ends_run werr derr es _ r (ends_started w0) Hs) as [_ _ Hdone]. split_and!.
  - by apply sent_frames.
  - intros Hp. by rewrite Hp in Hsim.
  - intros e Hr. unfold r_results in He. destruct Hr as [Hr|Hr]; rewrite Hr in He; repeat case_match; lia.
  - intros res Hm. rewrite Hm in Hop, Hin. cbn in Hop, Hin. split; [apply Hop; lia|]. split; [exact Hin|].
    destruct (Hdone res Hm) as (x & (e & -> & Hr) & ->). exists e. split; [done|].
    destruct Hr as [Hr|Hr]; [by left|right]. by rewrite Hr in Hsim.
Qed.

Lemma client_tunnel_witness :
  rmain (relay_after relay_schedule) = LmDone None /\ lo_out (rout (relay_after relay_schedule)) = "SSH-2.0-b"
  /\ r_open (rsh (relay_after relay_schedule)) = false.
Proof.
  destruct (client_tunnel string string_writer (Plain "write") (Plain "decode") "" (relay_after relay_schedule))
    as (_ & _ & _ & H).
  - exists relay_schedule. vm_compute. reflexivity.
  - destruct (H None) as (H1 & _); [vm_compute; reflexivity|].
    split; [vm_compute; reflexivity|]. split; [vm_compute; reflexivity|exact H1].
Defined.
