(* ===== verification/TunnelSystem.v ===== *)
(** * A tunnel with both its ends

    The goroutines of the server's end (TunnelConcurrent) and of the client's
    (CliTunnelConcurrent) as one system: each direction of the WebSocket delivers
    in order what was sent, and between any two steps any goroutine of either
    side may move.  The theorems hold for every schedule and say what the target
    gets of standard input, what standard output gets of the target, and what
    the client's success means. *)

From S2P Require Import Prelude GoStrings Json JsonDecode WsProtocol WsHandler Tunnel TunnelConcurrent TunnelTeardown CliError CliTunnel CliSession CliTunnelConcurrent.

(** ** The system *)

Inductive TunEvent : Type :=
| AtServer (e : TThread * TAnswer)
| AtClient (e : RThread * RAnswer)
| TunUp                                        (* the server receives the client's next message *)
| TunDown.                                     (* the client receives what the server sent next *)

(** The error [ReadMessage] returns at the server's close message. *)
Definition closed_by_server : cerror := CloseError CloseNormalClosure "tunnel closed" "websocket: close 1000 (normal): tunnel closed".

(** What the client's read loop sees of it; a ping is answered inside
    [ReadMessage]. *)
Definition tun_answer (o : TOut) : option RAnswer :=
  match o with
  | OData data => Some (LReceives (BinaryMessage data))
  | OPing => None
  | OClose => Some (LFails closed_by_server)
  end.

Section System.

Context {T : Type} `{TunnelTarget T} {W : Type} `{Writer W} (werr derr : cerror).

(** With what each side received so far. *)
Record TunSystem : Type := mkTunSystem { tsrv : TState T; tcli : RelayState W; tup : nat; tdown : nat }.

Definition tun_step (ev : TunEvent) (y : TunSystem) : option TunSystem :=
  match ev with
  | AtServer (TToTarget, AReceives _) | AtClient (ROutput, LReceives _) => None
  | AtServer e => s ← t_step e (tsrv y); Some (mkTunSystem s (tcli y) (tup y) (tdown y))
  | AtClient e => c ← relay_step werr derr e (tcli y); Some (mkTunSystem (tsrv y) c (tup y) (tdown y))
  | TunUp =>
      f ← r_sent (rsh (tcli y)) !! tup y; s ← t_step (TToTarget, AReceives f) (tsrv y);
      Some (mkTunSystem s (tcli y) (S (tup y)) (tdown y))
  | TunDown =>
      o ← ts_sent (tsh (tsrv y)) !! tdown y;
      match tun_answer o with
      | Some a => c ← relay_step werr derr (ROutput, a) (tcli y); Some (mkTunSystem (tsrv y) c (tup y) (S (tdown y)))
      | None => Some (mkTunSystem (tsrv y) (tcli y) (tup y) (S (tdown y)))
      end
  end.

Fixpoint tun_run (es : list TunEvent) (y : TunSystem) : option TunSystem :=
  match es with
  | [] => Some y
  | e :: es => y' ← tun_step e y; tun_run es y'
  end.

(** Once the client has the server's confirmation. *)
Definition tun_started (t : T) (w : W) : TunSystem := mkTunSystem (t_started t) (relay_started w) 0 0.

Definition tun_reachable (t : T) (w : W) (y : TunSystem) : Prop := exists es, tun_run es (tun_started t w) = Some y.

End System.

Arguments TunSystem : clear implicits.

(** ** Lemmas: the server's steps *)

(** Why the direction towards the target is where it is. *)
Definition bad_frame (f : Frame) : Prop :=
  match f with
  | BinaryMessage _ => False
  | TextMessage _ => f <> tunnel_eof
  | OtherMessage => True
  end.

Definition in_cause (i : InState) : Prop :=
  match in_pc i with
  | InCloseWrite => exists p, TextMessage p ∈ in_frames i
  | InReport UnexpectedMessage | InEnd UnexpectedMessage => exists f, f ∈ in_frames i /\ bad_frame f
  | _ => True
  end.

Section Server.

Context {T : Type} `{TunnelTarget T}.

Lemma in_step_cause a (s : TShared T) i s' i' :
  in_cause i -> in_step a s i = Some (s', i') ->
  in_cause i' /\ in_frames i' = in_frames i ++ match a with AReceives f => [f] | _ => [] end.
Proof.
  intros Hc Hs. destruct i as [pc frames]. unfold in_cause, in_step in *. cbn [in_pc in_frames] in *.
  destruct pc as [|p q| |e|e], a; try discriminate Hs.
  - injection Hs as <- <-. by rewrite app_nil_r.
  - destruct (_ || _); [discriminate Hs|]. injection Hs as <- <-. split; [|done]. cbn [in_pc in_frames].
    assert (f ∈ frames ++ [f]) as Hin by (apply elem_of_app; right; by apply list_elem_of_singleton).
    destruct f as [p|p|]; cbn [in_dispatch]; [|done|by exists OtherMessage].
    destruct (DecodeMessage p) as [m|] eqn:E.
    + destruct (Type_ m =?s "tunnel-eof") eqn:Et; cbn [negb].
      * destruct (is_TCPConn _); [by exists p|done].
      * exists (TextMessage p). split; [done|]. intros [= ->]. rewrite DecodeMessage_eof in E. injection E as <-. discriminate Et.
    + exists (TextMessage p). split; [done|]. intros [= ->]. by rewrite DecodeMessage_eof in E.
  - rewrite app_nil_r. destruct (q =?s ""); [by injection Hs as <- <-|]. destruct (negb _); [discriminate Hs|].
    destruct (Write _ _) as [[w' count] err]. injection Hs as <- <-. split; [|done]. cbn [in_pc]. by destruct (err || _).
  - rewrite app_nil_r. destruct (_ || _); [discriminate Hs|]. by injection Hs as <- <-.
  - rewrite app_nil_r. destruct (negb _); [discriminate Hs|]. destruct (CloseWrite _) as [w' [|]]; by injection Hs as <- <-.
  - rewrite app_nil_r. destruct (ts_target_up s); [discriminate Hs|]. by injection Hs as <- <-.
  - rewrite app_nil_r. apply bind_Some in Hs as (s1 & _ & [= <- <-]). split; [|done]. exact Hc.
Qed.

(** Nothing follows a close message. *)
Definition close_last (s : TShared T) : Prop :=
  OClose ∈ ts_sent s -> ts_broken s = true /\ exists pre, ts_sent s = pre ++ [OClose] /\ OClose ∉ pre.

Lemma send_close_last (s : TShared T) o :
  t_writable s = true -> close_last s -> o <> OClose -> OClose ∉ ts_sent s ++ [o].
Proof.
  intros Hw Hc Ho Hin. apply elem_of_app in Hin as [Hin|Hin].
  - destruct (Hc Hin) as [Hb _]. unfold t_writable in Hw. by rewrite Hb, andb_false_r in Hw.
  - apply list_elem_of_singleton in Hin. congruence.
Qed.

Lemma server_step_keeps e (r r' : TState T) :
  in_cause (tin r) -> close_last (tsh r) -> t_step e r = Some r' ->
  in_cause (tin r') /\ close_last (tsh r')
  /\ in_frames (tin r') = in_frames (tin r) ++ match e with (TToTarget, AReceives f) => [f] | _ => [] end
  /\ ts_sent (tsh r) `prefix_of` ts_sent (tsh r').
Proof.
  intros Hi Hc Hs. destruct e as [t a], r as [s m o i p]. cbn [t_step tsh tmain tout tin tping] in *. destruct t.
  - apply bind_Some in Hs as ([s' m'] & Hs & [= <-]). cbn [tsh tin]. rewrite app_nil_r. unfold main_step in Hs.
    destruct m, a; try discriminate Hs.
    + destruct (ts_errCh s); [discriminate Hs|]. by injection Hs as <- <-.
    + by injection Hs as <- <-.
    + by injection Hs as <- <-.
    + destruct (t_writable s) eqn:Ew; [|discriminate Hs]. injection Hs as <- <-.
      split_and!; [done| |done|by apply prefix_app_r]. intros _. split; [done|]. exists (ts_sent s). split; [done|].
      intros Hin. destruct (Hc Hin) as [Hb _]. unfold t_writable in Ew. by rewrite Hb, andb_false_r in Ew.
    + by injection Hs as <- <-.
    + by injection Hs as <- <-.
    + by injection Hs as <- <-.
    + by injection Hs as <- <-.
  - apply bind_Some in Hs as ([s' o'] & Hs & [= <-]). cbn [tsh tin]. rewrite app_nil_r. unfold out_step in Hs.
    destruct (out_pc o), a; try discriminate Hs.
    + destruct (_ || _); [discriminate Hs|]. by injection Hs as <- <-.
    + destruct (t_writable s) eqn:Ew; [|discriminate Hs]. injection Hs as <- <-.
      split_and!; [done| |done|by apply prefix_app_r]. intros Hin. by destruct (send_close_last s (OData data) Ew Hc).
    + injection Hs as <- <-. split_and!; [done| |done|done]. intros Hin. split; [done|by apply Hc].
    + apply bind_Some in Hs as (s1 & Hr & [= <- <-]). apply report_spec in Hr as [_ ->]. done.
  - apply bind_Some in Hs as ([s' i'] & Hs & [= <-]). cbn [tsh tin].
    destruct (in_step_cause _ _ _ _ _ Hi Hs) as [H1 H2]. pose proof (in_step_keeps _ _ _ _ _ Hs) as (_ & _ & K1 & K2 & K3).
    split_and!; [done| |done|by rewrite K1]. unfold close_last. by rewrite K1, K3.
  - apply bind_Some in Hs as ([s' p'] & Hs & [= <-]). cbn [tsh tin]. rewrite app_nil_r. unfold ping_step in Hs.
    destruct p, a; try discriminate Hs.
    + destruct (ts_cancelled s); [|discriminate Hs]. by injection Hs as <- <-.
    + by injection Hs as <- <-.
    + destruct (t_writable s) eqn:Ew; [|discriminate Hs]. injection Hs as <- <-.
      split_and!; [done| |done|by apply prefix_app_r]. intros Hin. by destruct (send_close_last s OPing Ew Hc).
    + by injection Hs as <- <-.
Qed.

(** A close message goes out late. *)
Definition close_late (r : TState T) : Prop := OClose ∈ ts_sent (tsh r) -> (4 <= main_phase (tmain r))%nat.

Lemma server_step_late e (r r' : TState T) : close_late r -> t_step e r = Some r' -> close_late r'.
Proof.
  intros Hc Hs. destruct e as [t a], r as [s m o i p]. unfold close_late in *. cbn [t_step tsh tmain tout tin tping] in *. destruct t.
  - apply bind_Some in Hs as ([s' m'] & Hs & [= <-]). cbn [tsh tmain]. unfold main_step in Hs.
    destruct m, a; try discriminate Hs; [destruct (ts_errCh s); [discriminate Hs|]| | |destruct (t_writable s); [|discriminate Hs]|..];
      injection Hs as <- <-; cbn in *; intros Hin; lia || (specialize (Hc Hin); lia).
  - apply bind_Some in Hs as ([s' o'] & Hs & [= <-]). cbn [tsh tmain]. unfold out_step in Hs.
    destruct (out_pc o), a; try discriminate Hs.
    + destruct (_ || _); [discriminate Hs|]. by injection Hs as <- <-.
    + destruct (t_writable s); [|discriminate Hs]. injection Hs as <- <-. intros Hin. apply Hc.
      apply elem_of_app in Hin as [Hin|Hin]; [done|]. by apply list_elem_of_singleton in Hin.
    + by injection Hs as <- <-.
    + apply bind_Some in Hs as (s1 & Hr & [= <- <-]). apply report_spec in Hr as [_ ->]. done.
  - apply bind_Some in Hs as ([s' i'] & Hs & [= <-]). cbn [tsh tmain].
    pose proof (in_step_keeps _ _ _ _ _ Hs) as (_ & _ & K1 & _). by rewrite K1.
  - apply bind_Some in Hs as ([s' p'] & Hs & [= <-]). cbn [tsh tmain]. unfold ping_step in Hs.
    destruct p, a; try discriminate Hs; [destruct (ts_cancelled s); [|discriminate Hs]| |destruct (t_writable s); [|discriminate Hs]|];
      injection Hs as <- <-; try done. intros Hin. apply Hc.
    apply elem_of_app in Hin as [Hin|Hin]; [done|]. by apply list_elem_of_singleton in Hin.
Qed.

End Server.

(** ** Lemmas: the client's steps *)

Section Client.

Context {W : Type} `{Writer W} (werr derr : cerror).

Lemma li_step_sent a s i s' i' :
  li_step a s i = Some (s', i') -> r_sent s `prefix_of` r_sent s'.
Proof.
  unfold li_step. destruct (li_pc i) as [|d err| |e|r]; intros Hs.
  - destruct a; try discriminate Hs. destruct (_ <? _); [discriminate Hs|]. by destruct (0 <? _); injection Hs as <- <-.
  - apply bind_Some in Hs as ([s1 r] & Hw & [= <- <-]). unfold r_write in Hw. destruct a; try discriminate Hw.
    + destruct (_ || _); [discriminate Hw|]. injection Hw as <- <-. by apply prefix_app_r.
    + by injection Hw as <- <-.
  - apply bind_Some in Hs as ([s1 r] & Hw & [= <- <-]). unfold r_write in Hw. destruct a; try discriminate Hw.
    + destruct (_ || _); [discriminate Hw|]. injection Hw as <- <-. by apply prefix_app_r.
    + by injection Hw as <- <-.
  - destruct a; try discriminate Hs. apply bind_Some in Hs as (s1 & Hr & [= <- <-]). unfold r_report in Hr.
    destruct (_ <=? _)%nat; [discriminate Hr|]. by injection Hr as <-.
  - destruct a; discriminate Hs.
Qed.

Lemma lo_step_frames a s (o : LoState W) s' o' :
  lo_step werr derr a s o = Some (s', o') ->
  lo_frames o' = lo_frames o ++ match a with LReceives f => [f] | _ => [] end.
Proof.
  unfold lo_step. destruct o as [pc w frames]. cbn [lo_pc lo_out lo_frames]. intros Hs.
  destruct pc as [|q|e|e], a as [|e'|data rerr|f|]; try discriminate Hs.
  - injection Hs as <- <-. by rewrite app_nil_r.
  - destruct (r_open s); [|discriminate Hs]. by injection Hs as <- <-.
  - rewrite app_nil_r. destruct (q =?s ""); [by injection Hs as <- <-|]. destruct (Write w q) as [[w' n] b]. by injection Hs as <- <-.
  - rewrite app_nil_r. by apply bind_Some in Hs as (s1 & Hw & [= <- <-]).
Qed.

Lemma client_step_keeps e (r r' : RelayState W) :
  relay_step werr derr e r = Some r' ->
  r_sent (rsh r) `prefix_of` r_sent (rsh r')
  /\ lo_frames (rout r') = lo_frames (rout r) ++ match e with (ROutput, LReceives f) => [f] | _ => [] end.
Proof.
  intros Hs. destruct e as [t a], r as [s m i o p]. cbn [relay_step rsh rmain rin rout rwatch] in *. destruct t.
  - apply bind_Some in Hs as ([s' m'] & Hs & [= <-]). cbn [rsh rout]. rewrite app_nil_r. split; [|done]. unfold lm_step in Hs.
    destruct m, a; try discriminate Hs; [destruct (r_errCh s); [discriminate Hs|]|..]; by injection Hs as <- <-.
  - apply bind_Some in Hs as ([s' i'] & Hs & [= <-]). cbn [rsh rout]. rewrite app_nil_r. split; [by eapply li_step_sent|done].
  - apply bind_Some in Hs as ([s' o'] & Hs & [= <-]). cbn [rsh rout].
    pose proof (lo_step_keeps _ _ _ _ _ _ _ Hs) as (-> & _). split; [done|]. by apply lo_step_frames in Hs.
  - apply bind_Some in Hs as ([s' p'] & Hs & [= <-]). cbn [rsh rout]. rewrite app_nil_r. split; [|done]. unfold lw_step in Hs.
    destruct p, a; try discriminate Hs; [destruct (r_ctx s); [|discriminate Hs]|destruct (r_relay s); [|discriminate Hs]|];
      by injection Hs as <- <-.
  - destruct a; try discriminate Hs. injection Hs as <-. cbn [rsh rout r_signal r_sent]. by rewrite app_nil_r.
Qed.

End Client.

(** ** The invariant of the system *)

Lemma take_grown' {A} n (l l' : list A) : (n <= length l)%nat -> l `prefix_of` l' -> take n l' = take n l.
Proof. intros Hn [k ->]. by apply take_app_le. Qed.

Section Invariant.

Context {T : Type} `{TunnelTarget T} {W : Type} `{Writer W} (werr derr : cerror) (t0 : T) (w0 : W).

Record tun_inv (y : TunSystem T W) : Prop := {
  ty_srv : tunnel_inv t0 (tsrv y);
  ty_cause : in_cause (tin (tsrv y));
  ty_close : close_last (tsh (tsrv y));
  ty_late : close_late (tsrv y);
  ty_cli : relay_inv werr derr w0 (tcli y);
  ty_ends : ends_inv (tcli y);
  ty_in : in_frames (tin (tsrv y)) = take (tup y) (r_sent (rsh (tcli y)));
  ty_out : lo_frames (rout (tcli y)) = map BinaryMessage (sent_data (take (tdown y) (ts_sent (tsh (tsrv y)))));
  ty_up : (tup y <= length (r_sent (rsh (tcli y))))%nat;
  ty_down : (tdown y <= length (ts_sent (tsh (tsrv y))))%nat }.

Lemma tun_started_inv : tun_inv (tun_started t0 w0).
Proof.
  constructor; cbn; try done; try lia.
  - apply tunnel_reachable_inv. by exists [].
  - intros Hin. by apply elem_of_nil in Hin.
  - intros Hin. by apply elem_of_nil in Hin.
  - apply relay_started_inv.
Qed.

Lemma tun_server_moves e y s :
  (forall f, e <> (TToTarget, AReceives f)) -> tun_inv y -> t_step e (tsrv y) = Some s ->
  tun_inv (mkTunSystem s (tcli y) (tup y) (tdown y)).
Proof.
  intros Hne [H1 H2 H3 HL H4 H5 H6 H7 H8 H9] Hs.
  destruct (server_step_keeps _ _ _ H2 H3 Hs) as (K1 & K2 & K3 & K4).
  assert (in_frames (tin s) = in_frames (tin (tsrv y))) as K.
  { rewrite K3. destruct e as [[] []]; try apply app_nil_r. by destruct (Hne f). }
  constructor; cbn [tsrv tcli tup tdown]; [by eapply t_step_inv|done|done|by eapply server_step_late|done|done|by rewrite K| |done|].
  - by rewrite (take_grown' _ _ _ H9 K4).
  - apply prefix_length in K4. lia.
Qed.

Lemma tun_client_moves e y c :
  (forall f, e <> (ROutput, LReceives f)) -> tun_inv y -> relay_step werr derr e (tcli y) = Some c ->
  tun_inv (mkTunSystem (tsrv y) c (tup y) (tdown y)).
Proof.
  intros Hne [H1 H2 H3 HL H4 H5 H6 H7 H8 H9] Hs.
  destruct (client_step_keeps _ _ _ _ _ Hs) as (K1 & K2).
  assert (lo_frames (rout c) = lo_frames (rout (tcli y))) as K.
  { rewrite K2. destruct e as [[] []]; try apply app_nil_r. by destruct (Hne f). }
  constructor; cbn [tsrv tcli tup tdown];
    [done|done|done|done|by eapply relay_step_inv|by eapply ends_step| |by rewrite K| |done].
  - by rewrite (take_grown' _ _ _ H8 K1).
  - apply prefix_length in K1. lia.
Qed.

(** What the steps of the system are. *)
Lemma tun_step_cases ev y y' :
  tun_step werr derr ev y = Some y' ->
  (exists e s, ev = AtServer e /\ (forall f, e <> (TToTarget, AReceives f)) /\ t_step e (tsrv y) = Some s
     /\ y' = mkTunSystem s (tcli y) (tup y) (tdown y))
  \/ (exists e c, ev = AtClient e /\ (forall f, e <> (ROutput, LReceives f)) /\ relay_step werr derr e (tcli y) = Some c
     /\ y' = mkTunSystem (tsrv y) c (tup y) (tdown y))
  \/ (exists f s, ev = TunUp /\ r_sent (rsh (tcli y)) !! tup y = Some f /\ t_step (TToTarget, AReceives f) (tsrv y) = Some s
     /\ y' = mkTunSystem s (tcli y) (S (tup y)) (tdown y))
  \/ (exists o c, ev = TunDown /\ ts_sent (tsh (tsrv y)) !! tdown y = Some o
     /\ match tun_answer o with
        | Some a => relay_step werr derr (ROutput, a) (tcli y) = Some c
        | None => c = tcli y
        end
     /\ y' = mkTunSystem (tsrv y) c (tup y) (S (tdown y))).
Proof.
  intros Hs. destruct ev as [[t a]|[t a]| |].
  - left. destruct t, a; try discriminate Hs; apply bind_Some in Hs as (s & Hs & [= <-]); eexists _, s; by split_and!.
  - right. left. destruct t, a; try discriminate Hs; apply bind_Some in Hs as (s & Hs & [= <-]); eexists _, s; by split_and!.
  - right. right. left. cbn [tun_step] in Hs. apply bind_Some in Hs as (f & Hf & Hs). apply bind_Some in Hs as (s & Hs & [= <-]).
    by exists f, s.
  - right. right. right. cbn [tun_step] in Hs. apply bind_Some in Hs as (o & Ho & Hs).
    destruct (tun_answer o) as [a|] eqn:Ea; [apply bind_Some in Hs as (c & Hs & [= <-])|injection Hs as <-].
    + exists o, c. by rewrite Ea.
    + exists o, (tcli y). by rewrite Ea.
Qed.

Lemma sent_data_take_S n l o : l !! n = Some o ->
  sent_data (take (S n) l) = sent_data (take n l) ++ match o with OData d => [d] | _ => [] end.
Proof. intros Hl. rewrite (take_S_r _ _ _ Hl). unfold sent_data. rewrite omap_app. by destruct o. Qed.

Lemma tun_step_inv ev y y' : tun_inv y -> tun_step werr derr ev y = Some y' -> tun_inv y'.
Proof.
  intros Hi Hs.
  destruct (tun_step_cases _ _ _ Hs) as [(e & s & _ & Hne & He & ->)|[(e & c & _ & Hne & He & ->)|[(f & s & _ & Hf & He & ->)|(o & c & _ & Ho & He & ->)]]].
  - by eapply tun_server_moves.
  - by eapply tun_client_moves.
  - destruct Hi as [H1 H2 H3 HL H4 H5 H6 H7 H8 H9]. destruct (server_step_keeps _ _ _ H2 H3 He) as (K1 & K2 & K3 & K4).
    constructor; cbn [tsrv tcli tup tdown]; [by eapply t_step_inv|done|done|by eapply server_step_late|done|done| | | |].
    + by rewrite K3, H6, (take_S_r _ _ _ Hf).
    + by rewrite (take_grown' _ _ _ H9 K4).
    + apply lookup_lt_Some in Hf. lia.
    + apply prefix_length in K4. lia.
  - destruct Hi as [H1 H2 H3 HL H4 H5 H6 H7 H8 H9]. apply lookup_lt_Some in Ho as Hlt.
    destruct (tun_answer o) as [a|] eqn:Ea.
    + destruct (client_step_keeps _ _ _ _ _ He) as (K1 & K2).
      constructor; cbn [tsrv tcli tup tdown]; [done|done|done|done|by eapply relay_step_inv|by eapply ends_step| | | |lia].
      * by rewrite (take_grown' _ _ _ H8 K1).
      * rewrite K2, H7, (sent_data_take_S _ _ _ Ho), map_app. f_equal. destruct o; try discriminate Ea; by injection Ea as <-.
      * apply prefix_length in K1. lia.
    + subst c. constructor; cbn [tsrv tcli tup tdown]; try done; try lia.
      rewrite H7, (sent_data_take_S _ _ _ Ho). destruct o; try discriminate Ea. by rewrite app_nil_r.
Qed.

Lemma tun_run_inv es y y' : tun_inv y -> tun_run werr derr es y = Some y' -> tun_inv y'.
Proof.
  revert y; induction es as [|e es IH]; intros y Hi Hs; cbn [tun_run] in Hs; [by simplify_eq|].
  apply bind_Some in Hs as (y1 & H1 & Hs). eauto using tun_step_inv.
Qed.

Lemma tun_reachable_inv y : tun_reachable werr derr t0 w0 y -> tun_inv y.
Proof. intros [es Hs]. eapply tun_run_inv; [apply tun_started_inv|exact Hs]. Qed.

End Invariant.

(** ** Whose error ended the client *)

(** A failure of the world: an error of the kernel or the network, or a close
    message with another code than the two of a normal end (gorilla/websocket
    reports a connection that ends without one as code 1006). *)
Fixpoint world_error (e : cerror) : Prop :=
  match e with
  | NetError _ _ | Plain _ | RemoteExit _ _ => True
  | CloseError code _ _ => code <> 1000 /\ code <> 1001
  | Wrap _ cause => world_error cause
  | EOF | Canceled => False
  end.

(** What fails at the client fails by itself: reads of standard input end in the
    end of file or such a failure, writes and reads of the connection in such a
    failure.  (The server's close message is an event of its own.) *)
Definition world_failures (ev : TunEvent) : Prop :=
  match ev with
  | AtClient (RInput, LReads _ (Some e)) => e = EOF \/ world_error e
  | AtClient (_, LFails e) => world_error e
  | _ => True
  end.

(** An error that [relayTunnel] reports. *)
Definition own (e : cerror) : Prop := relayTunnel (Some e) <> None.

Lemma world_error_own e : world_error e -> own e.
Proof.
  intros He. unfold own, relayTunnel.
  assert (is_EOF e = false /\ is_Canceled e = false) as [-> ->].
  { unfold is_EOF, is_Canceled. induction e; cbn in *; try done; auto. }
  cbn [orb]. destruct e; cbn in He |- *; try done. unfold CloseNormalClosure, CloseGoingAway.
  destruct He as [H1%Z.eqb_neq H2%Z.eqb_neq]. by rewrite H1, H2.
Qed.

Definition own_failures (ev : TunEvent) : Prop :=
  match ev with
  | AtClient (RInput, LReads _ (Some e)) => is_EOF e = true \/ own e
  | AtClient (_, LFails e) => own e
  | _ => True
  end.

Lemma world_failures_own ev : world_failures ev -> own_failures ev.
Proof.
  destruct ev as [?|[t a]| |]; try done. destruct t, a as [|e|d [e|]|f|]; cbn; try done;
    try apply world_error_own. intros [->|H]; [by left|right; by apply world_error_own].
Qed.

Section Cause.

Context {T : Type} `{TunnelTarget T} {W : Type} `{Writer W} (werr derr : cerror) (t0 : T) (w0 : W) (Hwerr : own werr).

Definition li_own (i : LiState) : Prop :=
  match li_pc i with
  | LiWrite _ (Some e) => is_EOF e = true \/ own e
  | LiReport e | LiEnd (Some e) => own e
  | _ => True
  end.

Definition lo_own (closed : Prop) (o : LoState W) : Prop :=
  match lo_pc o with LoReport e | LoEnd e => own e \/ closed | _ => True end.

Lemma li_after_own e chunks : (forall x, e = Some x -> is_EOF x = true \/ own x) -> li_own (mkLi (li_after e) chunks).
Proof.
  intros He. unfold li_own, li_after. cbn [li_pc]. destruct e as [x|]; [|done].
  destruct (is_EOF x) eqn:E; [done|]. destruct (He x eq_refl) as [Hx|Hx]; [congruence|done].
Qed.

Lemma li_step_own a s i s' i' : own_failures (AtClient (RInput, a)) -> li_own i -> li_step a s i = Some (s', i') -> li_own i'.
Proof.
  intros Hok Hi Hs. destruct i as [pc chunks]. unfold li_step in Hs. cbn [li_pc li_chunks] in *.
  destruct pc as [|d err| |e|r].
  - destruct a as [| |data err| |]; try discriminate Hs. destruct (_ <? len data); [discriminate Hs|].
    destruct (0 <? len data); injection Hs as <- <-.
    + by destruct err.
    + apply li_after_own. by intros x ->.
  - apply bind_Some in Hs as ([s1 r] & Hw & [= <- <-]). unfold r_write in Hw. destruct a; try discriminate Hw.
    + destruct (_ || _); [discriminate Hw|]. injection Hw as <- <-. apply li_after_own. by intros x ->.
    + injection Hw as <- <-. exact Hok.
  - apply bind_Some in Hs as ([s1 r] & Hw & [= <- <-]). unfold r_write in Hw. destruct a; try discriminate Hw.
    + destruct (_ || _); [discriminate Hw|]. by injection Hw as <- <-.
    + injection Hw as <- <-. exact Hok.
  - destruct a; try discriminate Hs. apply bind_Some in Hs as (s1 & Hw & [= <- <-]). exact Hi.
  - destruct a; discriminate Hs.
Qed.

Lemma lo_step_own (closed : Prop) a s (o : LoState W) s' o' :
  match a with LReceives f => exists d, f = BinaryMessage d | LFails e => own e \/ closed | _ => True end ->
  lo_own closed o -> lo_step werr derr a s o = Some (s', o') -> lo_own closed o'.
Proof.
  intros Ha Ho Hs. destruct o as [pc w frames]. unfold lo_step in Hs. unfold lo_own in *. cbn [lo_pc lo_out lo_frames] in *.
  destruct pc as [|q|e|e], a as [|e'|data rerr|f|]; try discriminate Hs.
  - by injection Hs as <- <-.
  - destruct (r_open s); [|discriminate Hs]. injection Hs as <- <-. by destruct Ha as [d ->].
  - destruct (q =?s ""); [by injection Hs as <- <-|]. destruct (Write w q) as [[w' n] b]. injection Hs as <- <-.
    cbn [lo_pc]. destruct b; [by left|]. by destruct (n =? 0)%nat; [left|].
  - apply bind_Some in Hs as (s1 & Hw & [= <- <-]). exact Ho.
Qed.

(** What the close message means to the client. *)
Definition closed_clean (y : TunSystem T W) : Prop :=
  OClose ∈ ts_sent (tsh (tsrv y))
  /\ accepted (lo_out (rout (tcli y))) = accepted w0 +:+ concat_str (sent_data (ts_sent (tsh (tsrv y)))).

Record own_inv (y : TunSystem T W) : Prop := {
  ow_in : li_own (rin (tcli y));
  ow_out : lo_own (closed_clean y) (rout (tcli y)) }.

(** Output that ended does not change, and after a close message nothing is sent. *)
Lemma closed_server_keeps e y s :
  tun_inv werr derr t0 w0 y -> t_step e (tsrv y) = Some s -> closed_clean y -> closed_clean (mkTunSystem s (tcli y) (tup y) (tdown y)).
Proof.
  intros Hi Hs [Hc Ha]. destruct (server_step_keeps _ _ _ (ty_cause _ _ _ _ _ Hi) (ty_close _ _ _ _ _ Hi) Hs) as (_ & K2 & _ & K4).
  destruct (ty_close _ _ _ _ _ Hi Hc) as (_ & pre & Hpre & Hnot).
  assert (OClose ∈ ts_sent (tsh s)) as Hin by (destruct K4 as [k ->]; apply elem_of_app; by left).
  destruct (K2 Hin) as (_ & pre' & Hpre' & Hnot').
  assert (ts_sent (tsh s) = ts_sent (tsh (tsrv y))) as Heq.
  { destruct K4 as [k Hk]. destruct k as [|o k]; [by rewrite app_nil_r in Hk|exfalso]. apply Hnot'.
    rewrite Hpre' in Hk. destruct (exists_last (l := o :: k)) as (l & x & El); [done|]. rewrite El, Hpre, app_assoc in Hk.
    apply app_inj_tail in Hk as [-> _]. apply elem_of_app. left. apply elem_of_app. right. by apply list_elem_of_singleton. }
  split; cbn [tsrv tcli]; by rewrite Heq.
Qed.

Lemma lo_ended_out a s (o : LoState W) s' o' e :
  lo_pc o = LoReport e \/ lo_pc o = LoEnd e -> lo_step werr derr a s o = Some (s', o') -> lo_out o' = lo_out o.
Proof.
  intros Hpc Hs. destruct o as [pc w frames]. unfold lo_step in Hs. cbn [lo_pc lo_out lo_frames] in *.
  destruct Hpc as [-> | ->], a; try discriminate Hs. by apply bind_Some in Hs as (s1 & _ & [= <- <-]).
Qed.

Lemma lo_own_mono (c c' : Prop) o :
  (forall e, lo_pc o = LoReport e \/ lo_pc o = LoEnd e -> c -> c') -> lo_own c o -> lo_own c' o.
Proof.
  unfold lo_own. intros Hc Ho. destruct (lo_pc o) as [|q|e|e]; try done;
    (destruct Ho as [Ho|Ho]; [by left|right]; apply (Hc e); auto).
Qed.

(** Where the client reads the close message it has written everything. *)
Lemma close_received y c :
  tun_inv werr derr t0 w0 y -> ts_sent (tsh (tsrv y)) !! tdown y = Some OClose ->
  relay_step werr derr (ROutput, LFails closed_by_server) (tcli y) = Some c ->
  closed_clean (mkTunSystem (tsrv y) c (tup y) (S (tdown y))).
Proof.
  intros [_ _ H3 _ [_ [_ (tail & Hb & Ht)] _ _ _ _] _ _ H7 _ _] Ho Hs.
  assert (OClose ∈ ts_sent (tsh (tsrv y))) as Hin by (by eapply list_elem_of_lookup_2).
  destruct (H3 Hin) as (_ & pre & Hpre & Hnot). split; cbn [tsrv tcli]; [done|].
  assert (tdown y = length pre) as Hd.
  { rewrite Hpre in Ho. destruct (decide (tdown y < length pre)%nat) as [Hlt|Hge].
    - rewrite lookup_app_l in Ho by done. destruct Hnot. by eapply list_elem_of_lookup_2.
    - apply lookup_lt_Some in Ho. rewrite length_app in Ho. cbn in Ho. lia. }
  cbn [relay_step] in Hs. apply bind_Some in Hs as ([s' o'] & Hs & [= <-]). cbn [rout]. unfold lo_step in Hs.
  destruct (lo_pc (rout (tcli y))) eqn:Ep; try discriminate Hs. injection Hs as <- <-. cbn [lo_out].
  subst tail. rewrite str_app_nil_r in Hb. rewrite Hb, H7, Hpre, Hd, take_app_length. f_equal.
  unfold sent_data. rewrite omap_app. cbn [omap list_omap]. rewrite app_nil_r. fold (sent_data pre).
  clear. induction (sent_data pre) as [|d l IH]; [done|]. exact (f_equal _ IH).
Qed.

Lemma own_step ev y y' :
  own_failures ev -> tun_inv werr derr t0 w0 y -> own_inv y -> tun_step werr derr ev y = Some y' -> own_inv y'.
Proof.
  intros Hok Hi [Hin Hout] Hs.
  destruct (tun_step_cases _ _ _ _ _ Hs) as [(e & s & -> & Hne & He & ->)|[(e & c & -> & Hne & He & ->)|[(f & s & -> & Hf & He & ->)|(o & c & -> & Ho & He & ->)]]].
  - constructor; [done|]. cbn [tcli]. eapply lo_own_mono; [|exact Hout]. intros e' _. by eapply closed_server_keeps.
  - destruct y as [srv cli u d]. cbn [tsrv tcli tup tdown] in *. destruct e as [t a], cli as [s m i o w].
    cbn [relay_step rsh rmain rin rout rwatch] in *. destruct t.
    + apply bind_Some in He as ([s' m'] & He & [= <-]). by constructor.
    + apply bind_Some in He as ([s' i'] & He & [= <-]). constructor; [by eapply li_step_own|done].
    + apply bind_Some in He as ([s' o'] & He & [= <-]). constructor; [done|]. cbn [tcli rout].
      eapply lo_step_own; [| |exact He].
      * destruct a as [|e| |f|]; [done|by left|done|by destruct (Hne f)|done].
      * eapply lo_own_mono; [|exact Hout]. intros e Hpc [Hc Ha]. split; [done|]. cbn [tcli rout] in *.
        by rewrite (lo_ended_out _ _ _ _ _ _ Hpc He).
    + apply bind_Some in He as ([s' p'] & He & [= <-]). by constructor.
    + destruct a; try discriminate He. by injection He as <-.
  - constructor; [done|]. cbn [tcli]. eapply lo_own_mono; [|exact Hout]. intros e' _ Hc.
    by apply (closed_server_keeps _ _ _ Hi He).
  - destruct (tun_answer o) as [a|] eqn:Ea; [|by subst c].
    pose proof (close_received y c Hi) as Hclose.
    pose proof He as Hstep. cbn [relay_step] in He. apply bind_Some in He as ([s' o'] & He & Hcq).
    injection Hcq as Hcq. subst c. constructor; [done|]. cbn [tcli rout]. eapply lo_step_own; [| |exact He].
    + destruct o; try discriminate Ea; injection Ea as <-; [by eexists|]. right. by apply Hclose.
    + eapply lo_own_mono; [|exact Hout]. intros e Hpc [Hc Ha]. split; [done|]. cbn [tcli rout] in *.
      by rewrite (lo_ended_out _ _ _ _ _ _ Hpc He).
Qed.

Lemma own_run es y y' :
  Forall own_failures es -> tun_inv werr derr t0 w0 y -> own_inv y -> tun_run werr derr es y = Some y' -> own_inv y'.
Proof.
  revert y; induction es as [|e es IH]; intros y Hok Hi Ho Hs; cbn [tun_run] in Hs; [by simplify_eq|].
  apply Forall_cons in Hok as [He Hok]. apply bind_Some in Hs as (y1 & H1 & Hs).
  apply (IH y1); [done|by eapply tun_step_inv|by eapply own_step|done].
Qed.

End Cause.

(** ** Lemmas: the bytes *)

Lemma binary_payloads_map l : binary_payloads (map BinaryMessage l) = l.
Proof. induction l as [|d l IH]; [done|]. exact (f_equal _ IH). Qed.

Lemma sent_data_prefix l k : l `prefix_of` k -> sent_data l `prefix_of` sent_data k.
Proof. intros [j ->]. unfold sent_data. rewrite omap_app. by apply prefix_app_r. Qed.

Lemma concat_str_prefix l k : l `prefix_of` k -> exists tail, concat_str k = concat_str l +:+ tail.
Proof. intros [j ->]. rewrite concat_str_app. by eexists. Qed.

Lemma take_prefix_of' {A} n (l : list A) : take n l `prefix_of` l.
Proof. exists (drop n l). by rewrite take_drop. Qed.

Lemma payloads_taken n l k : binary_payloads l `prefix_of` k -> binary_payloads (take n l) `prefix_of` k.
Proof.
  intros Hk. etransitivity; [|exact Hk]. rewrite <- (take_drop n l) at 2. rewrite binary_payloads_app. by apply prefix_app_r.
Qed.

Lemma text_sent sent eof n p :
  (eof = [] \/ eof = [tunnel_eof]) -> TextMessage p ∈ take n (map BinaryMessage sent ++ eof) ->
  eof = [tunnel_eof] /\ TextMessage p = tunnel_eof /\ take n (map BinaryMessage sent ++ eof) = map BinaryMessage sent ++ eof.
Proof.
  intros He Hin. rewrite take_app in Hin |- *. apply elem_of_app in Hin as [Hin|Hin].
  - exfalso. apply elem_of_take in Hin as (k & Hk & _). apply list_elem_of_lookup_2, list_elem_of_fmap in Hk as (d & Hd & _). done.
  - destruct He as [-> | ->]; [by rewrite take_nil in Hin; apply elem_of_nil in Hin|].
    destruct (n - length _)%nat as [|k] eqn:En; [by apply elem_of_nil in Hin|]. cbn in Hin.
    apply elem_of_cons in Hin as [Hin|Hin]; [|by rewrite take_nil in Hin; apply elem_of_nil in Hin].
    split; [done|]. split; [done|]. rewrite take_ge by lia. cbn. by rewrite take_nil.
Qed.

(** ** Properties *)

(** A schedule for the witnesses: the client's input is one chunk and its end,
    the target answers and closes. *)
Definition tunnel_system_schedule : list TunEvent :=
  let client t a := AtClient (t, a) in
  let server t a := AtServer (t, a) in
  [client RInput (LReads "hello" (Some EOF)); client RInput LGo; server TKeepAlive ATick; server TKeepAlive AGo; client RInput LGo;
   TunUp; server TToTarget AGo; TunDown; server TToTarget AGo; server TToTarget AGo; server TToTarget AGo; TunUp;
   server TToTarget AGo;
   server TFromTarget (AReads "answer" true); server TFromTarget AGo; TunDown; client ROutput LGo; client ROutput LGo;
   server TFromTarget AGo; server TMain AGo; server TMain AGo; server TMain AGo; server TMain AGo; TunDown;
   client ROutput LGo; client RMain LGo; client RMain LGo; client RMain LGo; client RMain LGo].

Definition tunnel_system_after (es : list TunEvent) : TunSystem Buffer string :=
  default (tun_started (mkBuffer 2 "") "")
    (tun_run (Plain "write") (Plain "decode") es (tun_started (mkBuffer 2 "") "")).

Lemma tunnel_system_after_run es :
  is_Some (tun_run (Plain "write") (Plain "decode") es (tun_started (T := Buffer) (mkBuffer 2 "") "")) ->
  tun_run (Plain "write") (Plain "decode") es (tun_started (mkBuffer 2 "") "") = Some (tunnel_system_after es).
Proof. intros [y Hs]. unfold tunnel_system_after. by rewrite Hs. Qed.

Example tunnel_system_result :
  let y := tunnel_system_after tunnel_system_schedule in
  buf_text (ts_target (tsh (tsrv y))) = "hello" /\ lo_out (rout (tcli y)) = "answer" /\ rmain (tcli y) = LmDone None.
Proof. vm_compute. repeat split. Qed.

(** C5.  A tunnel carries the bytes, under every schedule of the goroutines of both
    ends: at every moment the target has been given the first bytes of the
    client's standard input, and standard output the first bytes that the target
    sent; no message is too long for the server or of a kind it rejects; and the
    target's sending side is closed only where standard input has ended and the
    target has been given all of it. *)
Theorem tunnel_carries :
  forall T (HT : TunnelTarget T) W (HW : Writer W) werr derr (t0 : T) (w0 : W) y,
    tun_reachable werr derr t0 w0 y ->
    let input := concat_str (li_chunks (rin (tcli y))) in
    (exists tail, accepted (ts_target (tsh (tsrv y))) +:+ tail = accepted t0 +:+ input)
    /\ (exists tail, accepted (lo_out (rout (tcli y))) +:+ tail = accepted w0 +:+ concat_str (read_data (out_reads (tout (tsrv y)))))
    /\ Forall (fun f => len (default "" (frame_data f)) <= tunnelMaxMessageBytes) (r_sent (rsh (tcli y)))
    /\ in_pc (tin (tsrv y)) <> InReport UnexpectedMessage /\ in_pc (tin (tsrv y)) <> InEnd UnexpectedMessage
    /\ (in_pc (tin (tsrv y)) = InCloseWrite ->
          accepted (ts_target (tsh (tsrv y))) = accepted t0 +:+ input /\ li_pc (rin (tcli y)) = LiEnd None).
Proof.
  intros T HT W HW werr derr t0 w0 y Hr input.
  destruct (tun_reachable_inv _ _ _ _ _ Hr)
    as [[_ [_ (tail1 & Hb1 & Ht1)] [(lost & Hl & _) _ _]] Hcause _ _ [Hli [_ (tail2 & Hb2 & _)] _ _ _ _] [Hlen _ _] Hin Hout _ _].
  destruct (sent_frames _ _ Hli) as (sent & eof & Hs & Hp & He).
  assert (binary_payloads (map BinaryMessage sent ++ eof) = sent) as Hbin.
  { rewrite binary_payloads_app, binary_payloads_map. by destruct He as [-> |[-> _]]; apply app_nil_r. }
  assert (eof = [] \/ eof = [tunnel_eof]) as Heof by (destruct He as [?|[? _]]; auto).
  rewrite Hin, Hs in Hb1. unfold in_cause in Hcause. rewrite Hin, Hs in Hcause.
  assert (forall f, f ∈ take (tup y) (map BinaryMessage sent ++ eof) -> ~ bad_frame f) as Hgood.
  { intros f Hf Hbad. apply elem_of_take in Hf as (k & Hk & _). apply list_elem_of_lookup_2, elem_of_app in Hk as [Hk|Hk].
    - by apply list_elem_of_fmap in Hk as (d & -> & _).
    - destruct Heof as [-> | ->]; [by apply elem_of_nil in Hk|]. by apply list_elem_of_singleton in Hk as ->. }
  split_and!.
  - rewrite <- Hbin in Hp. destruct (concat_str_prefix _ _ (payloads_taken (tup y) _ _ Hp)) as [k Hk].
    exists (tail1 +:+ k). unfold input. by rewrite Hk, <- !str_app_assoc, Hb1.
  - rewrite Hout, binary_payloads_map in Hb2.
    assert (sent_data (take (tdown y) (ts_sent (tsh (tsrv y)))) `prefix_of` read_data (out_reads (tout (tsrv y)))) as Hpre.
    { rewrite <- Hl. etransitivity; [apply sent_data_prefix, take_prefix_of'|by apply prefix_app_r]. }
    destruct (concat_str_prefix _ _ Hpre) as [k Hk]. exists (tail2 +:+ k). by rewrite Hk, <- !str_app_assoc, Hb2.
  - rewrite Hs. apply Forall_app. split.
    + destruct Hp as [k Hk]. rewrite Hk in Hlen. apply Forall_app in Hlen as [Hlen _]. apply Forall_fmap.
      eapply Forall_impl; [exact Hlen|]. intros d Hd. cbn in *. unfold tunnelMaxMessageBytes. lia.
    + destruct Heof as [-> | ->]; repeat constructor. vm_compute. discriminate.
  - intros Hpc. rewrite Hpc in Hcause. destruct Hcause as (f & Hf & Hbad). by apply (Hgood f).
  - intros Hpc. rewrite Hpc in Hcause. destruct Hcause as (f & Hf & Hbad). by apply (Hgood f).
  - intros Hpc. rewrite Hpc in Hcause, Ht1. destruct Hcause as (p & Hf). subst tail1. rewrite str_app_nil_r in Hb1.
    destruct (text_sent _ _ _ _ Heof Hf) as (-> & _ & Hall). rewrite Hall, Hbin in Hb1.
    destruct He as [?|(_ & Hsent & Hend)]; [done|]. unfold input. by rewrite Hb1, Hsent.
Qed.

Lemma tunnel_carries_witness :
  let y := tunnel_system_after (firstn 12 tunnel_system_schedule) in
  accepted (ts_target (tsh (tsrv y))) = "hello" /\ li_pc (rin (tcli y)) = LiEnd None.
Proof.
  destruct (tunnel_carries Buffer buffer_target string string_writer (Plain "write") (Plain "decode") (mkBuffer 2 "") ""
    (tunnel_system_after (firstn 12 tunnel_system_schedule))) as (_ & _ & _ & _ & _ & H).
  - exists (firstn 12 tunnel_system_schedule). apply tunnel_system_after_run. vm_compute. by eexists.
  - destruct H as [H1 H2]; [vm_compute; reflexivity|]. split; [|exact H2]. etransitivity; [exact H1|]. vm_compute. reflexivity.
Defined.

(** C9.  What success of the client's tunnel means, under every schedule: where
    [relayTunnel] returns nil, the server did close the tunnel, and standard
    output was given every byte that the server sent.  Reads of standard input
    may end in the end of file, and may fail like writes and the connection, with
    any error but a cancellation and a normal close that the server did not send.
    So a read of standard input that fails, a broken connection or an interrupt
    is never taken for success; not even the interrupt, although [relayTunnel] excuses
    [context.Canceled]: the watcher closes the connection, and what the read
    loop reports is the error of a closed connection. *)
Theorem tunnel_success_true :
  forall T (HT : TunnelTarget T) W (HW : Writer W) werr derr (t0 : T) (w0 : W) es y,
    world_error werr -> Forall world_failures es ->
    tun_run werr derr es (tun_started t0 w0) = Some y -> rmain (tcli y) = LmDone None ->
    OClose ∈ ts_sent (tsh (tsrv y)) /\ ts_cancelled (tsh (tsrv y)) = true /\ ts_target_up (tsh (tsrv y)) = false
    /\ accepted (lo_out (rout (tcli y))) = accepted w0 +:+ concat_str (sent_data (ts_sent (tsh (tsrv y)))).
Proof.
  intros T HT W HW werr derr t0 w0 es y Hw Hok Hs Hm.
  pose proof (tun_started_inv werr derr t0 w0) as Hi0.
  pose proof (tun_run_inv _ _ _ _ _ _ _ Hi0 Hs) as Hi.
  assert (own_inv w0 y) as [Hin Hout].
  { eapply own_run; [by apply world_error_own| |exact Hi0| |exact Hs]; [|by constructor].
    eapply Forall_impl; [exact Hok|exact world_failures_own]. }
  destruct (en_done _ (ty_ends _ _ _ _ _ Hi) None Hm) as (x & (e & -> & He) & Hx).
  destruct He as [He|He].
  - exfalso. unfold li_own in Hin. rewrite He in Hin. by apply Hin.
  - unfold lo_own in Hout. rewrite He in Hout. destruct Hout as [Hout|[Hc Ha]]; [by destruct Hout|].
    split; [done|].
    pose proof (ty_late _ _ _ _ _ Hi Hc) as Hl. destruct (ti_stage _ _ (ty_srv _ _ _ _ _ Hi)) as [Ht _ Hca _ _].
    rewrite Hca, Ht. split; [by apply Nat.leb_le; lia|]. split; [by apply Nat.leb_gt; lia|done].
Qed.

Lemma tunnel_success_true_witness :
  let y := tunnel_system_after tunnel_system_schedule in
  ts_target_up (tsh (tsrv y)) = false
  /\ accepted (lo_out (rout (tcli y))) = "answer".
Proof.
  destruct (tunnel_success_true Buffer buffer_target string string_writer (Plain "write") (Plain "decode") (mkBuffer 2 "") ""
    tunnel_system_schedule (tunnel_system_after tunnel_system_schedule)) as (_ & _ & H1 & H2).
  - exact I.
  - repeat constructor.
  - apply tunnel_system_after_run. vm_compute. by eexists.
  - vm_compute. reflexivity.
  - split; [exact H1|]. etransitivity; [exact H2|]. vm_compute. reflexivity.
Defined.
