(* ===== verification/Doh.v ===== *)
(** * DNS over HTTPS (internal/cli/doh.go)

    The client's private connections resolve the server's name through two
    HTTPS DNS providers.  The model has the literal addresses, the decoding and
    filtering of an answer, the two queries of a provider and the loop over the
    providers with the share of the remaining time each gets.

    What the providers answer is an argument, and so is the time they take:
    contexts and their deadlines are the durations left, in nanoseconds. *)

From S2P Require Import Prelude GoStrings GoTime Json JsonDecode Netip NetipText CliError CliOptions CliUrl.

Definition dohMaxBodyBytes : Z := 64 * 1024.
Definition dohQueryTimeout : Z := 10 * Second.
Definition dohTypeA : Z := 1.
Definition dohTypeAAAA : Z := 28.
Definition dohStatusNoError : Z := 0.

Definition defaultDoHEndpoints : list string :=
  ["https://doh.pub/dns-query"; "https://dns.alidns.com/resolve"].

(** ** Addresses *)

Definition parseLiteralIP (host : string) : option Addr :=
  match ParseIP host with
  | Some ip => Some ip
  | None =>
      if HasPrefix host "[" && HasSuffix host "]"
      then ParseIP (str_take (String.length host - 2) (str_drop 1 host)) else None
  end.

(** ** Answers *)

Record dohAnswer : Type := mkDohAnswer { da_Name : string; da_Type : Z; da_Data : string }.
Record dohResponse : Type := mkDohResponse { dr_Status : option Z; dr_Answer : list dohAnswer }.

Definition dohAnswer_fields : list (field dohAnswer) := [
  mkField "name" da_Name dec_string (fun x '(mkDohAnswer _ b c) => mkDohAnswer x b c);
  mkField "type" da_Type dec_int (fun x '(mkDohAnswer a _ c) => mkDohAnswer a x c);
  mkField "data" da_Data dec_string (fun x '(mkDohAnswer a b _) => mkDohAnswer a b x) ].

Definition dohResponse_fields : list (field dohResponse) := [
  mkField "Status" dr_Status (dec_ptr 0 dec_int) (fun x '(mkDohResponse _ b) => mkDohResponse x b);
  mkField "Answer" dr_Answer (fun v _ => dec_slice (mkDohAnswer "" 0 "") (dec_struct dohAnswer_fields) v)
    (fun x '(mkDohResponse a _) => mkDohResponse a x) ].

(** The address of one answer, if it is of the type asked for. *)
Definition answer_address (rrType : Z) (answer : dohAnswer) : option Addr :=
  if negb (da_Type answer =? rrType) then None
  else match ParseIP (TrimSpace (da_Data answer)) with
       | None => None
       | Some ip => if rrType =? dohTypeA then if Is4 ip then Some ip else None
                    else if Is4 ip then None else Some ip
       end.

Definition filterAddresses (answers : list dohAnswer) (rrType : Z) : list Addr :=
  omap (answer_address rrType) answers.

Definition dohTypeName (rrType : Z) : string := if rrType =? dohTypeAAAA then "AAAA" else "A".

(** ** Queries *)

(** How the request of a query went; a failure may be the context's. *)
Inductive Reply : Type :=
| RequestFailed (ctx : option cerror)
| BodyFailed (ctx : option cerror)
| Answered (status : Z) (body : string).

(** A query to a provider. *)
Record DoHRequest : Type := mkDoHRequest { dq_URL : URL; dq_Name : string; dq_Type : string }.

(** The errors of a lookup joined, one per line. *)
Definition join_errors (errs : list cerror) : cerror :=
  Plain (String.concat (String (chr 10) "") (map cError errs)).

(** [withDoHTimeout] on the time the context has left, if it has a deadline. *)
Definition withDoHTimeout (deadline : option Z) : Z := default (4 * dohQueryTimeout) deadline.

(** The time of one provider: an equal share of what is left, at most two
    queries' worth. *)
Definition endpoint_budget (remaining : Z) (providers : nat) : Z :=
  let budget := Z.quot remaining (Z.of_nat providers) in
  if 2 * dohQueryTimeout <? budget then 2 * dohQueryTimeout else budget.

Section Lookup.

(** [url.Parse]; the reply of a provider to the query for a name and a type
    within a budget; the error of the provider's context after that query; and
    the time the provider took in all. *)
Context (Parse : string -> option URL)
        (reply : string -> string -> string -> Z -> Reply)
        (expired : string -> Z -> Z -> option cerror)
        (spent : string -> Z -> Z).

Definition endpointHost (endpoint : string) : string :=
  match Parse endpoint with
  | Some u => if URL_Host u =?s "" then "endpoint" else URL_Host u
  | None => "endpoint"
  end.

Definition query (endpoint host : string) (rrType budget : Z) : result cerror (list Addr) :=
  let! u := of_option (Plain "doh: invalid endpoint") (Parse endpoint) in
  reject! negb (URL_Scheme u =?s "https") || (URL_Host u =?s "") with Plain "doh: invalid endpoint" in
  let failure what := Plain ("doh: " +:+ endpointHost endpoint +:+ ": " +:+ what) in
  match reply endpoint host (dohTypeName rrType) budget with
  | RequestFailed ctx => Err (default (failure "request failed") ctx)
  | BodyFailed ctx => Err (default (failure "read response") ctx)
  | Answered status body =>
      reject! dohMaxBodyBytes <? len body with failure "response too large" in
      require! status =? 200 else failure ("unexpected http status " +:+ Itoa status) in
      let! parsed := of_option (failure "invalid json response")
                       (unmarshal (dec_struct dohResponse_fields) body (mkDohResponse None [])) in
      let! dns := of_option (failure "missing dns status") (dr_Status parsed) in
      require! dns =? dohStatusNoError else failure ("dns status " +:+ Itoa dns) in
      Ok (filterAddresses (dr_Answer parsed) rrType)
  end.

(** The addresses of a query, none when it failed. *)
Definition addresses (r : result cerror (list Addr)) : list Addr :=
  match r with Ok ips => ips | Err _ => [] end.

Definition lookupEndpoint (endpoint host : string) (budget : Z) : result cerror (list Addr) :=
  let r4 := query endpoint host dohTypeA budget in
  if negb (length (addresses r4) =? 0)%nat then Ok (addresses r4)
  else
    match expired endpoint dohTypeA budget with
    | Some e => Err e
    | None =>
        let r6 := query endpoint host dohTypeAAAA budget in
        if negb (length (addresses r6) =? 0)%nat then Ok (addresses r6)
        else
          match expired endpoint dohTypeAAAA budget with
          | Some e => Err e
          | None =>
              match r4, r6 with
              | Err e4, Err e6 => Err (join_errors [e4; e6])
              | Err e4, _ => Err e4
              | _, Err e6 => Err e6
              | _, _ => Ok []
              end
          end
    end.

(** The loop over the providers, with the time left and the errors so far. *)
Fixpoint lookup_loop (endpoints : list string) (host : string) (remaining : Z) (errs : list cerror)
    : result cerror (list Addr) :=
  match endpoints with
  | [] => Err (match errs with [] => Plain "doh: no address records" | _ => join_errors errs end)
  | endpoint :: rest =>
      let budget := endpoint_budget remaining (length endpoints) in
      let left := remaining - spent endpoint budget in
      match lookupEndpoint endpoint host budget with
      | Ok (ip :: ips) => Ok (ip :: ips)
      | Ok [] =>
          let errs := errs ++ [Plain ("doh: " +:+ endpointHost endpoint +:+ ": no address records")] in
          if left <=? 0 then Err (join_errors errs) else lookup_loop rest host left errs
      | Err e =>
          let errs := errs ++ [e] in
          if left <=? 0 then Err (join_errors errs) else lookup_loop rest host left errs
      end
  end.

Definition lookup (endpoints : list string) (host : string) (deadline : option Z)
    : result cerror (list Addr) :=
  let host := TrimSpace host in
  reject! host =?s "" with Plain "doh: empty host" in
  match parseLiteralIP host with
  | Some ip => Ok [ip]
  | None =>
      reject! (length endpoints =? 0)%nat with Plain "doh: no endpoints configured" in
      lookup_loop endpoints host (withDoHTimeout deadline) []
  end.

(** ** The requests of a lookup *)

(** The request of a query: the provider's URL, and the name and type that are
    added to it. *)
Definition query_request (endpoint host : string) (rrType : Z) : list DoHRequest :=
  match Parse endpoint with
  | Some u => if negb (URL_Scheme u =?s "https") || (URL_Host u =?s "") then []
              else [mkDoHRequest u host (dohTypeName rrType)]
  | None => []
  end.

Definition endpoint_requests (endpoint host : string) (budget : Z) : list DoHRequest :=
  query_request endpoint host dohTypeA
  ++ (if negb (length (addresses (query endpoint host dohTypeA budget)) =? 0)%nat then []
      else match expired endpoint dohTypeA budget with
           | Some _ => []
           | None => query_request endpoint host dohTypeAAAA
           end).

Fixpoint loop_requests (endpoints : list string) (host : string) (remaining : Z) : list DoHRequest :=
  match endpoints with
  | [] => []
  | endpoint :: rest =>
      let budget := endpoint_budget remaining (length endpoints) in
      let left := remaining - spent endpoint budget in
      endpoint_requests endpoint host budget
      ++ match lookupEndpoint endpoint host budget with
         | Ok (_ :: _) => []
         | _ => if left <=? 0 then [] else loop_requests rest host left
         end
  end.

Definition lookup_requests (endpoints : list string) (host : string) (deadline : option Z) : list DoHRequest :=
  let host := TrimSpace host in
  if host =?s "" then []
  else match parseLiteralIP host with
       | Some _ => []
       | None => loop_requests endpoints host (withDoHTimeout deadline)
       end.

(** ** Lemmas *)

(** What a lookup sends: the name it was asked for, to providers of the list,
    with HTTPS. *)
Definition request_to (endpoints : list string) (host : string) (r : DoHRequest) : Prop :=
  dq_Name r = host /\ (dq_Type r = "A" \/ dq_Type r = "AAAA")
  /\ exists endpoint, endpoint ∈ endpoints /\ Parse endpoint = Some (dq_URL r) /\ URL_Scheme (dq_URL r) = "https".

Lemma query_request_to endpoints endpoint host rrType :
  endpoint ∈ endpoints -> Forall (request_to endpoints host) (query_request endpoint host rrType).
Proof.
  intros Hin. unfold query_request. destruct (Parse endpoint) as [u|] eqn:Ep; [|by constructor].
  destruct (_ || _) eqn:E; constructor; [|done]. bool_facts. split_and!; [done| |by exists endpoint].
  cbn [dq_Type]. unfold dohTypeName. destruct (_ =? _); auto.
Qed.

Lemma loop_requests_to endpoints0 endpoints host remaining :
  endpoints ⊆ endpoints0 -> Forall (request_to endpoints0 host) (loop_requests endpoints host remaining).
Proof.
  revert remaining; induction endpoints as [|ep eps IH]; intros remaining Hsub; cbn [loop_requests]; [done|].
  assert (forall ty, Forall (request_to endpoints0 host) (query_request ep host ty)) as Hq
    by (intros; apply query_request_to, Hsub; by left).
  apply Forall_app. split.
  - unfold endpoint_requests. apply Forall_app. split; [done|]. repeat case_match; done.
  - repeat case_match; try done; apply IH; intros x Hx; apply Hsub; by right.
Qed.

Lemma lookup_requests_to endpoints host deadline :
  Forall (request_to endpoints (TrimSpace host)) (lookup_requests endpoints host deadline).
Proof. unfold lookup_requests. repeat case_match; [done..|]. by apply loop_requests_to. Qed.

(** An address that is not the host's own came from a request of the lookup. *)
Lemma lookup_requests_made endpoints host deadline ips :
  lookup endpoints host deadline = Ok ips -> parseLiteralIP (TrimSpace host) = None ->
  lookup_requests endpoints host deadline <> [].
Proof.
  unfold lookup, lookup_requests. intros H Hl. destruct (_ =?s _); [done|]. rewrite Hl in *.
  destruct (_ =? _)%nat; [done|]. revert H. generalize (withDoHTimeout deadline) (@nil cerror).
  set (h := TrimSpace host). clearbody h. clear Hl.
  induction endpoints as [|ep eps IH]; intros remaining errs H; cbn [lookup_loop loop_requests] in *; [done|].
  set (b := endpoint_budget remaining _) in *. set (left := remaining - _) in *. intros [Hr Hrest]%app_nil.
  unfold endpoint_requests in Hr. apply app_nil in Hr as [H4 H6].
  assert (forall ty, query_request ep h ty = [] -> exists e, query ep h ty b = Err e) as Hq.
  { intros ty. unfold query_request, query. destruct (Parse ep) as [u|]; cbn [of_option res_bind]; [|by eexists].
    destruct (_ || _); [by eexists|done]. }
  destruct (Hq _ H4) as [e4 E4]. assert (forall l, lookupEndpoint ep h b <> Ok l) as Hno.
  { unfold lookupEndpoint. rewrite E4 in *. cbn in H6 |- *. destruct (expired ep dohTypeA b); [done|].
    destruct (Hq _ H6) as [e6 E6]. rewrite E6. cbn. by destruct (expired ep dohTypeAAAA b). }
  destruct (lookupEndpoint ep h b) as [l|e]; [by destruct (Hno l)|].
  destruct (left <=? 0); [done|]. by eapply IH.
Qed.

(** What an accepted answer of a provider is. *)
Definition sound_answer (endpoint host : string) (rrType budget : Z) (ips : list Addr) : Prop :=
  exists body parsed,
    reply endpoint host (dohTypeName rrType) budget = Answered 200 body /\ len body <= dohMaxBodyBytes
    /\ unmarshal (dec_struct dohResponse_fields) body (mkDohResponse None []) = Some parsed
    /\ dr_Status parsed = Some 0
    /\ Forall (fun ip => Is4 ip = (rrType =? dohTypeA)
                 /\ exists answer, answer ∈ dr_Answer parsed /\ da_Type answer = rrType
                      /\ ParseIP (TrimSpace (da_Data answer)) = Some ip) ips.

Lemma answer_address_sound rrType answer ip :
  answer_address rrType answer = Some ip ->
  Is4 ip = (rrType =? dohTypeA) /\ da_Type answer = rrType /\ ParseIP (TrimSpace (da_Data answer)) = Some ip.
Proof.
  unfold answer_address. intros H. destruct (da_Type answer =? rrType) eqn:E; [|done]. cbn [negb] in H. bool_facts.
  destruct (ParseIP _) as [a|]; [|done]. destruct (rrType =? dohTypeA), (Is4 a) eqn:E4; simplify_eq; done.
Qed.

Lemma query_sound endpoint host rrType budget ips :
  query endpoint host rrType budget = Ok ips ->
  (exists u, Parse endpoint = Some u /\ URL_Scheme u = "https" /\ URL_Host u <> "")
  /\ sound_answer endpoint host rrType budget ips.
Proof.
  unfold query. intros H. ok_path H. unfold of_option in Ha. destruct (Parse endpoint) as [u|]; simplify_eq.
  bool_facts. split; [by exists a|].
  destruct (reply _ _ _ _) as [| |status body] eqn:Er; [done..|]. ok_path H. simplify_eq. bool_facts.
  unfold of_option in *. destruct (unmarshal _ _ _) as [parsed|] eqn:Eu; [|done]. simplify_eq.
  destruct (dr_Status a0) as [dns|] eqn:Ed; [|done]. simplify_eq.
  exists body, a0. split_and!; [congruence|lia|done|by rewrite Ed; f_equal|].
  rewrite Forall_forall. intros ip (answer & Hin & Ha)%list_elem_of_omap.
  apply answer_address_sound in Ha as (? & ? & ?). split; [done|]. by exists answer.
Qed.

Lemma lookupEndpoint_sound endpoint host budget ip ips :
  lookupEndpoint endpoint host budget = Ok (ip :: ips) ->
  exists rrType, (rrType = dohTypeA \/ rrType = dohTypeAAAA)
    /\ query endpoint host rrType budget = Ok (ip :: ips).
Proof.
  unfold lookupEndpoint, addresses. intros H.
  destruct (query endpoint host dohTypeA budget) as [[|a l]|e] eqn:E4; cbn in H.
  2:{ exists dohTypeA. split; [by left|]. congruence. }
  all: destruct (expired endpoint dohTypeA budget); [done|].
  all: destruct (query endpoint host dohTypeAAAA budget) as [[|a6 l6]|e6] eqn:E6; cbn in H;
    try (exists dohTypeAAAA; split; [by right|]; congruence).
  all: by destruct (expired endpoint dohTypeAAAA budget).
Qed.

Lemma lookup_loop_sound endpoints host remaining errs ips :
  lookup_loop endpoints host remaining errs = Ok ips ->
  exists endpoint budget ip l, endpoint ∈ endpoints /\ ips = ip :: l
    /\ lookupEndpoint endpoint host budget = Ok (ip :: l).
Proof.
  revert remaining errs; induction endpoints as [|ep eps IH]; intros remaining errs H; cbn [lookup_loop] in H; [done|].
  set (b := endpoint_budget remaining _) in *.
  destruct (lookupEndpoint ep host b) as [[|ip l]|e] eqn:E.
  2:{ injection H as <-. exists ep, b, ip, l. split_and!; [by constructor|done..]. }
  all: destruct (_ <=? 0); [done|]; apply IH in H as (ep' & b' & ip & l & Hin & -> & H);
    exists ep', b', ip, l; split_and!; [by right|done..].
Qed.

(** What a lookup returns are values of [net.IP]. *)
Lemma lookup_net endpoints host deadline ips :
  lookup endpoints host deadline = Ok ips -> Forall net_IP ips.
Proof.
  unfold lookup. intros H. destruct (_ =?s _); [done|].
  destruct (parseLiteralIP (TrimSpace host)) as [ip|] eqn:E.
  { injection H as <-. constructor; [|done]. unfold parseLiteralIP in E.
    repeat case_match; simplify_eq; eauto with gows. }
  destruct (_ =? _)%nat; [done|]. apply lookup_loop_sound in H as (endpoint & b & ip & l & _ & -> & H).
  apply lookupEndpoint_sound in H as (rrType & _ & H).
  apply query_sound in H as [_ (body & parsed & _ & _ & _ & _ & HF)].
  eapply Forall_impl; [exact HF|]. intros x (_ & answer & _ & _ & Hp). eauto with gows.
Qed.

(** The share of every provider is at least its part of the whole time. *)
Lemma budget_share T n k remaining :
  0 < T -> (0 < k <= n)%nat -> T * Z.of_nat k <= remaining * Z.of_nat n ->
  Z.min (T / Z.of_nat n) (2 * dohQueryTimeout) <= endpoint_budget remaining k
  /\ forall used, 0 <= used <= endpoint_budget remaining k ->
       T * (Z.of_nat k - 1) <= (remaining - used) * Z.of_nat n.
Proof.
  intros HT Hk Hr. assert (0 <= remaining) as Hrem by nia.
  assert (T / Z.of_nat n <= remaining / Z.of_nat k) as Hdiv.
  { apply Z.div_le_lower_bound; [lia|]. pose proof (Z.mul_div_le T (Z.of_nat n) ltac:(lia)). nia. }
  pose proof (Z.mul_div_le remaining (Z.of_nat k) ltac:(lia)) as Hq.
  unfold endpoint_budget. rewrite Z.quot_div_nonneg by lia.
  split.
  - destruct (_ <? _) eqn:E; bool_facts; lia.
  - intros used Hu. assert (used <= remaining / Z.of_nat k) as Hu' by (destruct (_ <? _) eqn:E; bool_facts; lia).
    assert (used * Z.of_nat k <= remaining) by nia.
    assert (T * (Z.of_nat k - 1) * Z.of_nat k <= (remaining - used) * Z.of_nat n * Z.of_nat k); nia.
Qed.

End Lookup.

Section LookupLiveness.

Context (Parse : string -> option URL) (reply : string -> string -> string -> Z -> Reply)
        (expired : string -> Z -> Z -> option cerror) (spent : string -> Z -> Z).
Context (spent_within : forall endpoint budget, 0 <= budget -> 0 <= spent endpoint budget <= budget).
Context (host : string) (T : Z) (n : nat) (T_pos : 0 < T).

(** A provider that answers when it gets its share of the time. *)
Definition answers_in_time (endpoint : string) : Prop :=
  forall budget, Z.min (T / Z.of_nat n) (2 * dohQueryTimeout) <= budget ->
    exists ip ips, lookupEndpoint Parse reply expired endpoint host budget = Ok (ip :: ips).

Lemma lookup_loop_finds endpoints remaining errs good :
  (length endpoints <= n)%nat -> T * Z.of_nat (length endpoints) <= remaining * Z.of_nat n ->
  good ∈ endpoints -> answers_in_time good ->
  exists ip ips, lookup_loop Parse reply expired spent endpoints host remaining errs = Ok (ip :: ips).
Proof.
  revert remaining errs; induction endpoints as [|ep eps IH]; intros remaining errs Hn Hr Hin Hgood;
    [by apply not_elem_of_nil in Hin|].
  cbn [length] in Hn. set (k := length (ep :: eps)) in Hr. assert (k = S (length eps)) as Hk by done.
  pose proof (budget_share T n k remaining T_pos ltac:(lia) Hr) as [Hb Hleft].
  cbn [lookup_loop]. fold k. set (b := endpoint_budget remaining k) in *.
  assert (0 <= b) as Hb0.
  { assert (0 <= T / Z.of_nat n) by (apply Z.div_pos; lia). unfold dohQueryTimeout, Second in *. lia. }
  specialize (Hleft _ (spent_within ep b Hb0)).
  apply elem_of_cons in Hin as [->|Hin].
  - destruct (Hgood b Hb) as (ip & ips & ->). by exists ip, ips.
  - assert (0 < Z.of_nat (length eps)) as Hpos by (destruct eps; [by apply not_elem_of_nil in Hin|cbn; lia]).
    assert (0 < remaining - spent ep b) as Hl by nia.
    assert (forall errs', exists ip ips, (if remaining - spent ep b <=? 0 then Err (join_errors errs')
      else lookup_loop Parse reply expired spent eps host (remaining - spent ep b) errs') = Ok (ip :: ips)) as Hnext.
    { intros errs'. rewrite (proj2 (Z.leb_gt _ _) Hl). apply IH; [lia| |done|done]. nia. }
    destruct (lookupEndpoint Parse reply expired ep host b) as [[|ip ips]|e]; [apply Hnext|by exists ip, ips|apply Hnext].
Qed.

End LookupLiveness.

(** ** Properties *)

(** Where an address comes from: a lookup returns the literal address of
    the host itself, or a non-empty list of addresses, all from one answer of
    one configured HTTPS provider with status 200 and DNS status 0 within 64
    KiB, of the type that was asked for: IPv4 addresses from A records or IPv6
    addresses (no mapped IPv4) from AAAA records. *)
Theorem lookup_sound :
  forall Parse reply expired spent endpoints host deadline ips,
    lookup Parse reply expired spent endpoints host deadline = Ok ips ->
    ips <> []
    /\ ((exists ip, parseLiteralIP (TrimSpace host) = Some ip /\ ips = [ip])
        \/ exists endpoint rrType budget u,
             endpoint ∈ endpoints /\ (rrType = dohTypeA \/ rrType = dohTypeAAAA)
             /\ Parse endpoint = Some u /\ URL_Scheme u = "https"
             /\ sound_answer reply endpoint (TrimSpace host) rrType budget ips).
Proof.
  intros Parse reply expired spent endpoints host deadline ips H. unfold lookup in H.
  destruct (_ =?s _); [done|]. destruct (parseLiteralIP (TrimSpace host)) as [ip|].
  { injection H as <-. split; [done|]. left. by exists ip. }
  destruct (_ =? _)%nat; [done|]. apply lookup_loop_sound in H as (endpoint & b & ip & l & Hin & -> & H).
  apply lookupEndpoint_sound in H as (rrType & Hty & H). apply query_sound in H as [(u & Hu & Hs & _) H].
  split; [done|]. right. by exists endpoint, rrType, b, u.
Qed.

(** A provider's answers for the witnesses: an alias and its address. *)
Definition sample_endpoints : list string := ["https://a.example/dns"; "https://b.example/dns"].
Definition sample_Parse (s : string) : option URL :=
  Some (mkURL "https" None (if s =?s "https://a.example/dns" then "a.example" else "b.example") "/dns" "" "").
Definition sample_body : string :=
  q "{'Status':0,'Question':[],'Answer':[{'name':'w.','type':5,'data':'v.'},{'name':'v.','type':1,'data':'192.0.2.7'}]}".
Definition sample_reply (endpoint name type : string) (budget : Z) : Reply :=
  if endpoint =?s "https://a.example/dns" then RequestFailed None
  else if type =?s "A" then Answered 200 sample_body else Answered 200 (q "{'Status':0}").

Lemma lookup_sound_witness :
  [Addr4 3221225991] <> ([] : list Addr)
  /\ lookup sample_Parse sample_reply (fun _ _ _ => None) (fun _ b => b) sample_endpoints " w.example " None
     = Ok [Addr4 3221225991].
Proof.
  assert (lookup sample_Parse sample_reply (fun _ _ _ => None) (fun _ b => b) sample_endpoints " w.example " None
     = Ok [Addr4 3221225991]) as H by (vm_compute; reflexivity).
  destruct (lookup_sound sample_Parse sample_reply (fun _ _ _ => None) (fun _ b => b) sample_endpoints " w.example "
    None _ H) as [H1 _]. split; [exact H1|exact H].
Defined.

(** A provider that fails or stalls does not stop the lookup: if one
    configured provider has an answer whenever it is given the smaller of an
    equal share of the time and twenty seconds, a lookup of a non-empty name
    returns addresses, whatever the other providers do within the time they are
    given. *)
Theorem lookup_finds :
  forall Parse reply expired spent endpoints host deadline good,
    (forall endpoint budget, 0 <= budget -> 0 <= spent endpoint budget <= budget) ->
    0 < withDoHTimeout deadline -> TrimSpace host <> "" -> good ∈ endpoints ->
    (forall budget,
       Z.min (withDoHTimeout deadline / Z.of_nat (length endpoints)) (2 * dohQueryTimeout) <= budget ->
       exists ip ips, lookupEndpoint Parse reply expired good (TrimSpace host) budget = Ok (ip :: ips)) ->
    exists ip ips, lookup Parse reply expired spent endpoints host deadline = Ok (ip :: ips).
Proof.
  intros Parse reply expired spent endpoints host deadline good Hsp HT Hh Hin Hgood. unfold lookup.
  apply String.eqb_neq in Hh. rewrite Hh. destruct (parseLiteralIP _) as [ip|]; [by exists ip, []|].
  destruct endpoints as [|ep eps]; [by apply not_elem_of_nil in Hin|]. set (l := ep :: eps) in *.
  change (length l =? 0)%nat with false. cbv iota.
  eapply (lookup_loop_finds Parse reply expired spent Hsp (TrimSpace host) _ (length l) HT); [lia|lia|exact Hin|exact Hgood].
Qed.

Lemma lookup_finds_witness :
  exists ip ips, lookup sample_Parse sample_reply (fun _ _ _ => None) (fun _ b => b) sample_endpoints "w.example" None
                 = Ok (ip :: ips).
Proof.
  apply (lookup_finds sample_Parse sample_reply (fun _ _ _ => None) (fun _ b => b) sample_endpoints "w.example" None
    "https://b.example/dns").
  - intros endpoint budget Hb. split; [exact Hb|apply Z.le_refl].
  - vm_compute. reflexivity.
  - vm_compute. discriminate.
  - right. left.
  - intros budget _. exists (Addr4 3221225991), []. vm_compute. reflexivity.
Defined.
