(* ===== verification/PrivateConnect.v ===== *)
(** * Private connections (internal/cli/private.go, private_dial.go)

    In this mode the client resolves the server's name itself ([Doh]), connects
    to the address it got, optionally through a proxy it tells only that
    address, speaks TLS 1.3 without naming the server, and checks the server's
    certificate against the name afterwards.

    crypto/tls and crypto/x509 are arguments with their documented behaviour:
    the state of a handshake and the verification of a certificate.  The dialer
    is a list of effects. *)

From S2P Require Import Prelude GoStrings GoTime Json Netip NetipText NetworkPolicy Config WsHandler CliError CliOptions CliUrl Doh.

(** ** Standard base64, for the proxy's credentials *)

Definition std_chr (n : Z) : ascii :=
  if n <? 26 then chr (65 + n) else if n <? 52 then chr (71 + n) else if n <? 62 then chr (n - 4)
  else if n =? 62 then "+"%char else "/"%char.

Fixpoint StdEncode (s : string) : string :=
  match s with
  | String a (String b (String c t)) =>
      let n := byte_of a * 65536 + byte_of b * 256 + byte_of c in
      String (std_chr (n / 262144)) (String (std_chr (n / 4096 mod 64))
        (String (std_chr (n / 64 mod 64)) (String (std_chr (n mod 64)) (StdEncode t))))
  | String a (String b EmptyString) =>
      let n := byte_of a * 65536 + byte_of b * 256 in
      String (std_chr (n / 262144)) (String (std_chr (n / 4096 mod 64)) (String (std_chr (n / 64 mod 64)) "="))
  | String a EmptyString =>
      let n := byte_of a * 65536 in
      String (std_chr (n / 262144)) (String (std_chr (n / 4096 mod 64)) "==")
  | EmptyString => ""
  end.

Example StdEncode_samples :
  StdEncode "user:pass" = "dXNlcjpwYXNz" /\ StdEncode "a" = "YQ==" /\ StdEncode "ab" = "YWI="
  /\ StdEncode (bytes [251; 255]) = "+/8=".
Proof. vm_compute. repeat split. Qed.

(** ** Addresses in URLs *)

(** [net.ParseIP(address).To4() == nil] *)
Definition To4_nil (address : string) : bool :=
  match ParseIP address with Some ip => negb (Is4 ip) | None => true end.

Definition hostWithIP (u : URL) (address : string) : string :=
  if negb (Port u =?s "") then JoinHostPort address (Port u)
  else if To4_nil address then "[" +:+ address +:+ "]" else address.

(** ** The TLS configuration *)

Definition VersionTLS12 : Z := 771.
Definition VersionTLS13 : Z := 772.

Section Private.

Context {Cert Roots : Type}.

Record TLSState : Type := mkTLSState { ts_Version : Z; ts_PeerCertificates : list Cert }.

Record TLSConfig : Type := mkTLSConfig {
  tls_MinVersion : Z; tls_ServerName : string; tls_InsecureSkipVerify : bool; tls_RootCAs : option Roots;
  tls_VerifyConnection : option (TLSState -> option cerror) }.

(** [x509.VerifyOptions], as the client fills them in: server authentication
    is the only key usage. *)
Record VerifyOptions : Type := mkVerifyOptions {
  vo_DNSName : string; vo_Roots : option Roots; vo_Intermediates : list Cert }.

(** [Certificate.Verify] and the part of a handshake before the client's own
    checks. *)
Context (Verify : Cert -> VerifyOptions -> option cerror).

Definition verify_connection (hostname : string) (roots : option Roots) (state : TLSState) : option cerror :=
  if (ts_Version state <? VersionTLS13) then Some (Plain "private connection requires TLS 1.3 and a server certificate")
  else match ts_PeerCertificates state with
       | [] => Some (Plain "private connection requires TLS 1.3 and a server certificate")
       | leaf :: intermediates => Verify leaf (mkVerifyOptions hostname roots intermediates)
       end.

Definition privateTLSConfig (base : TLSConfig) (hostname address : string) : TLSConfig :=
  mkTLSConfig VersionTLS13 address true (tls_RootCAs base)
    (Some (verify_connection hostname (tls_RootCAs base))).

(** A client handshake that reached a state: it fails below the minimal version
    and when a check fails; the certificate is checked against the server's name
    unless that is switched off, and [VerifyConnection] in any case. *)
Definition HandshakeContext (cfg : TLSConfig) (state : result cerror TLSState) : option cerror :=
  match state with
  | Err e => Some e
  | Ok state =>
      if ts_Version state <? tls_MinVersion cfg then Some (Plain "tls: protocol version not supported")
      else
        let default_check :=
          if tls_InsecureSkipVerify cfg then None
          else match ts_PeerCertificates state with
               | [] => Some (Plain "tls: received empty certificates message")
               | leaf :: intermediates =>
                   Verify leaf (mkVerifyOptions (tls_ServerName cfg) (tls_RootCAs cfg) intermediates)
               end in
        match default_check with
        | Some e => Some e
        | None => match tls_VerifyConnection cfg with Some check => check state | None => None end
        end
  end.

(** ** The dialer *)

(** [DDial] is a TCP connection that was made; the rest happens on it. *)
Inductive DialEffect : Type :=
| DDial (address : string)
| DProxyTLS (serverName : string)
| DConnect (destination : string) (authorization : option string)
| DTargetTLS (serverName : string)
| DCloseRaw.

(** What happens on the network during one dial: the TCP connection, the
    proxy's TLS handshake, writing the CONNECT request and the status of its
    answer, the target's TLS, and what came after it: the end of the context, or
    an error of the last [SetDeadline]. *)
Record Network : Type := mkNetwork {
  nw_dial : string -> option cerror; nw_proxy : result cerror TLSState; nw_write : option cerror;
  nw_connect : result cerror Z; nw_target : result cerror TLSState; nw_alive : option cerror }.

Definition proxy_address (proxy : URL) : string :=
  let port := if Port proxy =?s "" then if URL_Scheme proxy =?s "https" then "443" else "80" else Port proxy in
  JoinHostPort (Hostname proxy) port.

Definition proxy_authorization (proxy : URL) : option string :=
  (fun '(user, password) => "Basic " +:+ StdEncode (user +:+ ":" +:+ default "" password)) <$> URL_User proxy.

(** The steps through a proxy: the effects, and an error. *)
Definition through_proxy (destination : string) (proxy : URL) (cfg : TLSConfig) (nw : Network)
    : list DialEffect * option cerror :=
  let https := URL_Scheme proxy =?s "https" in
  let tls := if https then [DProxyTLS (Hostname proxy)] else [] in
  let proxy_cfg := mkTLSConfig VersionTLS12 (Hostname proxy) false (tls_RootCAs cfg) None in
  match (if https then HandshakeContext proxy_cfg (nw_proxy nw) else None) with
  | Some e => (tls, Some (Wrap "HTTPS proxy TLS: " e))
  | None =>
      let es := tls ++ [DConnect destination (proxy_authorization proxy)] in
      match nw_write nw, nw_connect nw with
      | Some e, _ => (es, Some (Wrap "write proxy CONNECT: " e))
      | None, Err e => (es, Some (Wrap "read proxy CONNECT: " e))
      | None, Ok status =>
          (es, if status =? 200 then None
               else Some (Plain ("proxy CONNECT to IP failed (HTTP " +:+ Itoa status +:+ ")")))
      end
  end.

(** [privateTLSDialer(destination, proxy, cfg, timeout)(ctx, network, address)]:
    the effects and the error, none when it returns a connection. *)
Definition privateTLSDialer (destination : string) (proxy : option URL) (cfg : TLSConfig)
    (network address : string) (nw : Network) : list DialEffect * option cerror :=
  if negb (network =?s "tcp") || negb (address =?s destination)
  then ([], Some (Plain "private connection dial requires the resolved server address"))
  else
    let firstHop := match proxy with Some p => proxy_address p | None => destination end in
    match nw_dial nw firstHop with
    | Some e => ([], Some e)
    | None =>
        let (es, err) := match proxy with
                         | Some p => through_proxy destination p cfg nw
                         | None => ([], None)
                         end in
        let es := DDial firstHop :: es in
        match err with
        | Some e => (es ++ [DCloseRaw], Some e)
        | None =>
            let es := es ++ [DTargetTLS (tls_ServerName cfg)] in
            match HandshakeContext cfg (nw_target nw) with
            | Some e => (es ++ [DCloseRaw], Some (Wrap "private WebSSH TLS: " e))
            | None => match nw_alive nw with
                      | Some e => (es ++ [DCloseRaw], Some e)
                      | None => (es, None)
                      end
            end
        end
    end.

(** ** Preparing a private connection *)

(** The client's transports after [preparePrivateConnection]: the resolved
    address, the configured host, the dialer's destination and proxy, and the
    TLS configuration.  From then on the transports have no proxy of their own
    and follow no redirects. *)
Record Prepared : Type := mkPrepared {
  pr_address : string; pr_host : string; pr_destination : string; pr_proxy : option URL; pr_cfg : TLSConfig }.

(** [lookup] is the resolver, [select] what the proxy function answers for the
    base URL. *)
Definition preparePrivateConnection (c : Client) (lookup : string -> result cerror (list Addr))
    (select : ProxyFunc -> URL -> result cerror (option URL)) (base_cfg : TLSConfig)
    (already : option Prepared) : result cerror (option Prepared) :=
  if negb (c_private c) || bool_decide (is_Some already) then Ok already
  else
    let! addresses := map_err (Wrap "resolve WebSSH server using DoH: ") (lookup (Hostname (c_base c))) in
    match addresses with
    | [] => Err (Plain "DoH returned no WebSSH server addresses")
    | ip :: _ =>
        let address := AddrString ip in
        let! proxy := map_err (fun _ => Plain "cannot select HTTP proxy for private connection")
                        (select (c_proxy c) (c_base c)) in
        require! match proxy with
                 | Some p => (URL_Scheme p =?s "http") || (URL_Scheme p =?s "https")
                 | None => true
                 end else Plain "private connection supports HTTP and HTTPS proxies" in
        let port := if Port (c_base c) =?s "" then "443" else Port (c_base c) in
        Ok (Some (mkPrepared address (URL_Host (c_base c)) (JoinHostPort address port) proxy
                    (privateTLSConfig base_cfg (Hostname (c_base c)) address)))
    end.

(** [privateTransport.RoundTrip]: the URL requested from the inner transport and
    its Host header. *)
Definition RoundTrip (p : Prepared) (url : URL) : result cerror (URL * string) :=
  require! (URL_Scheme url =?s "https") && (URL_Host url =?s pr_host p)
    else Plain "private connection only permits the configured HTTPS origin" in
  Ok (set_host (hostWithIP url (pr_address p)) url, pr_host p).

(** The WebSocket's URL, parsed. *)
Definition privateWebSocketURL (c : Client) (address : string) (u : URL) : result cerror URL :=
  reject! negb (URL_Scheme u =?s "wss") || negb (URL_Host u =?s URL_Host (c_base c)) || (address =?s "")
    with Plain "private WebSocket requires the configured WSS origin and a resolved address" in
  Ok (set_host (hostWithIP u address) u).

End Private.

(** The address net/http dials for an HTTPS URL ([canonicalAddr]). *)
Definition canonicalAddr (u : URL) : string :=
  JoinHostPort (Hostname u) (if Port u =?s "" then "443" else Port u).

(** ** Lemmas: hosts with ports *)

(** A text of digits. *)
Definition digits_only (s : string) : Prop := ContainsFunc (fun c => bool_decide (digit_of c = None)) s = false.

Lemma digits_only_lacks s c : digits_only s -> digit_of c = None -> IndexByte s c = None.
Proof.
  unfold digits_only. intros Hs Hc. induction s as [|d s IH]; [done|]. cbn [ContainsFunc IndexByte] in *. bool_facts.
  destruct (Ascii.eqb d c) eqn:E; [apply Ascii.eqb_eq in E; by subst|]. by rewrite IH.
Qed.

Lemma Port_digits u : digits_only (Port u).
Proof.
  unfold Port, splitHostPort. destruct (LastIndexByte (URL_Host u) ":"%char) as [i|] eqn:E; [|done].
  destruct (validOptionalPort (str_drop i (URL_Host u))) eqn:Ev; [|done]. cbn [snd].
  assert (str_drop (S i) (URL_Host u) = str_drop 1 (str_drop i (URL_Host u))) as ->.
  { generalize (URL_Host u). clear. induction i as [|i IH]; intros [|c s]; try done. cbn [str_drop]. apply IH. }
  destruct (str_drop i (URL_Host u)) as [|c t]; [done|]. cbn [validOptionalPort] in Ev. bool_facts.
  change (str_drop 1 (String c t)) with (str_drop 0 t). by destruct t.
Qed.

(** An address as text: no brackets, and colons exactly in IPv6. *)
Record address_text (address : string) : Prop := {
  at_nonempty : address <> "";
  at_open : IndexByte address "["%char = None;
  at_close : IndexByte address "]"%char = None;
  at_colon : ContainsByte address ":"%char = To4_nil address }.

Definition url_with_host (host : string) : URL := mkURL "https" None host "" "" "".

Lemma splitHostPort_joined address port :
  address_text address -> digits_only port -> port <> "" ->
  splitHostPort (JoinHostPort address port) = (address, port).
Proof.
  intros [Hne Ho Hc _] Hp Hpne. unfold JoinHostPort, splitHostPort.
  assert (IndexByte port ":"%char = None) as Hpc by (by apply digits_only_lacks).
  assert (validOptionalPort (String ":" port) = true) as Hv.
  { cbn [validOptionalPort]. unfold digits_only in Hp. by rewrite Hp. }
  destruct (ContainsByte address ":"%char).
  - assert ("[" +:+ address +:+ "]:" +:+ port = ("[" +:+ address +:+ "]") +:+ String ":" port) as ->
      by (by rewrite !str_app_assoc).
    rewrite (LastIndexByte_app _ ":"%char port Hpc), str_drop_app, Hv, str_take_app, str_drop_past.
    assert (HasPrefix ("[" +:+ address +:+ "]") "[" = true) as -> by done.
    assert (HasSuffix ("[" +:+ address +:+ "]") "]" = true) as ->.
    { apply HasSuffix_spec. exists ("[" +:+ address). by rewrite str_app_assoc. }
    cbn [andb]. f_equal. rewrite !str_length_app. change (String.length "[") with 1%nat. change (String.length "]") with 1%nat.
    replace (1 + (String.length address + 1) - 2)%nat with (String.length address) by lia.
    change (str_drop 1 ("[" +:+ address +:+ "]")) with (str_drop 0 (address +:+ "]")).
    assert (str_drop 0 (address +:+ "]") = address +:+ "]") as -> by (by destruct address). apply str_take_app.
  - change (":" +:+ port) with (String ":" port).
    rewrite (LastIndexByte_app address ":"%char port Hpc), str_drop_app, Hv, str_take_app, str_drop_past.
    assert (HasPrefix address "[" = false) as ->; [|done].
    rewrite <- (str_app_nil_r address). by apply HasPrefix_no_byte.
Qed.

Lemma splitHostPort_bare address :
  address_text address ->
  splitHostPort (if To4_nil address then "[" +:+ address +:+ "]" else address) = (address, "").
Proof.
  intros [Hne Ho Hc Hcol]. rewrite <- Hcol. unfold splitHostPort.
  destruct (ContainsByte address ":"%char) eqn:E.
  - assert (exists i, LastIndexByte ("[" +:+ address +:+ "]") ":"%char = Some i
              /\ validOptionalPort (str_drop i ("[" +:+ address +:+ "]")) = false) as (i & -> & ->).
    { assert (exists pre post, address = pre +:+ String ":" post /\ IndexByte post ":"%char = None) as (pre & post & -> & Hpost).
      { clear -E. induction address as [|d s IH]; [done|]. rewrite ContainsByte_cons in E.
        destruct (ContainsByte s ":"%char) eqn:Es.
        - destruct (IH eq_refl) as (pre & post & -> & Hp). by exists (String d pre), post.
        - rewrite orb_false_r in E. apply Ascii.eqb_eq in E as ->. exists "", s. split; [done|].
          unfold ContainsByte in Es. by destruct (IndexByte s ":"%char). }
      exists (String.length ("[" +:+ pre)).
      assert ("[" +:+ (pre +:+ String ":" post) +:+ "]" = ("[" +:+ pre) +:+ String ":" (post +:+ "]")) as ->
        by (by rewrite !str_app_assoc).
      rewrite LastIndexByte_app, str_drop_app; [split; [done|]|by apply IndexByte_app_None].
      cbn [validOptionalPort]. apply andb_false_iff. right. apply negb_false_iff.
      clear. induction post as [|d post IH]; [by vm_compute|]. rewrite str_app_cons. cbn [ContainsFunc]. by rewrite IH, orb_true_r. }
    assert (HasPrefix ("[" +:+ address +:+ "]") "[" = true) as -> by done.
    assert (HasSuffix ("[" +:+ address +:+ "]") "]" = true) as ->.
    { apply HasSuffix_spec. exists ("[" +:+ address). by rewrite str_app_assoc. }
    cbn [andb]. f_equal. rewrite !str_length_app. change (String.length "[") with 1%nat. change (String.length "]") with 1%nat.
    replace (1 + (String.length address + 1) - 2)%nat with (String.length address) by lia.
    change (str_drop 1 ("[" +:+ address +:+ "]")) with (str_drop 0 (address +:+ "]")).
    assert (str_drop 0 (address +:+ "]") = address +:+ "]") as -> by (by destruct address). apply str_take_app.
  - assert (LastIndexByte address ":"%char = None) as ->.
    { apply LastIndexByte_None. unfold ContainsByte in E. by destruct (IndexByte address ":"%char). }
    assert (HasPrefix address "[" = false) as ->; [|done].
    rewrite <- (str_app_nil_r address). by apply HasPrefix_no_byte.
Qed.

(** The host put into a URL splits back into the address and the port. *)
Lemma splitHostPort_hostWithIP u address :
  address_text address -> splitHostPort (hostWithIP u address) = (address, Port u).
Proof.
  intros Ha. unfold hostWithIP. destruct (Port u =?s "") eqn:E; cbn [negb]; bool_facts.
  - rewrite E. by apply splitHostPort_bare.
  - apply splitHostPort_joined; [done|apply Port_digits|done].
Qed.

(** ** Lemmas: the text of an address *)

(** The text of a [net.IP]. *)
Lemma AddrString_text ip : net_IP ip -> address_text (AddrString ip).
Proof.
  intros Hn. pose proof (ParseIP_AddrString ip Hn) as Hp.
  assert (To4_nil (AddrString ip) = negb (Is4 ip)) as Ht by (unfold To4_nil; by rewrite Hp).
  destruct ip as [|a|a z]; [by destruct Hn| |].
  - destruct (string4_chars a) as (H1 & H2 & H3). constructor; cbn [AddrString] in *; try done.
    1,2: by apply addr_chars_lacks.
    rewrite Ht. by apply ContainsByte_None.
  - pose proof (net_IP_zone _ _ Hn) as ->. destruct Hn as [_ Hw _ H46]. cbn [AddrString wf_addr] in *.
    rewrite H46 in *. change (zone_suffix "") with "" in *. rewrite str_app_nil_r in *.
    assert (ContainsByte (string6 a) ":"%char = true) as Hcol.
    { apply ParseAddr_kind_colon. rewrite <-(str_app_nil_r (string6 a)). apply kind_string6. }
    assert (addr_chars (string6 a) = true) as Hc by (apply string6_chars; lia).
    constructor.
    + intros He. by rewrite He in Hcol.
    + by apply addr_chars_lacks.
    + by apply addr_chars_lacks.
    + by rewrite Ht, Hcol.
Qed.

(** ** Properties *)

(** What one dial may show to the network: it connects to the proxy or, without
    one, to the resolved destination; a proxy is asked for that destination
    only; and the server is addressed by its IP address. *)
Definition discreet_dial (destination address : string) (proxy : option URL) (e : DialEffect) : Prop :=
  match e with
  | DDial a => a = match proxy with Some p => proxy_address p | None => destination end
  | DProxyTLS name => exists p, proxy = Some p /\ URL_Scheme p = "https" /\ name = Hostname p
  | DConnect d auth => d = destination /\ exists p, proxy = Some p /\ auth = proxy_authorization p
  | DTargetTLS name => name = address
  | DCloseRaw => True
  end.

Lemma through_proxy_discreet {Cert Roots} (Verify : Cert -> VerifyOptions -> option cerror) destination address p
    (cfg : TLSConfig (Cert := Cert) (Roots := Roots)) nw :
  Forall (discreet_dial destination address (Some p)) (fst (through_proxy Verify destination p cfg nw)).
Proof.
  unfold through_proxy.
  destruct (URL_Scheme p =?s "https") eqn:E; bool_facts;
    repeat case_match; cbn [fst app]; simplify_eq;
    repeat constructor; cbn [discreet_dial]; eauto.
Qed.

(** C19.  A private connection is private and authenticated: whatever happens,
    the client connects only to its proxy or to the resolved address, tells the
    proxy nothing but that address, and names only the address to the server;
    a connection it returns was asked for the resolved address, speaks TLS 1.3
    at least, and its certificate was verified for the server's host name; and
    when it returns an error after connecting, the connection is closed. *)
Theorem private_connection_safe :
  forall Cert Roots (Verify : Cert -> VerifyOptions -> option cerror) destination proxy
         (base : TLSConfig (Cert := Cert) (Roots := Roots)) hostname address network asked nw es err,
    privateTLSDialer Verify destination proxy (privateTLSConfig Verify base hostname address) network asked nw
      = (es, err) ->
    Forall (discreet_dial destination address proxy) es
    /\ match err with
       | None => asked = destination
           /\ exists state leaf rest, nw_target nw = Ok state /\ VersionTLS13 <= ts_Version state
                /\ ts_PeerCertificates state = leaf :: rest
                /\ Verify leaf (mkVerifyOptions hostname (tls_RootCAs base) rest) = None
       | Some _ => es = [] \/ exists es', es = es' ++ [DCloseRaw]
       end.
Proof.
  intros * H. unfold privateTLSDialer in H.
  destruct (_ || _) eqn:Eg; [injection H as <- <-; split; [by constructor|by left]|]. bool_facts.
  destruct (nw_dial nw _); [injection H as <- <-; split; [by constructor|by left]|].
  set (cfg := privateTLSConfig Verify base hostname address) in *.
  destruct (match proxy with Some p => _ | None => _ end) as [ps perr] eqn:Ep.
  assert (Forall (discreet_dial destination address proxy) ps) as Hps.
  { destruct proxy as [p|]; [|injection Ep as <- <-; by constructor].
    pose proof (through_proxy_discreet Verify destination address p cfg nw) as Hp. by rewrite Ep in Hp. }
  set (hop := match proxy with Some p => proxy_address p | None => destination end) in *.
  assert (forall l, Forall (discreet_dial destination address proxy) l ->
            Forall (discreet_dial destination address proxy) (DDial hop :: ps ++ l)) as Hall.
  { intros l Hl. constructor; [done|]. by apply Forall_app. }
  assert (Forall (discreet_dial destination address proxy) [DTargetTLS (tls_ServerName cfg)]) as Htls
    by (by repeat constructor).
  assert (Forall (discreet_dial destination address proxy) [DTargetTLS (tls_ServerName cfg); DCloseRaw]) as Htls'
    by (by repeat constructor).
  destruct perr as [e|].
  { injection H as <- <-. split; [apply Hall; by repeat constructor|]. right. by exists (DDial hop :: ps). }
  destruct (HandshakeContext Verify cfg (nw_target nw)) as [e|] eqn:Eh.
  { injection H as <- <-.
    split; [|right; by exists (DDial hop :: ps ++ [DTargetTLS (tls_ServerName cfg)])].
    cbn [app]. rewrite <- app_assoc. by apply Hall. }
  destruct (nw_alive nw) as [e|].
  { injection H as <- <-.
    split; [|right; by exists (DDial hop :: ps ++ [DTargetTLS (tls_ServerName cfg)])].
    cbn [app]. rewrite <- app_assoc. by apply Hall. }
  injection H as <- <-. split; [by apply Hall|]. split; [done|].
  unfold HandshakeContext in Eh. destruct (nw_target nw) as [state|e]; [|done].
  cbn [cfg privateTLSConfig tls_MinVersion tls_InsecureSkipVerify tls_VerifyConnection] in Eh.
  destruct (ts_Version state <? VersionTLS13) eqn:Ev; [done|]. unfold verify_connection in Eh. rewrite Ev in Eh.
  destruct (ts_PeerCertificates state) as [|leaf rest] eqn:Ec; [done|]. bool_facts.
  by exists state, leaf, rest.
Qed.

Definition sample_network (version : Z) : Network (Cert := string) :=
  mkNetwork (fun _ => None) (Ok (mkTLSState VersionTLS12 ["proxy"])) None (Ok 200)
    (Ok (mkTLSState version ["web.example"; "ca"])) None.

Lemma private_connection_safe_witness :
  exists state leaf rest, nw_target (sample_network 772) = Ok state /\ VersionTLS13 <= ts_Version state
    /\ ts_PeerCertificates state = leaf :: rest
    /\ (if leaf =?s "web.example" then None else Some EOF) = None.
Proof.
  destruct (private_connection_safe string unit
    (fun cert opts => if cert =?s vo_DNSName opts then None else Some EOF) "192.0.2.7:443"
    (Some (mkURL "http" None "proxy.example:3128" "" "" ""))
    (mkTLSConfig VersionTLS12 "" false None None) "web.example" "192.0.2.7" "tcp" "192.0.2.7:443" (sample_network 772)
    [DDial "proxy.example:3128"; DConnect "192.0.2.7:443" None; DTargetTLS "192.0.2.7"] None) as (_ & _ & H).
  - vm_compute. reflexivity.
  - destruct H as (state & leaf & rest & H1 & H2 & H3 & H4). exists state, leaf, rest.
    split; [exact H1|split; [exact H2|split; [exact H3|exact H4]]].
Defined.

(** The transports and the dialer of a private connection agree: once it
    is prepared with an address that DNS over HTTPS returned, of either family
    and whatever its text, every request that is let through goes to an HTTPS
    URL whose address, as net/http computes it, is the dialer's destination,
    with the configured host in its Host header; and the WebSocket's URL has
    that address too. *)
Theorem private_dial_agrees :
  forall Cert Roots (Verify : Cert -> VerifyOptions -> option cerror) Parse reply expired spent endpoints deadline
         c select (base_cfg : TLSConfig (Cert := Cert) (Roots := Roots)) p,
    let resolve host := lookup Parse reply expired spent endpoints host deadline in
    preparePrivateConnection Verify c resolve select base_cfg None = Ok (Some p) ->
    (exists ips, resolve (Hostname (c_base c)) = Ok ips /\ pr_address p ∈ map AddrString ips)
    /\ (forall url out host, RoundTrip p url = Ok (out, host) ->
          URL_Scheme out = "https" /\ canonicalAddr out = pr_destination p /\ host = URL_Host (c_base c)
          /\ URL_Path out = URL_Path url)
    /\ (forall u out, privateWebSocketURL c (pr_address p) u = Ok out ->
          URL_Scheme out = "wss" /\ canonicalAddr out = pr_destination p).
Proof.
  intros * H. unfold preparePrivateConnection in H.
  destruct (c_private c); cbn [negb orb] in H; [|discriminate H].
  rewrite bool_decide_eq_false_2 in H by (by intros [? ?]).
  ok_path H. destruct a as [|ip ips]; [done|]. ok_path H. injection H as <-. cbn [pr_address pr_destination pr_host].
  destruct (resolve (Hostname (c_base c))) as [l|] eqn:El; [|done]. cbn in Ha. simplify_eq.
  pose proof (lookup_net _ _ _ _ _ _ _ _ El) as HF. apply Forall_cons in HF as [Hip _]. apply AddrString_text in Hip.
  assert (forall u, URL_Host u = URL_Host (c_base c) ->
    canonicalAddr (set_host (hostWithIP u (AddrString ip)) u)
    = JoinHostPort (AddrString ip) (if Port (c_base c) =?s "" then "443" else Port (c_base c))) as Hcan.
  { intros u Hu. unfold canonicalAddr, Hostname, Port. cbn [set_host URL_Host].
    rewrite splitHostPort_hostWithIP by done. cbn [fst snd]. unfold Port. by rewrite Hu. }
  split_and!.
  - exists (ip :: ips). split; [done|]. by constructor.
  - intros url out host Hr. unfold RoundTrip in Hr. cbn [pr_host pr_address] in Hr. ok_path Hr. injection Hr as <- <-.
    bool_facts. split_and!; [done|by apply Hcan|done|done].
  - intros u out Hw. unfold privateWebSocketURL in Hw. ok_path Hw. injection Hw as <-. bool_facts.
    split; [done|by apply Hcan].
Qed.

Definition private_options : Options :=
  mkOptions "https://web.example" "admin" "pw" "" true false true "" "" "" false "" 0 "" "" false "" 0 "".

Definition private_client : Client :=
  mkClient private_options (sample_base "https" "web.example:8443")
    (originFromURL (sample_base "https" "web.example:8443")) NoProxy true.

(** A provider with an IPv6 address for the server. *)
Definition private_reply (endpoint name type : string) (budget : Z) : Reply :=
  Answered 200 (if type =?s "AAAA"
                then q "{'Status':0,'Answer':[{'name':'w.','type':28,'data':'2001:DB8:0::7'}]}"
                else q "{'Status':0}").

Lemma private_dial_agrees_witness :
  canonicalAddr (set_host "[2001:db8::7]:8443" (sample_base "https" "web.example:8443")) = "[2001:db8::7]:8443".
Proof.
  destruct (private_dial_agrees unit unit (fun _ _ => None) sample_Parse private_reply
    (fun _ _ _ => None) (fun _ b => b) sample_endpoints None private_client (fun _ _ => Ok None)
    (mkTLSConfig VersionTLS12 "" false None None)
    (mkPrepared "2001:db8::7" "web.example:8443" "[2001:db8::7]:8443" None
       (privateTLSConfig (fun _ _ => None) (mkTLSConfig VersionTLS12 "" false None None) "web.example" "2001:db8::7")))
    as (_ & H & _).
  - vm_compute. reflexivity.
  - destruct (H (sample_base "https" "web.example:8443")
      (set_host "[2001:db8::7]:8443" (sample_base "https" "web.example:8443")) "web.example:8443") as (_ & H1 & _).
    + vm_compute. reflexivity.
    + exact H1.
Defined.
