(* ===== verification/CliHttp.v ===== *)
(** * The terminal client's HTTP requests and handshakes (internal/cli/cli.go)

    What [login], [listCredentials], [fetchSaved] ask and how they read answers,
    [http.Client.Do] with its redirects and, in private mode, the round tripper
    of private.go in front of it, and the WebSocket's handshake ([dialWSURL],
    [attachCookies]).

    What servers answer is an argument ([Send], or [Do] for a whole
    [http.Client.Do]), and so are the cookie jar ([net/http/cookiejar]) and the
    dialer. *)

From S2P Require Import Prelude GoStrings Json JsonDecode NetworkPolicy Config WsProtocol WsHandler CliError CliOptions CliUrl Doh PrivateConnect.

(** ** Requests and responses *)

Record ApiRequest : Type := mkApiRequest { aq_Method : string; aq_URL : URL; aq_Body : string }.
Record Response : Type := mkResponse { rs_Code : Z; rs_Status : string; rs_Body : string }.

(** [json.NewDecoder(r).Decode(&x)]: the first value of the body. *)
Definition decode_first {A} (dec : json -> A -> option A) (body : string) (zero : A) : option A :=
  match parse_value (parse_fuel body) 0 body with
  | Some (v, _) => dec v zero
  | None => None
  end.

(** [apiError]: whether it is ok, and the error. *)
Definition apiError_fields : list (field (bool * ErrorData)) := [
  mkField "ok" fst dec_bool (fun x p => (x, snd p));
  mkField "error" snd (dec_struct ErrorData_fields) (fun x p => (fst p, x)) ].

Definition readAPIError (resp : Response) : string :=
  let body := str_take 4096 (rs_Body resp) in
  let text := if negb (TrimSpace body =?s "") && negb (ContainsByte body "<"%char)
              then TrimSpace body else rs_Status resp in
  match unmarshal (dec_struct apiError_fields) body (false, mkErrorData "" "") with
  | Some (_, e) =>
      if ed_Message e =?s "" then text
      else if ed_Code e =?s "" then ed_Message e else ed_Code e +:+ ": " +:+ ed_Message e
  | None => text
  end.

Definition zero_credentialSummary : credentialSummary := mkCredSummary "" "" "" 0 "" "" false.

Definition credentialSummary_fields : list (field credentialSummary) := [
  mkField "id" cs_ID dec_string (fun x '(mkCredSummary _ b c d e f g) => mkCredSummary x b c d e f g);
  mkField "name" cs_Name dec_string (fun x '(mkCredSummary a _ c d e f g) => mkCredSummary a x c d e f g);
  mkField "host" cs_Host dec_string (fun x '(mkCredSummary a b _ d e f g) => mkCredSummary a b x d e f g);
  mkField "port" cs_Port dec_int (fun x '(mkCredSummary a b c _ e f g) => mkCredSummary a b c x e f g);
  mkField "username" cs_Username dec_string (fun x '(mkCredSummary a b c d _ f g) => mkCredSummary a b c d x f g);
  mkField "term" cs_Term dec_string (fun x '(mkCredSummary a b c d e _ g) => mkCredSummary a b c d e x g);
  mkField "useTmux" cs_UseTmux dec_bool (fun x '(mkCredSummary a b c d e f _) => mkCredSummary a b c d e f x) ].

(** [credentialList] *)
Definition credentialList_fields : list (field (list credentialSummary)) := [
  mkField "credentials" id
    (fun v _ => dec_slice zero_credentialSummary (dec_struct credentialSummary_fields) v)
    (fun x _ => x) ].

Definition zero_savedCredential : savedCredential := mkSaved "" "" "" 0 "" "" "" "" false false.

Definition savedCredential_fields : list (field savedCredential) := [
  mkField "id" sv_ID dec_string (fun x '(mkSaved _ b c d e f g h i j) => mkSaved x b c d e f g h i j);
  mkField "name" sv_Name dec_string (fun x '(mkSaved a _ c d e f g h i j) => mkSaved a x c d e f g h i j);
  mkField "host" sv_Host dec_string (fun x '(mkSaved a b _ d e f g h i j) => mkSaved a b x d e f g h i j);
  mkField "port" sv_Port dec_int (fun x '(mkSaved a b c _ e f g h i j) => mkSaved a b c x e f g h i j);
  mkField "username" sv_Username dec_string (fun x '(mkSaved a b c d _ f g h i j) => mkSaved a b c d x f g h i j);
  mkField "privateKey" sv_PrivateKey dec_string (fun x '(mkSaved a b c d e _ g h i j) => mkSaved a b c d e x g h i j);
  mkField "passphrase" sv_Passphrase dec_string (fun x '(mkSaved a b c d e f _ h i j) => mkSaved a b c d e f x h i j);
  mkField "term" sv_Term dec_string (fun x '(mkSaved a b c d e f g _ i j) => mkSaved a b c d e f g x i j);
  mkField "useTmux" sv_UseTmux dec_bool (fun x '(mkSaved a b c d e f g h _ j) => mkSaved a b c d e f g h x j);
  mkField "useHerdr" sv_UseHerdr dec_bool (fun x '(mkSaved a b c d e f g h i _) => mkSaved a b c d e f g h i x) ].

(** [url.PathEscape] *)
Definition segment_byte (c : ascii) : bool :=
  let b := byte_of c in
  ((97 <=? b) && (b <=? 122)) || ((65 <=? b) && (b <=? 90)) || ((48 <=? b) && (b <=? 57))
  || ContainsByte "-_.~$&+:=@" c.

Fixpoint PathEscape (s : string) : string :=
  match s with
  | EmptyString => ""
  | String c s =>
      if segment_byte c then String c (PathEscape s)
      else String "%" (String (upperhex (byte_of c / 16))
                         (String (upperhex (byte_of c mod 16)) (PathEscape s)))
  end.

Definition login_request (c : Client) : ApiRequest :=
  mkApiRequest "POST" (apiURL (c_base c) "/api/login")
    (print (JObj [("password", JStr (o_WebPassword (c_opt c))); ("username", JStr (o_WebUser (c_opt c)))])).

Definition list_request (c : Client) : ApiRequest :=
  mkApiRequest "GET" (apiURL (c_base c) "/api/credentials") "".

Definition saved_request (c : Client) (id : string) : ApiRequest :=
  mkApiRequest "GET" (apiURL (c_base c) ("/api/credentials/" +:+ PathEscape id)) "".

Section Requests.

Context (Do : ApiRequest -> result cerror Response).

(** A request that has to be answered with 200. *)
Definition do_ok (what : string) (req : ApiRequest) : result cerror Response :=
  let! resp := map_err (Wrap (what +:+ ": ")) (Do req) in
  require! rs_Code resp =? 200 else Plain (what +:+ ": " +:+ readAPIError resp) in
  Ok resp.

Definition listCredentials (c : Client) : result cerror (list credentialSummary) :=
  let! resp := do_ok "list credentials" (list_request c) in
  of_option (Plain "list credentials: invalid response")
    (decode_first (dec_struct credentialList_fields) (rs_Body resp) []).

Context (Quote : string -> string).

(** The last step of [fetchSaved]: the credential with the id found. *)
Definition fetch_item (c : Client) (nameOrID id : string) : result cerror savedCredential :=
  let! resp := do_ok "saved credential" (saved_request c id) in
  let! item := of_option (Plain "saved credential: invalid response")
                 (decode_first (dec_struct savedCredential_fields) (rs_Body resp) zero_savedCredential) in
  reject! TrimSpace (sv_PrivateKey item) =?s ""
    with Plain ("saved credential " +:+ Quote nameOrID +:+ " has no private key") in
  Ok item.

End Requests.

(** ** The WebSocket's handshake: dialWSURL, attachCookies *)

Abbreviation Headers := (list (string * string)).

(** [http.Header.Get] of headers that were set once each. *)
Definition header (h : Headers) (name : string) : option string := list_to_map (M := gmap string string) h !! name.

(** The URL whose cookies are sent. *)
Definition cookie_url (base : URL) : URL :=
  if URL_Scheme base =?s "ws" then set_scheme "http" base
  else if URL_Scheme base =?s "wss" then set_scheme "https" base else base.

Definition attachCookies (cookies : list (string * string)) : Headers :=
  match cookies with
  | [] => []
  | _ => [("Cookie", String.concat "; " (map (fun '(name, value) => name +:+ "=" +:+ value) cookies))]
  end.

Definition dial_headers (c : Client) (cookies : list (string * string)) : Headers :=
  [("Origin", c_origin c); ("User-Agent", o_UserAgent (c_opt c))] ++ attachCookies cookies
  ++ (if c_private c then [("Host", URL_Host (c_base c))] else []).

Section Dial.

(** The jar; the resolved address of a private connection; and the dialer: an
    error comes with the server's answer if there was one. *)
Context (Cookies : URL -> list (string * string)) (address : string)
        (DialContext : URL -> Headers -> option (cerror * option Response)).

(** The address that is dialled. *)
Definition dial_endpoint (c : Client) (endpoint : URL) : result cerror URL :=
  if c_private c then privateWebSocketURL c address endpoint else Ok endpoint.

Definition dialWSURL (c : Client) (endpoint : URL) : result cerror unit :=
  let! endpoint := dial_endpoint c endpoint in
  match DialContext endpoint (dial_headers c (Cookies (cookie_url (c_base c)))) with
  | None => Ok tt
  | Some (err, Some resp) => Err (Wrap ("websocket: " +:+ readAPIError resp +:+ ": ") err)
  | Some (err, None) => Err (Wrap "websocket: " err)
  end.

Definition dialWS (c : Client) : result cerror unit := dialWSURL c (wsURL (c_base c)).
Definition dialTunnelWS (c : Client) : result cerror unit := dialWSURL c (tunnelWSURL (c_base c)).

End Dial.

(** ** [http.Client.Do] *)

(** A server's answer to one request: the final one, or a redirect with a
    [Location], and whether it keeps method and body (307, 308). *)
Inductive SendAnswer : Type :=
| Final (resp : Response)
| Redirect (to : URL) (keep : bool).

(** The request that follows a redirect ([redirectBehavior]). *)
Definition redirected (req : ApiRequest) (to : URL) (keep : bool) : ApiRequest :=
  if keep then mkApiRequest (aq_Method req) to (aq_Body req)
  else mkApiRequest (if (aq_Method req =?s "GET") || (aq_Method req =?s "HEAD") then aq_Method req else "GET") to "".

(** What goes out on the network: a request to the host of its URL, one that
    follows a redirect, or a request of a private connection, sent to the
    address in [url] with the configured host in its Host header. *)
Inductive HttpEffect : Type :=
| HRequest (req : ApiRequest)
| HRedirect (req : ApiRequest)
| HPrivate (req : ApiRequest) (url : URL) (host : string).

Section Do.

(** A request's answer, and the error [Do] makes of a text ([url.Error]). *)
Context (Send : ApiRequest -> result cerror SendAnswer) (url_error : ApiRequest -> string -> cerror).
Context {Cert Roots : Type}.

(** The redirects of a request; the default [CheckRedirect] stops after ten
    requests. *)
Fixpoint follow (fuel : nat) (req : ApiRequest) (answer : result cerror SendAnswer)
    : list HttpEffect * result cerror Response :=
  match answer with
  | Err e => ([], Err e)
  | Ok (Final resp) => ([], Ok resp)
  | Ok (Redirect to keep) =>
      match fuel with
      | O => ([], Err (url_error req "stopped after 10 redirects"))
      | S fuel => let req := redirected req to keep in
                  let (es, r) := follow fuel req (Send req) in (HRedirect req :: es, r)
      end
  end.

(** [p] is the prepared private connection. *)
Definition http_do (p : option (Prepared (Cert := Cert) (Roots := Roots))) (req : ApiRequest)
    : list HttpEffect * result cerror Response :=
  match p with
  | None => let (es, r) := follow 9 req (Send req) in (HRequest req :: es, r)
  | Some p =>
      match RoundTrip p (aq_URL req) with
      | Err e => ([], Err (url_error req (cError e)))
      | Ok (url, host) =>
          ([HPrivate req url host],
           match Send req with
           | Err e => Err e
           | Ok (Final resp) => Ok resp
           | Ok (Redirect _ _) =>
               Err (url_error req "HTTP redirects are disabled in private connection mode; configure the final WebSSH URL")
           end)
      end
  end.

End Do.

(** ** Lemmas *)

Section DoFacts.

Context (Send : ApiRequest -> result cerror SendAnswer) (url_error : ApiRequest -> string -> cerror).
Context {Cert Roots : Type}.

(** Redirects go where an answer sends them, nine in a row at most: the request
    before each of them in a list was answered with it. *)
Fixpoint followed (last : option (ApiRequest * nat)) (es : list HttpEffect) : Prop :=
  match es with
  | [] => True
  | HRedirect r :: es =>
      match last with
      | Some (r0, k) => (k < 9)%nat
          /\ (exists to keep, Send r0 = Ok (Redirect to keep) /\ r = redirected r0 to keep)
          /\ followed (Some (r, S k)) es
      | None => False
      end
  | HRequest r :: es => followed (Some (r, O)) es
  | HPrivate _ _ _ :: es => followed None es
  end.

Lemma followed_app last es fs : followed last es -> followed None fs -> followed last (es ++ fs).
Proof.
  revert last; induction es as [|[r|r|r u h] es IH]; intros last; cbn.
  - intros _ H. by destruct last, fs as [|[] ?].
  - apply IH.
  - destruct last as [[r0 k]|]; [|done]. intros (? & ? & ?) ?. split_and!; auto.
  - apply IH.
Qed.

Lemma follow_facts fuel req k :
  (k + fuel <= 9)%nat ->
  let es := fst (follow Send url_error fuel req (Send req)) in
  followed (Some (req, k)) es /\ Forall (fun e => exists r, e = HRedirect r) es.
Proof.
  cbv zeta. revert req k. induction fuel as [|fuel IH]; intros req k Hk; cbn [follow];
    destruct (Send req) as [[resp|to keep]|e] eqn:E; cbn; try (by split).
  specialize (IH (redirected req to keep) (S k) ltac:(lia)).
  destruct (follow _ _ _ _ _) as [es r]. cbn in *. destruct IH as (H1 & H2). split.
  - split_and!; [lia|by exists to, keep|done].
  - constructor; [by eexists|done].
Qed.

Lemma http_do_followed (p : option (Prepared (Cert := Cert) (Roots := Roots))) req :
  followed None (fst (http_do Send url_error p req)).
Proof.
  unfold http_do. destruct p as [p|].
  - by destruct (RoundTrip p (aq_URL req)) as [[? ?]|].
  - destruct (follow_facts 9 req 0 ltac:(lia)) as [H _]. by destruct (follow _ _ 9 _ _).
Qed.

End DoFacts.
