(* ===== verification/CliRun.v ===== *)
(** * The terminal client's runs (internal/cli/cli.go, cmd/webssh-cli)

    [Run] from the options to the relay, and what [main] does with a parsed
    command line: the tunnel's options, the private connection switch and the
    dispatch.  The flags are in CmdLine, the HTTP requests in CliHttp.

    A run is a list of effects and a result, in a small monad.  The effects are
    what goes out: DNS-over-HTTPS queries, HTTP requests with the redirects that
    [http.Client] follows, the WebSocket's handshake with the URL that is really
    dialled; a configured proxy, which carries them, is not among them.  What the
    world answers (HTTP, files, prompts, the terminal, the WebSocket) is an
    argument. *)

From S2P Require Import Prelude GoStrings GoTime GoFlag Json JsonDecode Netip NetipText NetworkPolicy Config WsProtocol SshClient WsHandler Tunnel CliError CliOptions CliUrl CliTunnel CliSession Doh PrivateConnect CliHttp.

(** ** The list of saved credentials *)

Fixpoint spaces (n : nat) : string := match n with O => "" | S n => String " " (spaces n) end.

Fixpoint rune_count (fuel : nat) (s : string) : nat :=
  match fuel, s with
  | S f, String _ t => S (rune_count f (str_drop (default 1%nat (rune_len s)) s))
  | _, _ => O
  end.

(** [%-ns] *)
Definition pad (n : nat) (s : string) : string := s +:+ spaces (n - rune_count (String.length s) s).
Definition newline : string := String (chr 10) "".

Definition summary_line (item : credentialSummary) : string :=
  let port := if cs_Port item =? 0 then 22 else cs_Port item in
  pad 20 (cs_ID item) +:+ "  " +:+ pad 24 (cs_Name item) +:+ "  "
    +:+ cs_Username item +:+ "@" +:+ cs_Host item +:+ ":" +:+ Itoa port +:+ newline.

Definition saved_listing (items : list credentialSummary) : string :=
  match items with
  | [] => "No saved credentials." +:+ newline
  | _ => pad 20 "ID" +:+ "  " +:+ pad 24 "NAME" +:+ "  TARGET" +:+ newline
           +:+ concat_str (map summary_line items)
  end.

(** ** What to connect to *)

Record Target : Type := mkTarget {
  tg_host : string; tg_user : string; tg_port : Z; tg_term : string; tg_key : string;
  tg_passphrase : string; tg_useTmux : bool; tg_tmuxSession : string }.

(** The options, completed by a saved credential. *)
Definition merge_saved (opt : Options) (saved : option savedCredential) : Target :=
  let host := TrimSpace (o_Host opt) in
  let user := TrimSpace (o_SSHUser opt) in
  let term := TrimSpace (o_Term opt) in
  match saved with
  | None => mkTarget host user (o_Port opt) term "" (o_Passphrase opt) (o_UseTmux opt) (o_TmuxSession opt)
  | Some s =>
      mkTarget (if host =?s "" then sv_Host s else host)
               (if user =?s "" then sv_Username s else user)
               (if o_Port opt =? 0 then sv_Port s else o_Port opt)
               (if term =?s "" then sv_Term s else term)
               (sv_PrivateKey s)
               (if o_Passphrase opt =?s "" then sv_Passphrase s else o_Passphrase opt)
               (o_UseTmux opt || (sv_UseTmux s || sv_UseHerdr s))
               (o_TmuxSession opt)
  end.

Definition set_key (key : string) (t : Target) : Target :=
  mkTarget (tg_host t) (tg_user t) (tg_port t) (tg_term t) key (tg_passphrase t) (tg_useTmux t)
    (tg_tmuxSession t).
Definition set_passphrase (pass : string) (t : Target) : Target :=
  mkTarget (tg_host t) (tg_user t) (tg_port t) (tg_term t) (tg_key t) pass (tg_useTmux t)
    (tg_tmuxSession t).

(** The defaults of the port and the terminal's name; [env] is [$TERM]. *)
Definition complete_target (env : string) (t : Target) : result cerror Target :=
  reject! (tg_host t =?s "") || (tg_user t =?s "")
    with Plain "destination [user@]host[:port] is required (or --saved)" in
  let term := if tg_term t =?s "" then TrimSpace env else tg_term t in
  Ok (mkTarget (tg_host t) (tg_user t) (if tg_port t =? 0 then 22 else tg_port t)
        (if term =?s "" then "xterm-256color" else term) (tg_key t) (tg_passphrase t)
        (tg_useTmux t) (tg_tmuxSession t)).

Definition connect_data (t : Target) (window : option (Z * Z)) : ConnectData :=
  let (cols, rows) := default (defaultCols, defaultRows) window in
  let (cols, rows) := clampSize cols rows in
  mkConnectData (tg_host t) (tg_port t) (tg_user t) (tg_key t) (tg_passphrase t) (tg_term t) cols rows
    (tg_useTmux t) (tg_useTmux t) (tg_tmuxSession t) (tg_tmuxSession t).

Definition connect_frame (t : Target) (window : option (Z * Z)) : Frame :=
  TextMessage (EncodeMessage "connect" (Some (enc_ConnectData (connect_data t window)))).

(** ** Runs *)

Inductive RunEffect : Type :=
| EPrompt (text : string)
| EDoH (query : DoHRequest)
| EHttp (e : HttpEffect)
| EStdout (text : string) | EStderr (text : string)
| EDial (endpoint : URL) (headers : Headers) | ESend (f : Frame) | ERelay
| ECloseConn | ECloseIdle.

(** A run so far: its effects and its result. *)
Definition M (A : Type) : Type := (list RunEffect * result cerror A)%type.

Definition lift {A} (r : result cerror A) : M A := ([], r).
Definition emit (e : RunEffect) : M unit := ([e], Ok tt).
Definition emit_all (es : list RunEffect) : M unit := (es, Ok tt).
Definition m_bind {A B} (m : M A) (f : A -> M B) : M B :=
  match m with
  | (es, Ok a) => let (fs, r) := f a in (es ++ fs, r)
  | (es, Err e) => (es, Err e)
  end.
(** [defer]: the effects at the end, however the rest goes. *)
Definition deferred {A} (es : list RunEffect) (m : M A) : M A := (fst m ++ es, snd m).

Notation "'do!' x ':=' m 'in' k" := (m_bind m (fun x => k))
  (at level 10, x pattern, m at level 100, k at level 200) : go_scope.

Section Run.

(** The answers of the world: the URL parser and the environment; prompts; the
    private connection's resolver ([Doh]), proxy function and certificate check;
    HTTP; files; the key parser (does this key need a passphrase); the terminal's
    size; the cookie jar; the WebSocket's dial, writes and frames; and the error
    the read loop of the relay ends with. *)
Context (Parse : string -> option URL) (Getenv : string -> string) (Quote : string -> string)
        (unicode_EqualFold : string -> string -> bool) (unicode_ToLower : string -> string)
        (prompt : string -> result cerror string).
Context {Cert Roots : Type} (Verify : Cert -> VerifyOptions (Cert := Cert) (Roots := Roots) -> option cerror)
        (reply : string -> string -> string -> Z -> Reply) (expired : string -> Z -> Z -> option cerror)
        (spent : string -> Z -> Z) (select : ProxyFunc -> URL -> result cerror (option URL)).
Context (Send : ApiRequest -> result cerror SendAnswer) (url_error : ApiRequest -> string -> cerror)
        (ReadFile : string -> result cerror string) (UserHomeDir : option string)
        (Join : string -> string -> string)
        (passphrase_missing : string -> bool) (window : option (Z * Z))
        (Cookies : URL -> list (string * string))
        (DialContext : URL -> Headers -> option (cerror * option Response)) (send : Frame -> option cerror)
        (frames : list Frame) (rerr readErr : cerror).

Abbreviation Private := (option (Prepared (Cert := Cert) (Roots := Roots))).

Definition promptSecret (text : string) : M string :=
  do! _ := emit (EPrompt text) in lift (prompt text).

(** The password of the options or of a prompt. *)
Definition with_password (c : Client) : M Client :=
  if TrimSpace (o_WebPassword (c_opt c)) =?s "" then
    do! pw := promptSecret "Web password: " in
    let o := c_opt c in
    lift (Ok (mkClient
      (mkOptions (o_ServerURL o) (o_WebUser o) pw (o_ProxyURL o) (o_NoProxy o) (o_InsecureTLS o)
         (o_PrivateConnect o) (o_IdentityFile o) (o_Passphrase o) (o_Saved o) (o_ListSaved o)
         (o_Host o) (o_Port o) (o_SSHUser o) (o_Term o) (o_UseTmux o) (o_TmuxSession o)
         (o_Timeout o) (o_UserAgent o))
      (c_base c) (c_origin c) (c_proxy c) (c_private c)))
  else lift (Ok c).

(** The TLS configuration of [newClient]. *)
Definition client_tls (c : Client) : TLSConfig (Cert := Cert) (Roots := Roots) :=
  mkTLSConfig VersionTLS12 "" (o_InsecureTLS (c_opt c)) None None.

(** [preparePrivateConnection] of a new client, with the queries it sends. *)
Definition prepare (c : Client) : result cerror (Private) :=
  preparePrivateConnection Verify c
    (fun host => Doh.lookup Parse reply expired spent defaultDoHEndpoints host (Some (o_Timeout (c_opt c))))
    select (client_tls c) None.

Definition run_prepare (c : Client) : M (Private) :=
  do! _ := emit_all (map EDoH (if c_private c
             then lookup_requests Parse reply expired spent defaultDoHEndpoints (Hostname (c_base c))
                    (Some (o_Timeout (c_opt c)))
             else [])) in
  lift (prepare c).

(** What one [http.Client.Do] sends, and what it returns. *)
Definition requests (p : Private) (req : ApiRequest) : M unit :=
  emit_all (map EHttp (fst (http_do Send url_error p req))).
Definition Do (p : Private) (req : ApiRequest) : result cerror Response :=
  snd (http_do Send url_error p req).

Definition run_login (c : Client) : M (Private) :=
  do! p := run_prepare c in
  do! _ := requests p (login_request c) in
  do! _ := lift (do_ok (Do p) "login" (login_request c)) in lift (Ok p).

Definition fetchSaved (c : Client) (p : Private) (nameOrID : string) : M savedCredential :=
  do! _ := requests p (list_request c) in
  do! items := lift (listCredentials (Do p) c) in
  do! id := lift (matchSaved Quote unicode_EqualFold unicode_ToLower items nameOrID) in
  do! _ := requests p (saved_request c id) in
  lift (fetch_item (Do p) Quote c nameOrID id).

Definition run_list (c : Client) (p : Private) : M unit :=
  do! _ := requests p (list_request c) in
  do! items := lift (listCredentials (Do p) c) in
  emit (EStdout (saved_listing items)).

(** The target: options and saved credential, the key, the defaults, and a
    passphrase for a key that needs one. *)
Definition run_target (c : Client) (p : Private) : M Target :=
  let opt := c_opt c in
  do! t := (if o_Saved opt =?s "" then lift (Ok (merge_saved opt None))
            else do! s := fetchSaved c p (o_Saved opt) in lift (Ok (merge_saved opt (Some s)))) in
  do! t := (if o_IdentityFile opt =?s "" then lift (Ok t)
            else do! key := lift (readIdentityFile ReadFile UserHomeDir Join (o_IdentityFile opt)) in
                 lift (Ok (set_key key t))) in
  do! t := (if tg_key t =?s "" then
              do! (key, path) := lift (readDefaultIdentity ReadFile UserHomeDir Join) in
              do! _ := (if path =?s "" then lift (Ok tt)
                        else emit (EStderr ("Using identity file " +:+ path +:+ newline))) in
              lift (Ok (set_key key t))
            else lift (Ok t)) in
  do! t := lift (complete_target (Getenv "TERM") t) in
  if (tg_passphrase t =?s "") && passphrase_missing (tg_key t) then
    do! pass := promptSecret "Key passphrase: " in lift (Ok (set_passphrase pass t))
  else lift (Ok t).

(** [relay] as the last step of a run. *)
Definition run_relay : M unit :=
  do! _ := emit ERelay in
  let (err, notice) := relay readErr in
  do! _ := match notice with Some text => emit (EStderr text) | None => lift (Ok tt) end in
  lift (match err with Some e => Err e | None => Ok tt end).

(** [dialWS] with the handshake it makes; the address is empty until a private
    connection is prepared. *)
Definition run_dial (c : Client) (p : Private) : M unit :=
  let address := match p with Some p => pr_address p | None => "" end in
  do! url := lift (dial_endpoint address c (wsURL (c_base c))) in
  do! _ := emit (EDial url (dial_headers c (Cookies (cookie_url (c_base c))))) in
  lift (dialWS Cookies address DialContext c).

Definition run_session (c : Client) (p : Private) (t : Target) : M unit :=
  let hello := connect_frame t window in
  do! _ := run_dial c p in
  deferred [ECloseConn]
    (do! _ := emit (ESend hello) in
     do! _ := lift (match send hello with Some e => Err (Wrap "send connect: " e) | None => Ok tt end) in
     do! _ := lift (waitConnected frames rerr) in
     do! _ := emit (EStderr ("Connected to " +:+ tg_user t +:+ "@" +:+ tg_host t +:+ ":"
                               +:+ Itoa (tg_port t) +:+ " via " +:+ URL_Host (c_base c) +:+ newline)) in
     run_relay).

(** What [Run] does with a client. *)
Definition run_client (c : Client) : M unit :=
  do! c := with_password c in
  do! p := run_login c in
  if o_ListSaved (c_opt c) then run_list c p
  else do! t := run_target c p in run_session c p t.

Definition run_options (opt : Options) : Options :=
  mkOptions (o_ServerURL opt) (o_WebUser opt) (o_WebPassword opt) (o_ProxyURL opt) (o_NoProxy opt)
    (o_InsecureTLS opt) (o_PrivateConnect opt) (o_IdentityFile opt) (o_Passphrase opt) (o_Saved opt)
    (o_ListSaved opt) (o_Host opt) (o_Port opt) (o_SSHUser opt) (o_Term opt) (o_UseTmux opt)
    (o_TmuxSession opt) (if o_Timeout opt <=? 0 then defaultTimeout else o_Timeout opt)
    (if o_UserAgent opt =?s "" then "go-webssh-cli" else o_UserAgent opt).

Definition Run (opt : Options) : M unit :=
  let opt := run_options opt in
  if TrimSpace (o_ServerURL opt) =?s ""
  then lift (Err (Plain "WebSSH URL is required (--url or GOWEBSSH_URL)"))
  else if TrimSpace (o_WebUser opt) =?s ""
  then lift (Err (Plain "WebSSH username is required (--web-user or GOWEBSSH_USERNAME)"))
  else
    do! c := lift (newClient Parse Getenv Quote opt) in
    deferred [ECloseIdle] (run_client c).

End Run.

(** ** The command line (cmd/webssh-cli) *)

Definition port_in_range (port : Z) : bool := (1 <=? port) && (port <=? 65535).

Section CommandLine.

Context (Quote : string -> string) (getenv : string -> string).

(** Whether the tunnel mode is on. *)
Definition resolve_stdio (fs : FlagSet) (stdio : bool) : result cerror bool :=
  let value := TrimSpace (getenv "GOWEBSSH_STDIO") in
  if explicit fs "stdio" || (value =?s "") then Ok stdio
  else of_option (Plain "GOWEBSSH_STDIO must be a boolean (true/false)") (ParseBool value).

(** Host and port of the arguments, and whether a port was given there or by a
    flag. *)
Definition resolve_target (fs : FlagSet) (opt : Options) : result cerror (string * Z * bool) :=
  let portProvided := explicit fs "p" || explicit fs "port" in
  match fs_args fs with
  | [] => Ok (TrimSpace (getenv "GOWEBSSH_TARGET_HOST"), o_Port opt, portProvided)
  | [dest] =>
      let! (_, host, port) := ParseDestination Quote dest in
      Ok (host, if port =? 0 then o_Port opt else port, portProvided || negb (port =? 0))
  | [host; port] =>
      let bad := Plain "tunnel port must be between 1 and 65535" in
      let! port := of_option bad (Atoi port) in
      require! port_in_range port else bad in
      Ok (TrimSpace host, port, true)
  | _ => Err (Plain "tunnel mode accepts a host and optional port")
  end.

(** The port of the environment, when none was given. *)
Definition resolve_port (port : Z) (portProvided : bool) : result cerror Z :=
  let value := TrimSpace (getenv "GOWEBSSH_TARGET_PORT") in
  if portProvided || (value =?s "") then Ok port
  else
    let bad := Plain "GOWEBSSH_TARGET_PORT must be between 1 and 65535" in
    let! port := of_option bad (Atoi value) in
    require! port_in_range port else bad in Ok port.

Definition resolveTunnelOptions (fs : FlagSet) (opt : Options) (stdio : bool)
    : result cerror (Options * bool) :=
  let! stdio := resolve_stdio fs stdio in
  if negb stdio then Ok (opt, false)
  else
    reject! o_ListSaved opt || negb (o_Saved opt =?s "")
      with Plain "--stdio cannot be combined with --list or --saved" in
    let! (host, port, portProvided) := resolve_target fs opt in
    reject! host =?s ""
      with Plain "tunnel destination host is required (host argument or GOWEBSSH_TARGET_HOST)" in
    let! port := resolve_port port portProvided in
    let port := if port =? 0 then 22 else port in
    require! port_in_range port else Plain "tunnel destination port must be between 1 and 65535" in
    Ok (with_target host port opt, true).

Definition resolvePrivateConnect (fs : FlagSet) (value : bool) : result cerror bool :=
  let raw := TrimSpace (getenv "GOWEBSSH_PRIVATE_CONNECT") in
  if explicit fs "private-connect" || (raw =?s "") then Ok value
  else of_option (Plain "GOWEBSSH_PRIVATE_CONNECT must be a boolean (true/false)") (ParseBool raw).

(** What [main] does with the parsed command line: exit at once with a code and
    a message, print the version, or run one of the two modes. *)
Inductive Action : Type :=
| Exit (code : Z) (message : string)
| Usage
| ShowVersion
| StartTunnel (opt : Options)
| StartSession (opt : Options).

Definition main_action (fs : FlagSet) (showVersion stdio : bool) (opt : Options) : Action :=
  if showVersion then ShowVersion
  else
    match (let! private := resolvePrivateConnect fs (o_PrivateConnect opt) in
           resolveTunnelOptions fs (with_private private opt) stdio) with
    | Err e => Exit 2 ("go-webssh-cli: " +:+ cError e)
    | Ok (opt, true) => StartTunnel opt
    | Ok (opt, false) =>
        if o_ListSaved opt then
          match fs_args fs with
          | [] => StartSession opt
          | _ => Exit 2 "go-webssh-cli: --list does not take a destination"
          end
        else
          match fs_args fs with
          | [dest] =>
              match ParseDestination Quote dest with
              | Err e => Exit 2 ("go-webssh-cli: " +:+ cError e)
              | Ok (user, host, destPort) =>
                  StartSession
                    (with_user (if o_SSHUser opt =?s "" then user else o_SSHUser opt)
                       (with_target host (if destPort =? 0 then o_Port opt else destPort) opt))
              end
          | [] => if o_Saved opt =?s "" then Usage else StartSession opt
          | _ => Usage
          end
    end.

End CommandLine.

(** ** Lemmas: effects of runs *)

(** A predicate on effects in order that holds of nothing and of a
    composition. *)
Record closed (Q : list RunEffect -> Prop) : Prop := {
  closed_nil : Q [];
  closed_app : forall es fs, Q es -> Q fs -> Q (es ++ fs) }.

Lemma closed_Forall P : closed (Forall P).
Proof. split; [by constructor|]. intros es fs H1 H2. by apply Forall_app. Qed.

Definition run_sat {A} (Q : list RunEffect -> Prop) (m : M A) : Prop := Q (fst m).

Lemma sat_lift {A} Q (r : result cerror A) : closed Q -> run_sat Q (lift r).
Proof. by intros [? _]. Qed.

Lemma sat_emit (Q : list RunEffect -> Prop) e : Q [e] -> run_sat Q (emit e).
Proof. done. Qed.

Lemma sat_bind {A B} Q (m : M A) (f : A -> M B) :
  closed Q -> run_sat Q m -> (forall a, snd m = Ok a -> run_sat Q (f a)) -> run_sat Q (m_bind m f).
Proof.
  unfold run_sat, m_bind. intros HQ. destruct m as [es [a|e]]; cbn; intros Hm Hf; [|done].
  specialize (Hf a eq_refl). destruct (f a) as [fs r]. cbn in *. by apply HQ.
Qed.

Lemma sat_deferred {A} Q es (m : M A) : closed Q -> Q es -> run_sat Q m -> run_sat Q (deferred es m).
Proof. intros [_ H] H1 H2. unfold run_sat, deferred. cbn. by apply H. Qed.

(** Go through a run; what is left is about single effects. *)
Ltac effects :=
  repeat first
    [ apply sat_lift; [assumption]
    | apply sat_emit; [auto]
    | apply sat_bind; [assumption| |intros]
    | match goal with |- run_sat _ (if ?c then _ else _) => destruct c end
    | match goal with |- run_sat _ (let (_, _) := ?p in _) => destruct p end
    | match goal with |- run_sat _ (match ?o with Some _ => _ | None => _ end) => destruct o end ].

(** The scheme of a WebSocket for a scheme of HTTP. *)
Definition ws_scheme (scheme : string) : string := if scheme =?s "https" then "wss" else "ws".

Definition same_server (base u : URL) : Prop := URL_Scheme u = URL_Scheme base /\ URL_Host u = URL_Host base.

(** [url] is [u] with the resolved address in place of the host, and that is
    the address the private connection's dialer accepts. *)
Definition by_address {Cert Roots} (p : Prepared (Cert := Cert) (Roots := Roots)) (u url : URL) : Prop :=
  url = set_host (hostWithIP u (pr_address p)) u /\ canonicalAddr url = pr_destination p.

(** An effect that keeps to the client's server.  Without a private connection:
    requests to the scheme and host of the base URL, redirects, and a WebSocket
    to the same host with the corresponding scheme.  With one: queries for the
    server's name to the built-in providers, no redirects, and requests and the
    WebSocket for the same host, sent to the resolved address. *)
Definition on_server {Cert Roots} (Parse : string -> option URL) (c : Client)
    (p : option (Prepared (Cert := Cert) (Roots := Roots))) (e : RunEffect) : Prop :=
  match e with
  | EDoH r => c_private c = true /\ request_to Parse defaultDoHEndpoints (TrimSpace (Hostname (c_base c))) r
  | EHttp (HRequest r) => c_private c = false /\ same_server (c_base c) (aq_URL r)
  | EHttp (HRedirect _) => c_private c = false
  | EHttp (HPrivate r url host) =>
      exists q, p = Some q /\ c_private c = true /\ same_server (c_base c) (aq_URL r)
        /\ by_address q (aq_URL r) url /\ host = URL_Host (c_base c)
  | EDial u h =>
      let url := wsURL (c_base c) in
      URL_Host url = URL_Host (c_base c) /\ URL_Scheme url = ws_scheme (URL_Scheme (c_base c))
      /\ match p with
         | None => c_private c = false /\ u = url
         | Some q => c_private c = true /\ URL_Scheme url = "wss" /\ by_address q url u
                     /\ ("Host", URL_Host (c_base c)) ∈ h
         end
  | _ => True
  end.

(** Whether the WebSocket is open after some effects; [dial] tells which dials
    succeed. *)
Fixpoint conn_open {E} (dial : URL -> Headers -> option E) (st : bool) (es : list RunEffect) : bool :=
  match es with
  | [] => st
  | EDial u h :: es => conn_open dial (match dial u h with None => true | Some _ => st end) es
  | ECloseConn :: es => conn_open dial false es
  | _ :: es => conn_open dial st es
  end.

Lemma conn_open_app {E} (dial : URL -> Headers -> option E) st es fs :
  conn_open dial st (es ++ fs) = conn_open dial (conn_open dial st es) fs.
Proof. revert st; induction es as [|[] es IH]; intros st; cbn; auto. Qed.

Lemma m_bind_fst {A B} (m : M A) (f : A -> M B) :
  fst (m_bind m f) = fst m ++ match snd m with Ok a => fst (f a) | Err _ => [] end.
Proof. destruct m as [es [a|e]]; cbn; [by destruct (f a)|by rewrite app_nil_r]. Qed.

(** The HTTP effects of a run. *)
Definition http_effects (es : list RunEffect) : list HttpEffect :=
  omap (fun e => match e with EHttp h => Some h | _ => None end) es.

Section RunFacts.

Context (Parse : string -> option URL) (Getenv : string -> string) (Quote : string -> string)
        (fold : string -> string -> bool) (lower_table : string -> string)
        (prompt : string -> result cerror string).
Context {Cert Roots : Type} (Verify : Cert -> VerifyOptions (Cert := Cert) (Roots := Roots) -> option cerror)
        (reply : string -> string -> string -> Z -> Reply) (expired : string -> Z -> Z -> option cerror)
        (spent : string -> Z -> Z) (select : ProxyFunc -> URL -> result cerror (option URL)).
Context (Send : ApiRequest -> result cerror SendAnswer) (url_error : ApiRequest -> string -> cerror)
        (ReadFile : string -> result cerror string) (home : option string)
        (Join : string -> string -> string)
        (missing : string -> bool) (window : option (Z * Z)) (Cookies : URL -> list (string * string))
        (DialContext : URL -> Headers -> option (cerror * option Response)) (send : Frame -> option cerror)
        (frames : list Frame) (rerr readErr : cerror).

Abbreviation prepare_of := (prepare Parse Verify reply expired spent select).

(** The private connection of a client that was prepared. *)
Definition prepared_for (c : Client) (p : option Prepared) : Prop :=
  prepare_of c = Ok p.

Lemma prepared_cases c p :
  prepared_for c p -> match p with None => c_private c = false | Some _ => c_private c = true end.
Proof.
  unfold prepared_for, prepare, preparePrivateConnection. intros H.
  destruct (c_private c); cbn [negb orb] in H; [|by injection H as <-].
  rewrite bool_decide_eq_false_2 in H by (by intros [? ?]). destruct p; [done|].
  ok_path H. destruct a; [done|]. ok_path H. discriminate H.
Qed.

(** What the parts of a run before the session do: they keep to the server, open
    and close no WebSocket, and follow redirects only. *)
Definition modest (c : Client) (p : option (Prepared (Cert := Cert) (Roots := Roots))) (es : list RunEffect) : Prop :=
  Forall (on_server Parse c p) es /\ (forall st, conn_open DialContext st es = st)
  /\ followed Send None (http_effects es).

Lemma modest_closed c p : closed (modest c p).
Proof.
  split; [split_and!; [by constructor|done..]|]. intros es fs (H1 & H2 & H3) (H4 & H5 & H6). split_and!.
  - by apply Forall_app.
  - intros st. by rewrite conn_open_app, H2.
  - unfold http_effects. rewrite omap_app. by apply followed_app.
Qed.

Lemma modest_http c p es :
  Forall (fun e => on_server Parse c p (EHttp e)) es -> followed Send None es -> modest c p (map EHttp es).
Proof.
  intros H1 H2. split_and!.
  - by rewrite Forall_map.
  - clear. induction es as [|e es IH]; intros st; cbn; auto.
  - assert (http_effects (map EHttp es) = es) as ->; [|done]. clear. induction es as [|e es IH]; [done|]. cbn. by f_equal.
Qed.

Lemma queries_modest c p qs :
  Forall (fun r => on_server Parse c p (EDoH r)) qs -> modest c p (map EDoH qs).
Proof.
  intros H. split_and!; [by rewrite Forall_map| |]; clear H.
  - intros st. induction qs; cbn; auto.
  - induction qs as [|r qs IH]; [done|]. exact IH.
Qed.

Lemma requests_modest c p req :
  prepared_for c p -> same_server (c_base c) (aq_URL req) -> run_sat (modest c p) (requests Send url_error p req).
Proof.
  intros Hp Hs. apply modest_http; [|apply http_do_followed]. pose proof (prepared_cases c p Hp) as Hc.
  unfold http_do. destruct p as [q|].
  - destruct (RoundTrip q (aq_URL req)) as [[out host]|] eqn:Er; [|by constructor]. constructor; [|done].
    destruct (private_dial_agrees _ _ _ _ _ _ _ _ _ _ _ _ _ Hp) as (_ & H & _).
    destruct (H _ _ _ Er) as (_ & Hcan & Hhost & _). exists q. split_and!; try done.
    split; [|done]. unfold RoundTrip in Er. ok_path Er. by injection Er as <- _.
  - pose proof (follow_facts Send url_error 9 req 0 ltac:(lia)) as [_ HF].
    destruct (follow _ _ 9 _ _) as [es r]. constructor; [by split|].
    eapply Forall_impl; [exact HF|]. by intros e [r0 ->].
Qed.

Lemma with_password_same c c' :
  snd (with_password prompt c) = Ok c' ->
  c_base c' = c_base c /\ c_private c' = c_private c /\ prepare_of c' = prepare_of c
  /\ o_Timeout (c_opt c') = o_Timeout (c_opt c).
Proof.
  unfold with_password, promptSecret. intros H. destruct (_ =?s _); [|by injection H as <-].
  unfold m_bind, emit, lift in H. destruct (prompt _); cbn in H; by simplify_eq.
Qed.

Lemma api_same_server c path : same_server (c_base c) (apiURL (c_base c) path).
Proof. done. Qed.

(** The parts of a run before the session. *)
Lemma run_parts c p :
  prepared_for c p ->
  run_sat (modest c p) (run_list Send url_error c p)
  /\ run_sat (modest c p)
       (run_target Getenv Quote fold lower_table prompt Send url_error ReadFile home Join missing c p).
Proof.
  intros Hp. pose proof (modest_closed c p) as Hcl.
  assert (forall e, on_server Parse c p e -> (forall st, conn_open DialContext st [e] = st) -> http_effects [e] = [] ->
    modest c p [e]) as Hone.
  { intros e H1 H2 H3. split_and!; [by repeat constructor|done|by rewrite H3]. }
  assert (forall text, modest c p [EPrompt text]) as H1 by (intros; by apply Hone).
  assert (forall text, modest c p [EStdout text]) as H2 by (intros; by apply Hone).
  assert (forall text, modest c p [EStderr text]) as H3 by (intros; by apply Hone).
  unfold run_list, run_target, fetchSaved, promptSecret.
  split; effects; try (by apply requests_modest); auto.
Qed.

Lemma login_parts c :
  let p := match prepare_of c with Ok p => p | Err _ => None end in
  run_sat (modest c p) (with_password prompt c)
  /\ run_sat (modest c p) (run_login Parse Verify reply expired spent select Send url_error c)
  /\ forall p', snd (run_login Parse Verify reply expired spent select Send url_error c) = Ok p' ->
       p' = p /\ prepared_for c p.
Proof.
  intros p. pose proof (modest_closed c p) as Hcl. split_and!.
  - unfold with_password, promptSecret. effects. by repeat constructor.
  - unfold run_login, run_prepare. effects.
    + apply queries_modest. destruct (c_private c) eqn:Ep; [|by constructor].
      eapply Forall_impl; [apply lookup_requests_to|]. intros r Hr. by split.
    + assert (prepared_for c a) as Ha by (by cbn in H). assert (p = a) as -> by (unfold p; by rewrite Ha).
      by apply requests_modest.
  - intros p' H. unfold run_login, run_prepare in H. cbn in H.
    unfold prepared_for. subst p. destruct (prepare_of c) as [q|e]; [|discriminate H].
    cbn in H. destruct (do_ok _ _ _); cbn in H; by simplify_eq.
Qed.

Lemma dialled_on_server c p url :
  URL_Scheme (c_base c) = "http" \/ URL_Scheme (c_base c) = "https" -> prepared_for c p ->
  dial_endpoint (match p with Some q => pr_address q | None => "" end) c (wsURL (c_base c)) = Ok url ->
  on_server Parse c p (EDial url (dial_headers c (Cookies (cookie_url (c_base c))))).
Proof.
  intros Hs Hp Hu. pose proof (prepared_cases c p Hp) as Hc. unfold dial_endpoint in Hu.
  assert (URL_Host (wsURL (c_base c)) = URL_Host (c_base c)
    /\ URL_Scheme (wsURL (c_base c)) = ws_scheme (URL_Scheme (c_base c))) as [H1 H2]
    by (by destruct Hs as [Hs|Hs]; unfold wsURL, websocketURL, ws_scheme; rewrite Hs).
  split_and!; [done..|]. destruct p as [q|]; rewrite Hc in Hu; [|by injection Hu as <-].
  destruct (private_dial_agrees _ _ _ _ _ _ _ _ _ _ _ _ _ Hp) as (_ & _ & H).
  destruct (H _ _ Hu) as [_ Hcan]. unfold privateWebSocketURL in Hu. ok_path Hu. injection Hu as <-. bool_facts.
  split_and!; [done..|]. unfold dial_headers. rewrite Hc. rewrite !elem_of_app. right; right. by left.
Qed.

(** What the whole of a run satisfies. *)
Definition kept (c : Client) (p : option (Prepared (Cert := Cert) (Roots := Roots))) (es : list RunEffect) : Prop :=
  Forall (on_server Parse c p) es /\ conn_open DialContext false es = false
  /\ followed Send None (http_effects es).

Lemma modest_kept c p es : modest c p es -> kept c p es.
Proof. by intros (H1 & H2 & H3). Qed.

Lemma kept_closed c p : closed (kept c p).
Proof.
  split; [split_and!; [by constructor|done..]|]. intros es fs (H1 & H2 & H3) (H4 & H5 & H6). split_and!.
  - by apply Forall_app.
  - by rewrite conn_open_app, H2.
  - unfold http_effects. rewrite omap_app. by apply followed_app.
Qed.

(** The effects of a session. *)
Definition in_session (e : RunEffect) : Prop :=
  match e with ESend _ | EStderr _ | ERelay => True | _ => False end.

Lemma in_session_kept c (p : option (Prepared (Cert := Cert) (Roots := Roots))) es :
  Forall in_session es ->
  Forall (on_server Parse c p) es /\ (forall st, conn_open DialContext st es = st)
  /\ http_effects (es ++ [ECloseConn]) = [].
Proof.
  induction 1 as [|e es He _ (H1 & H2 & H3)]; [split_and!; [by constructor|done..]|].
  destruct e; try done; (split_and!; [by constructor|done..]).
Qed.

Lemma run_session_kept c p t :
  URL_Scheme (c_base c) = "http" \/ URL_Scheme (c_base c) = "https" -> prepared_for c p ->
  run_sat (kept c p) (run_session window Cookies DialContext send frames rerr readErr c p t).
Proof.
  intros Hs Hp. unfold run_session, run_dial.
  set (address := match p with Some q => pr_address q | None => "" end).
  destruct (dial_endpoint address c (wsURL (c_base c))) as [url|e] eqn:Eu; [|by repeat constructor].
  pose proof (dialled_on_server c p url Hs Hp Eu) as Hon.
  set (headers := dial_headers c (Cookies (cookie_url (c_base c)))) in *.
  set (rest := deferred [ECloseConn] _).
  assert (exists es, fst rest = es ++ [ECloseConn] /\ Forall in_session es) as (es & Hrest & Hes).
  { eexists. split; [reflexivity|]. pose proof (closed_Forall in_session) as Hcl.
    match goal with |- Forall _ (fst ?m) => change (run_sat (Forall in_session) m) end. unfold run_relay. effects; by repeat constructor. }
  unfold run_sat. rewrite !m_bind_fst.
  assert (dialWS Cookies address DialContext c
          = match DialContext url headers with
            | None => Ok tt
            | Some (err, Some resp) => Err (Wrap ("websocket: " +:+ readAPIError resp +:+ ": ") err)
            | Some (err, None) => Err (Wrap "websocket: " err)
            end) as -> by (unfold dialWS, dialWSURL; by rewrite Eu).
  clearbody headers.
  cbn [lift emit fst snd m_bind app].
  destruct (DialContext url headers) as [[err [resp|]]|] eqn:Ed; cbn [fst snd app].
  1,2: split_and!; [by apply Forall_singleton|by cbn; rewrite Ed|done].
  rewrite Hrest. destruct (in_session_kept c p es Hes) as (H1 & H2 & H3). split_and!.
  - constructor; [done|]. apply Forall_app. split; [done|by repeat constructor].
  - cbn. rewrite Ed, conn_open_app. done.
  - change (http_effects (EDial url headers :: es ++ [ECloseConn])) with (http_effects (es ++ [ECloseConn])). by rewrite H3.
Qed.

(** All of a run with a client. *)
Lemma run_client_kept c :
  URL_Scheme (c_base c) = "http" \/ URL_Scheme (c_base c) = "https" ->
  let p := match prepare_of c with Ok p => p | Err _ => None end in
  run_sat (kept c p)
    (run_client Parse Getenv Quote fold lower_table prompt Verify reply expired spent select Send url_error
       ReadFile home Join missing window Cookies DialContext send frames rerr readErr c).
Proof.
  intros Hs p. pose proof (kept_closed c p) as Hcl. unfold run_client.
  apply sat_bind; [done|by apply modest_kept, login_parts|]. intros c' (Hb & Hpr & Hprep & _)%with_password_same.
  assert (forall es, kept c' p es -> kept c p es) as Hk.
  { intros es (H1 & H2 & H3). split_and!; [|done..]. eapply Forall_impl; [exact H1|].
    unfold on_server. rewrite Hb, Hpr. done. }
  assert (p = match prepare_of c' with Ok p => p | Err _ => None end) as Hp by (by rewrite Hprep).
  rewrite <- Hb in Hs. destruct (login_parts c') as (_ & Hlog & Hlogged). rewrite <- Hp in *.
  apply sat_bind; [done|by apply Hk, modest_kept|]. intros p' [-> Hfor]%Hlogged. apply Hk.
  destruct (run_parts c' p Hfor) as [Hl Ht]. pose proof (kept_closed c' p) as Hcl'.
  destruct (o_ListSaved (c_opt c')); [by apply modest_kept|].
  apply sat_bind; [done|by apply modest_kept|]. intros t _. by apply run_session_kept.
Qed.

End RunFacts.

(** ** Properties *)

(** C34.  A run of the client talks to the configured server only.  Without a
    private connection its HTTP requests go to the scheme and host of the base
    URL, and so does the WebSocket, with TLS exactly if the base URL has it; any
    other request follows a redirect that the request before it was answered
    with, at most nine in a row.  With a private connection no redirect is
    followed; besides the requests and the WebSocket, which are for the base
    URL's host and go to an address that the lookup returned for it, there are
    only HTTPS queries for the server's name to the built-in DNS providers.
    Whatever happens, no WebSocket is open after the run, and the run ends by
    closing the client's idle connections. *)
Theorem Run_stays_on_server :
  forall Parse Getenv Quote fold lower_table prompt Cert Roots
         (Verify : Cert -> VerifyOptions (Cert := Cert) (Roots := Roots) -> option cerror)
         reply expired spent select Send url_error ReadFile home Join missing window
         Cookies DialContext send frames rerr readErr opt c,
    newClient Parse Getenv Quote (run_options opt) = Ok c ->
    let run := Run Parse Getenv Quote fold lower_table prompt Verify reply expired spent select Send url_error
                 ReadFile home Join missing window Cookies DialContext send frames rerr readErr opt in
    (exists p : option (Prepared (Cert := Cert) (Roots := Roots)), Forall (on_server Parse c p) (fst run)
       /\ forall q, p = Some q -> exists ips,
            Doh.lookup Parse reply expired spent defaultDoHEndpoints (Hostname (c_base c))
              (Some (o_Timeout (c_opt c))) = Ok ips
            /\ pr_address q ∈ map AddrString ips)
    /\ followed Send None (http_effects (fst run))
    /\ conn_open DialContext false (fst run) = false
    /\ (fst run = [] \/ exists es, fst run = es ++ [ECloseIdle]).
Proof.
  intros * Hc run. subst run. unfold Run.
  destruct (_ =?s _); [split_and!; [exists None; split; [by constructor|done]|done..|by left]|].
  destruct (_ =?s _); [split_and!; [exists None; split; [by constructor|done]|done..|by left]|].
  rewrite Hc, m_bind_fst. cbn [fst snd lift app].
  pose proof (newClient_scheme _ _ _ _ _ Hc) as (Hs & _).
  pose proof (run_client_kept Parse Getenv Quote fold lower_table prompt Verify reply expired spent select Send url_error
    ReadFile home Join missing window Cookies DialContext send frames rerr readErr c Hs) as (H1 & H2 & H3).
  unfold deferred. cbn [fst]. unfold http_effects. rewrite conn_open_app, H2, omap_app.
  split_and!; [|by apply followed_app|done|right; by eexists].
  eexists. split; [apply Forall_app; split; [exact H1|by repeat constructor]|].
  intros q Hq. destruct (prepare _ _ _ _ _ _ c) as [p|] eqn:Ep; [|discriminate Hq]. subst p.
  apply private_dial_agrees in Ep as [H _]. exact H.
Qed.

Definition sample_parse (s : string) : option URL :=
  if s =?s "wss://web.example/shell/" then Some (sample_base "wss" "web.example")
  else if s =?s "https://doh.pub/dns-query" then Some (mkURL "https" None "doh.pub" "/dns-query" "" "") else None.

Definition sample_opt (private : bool) : Options :=
  mkOptions " wss://web.example/shell/ " "admin" "pw" "" true false private "id" "" "" false
    "box" 0 "root" "" false "" 0 "".

(** A server that redirects the login once. *)
Definition sample_send (private : bool) (req : ApiRequest) : result cerror SendAnswer :=
  if negb private && (URL_Host (aq_URL req) =?s "web.example")
  then Ok (Redirect (sample_base "https" "login.example") true) else Ok (Final (mkResponse 200 "200 OK" "{}")).

Definition sample_run (private : bool) : M unit :=
  Run sample_parse (fun _ => "") (fun s => s) (fun _ _ => false) (fun s => s) (fun _ => Err EOF)
    (fun (_ : unit) (_ : VerifyOptions (Roots := unit)) => None)
    (fun _ _ type _ => Answered 200 (if type =?s "AAAA" then q "{'Status':0}"
       else q "{'Status':0,'Answer':[{'name':'w.','type':1,'data':'192.0.2.7'}]}"))
    (fun _ _ _ => None) (fun _ b => b) (fun _ _ => Ok None)
    (sample_send private) (fun _ _ => EOF) (fun _ => Ok "KEY") None (fun a _ => a) (fun _ => false) None
    (fun _ => []) (fun _ _ => None) (fun _ => None) [] EOF EOF (sample_opt private).

Example sample_runs :
  map (fun e => match e with
                | EDoH r => "query " +:+ URL_Host (dq_URL r) +:+ " " +:+ dq_Name r +:+ " " +:+ dq_Type r
                | EHttp (HRequest r) => "to " +:+ URL_Host (aq_URL r)
                | EHttp (HRedirect r) => "redirected to " +:+ URL_Host (aq_URL r)
                | EHttp (HPrivate _ u host) => "to " +:+ URL_Host u +:+ " for " +:+ host
                | EDial u h => "dial " +:+ URL_Host u
                | _ => "other"
                end) (fst (sample_run true) ++ fst (sample_run false))
  = ["query doh.pub web.example A"; "to 192.0.2.7 for web.example"; "dial 192.0.2.7"; "other"; "other"; "other";
     "to web.example"; "redirected to login.example"; "dial web.example"; "other"; "other"; "other"].
Proof. vm_compute. reflexivity. Qed.

Definition sample_run_client (private : bool) : Client :=
  mkClient (run_options (sample_opt private)) (sample_base "https" "web.example")
    (originFromURL (sample_base "https" "web.example")) NoProxy private.

Lemma Run_stays_on_server_witness :
  (exists p : option (Prepared (Cert := unit) (Roots := unit)), Forall (on_server sample_parse (sample_run_client true) p) (fst (sample_run true)))
  /\ followed (sample_send false) None (http_effects (fst (sample_run false))).
Proof.
  split.
  - destruct (Run_stays_on_server sample_parse (fun _ => "") (fun s => s) (fun _ _ => false) (fun s => s) (fun _ => Err EOF)
      unit unit (fun (_ : unit) _ => None)
      (fun _ _ type _ => Answered 200 (if type =?s "AAAA" then q "{'Status':0}"
         else q "{'Status':0,'Answer':[{'name':'w.','type':1,'data':'192.0.2.7'}]}"))
      (fun _ _ _ => None) (fun _ b => b) (fun _ _ => Ok None)
      (sample_send true) (fun _ _ => EOF) (fun _ => Ok "KEY") None (fun a _ => a) (fun _ => false) None
      (fun _ => []) (fun _ _ => None) (fun _ => None) [] EOF EOF (sample_opt true) (sample_run_client true))
      as ((p & H & _) & _); [vm_compute; reflexivity|]. exists p. exact H.
  - destruct (Run_stays_on_server sample_parse (fun _ => "") (fun s => s) (fun _ _ => false) (fun s => s) (fun _ => Err EOF)
      unit unit (fun (_ : unit) _ => None)
      (fun _ _ type _ => Answered 200 (if type =?s "AAAA" then q "{'Status':0}"
         else q "{'Status':0,'Answer':[{'name':'w.','type':1,'data':'192.0.2.7'}]}"))
      (fun _ _ _ => None) (fun _ b => b) (fun _ _ => Ok None)
      (sample_send false) (fun _ _ => EOF) (fun _ => Ok "KEY") None (fun a _ => a) (fun _ => false) None
      (fun _ => []) (fun _ _ => None) (fun _ => None) [] EOF EOF (sample_opt false) (sample_run_client false))
      as (_ & H & _); [vm_compute; reflexivity|]. exact H.
Defined.

(** The first of some optional values. *)
Definition first_of {A} (l : list (option A)) (dflt : A) : A := default dflt (head (omap id l)).

(** The value of the environment variable of the port. *)
Definition env_port (getenv : string -> string) : option Z :=
  let value := TrimSpace (getenv "GOWEBSSH_TARGET_PORT") in
  if value =?s "" then None else Atoi value.

(** What the arguments say about the target: host and port. *)
Definition argument_target (Quote : string -> string) (fs : FlagSet) : option string * option Z :=
  match fs_args fs with
  | [dest] => match ParseDestination Quote dest with
              | Ok (_, host, port) => (Some host, if port =? 0 then None else Some port)
              | Err _ => (None, None)
              end
  | [host; port] => (Some (TrimSpace host), Atoi port)
  | _ => (None, None)
  end.

(** The port of the flags. *)
Definition flag_port (fs : FlagSet) (opt : Options) : option Z :=
  if explicit fs "p" || explicit fs "port"
  then Some (if o_Port opt =? 0 then 22 else o_Port opt) else None.

(** Where a tunnel's target comes from: the host is that of the arguments,
    else of the environment; the port that of the arguments, else of the flags,
    else of the environment, else the options' own or 22.  What is returned is a
    host and a port in 1..65535, nothing else of the options is changed, and the
    tunnel mode itself comes from the flag if it was given, else from the
    environment. *)
Theorem tunnel_options_precedence :
  forall Quote getenv fs opt stdio opt',
    resolveTunnelOptions Quote getenv fs opt stdio = Ok (opt', true) ->
    let '(host, port) := argument_target Quote fs in
    o_Host opt' = first_of [host] (TrimSpace (getenv "GOWEBSSH_TARGET_HOST"))
    /\ o_Port opt' = first_of [port; flag_port fs opt; env_port getenv]
                       (if o_Port opt =? 0 then 22 else o_Port opt)
    /\ o_Host opt' <> "" /\ 1 <= o_Port opt' <= 65535
    /\ opt' = with_target (o_Host opt') (o_Port opt') opt
    /\ (if explicit fs "stdio" then stdio = true
        else stdio = true \/ ParseBool (TrimSpace (getenv "GOWEBSSH_STDIO")) = Some true).
Proof.
  intros Quote getenv fs opt stdio opt' H. unfold resolveTunnelOptions in H. ok_path H.
  destruct a; [|discriminate H]. cbn [negb] in H. ok_path H. destruct a as [[host port] provided]. ok_path H.
  injection H as <-. bool_facts.
  assert (if explicit fs "stdio" then stdio = true
          else stdio = true \/ ParseBool (TrimSpace (getenv "GOWEBSSH_STDIO")) = Some true) as Hst.
  { unfold resolve_stdio in Ha. destruct (explicit fs "stdio"); cbn [orb] in Ha; [congruence|].
    destruct (_ =?s _); [left; congruence|right]. unfold of_option in Ha. by destruct (ParseBool _); simplify_eq. }
  destruct (argument_target Quote fs) as [ahost aport] eqn:Ea. cbn [o_Host o_Port with_target].
  assert (host = first_of [ahost] (TrimSpace (getenv "GOWEBSSH_TARGET_HOST"))
    /\ (if a =? 0 then 22 else a)
       = first_of [aport; flag_port fs opt; env_port getenv] (if o_Port opt =? 0 then 22 else o_Port opt)) as [H1 H2].
  { unfold resolve_port in Ha1. unfold resolve_target in Ha0. unfold argument_target in Ea.
    unfold flag_port, env_port.
    destruct (fs_args fs) as [|dest [|port' [|? ?]]].
    - simplify_eq. split; [done|]. destruct (explicit fs "p" || explicit fs "port"); cbn [orb] in Ha1; [by simplify_eq|].
      destruct (TrimSpace (getenv "GOWEBSSH_TARGET_PORT") =?s ""); [by simplify_eq|]. ok_path Ha1.
      unfold of_option in *. destruct (Atoi _); [|done]. simplify_eq. cbn.
      destruct (a =? 0) eqn:E; [|done]. bool_facts. by subst.
    - ok_path Ha0. destruct a0 as [[u h] p]. rewrite Ha2 in Ea. simplify_eq. split; [done|].
      destruct (p =? 0) eqn:Ep; cbn [negb orb] in *; bool_facts.
      + rewrite orb_false_r in Ha1. destruct (explicit fs "p" || explicit fs "port"); cbn [orb] in Ha1; [by simplify_eq|].
        destruct (TrimSpace (getenv "GOWEBSSH_TARGET_PORT") =?s ""); [by simplify_eq|]. ok_path Ha1.
        unfold of_option in *. destruct (Atoi _); [|done]. simplify_eq. cbn.
        destruct (a =? 0) eqn:E; [|done]. bool_facts. by subst.
      + rewrite orb_true_r in Ha1. cbn [orb] in Ha1. simplify_eq. cbn. by rewrite (proj2 (Z.eqb_neq _ _) Ep).
    - ok_path Ha0. unfold of_option in Ha2. destruct (Atoi port') eqn:Ep; [|done]. simplify_eq. cbn [orb] in Ha1.
      simplify_eq. split; [done|]. cbn. unfold port_in_range in *. bool_facts.
      destruct (a =? 0) eqn:E; bool_facts; [lia|done].
    - done. }
  unfold port_in_range in *. bool_facts. split_and!; [exact H1|exact H2|done|lia|lia|done|exact Hst].
Qed.

Lemma tunnel_options_precedence_witness :
  let env v := if v =?s "GOWEBSSH_STDIO" then "true"
               else if v =?s "GOWEBSSH_TARGET_PORT" then "2222" else "other.example" in
  exists opt', resolveTunnelOptions (fun s => s) env (mkFlagSet ["port"] ["host.example"])
                 (sample_options "" 8022) false = Ok (opt', true)
    /\ o_Host opt' = "host.example" /\ o_Port opt' = 8022.
Proof.
  intros env.
  destruct (resolveTunnelOptions (fun s => s) env (mkFlagSet ["port"] ["host.example"])
              (sample_options "" 8022) false) as [[opt' [|]]|e] eqn:E;
    [|vm_compute in E; discriminate E..].
  pose proof (tunnel_options_precedence (fun s => s) env _ _ _ _ E) as H.
  exists opt'. split; [reflexivity|]. vm_compute in H. destruct H as (H1 & H2 & _). by split.
Defined.
