(* ===== verification/CliServer.v ===== *)
(** * The client against the server

    The two ends of the HTTP interface and of the connect request: what the
    server answers ([HttpServer], [Vault]) to what the client asks ([CliHttp]) is
    what the client reads, and the connect request the client makes of a stored
    credential ([CliRun]) is the connection the credential describes
    ([WsHandler]). *)

From S2P Require Import Prelude GoStrings GoTime Json JsonDecode NetworkPolicy Config Auth WsProtocol SshClient WsHandler Tunnel Vault HttpServer CliError CliOptions CliUrl CliTunnel CliSession PrivateConnect CliHttp CliRun.

Section Agreement.

Context `{Crypto} `{TimeText}.

(** The body of a JSON answer: the document and a newline. *)
Definition answer_text (v : json) : string := print_line v.

(** [http.StatusText] of the statuses the server uses, behind the code. *)
Definition status_line (status : Z) : string :=
  Itoa status +:+ " " +:+
  default "" (snd <$> List.find (fun p => fst p =? status)
    [(200, "OK"); (400, "Bad Request"); (401, "Unauthorized"); (403, "Forbidden"); (404, "Not Found");
     (405, "Method Not Allowed"); (429, "Too Many Requests"); (500, "Internal Server Error");
     (503, "Service Unavailable")]).

(** A JSON answer of the HTTP server on the wire. *)
Definition http_response (a : Answer) : option Response :=
  match a with
  | AnsJSON status (Some v) _ => Some (mkResponse status (status_line status) (answer_text v))
  | _ => None
  end.

(** A request of the client as the server sees it: the segments of its path,
    below the base URL's, which a reverse proxy in front of the server takes
    off; [cookie] is the session cookie the jar sends. *)
Definition server_sees (base : URL) (req : ApiRequest) (cookie : option string) : HTTPRequest :=
  mkHTTPRequest (aq_Method req)
    (tail (Split (str_drop (String.length (TrimSuffix (URL_Path base) "/")) (URL_Path (aq_URL req))) "/"%char))
    (if aq_Method req =?s "POST" then "application/json" else "") cookie (aq_Body req) false.

(** ** Lemmas *)

(** An id that [url.PathEscape] leaves as it is, and that is no step of a path. *)
Definition plain_id (id : string) : Prop :=
  id <> "" /\ id <> "." /\ id <> ".." /\ PathEscape id = id.

Lemma PathEscape_longer s : (String.length s <= String.length (PathEscape s))%nat.
Proof. induction s as [|c s IH]; cbn; [lia|]. destruct (segment_byte c); cbn; lia. Qed.

Lemma plain_id_no_slash id : PathEscape id = id -> "/"%char ∉ chars id.
Proof.
  induction id as [|c id IH]; cbn [PathEscape]; intros Hid; [apply not_elem_of_nil|].
  change (chars (String c id)) with (c :: chars id). destruct (segment_byte c) eqn:E.
  - injection Hid as Hid. apply not_elem_of_cons. split; [by intros <-|by apply IH].
  - apply (f_equal String.length) in Hid. cbn in Hid. pose proof (PathEscape_longer id). lia.
Qed.

(** The client's request for a credential is the server's request for that id. *)
Lemma server_sees_saved c id cookie :
  plain_id id ->
  server_sees (c_base c) (saved_request c id) cookie
  = mkHTTPRequest "GET" ["api"; "credentials"; id] "" cookie "" false.
Proof.
  intros (_ & _ & _ & He). unfold server_sees, saved_request. cbn [aq_Method aq_URL aq_Body apiURL set_path URL_Path].
  rewrite He, str_drop_app.
  change ("/api/credentials/" +:+ id) with ("" +:+ String "/" ("api" +:+ String "/" ("credentials" +:+ String "/" id))).
  rewrite !Split_app, Split_one by first [by apply plain_id_no_slash|vm_compute; set_solver]. reflexivity.
Qed.

Lemma decode_first_answer {A} (dec : json -> A -> option A) v zero :
  wire_clean v -> decode_first dec (answer_text v) zero = dec v zero.
Proof.
  intros (Hw & Hc & Hd). unfold decode_first.
  rewrite <- (parse_value_fuel _ _ (parse_fuel (answer_text v) + jsize v)%nat) by lia.
  pose proof (reads_all v (parse_fuel (answer_text v) + jsize v)%nat 0 newline Hw ltac:(lia) ltac:(lia)
    ltac:(by vm_compute)) as Hv.
  change (print v +:+ newline) with (answer_text v) in Hv. by rewrite Hv, Hc.
Qed.

(** What the client keeps of a summary and of a credential. *)
Definition client_summary (s : Vault.Summary) : credentialSummary :=
  mkCredSummary (su_ID s) (su_Name s) (su_Host s) (su_Port s) (su_Username s) (su_Term s) (su_UseHerdr s).

Definition client_credential (c : Credential) : savedCredential :=
  mkSaved (cr_ID c) (cr_Name c) (cr_Host c) (cr_Port c) (cr_Username c) (cr_PrivateKey c) (cr_Passphrase c)
    (cr_Term c) (cr_UseHerdr c) (cr_UseHerdr c).

Lemma credential_wire_clean c : clean_credential c = true -> wire_clean (enc_Credential c).
Proof.
  destruct c as [id n h p u k ps t uh cr up]. unfold clean_credential.
  cbn [forallb cr_ID cr_Name cr_Host cr_Username cr_PrivateKey cr_Passphrase cr_Term cr_Port
    cr_CreatedAt cr_UpdatedAt]. intros Hc. bool_facts.
  pose proof (time_format_utf8 cr). pose proof (time_format_utf8 up).
  unfold enc_Credential, enc_time. cbn [cr_ID cr_Name cr_Host cr_Username cr_PrivateKey cr_Passphrase
      cr_Term cr_Port cr_CreatedAt cr_UpdatedAt cr_UseHerdr]. clean_members.
Qed.

Lemma dec_members_cons {T} (fs : list (field T)) k v m t :
  dec_members fs ((k, v) :: m) t
  = match find_field fs k with
    | None => dec_members fs m t
    | Some d => match d v t with Some t' => dec_members fs m t' | None => None end
    end.
Proof. reflexivity. Qed.

(** Decode one member of a struct whose name is a literal. *)
Ltac dec_member :=
  rewrite dec_members_cons;
  lazymatch goal with
  | |- context [find_field ?fs ?k] =>
      let r := eval hnf in (find_field fs k) in change (find_field fs k) with r
  end;
  cbn [snd mkField dec_string dec_bool dec_int enc_int fmap option_fmap option_map].

Lemma dec_saved_credential c :
  clean_credential c = true ->
  dec_struct savedCredential_fields (enc_Credential c) zero_savedCredential = Some (client_credential c).
Proof.
  destruct c as [id n h p u k ps t uh cr up]. unfold clean_credential.
  cbn [forallb cr_ID cr_Name cr_Host cr_Username cr_PrivateKey cr_Passphrase cr_Term cr_Port
    cr_CreatedAt cr_UpdatedAt]. intros Hc. bool_facts.
  unfold enc_Credential, omitempty. cbn [cr_ID cr_Name cr_Host cr_Username cr_PrivateKey cr_Passphrase
      cr_Term cr_Port cr_CreatedAt cr_UpdatedAt cr_UseHerdr].
  unfold enc_int, zero_savedCredential.
  destruct (ps =?s "") eqn:Eps; bool_facts; subst; cbn [app dec_struct];
    do 4 dec_member; (rewrite Atoi_Itoa_int64 by done); cbn [fmap option_fmap option_map].
  - do 7 dec_member. reflexivity.
  - do 8 dec_member. reflexivity.
Qed.

Lemma dec_summary s :
  clean_summary s = true ->
  dec_struct credentialSummary_fields (enc_credentialSummary s) zero_credentialSummary = Some (client_summary s).
Proof.
  destruct s as [id o n h p u t uh hk hp up]. unfold clean_summary.
  cbn [forallb su_ID su_Owner su_Name su_Host su_Username su_Term su_Port su_UpdatedAt]. intros Hc. bool_facts.
  unfold enc_credentialSummary, client_summary, enc_int, zero_credentialSummary.
  cbn [su_ID su_Name su_Host su_Username su_Term su_Port su_UpdatedAt su_UseHerdr su_HasPrivateKey
    su_HasPassphrase dec_struct].
  do 3 dec_member. dec_member. rewrite Atoi_Itoa_int64 by done. cbn [fmap option_fmap option_map].
  do 7 dec_member. reflexivity.
Qed.

Lemma dec_summaries items :
  forallb clean_summary items = true ->
  dec_all zero_credentialSummary (dec_struct credentialSummary_fields) (map enc_credentialSummary items)
  = Some (map client_summary items).
Proof.
  induction items as [|s items IH]; [done|]. cbn [forallb map dec_all]. intros Hc. bool_facts.
  by rewrite dec_summary, IH.
Qed.

Lemma wire_clean_arr l : Forall wire_clean l -> wf_json (JArr l) = true /\ jclean (JArr l) = JArr l.
Proof.
  intros HF. cbn [wf_json jclean]. induction HF as [|v l (H1 & H2 & _) _ [IH1 IH2]]; [done|].
  cbn [forallb map]. rewrite H1, H2, IH1. split; [done|]. by injection IH2 as ->.
Qed.

Lemma summary_wire_clean s : clean_summary s = true -> wire_clean (enc_credentialSummary s).
Proof.
  destruct s as [id o n h p u t uh hk hp up]. unfold clean_summary.
  cbn [forallb su_ID su_Owner su_Name su_Host su_Username su_Term su_Port su_UpdatedAt]. intros Hc. bool_facts.
  pose proof (time_format_utf8 up). unfold enc_credentialSummary, enc_time.
  cbn [su_ID su_Name su_Host su_Username su_Term su_Port su_UpdatedAt su_UseHerdr su_HasPrivateKey su_HasPassphrase].
  clean_members.
Qed.

(** ** Connecting with a stored credential *)

(** The size the client sends. *)
Definition sent_size (window : option (Z * Z)) : Z * Z :=
  let (cols, rows) := default (defaultCols, defaultRows) window in clampSize cols rows.

Lemma connect_data_fields t window :
  connect_data t window
  = mkConnectData (tg_host t) (tg_port t) (tg_user t) (tg_key t) (tg_passphrase t) (tg_term t)
      (fst (sent_size window)) (snd (sent_size window)) (tg_useTmux t) (tg_useTmux t)
      (tg_tmuxSession t) (tg_tmuxSession t).
Proof.
  unfold connect_data, sent_size. destruct (default _ window) as [c r]. by destruct (clampSize c r).
Qed.

Lemma sent_size_range window :
  20 <= fst (sent_size window) <= 500 /\ 5 <= snd (sent_size window) <= 200.
Proof. unfold sent_size. destruct (default _ window). apply clampSize_range. Qed.

(** The limits of the server's connect request. *)
Record within_limits (t : Target) : Prop := {
  wl_host : TrimSpace (tg_host t) = tg_host t /\ tg_host t <> "" /\ len (tg_host t) <= 253;
  wl_user : TrimSpace (tg_user t) = tg_user t /\ tg_user t <> "" /\ len (tg_user t) <= 128;
  wl_port : 1 <= tg_port t <= 65535;
  wl_key : TrimSpace (tg_key t) <> "" /\ len (tg_key t) <= 128 * 1024;
  wl_pass : len (tg_passphrase t) <= 8 * 1024;
  wl_term : tg_term t <> "" /\ len (tg_term t) <= 64;
  wl_herdr : tg_useTmux t = false }.

(** The server carries out the very request the client makes. *)
Lemma check_connect_client t window random :
  within_limits t ->
  check_connect (connect_data t window) random
  = Ok (mkConnectRequest (tg_host t) (tg_port t) (tg_user t) (tg_key t) (tg_passphrase t) (tg_term t)
          (fst (sent_size window)) (snd (sent_size window)) false (tg_tmuxSession t)).
Proof.
  intros [[H1 [H2 H3]] [H4 [H5 H6]] H7 [H8 H9] H10 [H11 H12] H13]. rewrite connect_data_fields.
  destruct (sent_size_range window) as [Hc Hr]. unfold check_connect.
  cbn [cd_Host cd_Port cd_Username cd_PrivateKey cd_Passphrase cd_Term cd_Cols cd_Rows cd_UseHerdr
    cd_LegacyUseTmux cd_HerdrSession cd_TmuxSession].
  rewrite H1, H4, H13. cbn [orb andb].
  apply String.eqb_neq in H2, H5, H8, H11. rewrite H2, H5, H8, H11.
  rewrite (proj2 (Z.ltb_ge 253 _) H3), (proj2 (Z.ltb_ge 128 _) H6), (proj2 (Z.ltb_ge (128 * 1024) _) H9),
    (proj2 (Z.ltb_ge (8 * 1024) _) H10), (proj2 (Z.ltb_ge 64 _) H12).
  assert ((tg_port t =? 0) = false) as -> by lia. assert ((tg_port t <? 1) = false) as -> by lia.
  assert ((65535 <? tg_port t) = false) as -> by lia. cbn [orb].
  assert ((snd (sent_size window) <? 5) = false) as -> by lia.
  assert ((200 <? snd (sent_size window)) = false) as -> by lia.
  assert ((fst (sent_size window) <? 20) = false) as -> by lia.
  assert ((500 <? fst (sent_size window)) = false) as -> by lia.
  cbn [orb]. by destruct (tg_tmuxSession t =?s "") eqn:E; bool_facts; rewrite ?E.
Qed.

(** A credential as the server stores it: checked by [handleCredentialPut], and
    within the limits of a connect request. *)
Record connectable (cred : Credential) : Prop := {
  cn_clean : clean_credential cred = true;
  cn_item : check_item cred = Ok cred;
  cn_sizes : len (cr_Host cred) <= 253 /\ len (cr_Username cred) <= 128 /\ len (cr_Term cred) <= 64;
  cn_key : TrimSpace (cr_PrivateKey cred) <> "";
  cn_herdr : cr_UseHerdr cred = false }.

Lemma check_item_fixed cred :
  check_item cred = Ok cred ->
  TrimSpace (cr_Host cred) = cr_Host cred /\ cr_Host cred <> ""
  /\ TrimSpace (cr_Username cred) = cr_Username cred /\ cr_Username cred <> ""
  /\ (cr_Port cred = 0 \/ 1 <= cr_Port cred <= 65535)
  /\ len (cr_PrivateKey cred) <= 128 * 1024 /\ len (cr_Passphrase cred) <= 8 * 1024.
Proof.
  unfold check_item. intros Hci. ok_path Hci. injection Hci as Ht. rewrite Ht in *. bool_facts.
  destruct cred as [id n h p u k ps t uh cr up]. cbn [trim_item] in Ht. injection Ht as Hn Hh Hu.
  cbn [cr_Host cr_Username cr_Port cr_PrivateKey cr_Passphrase] in *.
  assert (p = 0 \/ 1 <= p <= 65535) by lia. by split_and!.
Qed.

(** The target that a stored credential gives a client without other options;
    [env] is [$TERM]. *)
Definition stored_target (env session : string) (cred : Credential) : Target :=
  let term := if cr_Term cred =?s "" then TrimSpace env else cr_Term cred in
  mkTarget (cr_Host cred) (cr_Username cred) (if cr_Port cred =? 0 then 22 else cr_Port cred)
    (if term =?s "" then "xterm-256color" else term) (cr_PrivateKey cred) (cr_Passphrase cred) false session.

Lemma stored_target_limits env session cred :
  connectable cred -> (cr_Term cred = "" -> len (TrimSpace env) <= 64) ->
  within_limits (stored_target env session cred).
Proof.
  intros [_ Hitem (Hs1 & Hs2 & Hs3) Hkey _] Henv.
  apply check_item_fixed in Hitem as (Hh & Hh' & Hu & Hu' & Hp & Hk & Hps). unfold stored_target.
  set (term := if cr_Term cred =?s "" then _ else _).
  assert (len term <= 64) as Hterm.
  { unfold term. destruct (cr_Term cred =?s "") eqn:E; bool_facts; auto. }
  constructor; cbn [tg_host tg_user tg_port tg_key tg_passphrase tg_term tg_useTmux]; try (by split_and!); try lia.
  - destruct (cr_Port cred =? 0) eqn:E; bool_facts; lia.
  - destruct (term =?s "") eqn:E; bool_facts; split; try done; vm_compute; discriminate.
Qed.

(** The client's fetch of a credential the server answers with. *)
Lemma fetch_item_stored Do Quote c cred name status :
  clean_credential cred = true -> TrimSpace (cr_PrivateKey cred) <> "" ->
  Do (saved_request c (cr_ID cred)) = Ok (mkResponse 200 status (answer_text (enc_Credential cred))) ->
  fetch_item Do Quote c name (cr_ID cred) = Ok (client_credential cred).
Proof.
  intros Hclean Hkey Hd. unfold fetch_item, do_ok. rewrite Hd. cbn [map_err res_bind rs_Code].
  change (200 =? 200) with true. cbv iota.
  cbn [res_bind rs_Body]. rewrite decode_first_answer by (by apply credential_wire_clean).
  rewrite dec_saved_credential by done. cbn [of_option res_bind sv_PrivateKey client_credential].
  apply String.eqb_neq in Hkey. by rewrite Hkey.
Qed.

(** Its connect message goes over the wire. *)
Lemma stored_connect_wire env session cred window :
  connectable cred -> (cr_Term cred = "" -> len (TrimSpace env) <= 64) ->
  let t := stored_target env session cred in
  valid_utf8 (tg_term t) = true -> valid_utf8 session = true ->
  receive decode_ConnectData (EncodeMessage "connect" (Some (enc_ConnectData (connect_data t window))))
  = Some ("connect", connect_data t window).
Proof.
  intros Hc Henv t Hut Hus. pose proof (stored_target_limits env session cred Hc Henv) as [_ _ Hlp _ _ _ _].
  destruct Hc as [Hclean _ _ _ _]. fold t in Hlp.
  assert (ConnectData_clean (connect_data t window) = true) as Hcc.
  { unfold clean_credential in Hclean. cbn [forallb] in Hclean. bool_facts.
    rewrite connect_data_fields. destruct (sent_size_range window) as [Hc Hr].
    unfold ConnectData_clean. cbn [forallb cd_Host cd_Port cd_Username cd_PrivateKey cd_Passphrase cd_Term
      cd_Cols cd_Rows cd_HerdrSession cd_TmuxSession].
    assert (forall z, 0 <= z <= 65535 -> in_int64 z = true) as Hin
      by (intros; apply in_int64_spec; unfold int64_min, int64_max; lia).
    rewrite Hut, !Hin by lia. cbn [t stored_target tg_host tg_user tg_key tg_passphrase tg_tmuxSession].
    repeat match goal with X : valid_utf8 _ = true |- _ => rewrite X; clear X end. reflexivity. }
  unfold receive. rewrite (proj1 (wire_read _ "connect" (enc_ConnectData_clean _ Hcc) eq_refl)).
  cbn [Data Type_]. unfold ConnectData_clean in Hcc. cbn [forallb] in Hcc. bool_facts. by rewrite enc_ConnectData_ok.
Qed.

(** ** Properties *)

(** The client reads the server's list: what it makes of the answer to a
    credential list is the server's summaries, in order, with every field that
    both sides have. *)
Theorem saved_list_agrees :
  forall Do c items unmigrated status body,
    forallb clean_summary items = true -> 0 <= Z.of_nat unmigrated <= int64_max ->
    credentials_body items unmigrated = Some body ->
    Do (list_request c) = Ok (mkResponse 200 status (answer_text body)) ->
    listCredentials Do c = Ok (map client_summary items).
Proof.
  intros Do c items unmigrated status body Hi Hu Hb Hd. unfold listCredentials, do_ok. rewrite Hd.
  cbn [map_err res_bind rs_Code]. change (200 =? 200) with true. cbv iota. cbn [res_bind rs_Body].
  unfold credentials_body in Hb.
  destruct (forallb (fun s => time_in_range (su_UpdatedAt s)) items); [|discriminate Hb]. injection Hb as <-.
  assert (wire_clean (JObj [("credentials", JArr (map enc_credentialSummary items));
    ("removedCredentials", enc_int 0); ("unmigratedCredentials", enc_int (Z.of_nat unmigrated))])) as Hw.
  { assert (Forall wire_clean (map enc_credentialSummary items)) as HF.
    { rewrite Forall_map, Forall_forall. intros s Hs. apply summary_wire_clean.
      rewrite forallb_forall in Hi. apply Hi. by apply list_elem_of_In. }
    destruct (wire_clean_arr _ HF) as [H1 H2].
    assert (is_num (Itoa 0) = true) as N1 by done.
    assert (is_num (Itoa (Z.of_nat unmigrated)) = true) as N2.
    { apply is_num_Itoa, in_int64_spec. unfold int64_min, int64_max in *. lia. }
    split_and!.
    - cbn [wf_json forallb snd enc_int]. cbn [wf_json] in H1. by rewrite H1, N1, N2.
    - cbn [jclean map fst snd enc_int]. cbn [jclean] in H2. by rewrite H2.
    - cbn [jdepth foldr snd enc_int].
      assert (forall l : list Vault.Summary, foldr (fun v d => Z.max (jdepth v) d) 0 (map enc_credentialSummary l) <= 1) as Hdep.
      { clear. induction l as [|s l IH]; [done|]. cbn [map foldr]. apply Z.max_lub; [|done].
        vm_compute. discriminate. }
      specialize (Hdep items). unfold maxNestingDepth. lia. }
  rewrite decode_first_answer by done. unfold enc_int. cbn [dec_struct].
  dec_member. unfold dec_slice. rewrite dec_summaries by done. cbn [fmap option_fmap option_map].
  do 2 dec_member. reflexivity.
Qed.


End Agreement.

(** ** Witnesses *)

#[local] Existing Instance toy_crypto.
#[local] Existing Instance toy_time.

Definition stored_credential : Credential :=
  mkCredential "c4" "prod" "public.example" 22 "root" (q "KEY 'x' <y>") "" "xterm-256color" false 5 6.

Definition stored_summary : Vault.Summary := Vault.mkSummary "c4" "admin" "prod" "public.example" 0 "root" "" false true false 6.

Definition sample_client : Client :=
  mkClient (sample_options "" 0) (sample_base "https" "web.example")
    (originFromURL (sample_base "https" "web.example")) NoProxy false.

Lemma saved_list_agrees_witness :
  listCredentials (fun _ => Ok (mkResponse 200 "200 OK"
      (answer_text (default JNull (credentials_body [stored_summary] 2))))) sample_client
  = Ok [mkCredSummary "c4" "prod" "public.example" 0 "root" "" false].
Proof.
  apply (saved_list_agrees (fun _ => Ok (mkResponse 200 "200 OK"
      (answer_text (default JNull (credentials_body [stored_summary] 2))))) sample_client [stored_summary] 2
    "200 OK" (default JNull (credentials_body [stored_summary] 2))).
  - vm_compute. reflexivity.
  - vm_compute. split; discriminate.
  - vm_compute. reflexivity.
  - reflexivity.
Defined.

(** A server that has stored it. *)
Definition connect_state : ServerState :=
  sample_state (PutForUser sample_store "" stored_credential 6 "r" (Some sample_nonce) true).1.

