(* ===== verification/CliDial.v ===== *)
(** * The client's WebSocket handshake against the server

    The headers of the handshake ([dial_headers] of CliHttp), the login cookie
    among them, composed with the server: what it reads out of the Cookie header,
    its sessions and its check of the origin. *)

From S2P Require Import Prelude GoStrings GoTime GoEncoding Json JsonDecode Netip NetworkPolicy Config Auth WsHandler Tunnel CliError CliOptions CliUrl CliTunnel PrivateConnect CliHttp CliRun.

(** ** What the server makes of it: [http.Request.Cookie] *)

Definition isASCIISpace (c : ascii) : bool := ContainsByte (bytes [32; 9; 10; 13]) c.

Fixpoint trim_ascii_left (s : string) : string :=
  match s with
  | String c t => if isASCIISpace c then trim_ascii_left t else s
  | EmptyString => ""
  end.
Fixpoint trim_ascii_right (s : string) : string :=
  match s with
  | String c t => match trim_ascii_right t with
                  | EmptyString => if isASCIISpace c then "" else String c ""
                  | t => String c t
                  end
  | EmptyString => ""
  end.
Definition TrimString (s : string) : string := trim_ascii_right (trim_ascii_left s).

(** The bytes of a token and of a cookie's value. *)
Definition token_byte (c : ascii) : bool :=
  let b := byte_of c in
  ((97 <=? b) && (b <=? 122)) || ((65 <=? b) && (b <=? 90)) || ((48 <=? b) && (b <=? 57))
  || ContainsByte "!#$%&'*+-.^_`|~" c.
Definition isToken (name : string) : bool := negb (name =?s "") && forallb token_byte (chars name).
Definition cookie_byte (c : ascii) : bool :=
  let b := byte_of c in
  (32 <=? b) && (b <? 127) && negb (Ascii.eqb c dquote) && negb (Ascii.eqb c ";"%char) && negb (Ascii.eqb c bslash).

Definition parseCookieValue (raw : string) : option string :=
  let raw := if (2 <=? len raw) && HasPrefix raw (String dquote "") && HasSuffix raw (String dquote "")
             then str_take (String.length raw - 2) (str_drop 1 raw) else raw in
  if forallb cookie_byte (chars raw) then Some raw else None.

(** The value of one part of the header, if it has the name. *)
Definition cookie_of (name part : string) : option string :=
  let part := TrimString part in
  let (n, v) := default (part, "") (CutByte part "="%char) in
  let n := TrimString n in
  if isToken n && (n =?s name) then parseCookieValue v else None.

Definition Request_Cookie (line name : string) : option string :=
  head (omap (cookie_of name) (Split line ";"%char)).

Example Request_Cookie_samples :
  Request_Cookie "a=1; gowebssh_session=tok.sig;b" CookieName = Some "tok.sig"
  /\ Request_Cookie (q "gowebssh_session='x y'; c=2") CookieName = Some "x y"
  /\ Request_Cookie "gowebssh_sessions=1; =2" CookieName = None.
Proof. vm_compute. repeat split. Qed.

(** The request the server sees. *)
Definition server_request (h : Headers) (endpoint : URL) (addr : string) : Request :=
  mkRequest (fun name => default "" (header h name)) (default (URL_Host endpoint) (header h "Host")) addr
    (line ← header h "Cookie"; Request_Cookie line CookieName).

(** ** Lemmas *)

(** A cookie whose name and value pass through a header unchanged. *)
Definition value_byte (c : ascii) : bool := cookie_byte c && negb (Ascii.eqb c " "%char).
Definition clean_cookie (cookie : string * string) : Prop :=
  isToken (fst cookie) = true /\ forallb value_byte (chars (snd cookie)) = true.

Definition cookie_text (cookie : string * string) : string := fst cookie +:+ "=" +:+ snd cookie.

(** A property of single bytes, checked by cases. *)
Lemma bytes_decide (P : ascii -> bool) :
  forallb (fun n => P (ascii_of_nat n)) (seq 0 256) = true -> forall c, P c = true.
Proof.
  intros H c. rewrite forallb_forall in H. rewrite <- (ascii_nat_embedding c). apply H, in_seq.
  pose proof (nat_ascii_bounded c). lia.
Qed.

Lemma token_byte_plain c :
  token_byte c = true -> isASCIISpace c = false /\ c <> ";"%char /\ c <> "="%char.
Proof.
  intros H. assert (implb (token_byte c)
    (negb (isASCIISpace c) && negb (Ascii.eqb c ";"%char) && negb (Ascii.eqb c "="%char)) = true) as Hc.
  { revert c H. intros c _. revert c. apply bytes_decide. vm_compute. reflexivity. }
  rewrite H in Hc. cbn [implb] in Hc. bool_facts. split_and!; first [done|by apply Ascii.eqb_neq].
Qed.

Lemma value_byte_plain c :
  value_byte c = true -> isASCIISpace c = false /\ c <> ";"%char /\ cookie_byte c = true /\ c <> dquote.
Proof.
  intros H. assert (implb (value_byte c)
    (negb (isASCIISpace c) && negb (Ascii.eqb c ";"%char) && cookie_byte c && negb (Ascii.eqb c dquote)) = true) as Hc.
  { revert c H. intros c _. revert c. apply bytes_decide. vm_compute. reflexivity. }
  rewrite H in Hc. cbn [implb] in Hc. bool_facts. split_and!; first [done|by apply Ascii.eqb_neq].
Qed.

Lemma trim_plain s : Forall (fun c => isASCIISpace c = false) (chars s) -> TrimString s = s.
Proof.
  intros H. unfold TrimString. assert (trim_ascii_left s = s) as ->.
  { destruct s as [|c s]; [done|]. apply Forall_cons in H as [Hc _]. cbn [trim_ascii_left]. by rewrite Hc. }
  induction s as [|c s IH]; [done|]. apply Forall_cons in H as [Hc H]. cbn [trim_ascii_right].
  rewrite IH by done. destruct s; [by rewrite Hc|done].
Qed.

Lemma trim_space s : TrimString (" " +:+ s) = TrimString s.
Proof. reflexivity. Qed.

(** The parts of a header of cookies. *)
Lemma Split_cookies p ps :
  Forall (fun s => ";"%char ∉ chars s) (p :: ps) ->
  Split (String.concat "; " (p :: ps)) ";"%char = p :: map (fun s => " " +:+ s) ps.
Proof.
  intros H. apply Forall_cons in H as [Hp H]. revert p Hp. induction H as [|q ps Hq _ IH]; intros p Hp.
  { by apply Split_one. }
  change (String.concat "; " (p :: q :: ps)) with (p +:+ String ";" (" " +:+ String.concat "; " (q :: ps))).
  rewrite Split_app by done. cbn [map]. f_equal.
  assert (forall s, Split (" " +:+ s) ";"%char = match Split s ";"%char with
                                               | part :: parts => (" " +:+ part) :: parts | [] => [] end) as Hsp.
  { intros s. rewrite str_app_cons, str_app_nil_l. cbn [Split]. by destruct (Split s ";"%char). }
  rewrite Hsp, IH by done. done.
Qed.

Lemma clean_cookie_bytes cookie :
  clean_cookie cookie ->
  Forall (fun c => isASCIISpace c = false /\ c <> ";"%char) (chars (cookie_text cookie))
  /\ IndexByte (fst cookie) "="%char = None /\ forallb cookie_byte (chars (snd cookie)) = true
  /\ dquote ∉ chars (snd cookie).
Proof.
  destruct cookie as [n v]. intros [Hn Hv]. cbn [fst snd] in *. unfold isToken in Hn. apply andb_true_iff in Hn as [_ Hn].
  rewrite forallb_forall in Hn, Hv. split_and!.
  - unfold cookie_text. cbn [fst snd]. rewrite chars_app, Forall_app. split.
    + apply Forall_forall. intros c Hc. apply list_elem_of_In in Hc. by destruct (token_byte_plain c (Hn c Hc)) as (? & ? & _).
    + change (chars ("=" +:+ v)) with ("="%char :: chars v). constructor; [done|].
      apply Forall_forall. intros c Hc. apply list_elem_of_In in Hc. by destruct (value_byte_plain c (Hv c Hc)) as (? & ? & _).
  - destruct (IndexByte n "="%char) as [i|] eqn:E; [|done]. apply IndexByte_Some in E.
    assert ("="%char ∈ chars n) as Hin by (rewrite E, chars_app; apply elem_of_app; right; constructor).
    apply list_elem_of_In in Hin. by destruct (token_byte_plain _ (Hn _ Hin)) as (_ & _ & ?).
  - apply forallb_forall. intros c Hc. by destruct (value_byte_plain c (Hv c Hc)) as (_ & _ & ? & _).
  - intros Hc. apply list_elem_of_In in Hc. by destruct (value_byte_plain _ (Hv _ Hc)) as (_ & _ & _ & ?).
Qed.

Lemma parseCookieValue_clean v :
  forallb cookie_byte (chars v) = true -> dquote ∉ chars v -> parseCookieValue v = Some v.
Proof.
  intros Hv Hd. unfold parseCookieValue. assert (HasPrefix v (String dquote "") = false) as ->.
  { destruct (HasPrefix v (String dquote "")) eqn:E; [|done]. apply HasPrefix_spec in E as [t ->].
    destruct Hd. change (chars (String dquote "" +:+ t)) with (dquote :: chars t). constructor. }
  rewrite andb_false_r. cbn [andb]. by rewrite Hv.
Qed.

(** One part of the header. *)
Lemma cookie_of_text name cookie :
  clean_cookie cookie ->
  cookie_of name (cookie_text cookie) = (if fst cookie =?s name then Some (snd cookie) else None)
  /\ cookie_of name (" " +:+ cookie_text cookie) = cookie_of name (cookie_text cookie).
Proof.
  intros Hc. pose proof (clean_cookie_bytes _ Hc) as (Hb & Hi & Hv & Hq). destruct cookie as [n v]. cbn [fst snd] in *.
  destruct Hc as [Hn _]. cbn [fst] in Hn. unfold cookie_of. rewrite trim_space. split; [|done].
  rewrite trim_plain by (eapply Forall_impl; [exact Hb|]; by intros ? [? _]).
  change (cookie_text (n, v)) with (n +:+ String "=" v). rewrite CutByte_app by done. cbn [default from_option id].
  rewrite trim_plain.
  - rewrite Hn. cbn [andb]. destruct (n =?s name); [|done]. by apply parseCookieValue_clean.
  - unfold cookie_text in Hb. cbn [fst] in Hb. rewrite chars_app in Hb. apply Forall_app in Hb as [Hb _].
    eapply Forall_impl; [exact Hb|]. by intros ? [? _].
Qed.

(** The server reads the first cookie of a name. *)
Lemma Request_Cookie_attached cookies name :
  Forall clean_cookie cookies ->
  (line ← header (attachCookies cookies) "Cookie"; Request_Cookie line name)
  = snd <$> List.find (fun cookie => fst cookie =?s name) cookies.
Proof.
  intros HF. destruct cookies as [|ck cks]; [done|]. unfold attachCookies, header. cbn [list_to_map foldr fst snd].
  rewrite lookup_insert_eq. cbn [mbind option_bind]. unfold Request_Cookie.
  change (map (fun '(n, v) => n +:+ "=" +:+ v) (ck :: cks))
    with ((fun '(n, v) => n +:+ "=" +:+ v) ck :: map (fun '(n, v) => n +:+ "=" +:+ v) cks).
  assert (map (fun '(n, v) => n +:+ "=" +:+ v) cks = map cookie_text cks) as -> by (apply map_ext; by intros [? ?]).
  assert ((fun '(n, v) => n +:+ "=" +:+ v) ck = cookie_text ck) as -> by (by destruct ck).
  rewrite Split_cookies.
  2:{ rewrite <- (map_cons cookie_text), Forall_map. eapply Forall_impl; [exact HF|]. intros c Hc.
      apply clean_cookie_bytes in Hc as [Hb _]. intros Hin. rewrite Forall_forall in Hb. by destruct (Hb _ Hin) as [_ ?]. }
  apply Forall_cons in HF as [Hck HF]. cbn [omap list_omap List.find]. rewrite (proj1 (cookie_of_text name ck Hck)).
  destruct (fst ck =?s name); [done|].
  induction HF as [|c cs Hc _ IH]; [done|]. cbn [map omap list_omap List.find].
  destruct (cookie_of_text name c Hc) as [H1 H2]. rewrite H2, H1. by destruct (fst c =?s name).
Qed.

Lemma signedToken_clean `{Crypto} a token :
  clean_cookie (CookieName, signedToken a (B64Encode token)).
Proof.
  split; [vm_compute; reflexivity|]. cbn [snd]. unfold signedToken. apply forallb_forall. intros c Hc.
  apply list_elem_of_In in Hc. rewrite !chars_app in Hc.
  assert (forall c, implb (b64_char c) (value_byte c) = true) as Hb by (apply bytes_decide; vm_compute; reflexivity).
  assert (forall t, c ∈ chars (B64Encode t) -> value_byte c = true) as Ht.
  { intros t Hin. apply B64Encode_chars in Hin. specialize (Hb c). by rewrite Hin in Hb. }
  apply elem_of_app in Hc as [Hc|[Hc|Hc]%elem_of_app]; [by eapply Ht| |by eapply Ht].
  apply elem_of_cons in Hc as [->|Hc]; [vm_compute; reflexivity|by apply not_elem_of_nil in Hc].
Qed.

Lemma dial_headers_lookup c cookies :
  header (dial_headers c cookies) "Origin" = Some (c_origin c)
  /\ header (dial_headers c cookies) "Host" = (if c_private c then Some (URL_Host (c_base c)) else None)
  /\ header (dial_headers c cookies) "Cookie" = header (attachCookies cookies) "Cookie".
Proof.
  unfold header, dial_headers, attachCookies.
  destruct cookies as [|ck cks], (c_private c); cbn [app list_to_map foldr fst snd]; split_and!;
    repeat first [rewrite lookup_insert_eq | rewrite lookup_insert_ne by done]; reflexivity.
Qed.

Lemma dial_endpoint_host address c endpoint :
  dial_endpoint address c (wsURL (c_base c)) = Ok endpoint -> c_private c = false ->
  URL_Host endpoint = URL_Host (c_base c).
Proof.
  unfold dial_endpoint. intros H Hp. rewrite Hp in H. injection H as <-. unfold wsURL, websocketURL.
  destruct (_ =?s _); [done|]. by destruct (_ =?s _).
Qed.

(** ** Properties *)

(** C18.  The client's WebSocket is its own session.  Let a login with the right
    name and password succeed with a token from the random source, nobody log out
    with its cookie, and the session's time not be over; let the server allow no
    extra origins and the client's URL have a host without bytes to escape and
    without its scheme's default port written out.  Then the handshake that the
    client sends, in private mode too, with the cookie among whatever others its
    jar has for the server, is upgraded, and the session the server reads out of
    it is the logged-in user's. *)
Theorem client_handshake_accepted :
  forall `{Crypto} fold a s u p b n n' es now cfg Parse Getenv Quote opt c address endpoint jar addr,
    Authenticate a u p = true -> b <> "" ->
    let expires := n + login_duration a (ttl s) in
    HasPrefix (signedToken a (B64Encode b)) persistentTokenPrefix = false ->
    Forall (spares b expires) es -> Forall (fun e => ~ revokes a e (B64Encode b)) es -> now <= expires ->
    newClient Parse Getenv Quote opt = Ok c -> Hostname (c_base c) <> "" ->
    forallb host_byte (chars (URL_Host (c_base c))) = true ->
    forallb host_byte (chars (Hostname (c_base c))) = true ->
    explicit_default_port (URL_Scheme (c_base c)) (c_base c) = false -> AllowedOrigins (Server cfg) = [] ->
    dial_endpoint address c (wsURL (c_base c)) = Ok endpoint ->
    exists s1 cookie,
      Login a s u p false (Some b) n n' = (s1, Some cookie)
      /\ (Forall clean_cookie jar ->
          List.find (fun ck => fst ck =?s CookieName) jar = Some (CookieName, c_Value cookie) ->
          let r := server_request (dial_headers c jar) endpoint addr in
          ServeHTTP fold a (Auth.run a s1 es) cfg now r = (Auth.run a s1 es, Upgrade (clientIP r))
          /\ exists info, snd (SessionFromRequest a (Auth.run a s1 es) (session_cookie r) now) = Some info
               /\ si_Username info = u /\ si_ExpiresAt info = expires)
      /\ clean_cookie (CookieName, c_Value cookie).
Proof.
  intros C fold a s u p b n n' es now cfg Parse Getenv Quote opt c address endpoint jar addr Hauth Hb expires
    Hpre Hsp Hrev Hnow Hc Hne He1 He2 Hport Hao Hend.
  destruct (Login_session a s u p b n n' es now Hauth Hb Hpre Hsp Hrev Hnow) as (s1 & cookie & Hl & _ & _ & Hs).
  exists s1, cookie. split; [exact Hl|]. split.
  - intros Hjar Hfind r. destruct (dial_headers_lookup c jar) as (H1 & H2 & H3).
    assert (session_cookie r = Some (c_Value cookie)) as Hck.
    { unfold r, server_request. cbn [session_cookie]. rewrite H3, Request_Cookie_attached by done. by rewrite Hfind. }
    destruct (newClient_scheme _ _ _ _ _ Hc) as (Hscheme & Hhost & Horigin & _).
    assert (request_of (c_base c) r) as Hr.
    { unfold r, server_request, request_of. cbn [Req_Host Header_Get]. rewrite H1, H2, Horigin. split; [|done].
      destruct (c_private c) eqn:Ep; [done|]. by eapply dial_endpoint_host. }
    unfold ServeHTTP. rewrite Hck, Hs.
    assert (checkOrigin fold cfg r = true) as -> by (apply (checkOrigin_client (c_base c)); auto).
    split; [done|]. by exists (mkSessionInfo u expires).
  - unfold Login in Hl. rewrite Hauth in Hl. cbn [negb] in Hl. unfold Create in Hl. cbn in Hl. injection Hl as _ <-.
    apply signedToken_clean.
Qed.

#[local] Existing Instance toy_crypto.

Definition dial_client : Client :=
  mkClient (run_options (sample_options "" 0)) (sample_base "https" "web.example:8443")
    (originFromURL (sample_base "https" "web.example:8443")) NoProxy false.

Lemma client_handshake_accepted_witness :
  exists s1 cookie,
    Login sample_auth (NewStore 0) "admin" "pw" false (Some sample_random) 7 8 = (s1, Some cookie)
    /\ snd (ServeHTTP (fun _ _ => false) sample_auth s1 Default 60
              (server_request (dial_headers dial_client [("theme", "dark"); (CookieName, c_Value cookie)])
                 (wsURL (c_base dial_client)) "192.0.2.1:5000")) = Upgrade "192.0.2.1".
Proof.
  destruct (client_handshake_accepted (fun _ _ => false) sample_auth (NewStore 0) "admin" "pw" sample_random 7 8 [] 60
    Default (fun _ => Some (sample_base "https" "web.example:8443")) (fun _ => "") (fun s => s)
    (run_options (sample_options "" 0)) dial_client "" (wsURL (c_base dial_client))
    [("theme", "dark"); (CookieName, signedToken sample_auth (B64Encode sample_random))] "192.0.2.1:5000")
    as (s1 & cookie & Hl & H & _);
    [vm_compute; reflexivity|discriminate|vm_compute; reflexivity|constructor|constructor|vm_compute; discriminate
    |vm_compute; reflexivity|vm_compute; discriminate|vm_compute; reflexivity..|].
  assert (c_Value cookie = signedToken sample_auth (B64Encode sample_random)) as Hv.
  { vm_compute in Hl. injection Hl as _ <-. vm_compute. reflexivity. }
  exists s1, cookie. split; [exact Hl|]. rewrite Hv in *. cbv zeta in H. cbn [Auth.run foldl] in H.
  rewrite (proj1 (H ltac:(repeat constructor; vm_compute; reflexivity) ltac:(vm_compute; reflexivity))).
  vm_compute. reflexivity.
Defined.
