(* ===== verification/CliRefusal.v ===== *)
(** * What the client shows of a refusal

    The server's HTTP answers with an error ([writeErr] of httpserver/server.go,
    [ServeHTTP] of ws/handler.go, [writeTunnelHTTPError] of ws/tunnel.go) as the
    client reads them ([readAPIError], [login], [dialWSURL] of cli.go); and the
    client's login against the server's. *)

From S2P Require Import Prelude GoStrings GoTime GoEncoding Json JsonDecode Netip NetworkPolicy Config Auth WsProtocol WsHandler Tunnel Vault HttpServer CliError CliOptions CliUrl CliTunnel Doh PrivateConnect CliHttp CliRun CliDial CliServer.

(** ** The bodies of refusals *)

Definition error_json (code message : string) : json :=
  JObj [("error", JObj [("code", JStr code); ("message", JStr message)]); ("ok", JBool false)].

(** [http.Error] ends the body with a newline. *)
Definition http_Error (status : Z) (body : string) : Response :=
  mkResponse status (status_line status) (body +:+ newline).

(** [writeJSONError] of auth.go, which puts the texts into the body as they are. *)
Definition writeJSONError (status : Z) (code message : string) : Response :=
  mkResponse status (status_line status)
    (q "{'ok':false,'error':{'code':'" +:+ code +:+ q "','message':'" +:+ message +:+ q "'}}").

(** [Authenticator.RequireAuth], which no route uses: the handler it makes. *)
Definition RequireAuth `{Crypto} {A} (auth : Authenticator) (next : ServerState -> ServerState * A)
    (st : ServerState) (r : HTTPRequest) (w : World) : ServerState * (Response + A) :=
  let (st, info) := session auth st r w in
  match info with
  | None => (st, inl (writeJSONError 401 "AUTH_REQUIRED" "authentication required"))
  | Some _ => let (st, a) := next st in (st, inr a)
  end.

(** [writeTunnelHTTPError]; the encoder sorts the keys of a map and ends with a
    newline. *)
Definition writeTunnelHTTPError (status : Z) (code message : string) : Response :=
  mkResponse status (status_line status) (answer_text (error_json code message)).

(** gorilla/websocket keeps the first 1024 bytes of the body of an answer that
    refuses the handshake. *)
Definition handshake_answer (r : Response) : Response :=
  mkResponse (rs_Code r) (rs_Status r) (str_take 1024 (rs_Body r)).

(** The request of the client's login as the server sees it. *)
Definition login_http_request (c : Client) : HTTPRequest :=
  mkHTTPRequest "POST" ["api"; "login"] "application/json" None (aq_Body (login_request c)) false.

(** ** Lemmas *)

Lemma parse_answer v : wire_clean v -> parse (answer_text v) = Some v.
Proof. intros (Hw & Hc & Hd). unfold answer_text. rewrite parse_print_line by (done || lia). by rewrite Hc. Qed.

Lemma error_json_clean code message :
  valid_utf8 code = true -> valid_utf8 message = true -> wire_clean (error_json code message).
Proof.
  intros Hc Hm. unfold error_json. split_and!; [done| |vm_compute; congruence].
  cbn [jclean map fst snd]. by rewrite !utf8_clean_id.
Qed.

Lemma decode_error_json code message :
  dec_struct apiError_fields (error_json code message) (false, mkErrorData "" "") = Some (false, mkErrorData code message).
Proof. reflexivity. Qed.

(** The server's error as one text. *)
Definition shown (code message : string) : string :=
  if code =?s "" then message else code +:+ ": " +:+ message.

Lemma readAPIError_body status line body code message :
  parse (str_take 4096 body) = Some (error_json code message) -> message <> "" ->
  readAPIError (mkResponse status line body) = shown code message.
Proof.
  intros Hp Hm. unfold readAPIError. cbn [rs_Body rs_Status]. unfold unmarshal. rewrite Hp. cbn [unmarshal_raw].
  rewrite decode_error_json.
  cbn [ed_Code ed_Message]. by rewrite (proj2 (String.eqb_neq _ _) Hm).
Qed.

(** An answer of [writeErr] that is not too long. *)
Lemma readAPIError_writeErr status line code message :
  valid_utf8 code = true -> valid_utf8 message = true -> message <> "" ->
  len (answer_text (error_json code message)) <= 4096 ->
  readAPIError (mkResponse status line (answer_text (error_json code message))) = shown code message.
Proof.
  intros Hc Hm Hne Hl. apply readAPIError_body; [|done].
  rewrite str_take_short by (unfold len in Hl; lia). by apply parse_answer, error_json_clean.
Qed.

(** Behind [RequireAuth] a handler runs for a session and only for one, and the
    refusal is shown like the others. *)
Lemma RequireAuth_guards `{Crypto} {A} auth (next : ServerState -> ServerState * A) st r w :
  match snd (session auth st r w) with
  | Some _ => RequireAuth auth next st r w
              = let (st', a) := next (fst (session auth st r w)) in (st', inr a)
  | None => exists refusal, RequireAuth auth next st r w = (fst (session auth st r w), inl refusal)
              /\ readAPIError refusal = "AUTH_REQUIRED: authentication required"
  end.
Proof.
  unfold RequireAuth. destruct (session auth st r w) as [st' [info|]]; [done|].
  eexists. split; [reflexivity|vm_compute; reflexivity].
Qed.

Lemma decode_login user password :
  dec_struct loginRequest_fields (JObj [("password", JStr password); ("username", JStr user)]) (mkLogin "" "" false)
  = Some (mkLogin user password false).
Proof. reflexivity. Qed.

Lemma wrong_password_shown :
  readAPIError (mkResponse 401 (status_line 401)
    (answer_text (JObj [("error", JObj [("code", JStr "AUTH_FAILED"); ("message", JStr "invalid username or password")]);
                        ("ok", JBool false)])))
  = "AUTH_FAILED: invalid username or password".
Proof. vm_compute. reflexivity. Qed.

Lemma login_body_clean c :
  valid_utf8 (o_WebUser (c_opt c)) = true -> valid_utf8 (o_WebPassword (c_opt c)) = true ->
  wire_clean (JObj [("password", JStr (o_WebPassword (c_opt c))); ("username", JStr (o_WebUser (c_opt c)))]).
Proof. intros H1 H2. clean_members. Qed.

(** The refusals of the two WebSocket endpoints: status, code and message. *)
Definition ssh_refusals : list (Z * string * string) := [
  (401, "AUTH_REQUIRED", "authentication required"); (403, "WS_ORIGIN_DENIED", "origin not allowed")].

Definition tunnel_http_refusals : list (Z * string * string) := [
  (401, "AUTH_REQUIRED", "authentication required"); (403, "TUNNEL_DISABLED", "TCP tunnel is disabled");
  (403, "WS_ORIGIN_DENIED", "origin not allowed"); (429, "TUNNEL_LIMIT_EXCEEDED", "maximum concurrent tunnels exceeded")].

Lemma ssh_refusal_body `{Crypto} fold a s cfg now r status body :
  snd (WsHandler.ServeHTTP fold a s cfg now r) = HTTPError status body ->
  exists code message, (status, code, message) ∈ ssh_refusals
    /\ readAPIError (handshake_answer (http_Error status body)) = code +:+ ": " +:+ message.
Proof.
  unfold WsHandler.ServeHTTP. intros Hs.
  destruct (SessionFromRequest a s _ now) as [s' [info|]]; cbn [snd] in Hs.
  - destruct (negb _); [|discriminate Hs]. injection Hs as <- <-.
    exists "WS_ORIGIN_DENIED", "origin not allowed". split; [right; left|vm_compute; reflexivity].
  - injection Hs as <- <-. exists "AUTH_REQUIRED", "authentication required". split; [left|vm_compute; reflexivity].
Qed.

Lemma tunnel_refusal_shown status code message :
  (status, code, message) ∈ tunnel_http_refusals ->
  readAPIError (handshake_answer (writeTunnelHTTPError status code message)) = code +:+ ": " +:+ message.
Proof.
  unfold tunnel_http_refusals. intros Hin.
  repeat match type of Hin with
  | _ ∈ _ :: _ => apply elem_of_cons in Hin as [[= -> -> ->]|Hin]; [vm_compute; reflexivity|]
  end. by apply not_elem_of_nil in Hin.
Qed.

Lemma tunnel_refusal_of `{Crypto} cfg policy lookup fold a s now r slot up frame dial_ok write_ok status code message :
  TRefuse status code message ∈ snd (ServeTunnelHTTP cfg policy lookup fold a s now r slot up frame dial_ok write_ok) ->
  (status, code, message) ∈ tunnel_http_refusals.
Proof.
  intros Hs. unfold ServeTunnelHTTP in Hs.
  assert (forall st c m, TRefuse status code message ∈ [TRefuse st c m] -> (st, c, m) ∈ tunnel_http_refusals ->
            (status, code, message) ∈ tunnel_http_refusals) as Hone.
  { by intros st c m [= <- <- <-]%list_elem_of_singleton Hin. }
  destruct (SessionFromRequest a s _ now) as [s' [info|]]; cbn [snd] in Hs.
  2:{ eapply Hone; [exact Hs|left]. }
  destruct (negb (Tunnel_Enabled _)); [eapply Hone; [exact Hs|right; left]|].
  destruct (negb (checkOrigin _ _ _)); [eapply Hone; [exact Hs|right; right; left]|].
  destruct slot; cbn [negb] in Hs; [|eapply Hone; [exact Hs|right; right; right; left]].
  exfalso. assert (Forall (fun e => e = TTakeSlot \/ e = TReleaseSlot \/ not_slot e)
    (TTakeSlot :: (if up then tunnel_run cfg policy lookup frame dial_ok write_ok ++ [TCloseConn] else []) ++ [TReleaseSlot]))
    as HF.
  { constructor; [by left|]. apply Forall_app. split; [|constructor; [by right; left|done]]. destruct up; [|done].
    apply Forall_app. split; [|constructor; [by right; right|done]].
    eapply Forall_impl; [apply tunnel_run_not_slot|by right; right]. }
  rewrite Forall_forall in HF. by destruct (HF _ Hs) as [?|[?|?]].
Qed.

Lemma dial_refused Cookies address c endpoint url bad r text :
  readAPIError (handshake_answer r) = text -> dial_endpoint address c endpoint = Ok url ->
  dialWSURL Cookies address (fun _ _ => Some (bad, Some (handshake_answer r))) c endpoint
  = Err (Wrap ("websocket: " +:+ text +:+ ": ") bad).
Proof. intros Hr Hu. unfold dialWSURL. rewrite Hu. cbn [res_bind]. by rewrite Hr. Qed.

(** ** Properties *)

Section Refusals.

Context `{Crypto} `{TimeText}.

(** C37.  Every refusal of the server reaches the user with its code and its
    message.  The two refusals of the SSH endpoint and the four of the tunnel
    endpoint are shown with exactly their texts, through the handshake's answer,
    of which the dialer keeps 1024 bytes.  Every error of the JSON interface that
    fits the 4096 bytes the client reads is the result of the request. *)
Theorem refusals_reported :
  (forall fold a s cfg now r status body Cookies address c endpoint url bad,
     snd (WsHandler.ServeHTTP fold a s cfg now r) = HTTPError status body ->
     dial_endpoint address c endpoint = Ok url ->
     exists code message,
       (status, code, message) ∈ [(401, "AUTH_REQUIRED", "authentication required");
                                  (403, "WS_ORIGIN_DENIED", "origin not allowed")]
       /\ dialWSURL Cookies address (fun _ _ => Some (bad, Some (handshake_answer (http_Error status body)))) c endpoint
          = Err (Wrap ("websocket: " +:+ (code +:+ ": " +:+ message) +:+ ": ") bad))
  /\ (forall cfg policy lookup fold a s now r slot up frame dial_ok write_ok status code message
        Cookies address c endpoint url bad,
     TRefuse status code message ∈ snd (ServeTunnelHTTP cfg policy lookup fold a s now r slot up frame dial_ok write_ok) ->
     dial_endpoint address c endpoint = Ok url ->
     (status, code, message) ∈ [(401, "AUTH_REQUIRED", "authentication required");
                                (403, "TUNNEL_DISABLED", "TCP tunnel is disabled");
                                (403, "WS_ORIGIN_DENIED", "origin not allowed");
                                (429, "TUNNEL_LIMIT_EXCEEDED", "maximum concurrent tunnels exceeded")]
     /\ dialWSURL Cookies address
          (fun _ _ => Some (bad, Some (handshake_answer (writeTunnelHTTPError status code message)))) c endpoint
        = Err (Wrap ("websocket: " +:+ (code +:+ ": " +:+ message) +:+ ": ") bad))
  /\ (forall Do what req status code message resp,
     valid_utf8 code = true -> valid_utf8 message = true -> message <> "" -> status <> 200 ->
     len (answer_text (error_json code message)) <= 4096 ->
     http_response (writeErr status code message) = Some resp -> Do req = Ok resp ->
     do_ok Do what req = Err (Plain (what +:+ ": " +:+ shown code message))).
Proof.
  split_and!.
  - intros fold a s cfg now r status body Cookies address c endpoint url bad Hs Hu.
    apply ssh_refusal_body in Hs as (code & message & Hin & Ht). exists code, message. split; [exact Hin|].
    by apply (dial_refused _ _ _ _ url).
  - intros cfg policy lookup fold a s now r slot up frame dial_ok write_ok status code message
      Cookies address c endpoint url bad Hs%tunnel_refusal_of Hu.
    split; [exact Hs|]. apply (dial_refused _ _ _ _ url); [|done]. by apply tunnel_refusal_shown.
  - intros Do what req status code message resp Hc Hm Hne Hst Hl Hr Hdo. injection Hr as <-.
    unfold do_ok. rewrite Hdo. cbn [map_err res_bind rs_Code]. rewrite (proj2 (Z.eqb_neq _ _) Hst).
    pose proof (readAPIError_writeErr status (status_line status) code message Hc Hm Hne Hl) as Hs.
    unfold error_json in Hs. by rewrite Hs.
Qed.

Lemma read_login_body c :
  len (aq_Body (login_request c)) <= 4096 ->
  read_limited (login_http_request c) 4096 = Some (aq_Body (login_request c)).
Proof.
  intros Hl. unfold read_limited, login_http_request. cbn [hr_BodyFails hr_Body andb]. f_equal.
  apply str_take_short. unfold len in Hl. lia.
Qed.

(** The server's handler on the client's request. *)
Lemma handleLogin_client auth st c w :
  valid_utf8 (o_WebUser (c_opt c)) = true -> valid_utf8 (o_WebPassword (c_opt c)) = true ->
  len (aq_Body (login_request c)) <= 4096 ->
  snd (handleLogin auth st (login_http_request c) w)
  = match snd (Login auth (st_sessions st) (o_WebUser (c_opt c)) (o_WebPassword (c_opt c)) false
                 (w_random w) (w_now w) (w_later w)) with
    | Some ck => AnsJSON 200 (Some ok_body) (Some ck)
    | None => writeErr 401 "AUTH_FAILED" "invalid username or password"
    end.
Proof.
  intros Hu Hp Hl. unfold handleLogin. rewrite (read_login_body c Hl).
  assert (negb (HasPrefix (hr_ContentType (login_http_request c)) "application/json") = false) as -> by reflexivity.
  unfold unmarshal, login_request. cbn [aq_Body]. rewrite (parse_print_clean _ (login_body_clean c Hu Hp)). cbn [unmarshal_raw].
  rewrite decode_login. cbn [lr_Username lr_Password lr_Remember].
  by destruct (Login auth _ _ _ _ _ _ _) as [s' [ck|]].
Qed.

(** Logging in: for a name and a password that are UTF-8 and fit the
    server's limit, the client's login succeeds exactly if the server's [Login]
    with that name and password, not remembered, gives a cookie; else the client
    shows the server's refusal, in particular for a wrong password. *)
Theorem client_login_agrees :
  forall auth Parse Cert Roots (Verify : Cert -> VerifyOptions (Cert := Cert) (Roots := Roots) -> option cerror)
         reply expired spent select Send url_error c st w resp,
    valid_utf8 (o_WebUser (c_opt c)) = true -> valid_utf8 (o_WebPassword (c_opt c)) = true ->
    len (aq_Body (login_request c)) <= 4096 -> c_private c = false ->
    http_response (snd (handleLogin auth st (login_http_request c) w)) = Some resp ->
    Send (login_request c) = Ok (Final resp) ->
    let cookie := snd (Login auth (st_sessions st) (o_WebUser (c_opt c)) (o_WebPassword (c_opt c)) false
                         (w_random w) (w_now w) (w_later w)) in
    let login := snd (run_login Parse Verify reply expired spent select Send url_error c) in
    login = (match cookie with
             | Some _ => Ok None
             | None => Err (Plain "login: AUTH_FAILED: invalid username or password")
             end)
    /\ (Authenticate auth (o_WebUser (c_opt c)) (o_WebPassword (c_opt c)) = false ->
          login = Err (Plain "login: AUTH_FAILED: invalid username or password")).
Proof.
  intros auth Parse Cert Roots Verify reply expired spent select Send url_error c st w resp Hu Hp Hl Hprep Hr Hdo cookie login.
  assert (login = match cookie with
    | Some _ => Ok None | None => Err (Plain "login: AUTH_FAILED: invalid username or password") end) as Hrun.
  { unfold login, run_login, run_prepare, prepare, preparePrivateConnection. rewrite Hprep.
    unfold lift, emit_all, requests, Do, do_ok, http_do. cbn [negb orb m_bind fst snd].
    cbn [follow]. rewrite Hdo.
    rewrite (handleLogin_client auth st c w Hu Hp Hl) in Hr. fold cookie in Hr. cbn [fst snd map_err res_bind].
    destruct cookie as [ck|]; injection Hr as <-; cbn [rs_Code]; [reflexivity|].
    by rewrite wrong_password_shown. }
  split; [exact Hrun|]. intros Ha. rewrite Hrun. subst cookie. unfold Login. by rewrite Ha.
Qed.

End Refusals.

#[local] Existing Instance toy_crypto.

Lemma refusals_reported_witness :
  do_ok (fun _ => Ok (mkResponse 429 (status_line 429) (answer_text (error_json "BUSY" "try <later>")))) "login"
    (mkApiRequest "POST" (mkURL "https" None "web.example" "/api/login" "" "") "")
  = Err (Plain "login: BUSY: try <later>")
  /\ dialWSURL (fun _ => []) "" (fun _ _ => Some (Plain "bad handshake",
        Some (handshake_answer (writeTunnelHTTPError 401 "AUTH_REQUIRED" "authentication required"))))
       dial_client (tunnelWSURL (c_base dial_client))
     = Err (Wrap "websocket: AUTH_REQUIRED: authentication required: " (Plain "bad handshake")).
Proof.
  split.
  - refine (proj2 (proj2 refusals_reported) _ "login" _ 429 "BUSY" "try <later>" _ eq_refl eq_refl _ _ _ eq_refl eq_refl);
      vm_compute; congruence.
  - refine (proj2 (proj1 (proj2 refusals_reported) tunnel_config sample_policy sample_lookup (fun _ _ => false) sample_auth
      (NewStore 0) 100 (sample_http "") true true None (fun _ => true) true 401 "AUTH_REQUIRED" "authentication required"
      (fun _ => []) "" dial_client (tunnelWSURL (c_base dial_client)) (tunnelWSURL (c_base dial_client))
      (Plain "bad handshake") _ eq_refl)).
    vm_compute. left.
Defined.

Lemma client_login_agrees_witness :
  let w := mkWorld 7 8 (Some sample_random) "" (fun _ => None) true None (fun _ => false) in
  let st := mkServerState (NewStore 0) None in
  exists resp, http_response (snd (handleLogin sample_auth st (login_http_request dial_client) w)) = Some resp
    /\ snd (run_login (fun _ => None) (fun (_ : unit) (_ : VerifyOptions (Roots := unit)) => None)
              (fun _ _ _ _ => RequestFailed None) (fun _ _ _ => None) (fun _ b => b) (fun _ _ => Ok None)
              (fun _ => Ok (Final resp)) (fun _ _ => EOF) dial_client) = Ok None.
Proof.
  intros w st.
  destruct (http_response (snd (handleLogin sample_auth st (login_http_request dial_client) w))) as [resp|] eqn:Hr;
    [|vm_compute in Hr; discriminate Hr].
  exists resp. split; [reflexivity|].
  refine (eq_trans (proj1 (client_login_agrees sample_auth (fun _ => None) unit unit (fun _ _ => None)
    (fun _ _ _ _ => RequestFailed None) (fun _ _ _ => None) (fun _ b => b) (fun _ _ => Ok None)
    (fun _ => Ok (Final resp)) (fun _ _ => EOF) dial_client st w resp
    eq_refl eq_refl _ eq_refl Hr eq_refl)) _); vm_compute; congruence.
Defined.
