(* ===== verification/Themes.v ===== *)
(** * The theme catalogue (themes/catalog.go)

    Terminal colour themes: the parsing of one theme file, the catalogue of the
    embedded themes overlaid by those of a directory, the order of their names,
    and the script the browser loads.

    Directories are lists of entries in the order of [os.ReadDir].  Which of
    several bad colours an error names depends on Go's map order; the model has
    the kind of the error only. *)

From stdpp Require Import sorting.
From S2P Require Import Prelude GoStrings GoTime Json JsonDecode.

Definition PreferredOrder : list string :=
  ["github-light"; "solarized-light"; "catppuccin-latte"; "catppuccin-mocha"; "dracula"; "tokyo-night";
   "one-dark"; "nord"].

Abbreviation Theme := (gmap string string).

Inductive ThemeError : Type :=
| EmptyFile | InvalidJSON | BadColor | MissingGround | MissingID
| ReadError | StatError | NotADirectory.

(** ** One theme *)

(** Whether [json.Unmarshal] into an [any] succeeds: the numbers have to fit a
    float. *)
Fixpoint any_ok (v : json) : bool :=
  match v with
  | JNum lit => bool_decide (is_Some (ParseFloatLit lit))
  | JArr l => forallb any_ok l
  | JObj m => forallb (fun kv => any_ok (snd kv)) m
  | _ => true
  end.

(** A JSON object as a map: the last member with a name counts. *)
Definition raw_map (m : list (string * json)) : gmap string json := list_to_map (rev m).

Definition color (v : json) : option string :=
  match v with
  | JStr s => if TrimSpace s =?s "" then None else Some (TrimSpace s)
  | _ => None
  end.

(** The zero value for a missing color is the empty string. *)
Definition has_color (theme : Theme) (key : string) : bool := negb (default "" (theme !! key) =?s "").

Definition parseTheme (defaultID data : string) : result ThemeError Theme :=
  let data := TrimSpace data in
  reject! data =?s "" with EmptyFile in
  let! raw := match parse data with
              | Some (JObj m) => require! any_ok (JObj m) else InvalidJSON in Ok (raw_map m)
              | Some JNull => Ok ∅
              | _ => Err InvalidJSON
              end in
  let colors := delete "name" raw in
  require! bool_decide (map_Forall (fun _ v => is_Some (color v)) colors) else BadColor in
  let theme : Theme := omap color colors in
  require! has_color theme "background" && has_color theme "foreground" else MissingGround in
  reject! defaultID =?s "" with MissingID in
  Ok theme.

(** ** Directories *)

(** A directory entry; [None] if its file cannot be read. *)
Record Entry : Type := mkEntry { e_name : string; e_isDir : bool; e_data : option string }.

(** [filepath.Ext] of a name without separators, and the name before it. *)
Definition stem (name : string) : string :=
  match LastIndexByte name "."%char with Some i => str_take i name | None => name end.

Definition is_theme_file (e : Entry) : bool :=
  negb (e_isDir e) && HasSuffix (ToLower (e_name e)) ".json".

(** The loop of [loadDir]; the walk of [loadFS] does the same. *)
Fixpoint load_entries (entries : list Entry) (out : gmap string Theme) : result ThemeError (gmap string Theme) :=
  match entries with
  | [] => Ok out
  | e :: rest =>
      if negb (is_theme_file e) then load_entries rest out
      else
        let! data := of_option ReadError (e_data e) in
        let! theme := parseTheme (stem (e_name e)) data in
        load_entries rest (<[stem (e_name e) := theme]> out)
  end.

(** [loadFS]: the walk of the embedded files, a directory without
    subdirectories whose entries come in the order of their names. *)
Definition loadFS (fsys : list Entry) (out : gmap string Theme) : result ThemeError (gmap string Theme) :=
  load_entries fsys out.

(** What is at the path of the themes directory. *)
Inductive Disk : Type :=
| NotExist | StatFails | NotDir | ReadDirFails
| Directory (entries : list Entry).

Section Catalog.

(** The embedded files. *)
Context (defaultFS : list Entry).

Definition Load (Dir : string) (disk : string -> Disk) : result ThemeError (gmap string Theme) :=
  let! out := loadFS defaultFS ∅ in
  let dir := TrimSpace Dir in
  if dir =?s "" then Ok out
  else match disk dir with
       | NotExist => Ok out
       | StatFails => Err StatError
       | NotDir => Err NotADirectory
       | ReadDirFails => Err ReadError
       | Directory entries => load_entries entries out
       end.

(** [orderedNames]: the preferred names that exist, then the others sorted. *)
Definition orderedNames (all : gmap string Theme) : list string :=
  let names := filter (fun name => is_Some (all !! name)) PreferredOrder in
  let extra := filter (fun name => name ∉ names) (map_to_list all).*1 in
  names ++ merge_sort String.le extra.

Definition Names (Dir : string) (disk : string -> Disk) : result ThemeError (list string) :=
  let! all := Load Dir disk in Ok (orderedNames all).

(** [json.Marshal] of a map: its keys sorted. *)
Definition enc_map {A} (enc : A -> json) (m : gmap string A) : json :=
  JObj (omap (fun k => (fun a => (k, enc a)) <$> m !! k) (merge_sort String.le (map_to_list m).*1)).

Definition WriteJS (Dir : string) (disk : string -> Disk) : result ThemeError string :=
  let! all := Load Dir disk in
  Ok ("/* generated by go-webssh */" +:+ String (chr 10) "" +:+ "window.GOWEBSSH_THEMES = "
        +:+ print (enc_map (enc_map JStr) all) +:+ ";" +:+ String (chr 10) "").

(** [handleThemesJS] of internal/httpserver/server.go: status, content type and
    body.  [WriteJS] fails before it writes anything; [http.Error] then sets its
    own content type. *)
Definition handleThemesJS (Dir : string) (disk : string -> Disk) : Z * string * string :=
  match WriteJS Dir disk with
  | Ok text => (200, "application/javascript; charset=utf-8", text)
  | Err _ => (500, "text/plain; charset=utf-8", "failed to load themes" +:+ String (chr 10) "")
  end.

End Catalog.

(** ** Lemmas *)

(** A usable theme: both grounds, and no colour that is empty or has spaces at
    its ends. *)
Record good_theme (theme : Theme) : Prop := {
  gt_background : is_Some (theme !! "background");
  gt_foreground : is_Some (theme !! "foreground");
  gt_name : theme !! "name" = None;
  gt_colors : map_Forall (fun _ s => s <> "" /\ no_space_ends s) theme }.

Lemma color_good v s : color v = Some s -> s <> "" /\ no_space_ends s.
Proof.
  unfold color. destruct v; intros H; try done. destruct (_ =?s _) eqn:E; bool_facts; simplify_eq.
  split; [done|apply TrimSpace_ends].
Qed.

Lemma has_color_Some (theme : Theme) key : has_color theme key = true -> is_Some (theme !! key).
Proof. unfold has_color. destruct (theme !! key); [by eexists|done]. Qed.

Lemma parseTheme_good id data theme : parseTheme id data = Ok theme -> id <> "" /\ good_theme theme.
Proof.
  unfold parseTheme. intros H. ok_path H. injection H as <-. bool_facts. split; [done|].
  constructor; [by apply has_color_Some..| |].
  - by rewrite lookup_omap, lookup_delete_eq.
  - intros k s Hk. rewrite lookup_omap in Hk. apply bind_Some in Hk as (v & _ & Hv). by eapply color_good.
Qed.

(** The themes of a list of entries, in order. *)
Definition theme_of (e : Entry) : option (string * Theme) :=
  if is_theme_file e then
    data ← e_data e;
    match parseTheme (stem (e_name e)) data with Ok theme => Some (stem (e_name e), theme) | Err _ => None end
  else None.

Definition themes_of (entries : list Entry) : gmap string Theme := list_to_map (rev (omap theme_of entries)).

Lemma load_entries_spec entries out all :
  load_entries entries out = Ok all ->
  all = themes_of entries ∪ out
  /\ forall e, e ∈ entries -> is_theme_file e = true -> is_Some (theme_of e).
Proof.
  unfold themes_of. revert out; induction entries as [|e entries IH]; intros out H; cbn [load_entries] in H.
  - injection H as <-. split; [cbn; by rewrite (left_id_L ∅ (∪))|]. intros e He. by apply not_elem_of_nil in He.
  - destruct (is_theme_file e) eqn:Et; cbn [negb] in H.
    + ok_path H. apply IH in H as [-> Hall].
      assert (theme_of e = Some (stem (e_name e), a0)) as Hte.
      { unfold theme_of. rewrite Et. unfold of_option in Ha. destruct (e_data e); [|done]. injection Ha as <-.
        cbn. by rewrite Ha0. }
      split.
      * cbn [omap list_omap]. rewrite Hte. cbn [rev]. rewrite list_to_map_app. cbn [list_to_map foldr uncurry].
        rewrite insert_empty. rewrite <- (assoc_L (∪)). by rewrite insert_union_singleton_l.
      * intros e' [->|He']%elem_of_cons Ht; [by rewrite Hte|by apply Hall].
    + apply IH in H as [-> Hall]. split.
      * cbn [omap list_omap]. unfold theme_of at 2. by rewrite Et.
      * intros e' [->|He']%elem_of_cons Ht; [congruence|by apply Hall].
Qed.

Lemma themes_of_good entries : map_Forall (fun id theme => id <> "" /\ good_theme theme) (themes_of entries).
Proof.
  intros id theme H. apply elem_of_list_to_map_2 in H. apply list_elem_of_In, in_rev, list_elem_of_In, list_elem_of_omap in H as (e & _ & He).
  unfold theme_of in He. destruct (is_theme_file e); [|done].
  apply bind_Some in He as (data & _ & He). destruct (parseTheme _ _) eqn:Ep; [|done].
  injection He as <- <-. by apply parseTheme_good in Ep.
Qed.

(** ** Properties *)

(** The themes of the configured directory, none without one. *)
Definition overlay (Dir : string) (disk : string -> Disk) : gmap string Theme :=
  if TrimSpace Dir =?s "" then ∅
  else match disk (TrimSpace Dir) with Directory entries => themes_of entries | _ => ∅ end.

(** C40.  What a loaded catalogue holds: every theme is usable (an id, both
    grounds, trimmed colours that are not empty), every eligible file of the
    directory is in it, and the directory's themes override the embedded ones of
    the same id and leave the others. *)
Theorem Load_overlay :
  forall defaultFS Dir disk all,
    Load defaultFS Dir disk = Ok all ->
    map_Forall (fun id theme => id <> "" /\ good_theme theme) all
    /\ (forall id, all !! id = match overlay Dir disk !! id with
                               | Some theme => Some theme
                               | None => themes_of defaultFS !! id
                               end)
    /\ forall entries e, TrimSpace Dir <> "" -> disk (TrimSpace Dir) = Directory entries ->
         e ∈ entries -> is_theme_file e = true -> is_Some (overlay Dir disk !! stem (e_name e)).
Proof.
  intros defaultFS Dir disk all H. unfold Load in H. ok_path H.
  apply load_entries_spec in Ha as [-> _]. rewrite (right_id_L ∅ (∪)) in H. unfold overlay.
  assert (forall ov, all = ov ∪ themes_of defaultFS ->
    map_Forall (fun id theme => id <> "" /\ good_theme theme) ov ->
    map_Forall (fun id theme => id <> "" /\ good_theme theme) all
    /\ forall id, all !! id = match ov !! id with Some theme => Some theme | None => themes_of defaultFS !! id end) as Hov.
  { intros ov -> Hgood. split.
    - intros id theme Hid. apply lookup_union_Some_raw in Hid as [Hid|[_ Hid]]; [by eapply Hgood|by eapply themes_of_good].
    - intros id. rewrite lookup_union. destruct (ov !! id), (themes_of defaultFS !! id); done. }
  destruct (TrimSpace Dir =?s "") eqn:Ed; bool_facts.
  { injection H as <-. destruct (Hov ∅) as [H1 H2]; [by rewrite (left_id_L ∅ (∪))|apply map_Forall_empty|].
    split_and!; [done..|]. intros ?? Hne. by rewrite Ed in Hne. }
  destruct (disk (TrimSpace Dir)) as [| | | |entries]; try done.
  { injection H as <-. destruct (Hov ∅) as [H1 H2]; [by rewrite (left_id_L ∅ (∪))|apply map_Forall_empty|].
    by split_and!. }
  apply load_entries_spec in H as [-> Hall]. destruct (Hov (themes_of entries)) as [H1 H2]; [done|apply themes_of_good|].
  split_and!; [done..|]. intros entries' e _ [= <-] Hin Ht.
  destruct (Hall e Hin Ht) as [[id theme] Hte].
  assert (id = stem (e_name e)) as ->.
  { unfold theme_of in Hte. rewrite Ht in Hte. apply bind_Some in Hte as (data & _ & Hte).
    destruct (parseTheme _ _); by simplify_eq. }
  unfold themes_of. destruct (list_to_map (rev (omap theme_of entries)) !! stem (e_name e)) eqn:El; [by eexists|].
  exfalso. apply not_elem_of_list_to_map in El. apply El. apply list_elem_of_fmap.
  exists (stem (e_name e), theme). split; [done|]. apply list_elem_of_In. rewrite <- in_rev.
  apply list_elem_of_In, list_elem_of_omap. by exists e.
Qed.

Definition sample_file (name bg : string) : Entry :=
  mkEntry name false (Some (q "{'name':1,'background':'" +:+ bg +:+ q " ','foreground':'#fff'}")).

Definition sample_disk (path : string) : Disk :=
  Directory [mkEntry "old" true None; sample_file "nord.JSON" "#111"; mkEntry "notes.txt" false None;
             sample_file "zebra.json" "#222"].

Definition sample_embedded : list Entry := [sample_file "nord.json" "#000"; sample_file "dracula.json" "#333"].

(** The background of a theme of a loaded catalogue. *)
Definition background_of (r : result ThemeError (gmap string Theme)) (id : string) : option string :=
  match r with Ok all => theme ← all !! id; theme !! "background" | Err _ => None end.

Lemma Load_overlay_witness :
  is_ok (Load sample_embedded " /themes " sample_disk) = true
  /\ background_of (Load sample_embedded " /themes " sample_disk) "nord" = Some "#111"
  /\ background_of (Load sample_embedded " /themes " sample_disk) "dracula" = Some "#333".
Proof.
  assert (is_ok (Load sample_embedded " /themes " sample_disk) = true) as Hok by (vm_compute; reflexivity).
  split; [exact Hok|].
  pose proof (Load_overlay sample_embedded " /themes " sample_disk) as H. unfold background_of.
  destruct (Load sample_embedded " /themes " sample_disk) as [all|e]; [|discriminate Hok].
  destruct (H all eq_refl) as (_ & Hl & _). rewrite !Hl. split; vm_compute; reflexivity.
Defined.

(** The order of the names: the names of a catalogue are its ids, each
    once: first the preferred ones it has, in the preferred order, then the
    others in byte order. *)
Theorem orderedNames_spec :
  forall all,
    NoDup (orderedNames all)
    /\ (forall name, name ∈ orderedNames all <-> is_Some (all !! name))
    /\ exists extra, orderedNames all = filter (fun name => is_Some (all !! name)) PreferredOrder ++ extra
         /\ Sorted String.le extra /\ forall name, name ∈ extra -> name ∉ PreferredOrder.
Proof.
  intros all. unfold orderedNames.
  set (names := filter (fun name => is_Some (all !! name)) PreferredOrder).
  set (extra := filter (fun name => name ∉ names) (map_to_list all).*1).
  assert (forall name, name ∈ (map_to_list all).*1 <-> is_Some (all !! name)) as Hdom.
  { intros name. rewrite list_elem_of_fmap. split.
    - intros ([k t] & -> & Hk). apply elem_of_map_to_list in Hk. by eexists.
    - intros [t Ht]. exists (name, t). split; [done|]. by apply elem_of_map_to_list. }
  assert (forall name, name ∈ merge_sort String.le extra <-> name ∈ extra) as Hms
    by (intros name; by rewrite merge_sort_Permutation).
  split_and!.
  - apply NoDup_app. split_and!.
    + apply NoDup_filter. by apply (bool_decide_unpack _); vm_compute.
    + intros name Hn He. rewrite Hms in He. apply list_elem_of_filter in He as [He _]. done.
    + rewrite merge_sort_Permutation. apply NoDup_filter, NoDup_fst_map_to_list.
  - intros name. rewrite elem_of_app, Hms. unfold extra. rewrite list_elem_of_filter, Hdom.
    destruct (decide (name ∈ names)) as [Hn|Hn]; [|tauto].
    split; [intros _|by left]. by apply list_elem_of_filter in Hn as [? _].
  - exists (merge_sort String.le extra). split_and!; [done|apply Sorted_merge_sort; apply _|].
    intros name. rewrite Hms. unfold extra. rewrite list_elem_of_filter, Hdom. intros [Hn Hd] Hp. apply Hn.
    unfold names. by apply list_elem_of_filter.
Qed.
