(* ===== verification/Main.v ===== *)
(** * The server's start (cmd/webssh/main.go, internal/logging)

    [main] puts the parts together: the configuration from file, environment
    and flag, validated; the credential database with its key and the migration
    of old records; the authenticator, the network policy, the host key callback
    and the theme catalogue.  A start changes the disk (the database and the key
    file) and ends with a running server or with the first error.

    The flags are in CmdLine, the listener and the end of the process in
    ServerLife; what is logged is not modelled. *)

From S2P Require Import Prelude GoStrings GoTime GoEncoding GoError Json JsonDecode Netip NetworkPolicy HostKey Config Auth Vault HttpServer Themes.

(** The error [main] exits with. *)
Inductive Fatal : Type :=
| ConfigLoad (e : LoadError)
| ConfigInvalid (e : ConfigError)
| VaultFailed (e : OpenError)
| MigrationFailed (e : VaultError)
| PolicyFailed (e : PolicyConfigError)
| HostKeysFailed (e : HostKeyConfigError)
| ThemesFailed (e : ThemeError).

Definition authenticator (cfg : Config) : Authenticator :=
  mkAuthenticator (Username (Auth cfg)) (Password (Auth cfg)) (PasswordHash (Auth cfg))
    (SecureCookie (Server cfg)) (SessionTTL (Auth cfg)) (SessionSecret (Server cfg)).

(** [logging.New]: the level of the log. *)
Inductive Level : Type := LevelDebug | LevelInfo | LevelWarn | LevelError.
Definition log_level (level : string) : Level :=
  let l := ToLower (TrimSpace level) in
  if l =?s "debug" then LevelDebug
  else if (l =?s "warn") || (l =?s "warning") then LevelWarn
  else if l =?s "error" then LevelError
  else LevelInfo.

Section Start.

Context `{Crypto} `{TimeText} {Key : Type}.

(** The parts of a running server. *)
Record Running : Type := mkRunning {
  rn_config : Config; rn_auth : Authenticator; rn_policy : NetworkPolicy.NetworkPolicy;
  rn_hostkeys : @HostKeyCallback Key; rn_state : ServerState; rn_themes : list string;
  rn_level : Level }.

(** The sources of the configuration; argon2; the file system as the host keys
    and the themes see it. *)
Context (ReadFile : string -> option string) (Unmarshal : string -> option rawConfig)
        (env : string -> string) (IDKey : string -> string -> string)
        (Stat : string -> StatResult) (WriteFile_ok : string -> bool)
        (knownhosts_New : string -> option (@HostKeyCallback Key))
        (defaultFS : list Entry) (disk : string -> Disk).

(** The database, opened and migrated; [None] when credentials are disabled. *)
Definition open_store (cfg : Config) (d : DB) (files : gmap string Vault.KeyFile) (w : OpenWorld)
    (nonces : string -> option string) (commit : bool)
    : DB * gmap string Vault.KeyFile * result Fatal (option VStore) :=
  if negb (Credentials_Enabled (Credentials cfg)) then (d, files, Ok None)
  else
    match Open (DBFile (Credentials cfg))
            (Some (mkOpenOptions (Config.KeyFile (Credentials cfg)) (KeyHex (Credentials cfg)))) d files w with
    | (d, files, Err e) => (d, files, Err (VaultFailed e))
    | (d, files, Ok store) =>
        if UsesPlaintextPassword cfg then
          match MigrateLegacyFromPassword IDKey store (Password (Auth cfg)) nonces commit with
          | (store, Err e) => (db store, files, Err (MigrationFailed e))
          | (store, Ok _) => (db store, files, Ok (Some store))
          end
        else (d, files, Ok (Some store))
    end.

(** The parts after the store.  They leave the database and the key file alone;
    [NewHostKeyCallback] may create an empty known_hosts file (HostKey), which is
    not in the modelled disk. *)
Definition build (cfg : Config) (store : option VStore) : result Fatal Running :=
  let! policy := map_err PolicyFailed
                   (NewNetworkPolicy (Cfg_AllowPrivateRanges (NetworkPolicy cfg)) (Cfg_Deny (NetworkPolicy cfg))
                      (Cfg_Allow (NetworkPolicy cfg))) in
  let! hostKeyCB := map_err HostKeysFailed
                      (NewHostKeyCallback Stat WriteFile_ok knownhosts_New
                         (HostKeyPolicy (SSH cfg)) (KnownHostsFile (SSH cfg))) in
  let! names := map_err ThemesFailed (Names defaultFS (UI_ThemesDir cfg) disk) in
  Ok (mkRunning cfg (authenticator cfg) policy hostKeyCB
        (mkServerState (NewStore (SessionTTL (Auth cfg))) store) names (log_level (Logging_Level cfg))).

Definition start (path listen : string) (d : DB) (files : gmap string Vault.KeyFile) (w : OpenWorld)
    (nonces : string -> option string) (commit : bool) : DB * gmap string Vault.KeyFile * result Fatal Running :=
  match configure ReadFile Unmarshal env path listen with
  | Err e => (d, files, Err (ConfigLoad e))
  | Ok cfg =>
      match Validate cfg with
      | (_, Some e) => (d, files, Err (ConfigInvalid e))
      | (cfg, None) =>
          let '(d, files, store) := open_store cfg d files w nonces commit in
          (d, files, let! store := store in build cfg store)
      end
  end.

(** ** Lemmas *)

(** Random bytes have the length that was asked for. *)
Record good_random (w : OpenWorld) (nonces : string -> option string) : Prop := {
  gr_key : forall key, ow_key w = Some key -> String.length key = 32%nat;
  gr_salt : forall fresh, ow_salt w = Some fresh -> fresh <> "";
  gr_nonces : forall id n, nonces id = Some n -> String.length n = NonceSize }.

(** A migration that succeeds changes the credentials only; the same migration
    then finds nothing to do. *)
Lemma migration_idempotent s password nonces commit s' n nonces' commit' :
  (forall id x, nonces id = Some x -> String.length x = NonceSize) ->
  MigrateLegacyFromPassword IDKey s password nonces commit = (s', Ok n) ->
  (exists cs, s' = set_db s (set_buckets (db s) cs (summaries (db s))))
  /\ exists n', MigrateLegacyFromPassword IDKey s' password nonces' commit' = (s', Ok n').
Proof.
  unfold MigrateLegacyFromPassword. intros Hn Hm. destruct (password =?s ""); [done|].
  destruct (migrate_all _ _ _ _) as [[records remaining]|e] eqn:E; [|done].
  pose proof (fun s' => migrate_all_again s s' _ _ nonces' _ _ Hn E) as Hagain.
  destruct records as [|r rs]; [|destruct commit; [|done]].
  - injection Hm as <- _. split; [exists (credentials (db s)); by destruct s as [[] ? ?]|].
    destruct (Hagain s) as [n' Hn']. cbn [put_all fold_left] in Hn'. exists (0%nat, n'). by rewrite Hn'.
  - generalize dependent (put_all (r :: rs) (credentials (db s))). intros cs Hm Hagain. injection Hm as <- _.
    split; [by eexists|]. destruct (Hagain (set_db s (set_buckets (db s) cs (summaries (db s))))) as [n' Hn'].
    exists (0%nat, n'). cbn [set_db set_buckets db credentials salt] in *. by rewrite Hn'.
Qed.

(** What an opened store is, and that opening it again gives the same. *)
Lemma open_store_Ok cfg d files w nonces commit d1 files1 s :
  good_random w nonces ->
  open_store cfg d files w nonces commit = (d1, files1, Ok (Some s)) ->
  db s = d1 /\ meta_fingerprint d1 = Some (SHA256 (masterKey s)) /\ String.length (masterKey s) = 32%nat
  /\ (forall id sealed c, UsesPlaintextPassword cfg = true -> credentials d !! id = Some sealed ->
        legacy_reading (IDKey (Password (Auth cfg)) (salt s)) id sealed = Some c -> VGet s id = Ok c)
  /\ forall w' nonces' commit', ow_init w' = true -> ow_chmod w' = true ->
       open_store cfg d1 files1 w' nonces' commit' = (d1, files1, Ok (Some s)).
Proof.
  intros [Hk Hs Hn] Ho. unfold open_store in *. destruct (negb _); [done|].
  set (opts := Some (mkOpenOptions _ _)) in *. set (path := DBFile _) in *.
  destruct (Open path opts d files w) as [[d0 files0] [s0|e]] eqn:Eo; [|done].
  destruct (Open_Ok _ _ _ _ _ _ _ _ Eo Hk Hs) as (Hdb & Hcs & Hss & Hms & Hne & Hf & Hl & Hlen).
  assert (forall cs w', ow_init w' = true -> ow_chmod w' = true ->
            Open path opts (set_buckets d0 cs (summaries d0)) files0 w'
            = (set_buckets d0 cs (summaries d0), files0,
               Ok (mkVStore (set_buckets d0 cs (summaries d0)) (salt s0) (masterKey s0)))) as Hagain.
  { intros cs w' Hi Hc. rewrite (Open_again _ _ _ _ _ (salt s0) (masterKey s0)) by done.
    rewrite Hi, Hc, Hl. cbn [negb]. by rewrite String.eqb_refl. }
  destruct (UsesPlaintextPassword cfg) eqn:Eu.
  - destruct (MigrateLegacyFromPassword _ _ _ _ _) as [s1 [n|e]] eqn:Em; [|done]. injection Ho as <- <- <-.
    pose proof (MigrateLegacy_spec IDKey s0 (Password (Auth cfg)) nonces commit Hn) as Hspec. rewrite Em in Hspec.
    destruct n as [m r]. destruct Hspec as (Hrec & _ & _ & _ & Hkey & Hsalt).
    destruct (migration_idempotent _ _ _ _ _ _ nonces commit Hn Em) as [[cs Hs1] _].
    split_and!; [done|by rewrite Hs1, Hdb|by rewrite Hkey| |].
    + intros id sealed c _ Hid Hr. specialize (Hrec id). rewrite Hdb, Hcs, Hid in Hrec. rewrite Hsalt in Hr.
      by rewrite Hr in Hrec.
    + intros w' nonces' commit' Hi Hc.
      destruct (migration_idempotent _ _ _ _ _ _ nonces' commit' Hn Em) as [_ [n' Hm']].
      rewrite Hs1 in *. cbn [db set_db]. rewrite Hdb, Hagain by done. rewrite <- Hdb.
      change (mkVStore (set_buckets (db s0) cs (summaries (db s0))) (salt s0) (masterKey s0))
        with (set_db s0 (set_buckets (db s0) cs (summaries (db s0)))). by rewrite Hm'.
  - injection Ho as <- <- <-. split_and!; [done..| |].
    + done.
    + intros w' nonces' commit' Hi Hc. pose proof (Hagain (credentials d0) w' Hi Hc) as Ha.
      assert (set_buckets d0 (credentials d0) (summaries d0) = d0) as Hd0 by (by destruct d0).
      rewrite Hd0 in Ha. rewrite Ha. destruct s0. cbn in Hdb. by subst.
Qed.

Definition config_error (e : Fatal) : bool :=
  match e with ConfigLoad _ | ConfigInvalid _ => true | _ => false end.

Lemma build_error cfg store e : build cfg store = Err e -> config_error e = false.
Proof.
  unfold build. destruct (NewNetworkPolicy _ _ _); [|by intros [= <-]].
  destruct (NewHostKeyCallback _ _ _ _ _); [|by intros [= <-]].
  destruct (Names _ _ _); [done|by intros [= <-]].
Qed.

Lemma open_store_error cfg d files w nonces commit d1 files1 e :
  open_store cfg d files w nonces commit = (d1, files1, Err e) -> config_error e = false.
Proof.
  unfold open_store. intros Ho. destruct (negb _); [done|].
  destruct (Open _ _ _ _ _) as [[d0 files0] [s0|oe]]; [|by injection Ho as <- <- <-].
  destruct (UsesPlaintextPassword cfg); [|done].
  destruct (MigrateLegacyFromPassword _ _ _ _ _) as [s1 [n|me]]; [done|by injection Ho as <- <- <-].
Qed.

(** ** Properties *)

(** What a running server was built from, and what it guarantees. *)
Record sound_start (path listen : string) (d : DB) (files : gmap string Vault.KeyFile) (d1 : DB)
    (files1 : gmap string Vault.KeyFile) (r : Running) : Prop := {
  ss_config : valid_config (rn_config r)
    /\ exists cfg0, configure ReadFile Unmarshal env path listen = Ok cfg0 /\ same_settings cfg0 (rn_config r);
  ss_sessions : rn_auth r = authenticator (rn_config r) /\ sessions (st_sessions (rn_state r)) = ∅
    /\ ttl (st_sessions (rn_state r)) = SessionTTL (Auth (rn_config r));
  ss_policy : Cfg_Allow (NetworkPolicy (rn_config r)) = [] ->
    forall lookup host port target,
      ResolveAllowedHostPort lookup (rn_policy r) host port = Ok target ->
      exists ip, target = JoinHostPort (AddrString ip) (Itoa port)
        /\ safe_target (Cfg_AllowPrivateRanges (NetworkPolicy (rn_config r))) ip;
  ss_hostkeys : HostKeyPolicy (SSH (rn_config r)) = "known-hosts" ->
    exists known, knownhosts_New (KnownHostsFile (SSH (rn_config r))) = Some known
      /\ forall host key, rn_hostkeys r host key = None <-> known host key = None;
  ss_store : match st_vault (rn_state r) with
    | None => Credentials_Enabled (Credentials (rn_config r)) = false /\ d1 = d /\ files1 = files
    | Some s =>
        db s = d1 /\ meta_fingerprint d1 = Some (SHA256 (masterKey s)) /\ String.length (masterKey s) = 32%nat
        /\ forall id sealed c, UsesPlaintextPassword (rn_config r) = true -> credentials d !! id = Some sealed ->
             legacy_reading (IDKey (Password (Auth (rn_config r))) (salt s)) id sealed = Some c -> VGet s id = Ok c
    end }.

(** C21.  A server that starts is soundly configured: its configuration is valid
    and only completes the one given; nobody is logged in; if there are no allow
    entries its policy keeps to safe targets ([safe_target], which leaves a zoned
    :: open); under the known-hosts policy it accepts exactly the keys of the
    configured file; its vault, if enabled, holds the key whose fingerprint the
    database records, and if the password is configured in plaintext every old
    record that password's key reads can be read.  An invalid configuration
    leaves database and key files as they were. *)
Theorem start_sound :
  forall path listen d files w nonces commit d1 files1 result,
    good_random w nonces ->
    start path listen d files w nonces commit = (d1, files1, result) ->
    match result with
    | Ok r => sound_start path listen d files d1 files1 r
    | Err (ConfigLoad _ | ConfigInvalid _) => d1 = d /\ files1 = files
    | Err _ => exists cfg cfg', configure ReadFile Unmarshal env path listen = Ok cfg
                 /\ Validate cfg = (cfg', None) /\ valid_config cfg'
    end.
Proof.
  intros * Hw Hst. unfold start in Hst.
  destruct (configure _ _ _ _ _) as [cfg0|e] eqn:Ec; [|by injection Hst as <- <- <-].
  destruct (Validate cfg0) as [cfg [e|]] eqn:Ev; [by injection Hst as <- <- <-|].
  destruct (open_store cfg d files w nonces commit) as [[d0 files0] store] eqn:Eo. injection Hst as <- <- <-.
  pose proof (Validate_Ok _ _ Ev) as [Hv Hsame].
  destruct store as [store|e]; cbn [res_bind].
  2:{ apply open_store_error in Eo. destruct e; try discriminate Eo; by exists cfg0, cfg. }
  destruct (build cfg store) as [r|e] eqn:Eb.
  2:{ apply build_error in Eb. destruct e; try discriminate Eb; by exists cfg0, cfg. }
  unfold build in Eb. ok_path Eb. injection Eb as <-.
  destruct (NewNetworkPolicy _ _ _) as [policy|] eqn:Ep; [|done].
  destruct (NewHostKeyCallback _ _ _ _ _) as [cb|] eqn:Eh; [|done]. cbn [map_err] in *. simplify_eq.
  constructor; cbn [rn_config rn_auth rn_policy rn_hostkeys rn_state st_sessions st_vault].
  - split; [done|]. by exists cfg0.
  - split_and!; [done..|]. unfold NewStore. cbn [ttl]. destruct (vc_times _ Hv) as [Ht _].
    destruct (_ <=? 0) eqn:E; bool_facts; [lia|done].
  - intros Ha lookup host port target Hr. rewrite Ha in Ep.
    by destruct (Resolve_default _ _ _ _ _ _ _ Ep Hr) as [_ Hs].
  - intros Hp. unfold NewHostKeyCallback in Eh. rewrite Hp in Eh.
    change (ToLower (TrimSpace "known-hosts") =?s "known-hosts") with true in Eh. cbv iota in Eh.
    ok_path Eh. unfold of_option in *. destruct (knownhosts_New _) as [known|]; [|done]. simplify_eq.
    eexists. split; [reflexivity|]. intros host key. apply wrapKnownHosts_spec.
  - destruct store as [s|].
    + destruct (open_store_Ok _ _ _ _ _ _ _ _ _ Hw Eo) as (H1 & H2 & H3 & H4 & _). by split_and!.
    + unfold open_store in Eo. destruct (Credentials_Enabled _); [|by injection Eo as <- <-]. cbn [negb] in Eo.
      destruct (Open _ _ _ _ _) as [[d2 files2] [s0|oe]]; [|done].
      destruct (UsesPlaintextPassword cfg); [|done].
      by destruct (MigrateLegacyFromPassword _ _ _ _ _) as [s1 [n|me]].
Qed.

(** Starting is repeatable: started again with the same sources on the
    disk it left, the server is the same one and leaves that disk as it is,
    whatever the random source gives the second time: the key is found again and
    there is nothing left to migrate. *)
Theorem restart_same :
  forall path listen d files w nonces commit d1 files1 r w' nonces' commit',
    good_random w nonces ->
    start path listen d files w nonces commit = (d1, files1, Ok r) ->
    ow_init w' = true -> ow_chmod w' = true ->
    start path listen d1 files1 w' nonces' commit' = (d1, files1, Ok r).
Proof.
  intros * Hw Hst Hi Hc. unfold start in *. destruct (configure _ _ _ _ _) as [cfg0|]; [|done].
  destruct (Validate cfg0) as [cfg [e|]]; [done|].
  destruct (open_store cfg d files w nonces commit) as [[d0 files0] store] eqn:Eo. injection Hst as -> -> Hb.
  destruct store as [[s|]|e]; cbn [res_bind] in Hb; [| |done].
  - destruct (open_store_Ok _ _ _ _ _ _ _ _ _ Hw Eo) as (_ & _ & _ & _ & Hag).
    rewrite Hag by done. cbn [res_bind]. by rewrite Hb.
  - unfold open_store in Eo |- *. destruct (Credentials_Enabled _); cbn [negb] in *.
    + destruct (Open _ _ d files w) as [[d2 files2] [s0|oe]]; [|done].
      destruct (UsesPlaintextPassword cfg); [|done].
      by destruct (MigrateLegacyFromPassword _ _ _ _ _) as [s1 [n|me]].
    + cbn [res_bind]. by rewrite Hb.
Qed.

End Start.

(** ** Witnesses *)

#[local] Existing Instance toy_crypto.
#[local] Existing Instance toy_time.

(** A first start without a configuration file, on a database an old version
    wrote. *)
Definition start_env (name : string) : string :=
  if name =?s "GOWEBSSH_PASSWORD" then "pw"
  else if name =?s "GOWEBSSH_SESSION_SECRET" then "0123456789abcdef" else "".
Definition old_database : DB := set_buckets (mkDB (Some "salt") None ∅ ∅) (credentials (db legacy_store)) ∅.
Definition sample_hosts (host key : string) : option error := None.

Definition sample_start (d : DB) (files : gmap string Vault.KeyFile) (w : OpenWorld)
    : DB * gmap string Vault.KeyFile * result Fatal (Running (Key := string)) :=
  start (fun _ => None) (fun _ => None) start_env toy_IDKey (fun _ => HostKey.Exists) (fun _ => true)
    (fun _ => Some sample_hosts) sample_embedded (fun _ => Themes.NotExist) "" "" d files w
    (fun _ => Some sample_nonce) true.

Lemma sample_random_good : good_random sample_world (fun _ => Some sample_nonce).
Proof. constructor; [by intros ? [= <-]|by intros ? [= <-]|by intros ? ? [= <-]]. Qed.

Lemma sample_start_ok : is_ok (snd (sample_start old_database ∅ sample_world)) = true.
Proof. vm_compute. reflexivity. Qed.

(** The credential with an id in the vault of a start. *)
Definition started_credential (result : DB * gmap string Vault.KeyFile * result Fatal (Running (Key := string)))
    (id : string) : option Credential :=
  match snd result with
  | Ok r => match st_vault (rn_state r) with
            | Some s => match VGet s id with Ok c => Some c | Err _ => None end
            | None => None
            end
  | Err _ => None
  end.

(** The start runs on the password [pw] and the salt of the old database. *)
Definition started_on_pw (result : DB * gmap string Vault.KeyFile * result Fatal (Running (Key := string))) : bool :=
  match snd result with
  | Ok r => UsesPlaintextPassword (rn_config r) && (Password (Auth (rn_config r)) =?s "pw")
            && match st_vault (rn_state r) with Some s => salt s =?s "salt" | None => false end
  | Err _ => false
  end.

Lemma start_sound_witness :
  started_credential (sample_start old_database ∅ sample_world) "box" = Some stored_credential.
Proof.
  assert (started_on_pw (sample_start old_database ∅ sample_world) = true) as Hpw by (vm_compute; reflexivity).
  unfold started_credential, started_on_pw in *.
  destruct (sample_start old_database ∅ sample_world) as [[d1 files1] [r|e]] eqn:E; cbn [snd] in *; [|discriminate Hpw].
  pose proof (start_sound _ _ _ _ _ _ _ _ _ _ _ _ _ _ _ _ _ _ _ sample_random_good E) as [_ _ _ _ Hs].
  destruct (st_vault (rn_state r)) as [s|]; [|by rewrite andb_false_r in Hpw]. bool_facts.
  destruct Hs as (_ & _ & _ & Hs).
  rewrite (Hs "box" (default "" (credentials old_database !! "box")) stored_credential); [reflexivity|assumption| |].
  - vm_compute. reflexivity.
  - repeat match goal with X : _ = _ :> string |- _ => rewrite X; clear X end. vm_compute. reflexivity.
Defined.

(** The second start reads the key the first one wrote; its own random bytes
    are never used. *)
Lemma restart_same_witness :
  exists d1 files1 r,
    sample_start old_database ∅ sample_world = (d1, files1, Ok r)
    /\ sample_start d1 files1 broken_world = (d1, files1, Ok r).
Proof.
  pose proof sample_start_ok as Hok.
  destruct (sample_start old_database ∅ sample_world) as [[d1 files1] [r|e]] eqn:E; [|discriminate Hok].
  exists d1, files1, r. split; [reflexivity|].
  exact (restart_same _ _ _ _ _ _ _ _ _ _ _ _ _ _ _ _ _ _ _ broken_world _ _ sample_random_good E eq_refl eq_refl).
Defined.
