(* ===== verification/CmdLine.v ===== *)
(** * The programs' command lines (cmd/webssh-cli/main.go, cmd/webssh/main.go)

    The flags of the client and of the server, bound to their variables, and what
    [main] does with a command line: [cli_main] ends in an action of [CliRun], and
    [server_main] in a start of the server of [Main]. *)

From stdpp Require Import functions.
From S2P Require Import Prelude GoStrings GoTime Config Auth Vault HttpServer Themes Main CliError CliOptions CliUrl CliRun GoFlag.

(** ** Variables *)

(** The local variables of a [main] by their names; flags hold pointers to them,
    and two flags may share one. *)
Record Vars : Type := mkVars {
  str_var : string -> string; bool_var : string -> bool; int_var : string -> Z; dur_var : string -> Z }.

Definition string_var (x : string) : Value Vars :=
  StringVar (fun s v => mkVars (<[x := s]> (str_var v)) (bool_var v) (int_var v) (dur_var v)).
Definition boolean_var (x : string) : Value Vars :=
  BoolVar (fun b v => mkVars (str_var v) (<[x := b]> (bool_var v)) (int_var v) (dur_var v)).
Definition integer_var (x : string) : Value Vars :=
  IntVar (fun n v => mkVars (str_var v) (bool_var v) (<[x := n]> (int_var v)) (dur_var v)).
Definition duration_var (x : string) : Value Vars :=
  DurationVar (fun d v => mkVars (str_var v) (bool_var v) (int_var v) (<[x := d]> (dur_var v))).

Definition version : string := "0.5.22".

(** ** The client *)

Definition cli_flags : list (string * Value Vars) := [
  ("url", string_var "serverURL"); ("web-user", string_var "webUser"); ("web-password", string_var "webPassword");
  ("proxy", string_var "proxyURL"); ("no-proxy", boolean_var "noProxy"); ("insecure", boolean_var "insecure");
  ("private-connect", boolean_var "privateConnect");
  ("i", string_var "identity"); ("identity", string_var "identity"); ("passphrase", string_var "passphrase");
  ("saved", string_var "saved"); ("list", boolean_var "listSaved");
  ("p", integer_var "port"); ("port", integer_var "port"); ("l", string_var "login"); ("login", string_var "login");
  ("term", string_var "term"); ("herdr", boolean_var "useTmux"); ("tmux", boolean_var "useTmux");
  ("herdr-session", string_var "tmuxSession"); ("tmux-session", string_var "tmuxSession");
  ("timeout", duration_var "timeout"); ("stdio", boolean_var "stdioTunnel");
  ("version", boolean_var "showVersion"); ("v", boolean_var "showVersion")].

Section Client.

Context (Quote : string -> string) (getenv : string -> string).

(** The values before the command line is parsed. *)
Definition cli_defaults : Vars :=
  mkVars (<["serverURL" := getenv "GOWEBSSH_URL"]> (<["webUser" := getenv "GOWEBSSH_USERNAME"]> (fun _ => "")))
    (fun _ => false) (fun _ => 0) (<["timeout" := 45 * Second]> (fun _ => 0)).

Definition cli_options (v : Vars) : Options :=
  let webPassword := str_var v "webPassword" in
  {| o_ServerURL := str_var v "serverURL"; o_WebUser := str_var v "webUser";
     o_WebPassword := if webPassword =?s "" then getenv "GOWEBSSH_PASSWORD" else webPassword;
     o_ProxyURL := str_var v "proxyURL"; o_NoProxy := bool_var v "noProxy"; o_InsecureTLS := bool_var v "insecure";
     o_PrivateConnect := bool_var v "privateConnect"; o_IdentityFile := str_var v "identity";
     o_Passphrase := str_var v "passphrase"; o_Saved := str_var v "saved"; o_ListSaved := bool_var v "listSaved";
     o_Host := ""; o_Port := int_var v "port"; o_SSHUser := str_var v "login"; o_Term := str_var v "term";
     o_UseTmux := bool_var v "useTmux"; o_TmuxSession := str_var v "tmuxSession";
     o_Timeout := dur_var v "timeout"; o_UserAgent := "go-webssh-cli/" +:+ version |}.

(** [main] up to the run of a mode. *)
Definition cli_main (args : list string) : FlagError + Action :=
  match Parse cli_flags args cli_defaults [] with
  | Err e => inl e
  | Ok (v, fs) => inr (main_action Quote getenv fs (bool_var v "showVersion") (bool_var v "stdioTunnel") (cli_options v))
  end.

End Client.

(** ** The server *)

Definition server_flags : list (string * Value Vars) :=
  [("config", string_var "configPath"); ("listen", string_var "listen"); ("version", boolean_var "showVer")].

Definition server_defaults : Vars := mkVars (fun _ => "") (fun _ => false) (fun _ => 0) (fun _ => 0).

(** [main] up to [start], which takes the path of the configuration and the
    listening address; arguments that are no flags are ignored. *)
Definition server_main {R} (start : string -> string -> R) (args : list string) : FlagError + option R :=
  match Parse server_flags args server_defaults [] with
  | Err e => inl e
  | Ok (v, _) => inr (if bool_var v "showVer" then None else Some (start (str_var v "configPath") (str_var v "listen")))
  end.

(** ** Names that mean the same *)

Definition canonical (name : string) : string :=
  if name =?s "i" then "identity" else if name =?s "p" then "port" else if name =?s "l" then "login"
  else if name =?s "v" then "version" else if name =?s "tmux" then "herdr"
  else if name =?s "tmux-session" then "herdr-session" else name.

(** What a flag says, apart from its spelling. *)
Definition says (g : Given) : string * string := (canonical (g_name g), g_text g).

(** ** Lemmas: flags and variables *)

Lemma lookup_flag_In {V} (formal : list (string * Value V)) name v :
  lookup_flag formal name = Some v -> (name, v) ∈ formal.
Proof.
  unfold lookup_flag. destruct (List.find _ formal) as [[n u]|] eqn:Ef; [|done]. intros [= <-].
  apply find_some in Ef as [Hin Hn]. apply String.eqb_eq in Hn as <-. by apply list_elem_of_In.
Qed.

Lemma lookup_canonical name v : lookup_flag cli_flags name = Some v -> lookup_flag cli_flags (canonical name) = Some v.
Proof.
  intros Hl. pose proof (lookup_flag_In _ _ _ Hl) as Hin. unfold cli_flags in Hin.
  repeat (apply elem_of_cons in Hin as [[= -> ->]|Hin]; [reflexivity|]). by apply not_elem_of_nil in Hin.
Qed.

(** Two flags that say the same do the same. *)
Lemma says_gives g1 g2 vars v1 v2 :
  says g1 = says g2 -> gives cli_flags g1 vars v1 -> gives cli_flags g2 vars v2 -> v1 = v2.
Proof.
  unfold says. intros [= Hn Ht] (_ & u1 & Hl1 & Hs1 & _) (_ & u2 & Hl2 & Hs2 & _).
  apply lookup_canonical in Hl1, Hl2. rewrite Hn in Hl1. rewrite Ht in Hs1. congruence.
Qed.

Lemma says_give_all gs1 gs2 vars v1 v2 :
  map says gs1 = map says gs2 -> give_all cli_flags gs1 vars v1 -> give_all cli_flags gs2 vars v2 -> v1 = v2.
Proof.
  revert gs2 vars; induction gs1 as [|g1 gs1 IH]; intros [|g2 gs2] vars Hm; try done; [by intros <- <-|].
  injection Hm as Hs Hm. assert (says g1 = says g2) as Hg by (unfold says; congruence).
  intros (u1 & H1 & H1') (u2 & H2 & H2'). pose proof (says_gives _ _ _ _ _ Hg H1 H2) as ->. by eapply IH.
Qed.

(** Which of the names the client asks about were given. *)
Lemma canonical_is name c :
  c ∈ ["stdio"; "private-connect"] -> (canonical name =?s c) = (name =?s c).
Proof.
  intros Hc. unfold canonical.
  repeat (match goal with |- context [name =?s ?x] => destruct (String.eqb_spec name x) as [->|] end;
          [by repeat (apply elem_of_cons in Hc as [->|Hc]; [reflexivity|]); apply not_elem_of_nil in Hc|]).
  done.
Qed.

Lemma canonical_port name : (canonical name =?s "port") = (name =?s "p") || (name =?s "port").
Proof.
  unfold canonical.
  by repeat (match goal with |- context [name =?s ?x] => destruct (String.eqb_spec name x) as [->|] end; [reflexivity|]).
Qed.

Lemma explicit_canonical gs args c :
  c ∈ ["stdio"; "private-connect"] ->
  explicit (mkFlagSet (map g_name gs) args) c = existsb (fun p : string * string => fst p =?s c) (map says gs).
Proof.
  intros Hc. unfold explicit. cbn [fs_given]. induction gs as [|g gs IH]; [done|]. cbn [map existsb says fst].
  by rewrite canonical_is, IH, (String.eqb_sym c) by done.
Qed.

Lemma explicit_port gs args :
  explicit (mkFlagSet (map g_name gs) args) "p" || explicit (mkFlagSet (map g_name gs) args) "port"
  = existsb (fun p : string * string => fst p =?s "port") (map says gs).
Proof.
  unfold explicit. cbn [fs_given]. induction gs as [|g gs IH]; [done|]. cbn [map existsb says fst].
  rewrite canonical_port, <- IH, !(String.eqb_sym _ (g_name g)).
  by destruct (g_name g =?s "p"), (g_name g =?s "port"), (existsb (String.eqb "p") (map g_name gs)), (existsb _ _).
Qed.

(** The action depends on the names only through these. *)
Lemma main_action_names Quote getenv fs1 fs2 showVersion stdio opt :
  explicit fs1 "stdio" = explicit fs2 "stdio" ->
  explicit fs1 "private-connect" = explicit fs2 "private-connect" ->
  explicit fs1 "p" || explicit fs1 "port" = explicit fs2 "p" || explicit fs2 "port" ->
  fs_args fs1 = fs_args fs2 ->
  main_action Quote getenv fs1 showVersion stdio opt = main_action Quote getenv fs2 showVersion stdio opt.
Proof.
  intros Hs Hp Hport Ha. unfold main_action, resolvePrivateConnect, resolveTunnelOptions, resolve_stdio, resolve_target.
  by rewrite Hs, Hp, Hport, Ha.
Qed.


(** What a flag sets is a variable of its own kind. *)
Lemma Set_changes {V} (v : Value V) text vars vars' :
  Set_ v text vars = Ok vars' ->
  match v with
  | BoolVar set => exists b, vars' = set b vars
  | IntVar set => exists n, vars' = set n vars
  | StringVar set => vars' = set text vars
  | DurationVar set => exists d, vars' = set d vars
  end.
Proof.
  destruct v; cbn [Set_]; intros H; ok_path H; injection H as <-; eauto.
Qed.

(** The flags that choose the mode. *)
Definition mode_flag (name : string) : bool :=
  existsb (String.eqb (canonical name)) ["version"; "list"; "saved"; "stdio"].

Lemma gives_keeps_mode g v v' :
  gives cli_flags g v v' -> mode_flag (g_name g) = false ->
  bool_var v' "showVersion" = bool_var v "showVersion" /\ bool_var v' "listSaved" = bool_var v "listSaved"
  /\ str_var v' "saved" = str_var v "saved".
Proof.
  intros (_ & u & Hl & Hs & _) Hm. apply lookup_flag_In in Hl. apply Set_changes in Hs.
  destruct g as [name text double form]. cbn [g_name g_text] in *. unfold cli_flags in Hl.
  repeat (apply elem_of_cons in Hl as [[= -> ->]|Hl];
    [first [discriminate Hm | hnf in Hs; first [subst v' | destruct Hs as [? ->]]; by split_and!]|]).
  by apply not_elem_of_nil in Hl.
Qed.

Lemma give_all_keeps_mode gs v v' :
  give_all cli_flags gs v v' -> forallb (fun g => negb (mode_flag (g_name g))) gs = true ->
  bool_var v' "showVersion" = bool_var v "showVersion" /\ bool_var v' "listSaved" = bool_var v "listSaved"
  /\ str_var v' "saved" = str_var v "saved".
Proof.
  revert v; induction gs as [|g gs IH]; intros v; cbn [give_all forallb]; [by intros <-|].
  intros (v1 & Hg & Hgs) [Hm Hms]%andb_prop. apply negb_true_iff in Hm.
  destruct (gives_keeps_mode g v v1 Hg Hm) as (<- & <- & <-). by apply IH.
Qed.

(** A line that ends in [--stdio] and arguments. *)
Lemma cli_main_stdio Quote getenv gs v host args :
  give_all cli_flags gs (cli_defaults getenv) v ->
  forallb (fun g => negb (mode_flag (g_name g))) gs = true -> token host = Operand ->
  cli_main Quote getenv (print_line gs ++ "--stdio" :: host :: args)
  = inr (main_action Quote getenv (mkFlagSet (map g_name gs ++ ["stdio"]) (host :: args)) false true (cli_options getenv v)).
Proof.
  intros Hg Hm Hh. destruct (give_all_keeps_mode gs _ _ Hg Hm) as (Hver & _ & _).
  unfold cli_main. rewrite (Parse_flags cli_flags gs _ _ v) by done. cbn [app].
  set (names := map g_name gs). cbn [Parse]. change (token "--stdio") with (Named "stdio" None).
  change (lookup_flag cli_flags "stdio") with (Some (boolean_var "stdioTunnel")). cbn. rewrite Hh. cbn [bool_var str_var int_var dur_var].
  change (<["stdioTunnel" := true]> (bool_var v) "showVersion") with (bool_var v "showVersion"). by rewrite Hver.
Qed.

Section Tunnelling.

Context (Quote : string -> string) (getenv : string -> string) (gs : list Given) (v : Vars) (private : bool)
  (args : list string).

Hypotheses (Hg : give_all cli_flags gs (cli_defaults getenv) v)
  (Hm : forallb (fun g => negb (mode_flag (g_name g))) gs = true)
  (Hpriv : resolvePrivateConnect getenv (mkFlagSet (map g_name gs) []) (bool_var v "privateConnect") = Ok private).

Let fs := mkFlagSet (map g_name gs ++ ["stdio"]) args.

(** With the mode and the private-connection setting resolved, the target is
    what is left. *)
Lemma main_action_stdio :
  main_action Quote getenv fs false true (cli_options getenv v)
  = match resolve_target Quote getenv fs (with_private private (cli_options getenv v)) with
    | Err e => Exit 2 ("go-webssh-cli: " +:+ cError e)
    | Ok _ => main_action Quote getenv fs false true (cli_options getenv v)
    end
  /\ forall h p, h <> "" -> 1 <= p <= 65535 ->
       resolve_target Quote getenv fs (with_private private (cli_options getenv v)) = Ok (h, p, true) ->
       main_action Quote getenv fs false true (cli_options getenv v)
       = StartTunnel (with_target h p (with_private private (cli_options getenv v))).
Proof.
  destruct (give_all_keeps_mode gs _ _ Hg Hm) as (_ & Hlist & Hsaved).
  assert (explicit fs "private-connect" = explicit (mkFlagSet (map g_name gs) []) "private-connect") as He.
  { unfold explicit. cbn [fs fs_given]. rewrite existsb_app. cbn. apply orb_false_r. }
  assert (explicit fs "stdio" = true) as Hs.
  { unfold explicit. cbn [fs fs_given]. rewrite existsb_app. cbn. apply orb_true_r. }
  unfold main_action, resolvePrivateConnect in *. cbn [o_PrivateConnect cli_options].
  rewrite He, Hpriv. cbn [res_bind]. unfold resolveTunnelOptions, resolve_stdio. rewrite Hs. cbn [orb res_bind negb].
  cbn [with_private o_ListSaved o_Saved cli_options]. rewrite Hlist, Hsaved. cbn [cli_defaults bool_var str_var].
  cbn [orb]. change (negb (_ =?s "")) with false. cbv iota. split.
  - by destruct (resolve_target _ _ _ _) as [[[h p] given]|e].
  - intros h p Hne Hp ->. cbn [res_bind]. rewrite (proj2 (String.eqb_neq h "") Hne).
    unfold resolve_port. cbn [orb res_bind]. rewrite (proj2 (Z.eqb_neq p 0)) by lia.
    unfold port_in_range. by rewrite (proj2 (Z.leb_le 1 p)), (proj2 (Z.leb_le p 65535)) by lia.
Qed.

End Tunnelling.

Lemma main_action_tunnel Quote getenv gs v host port private :
  give_all cli_flags gs (cli_defaults getenv) v ->
  forallb (fun g => negb (mode_flag (g_name g))) gs = true ->
  TrimSpace host <> "" -> 1 <= port <= 65535 ->
  resolvePrivateConnect getenv (mkFlagSet (map g_name gs) []) (bool_var v "privateConnect") = Ok private ->
  main_action Quote getenv (mkFlagSet (map g_name gs ++ ["stdio"]) [host; Itoa port]) false true (cli_options getenv v)
  = StartTunnel (with_target (TrimSpace host) port (with_private private (cli_options getenv v))).
Proof.
  intros Hg Hm Hne Hp Hpriv. apply (main_action_stdio Quote getenv gs v private); [done..|].
  unfold resolve_target. cbn [fs_args]. rewrite Atoi_Itoa by (unfold int64_max; lia). cbn [of_option res_bind].
  unfold port_in_range. by rewrite (proj2 (Z.leb_le 1 port)), (proj2 (Z.leb_le port 65535)) by lia.
Qed.

Lemma main_action_crowded Quote getenv gs v private host port extra more :
  give_all cli_flags gs (cli_defaults getenv) v ->
  forallb (fun g => negb (mode_flag (g_name g))) gs = true ->
  resolvePrivateConnect getenv (mkFlagSet (map g_name gs) []) (bool_var v "privateConnect") = Ok private ->
  main_action Quote getenv (mkFlagSet (map g_name gs ++ ["stdio"]) (host :: port :: extra :: more)) false true (cli_options getenv v)
  = Exit 2 "go-webssh-cli: tunnel mode accepts a host and optional port".
Proof.
  intros Hg Hm Hpriv.
  by rewrite (proj1 (main_action_stdio Quote getenv gs v private (host :: port :: extra :: more) Hg Hm Hpriv)).
Qed.

(** The variables of the server after its flags. *)
Lemma server_vars_from gs v v' :
  give_all server_flags gs v v' -> forallb (fun g => negb (g_name g =?s "version")) gs = true ->
  bool_var v' "showVer" = bool_var v "showVer"
  /\ str_var v' "configPath" = List.fold_left (fun acc g => if g_name g =?s "config" then g_text g else acc) gs (str_var v "configPath")
  /\ str_var v' "listen" = List.fold_left (fun acc g => if g_name g =?s "listen" then g_text g else acc) gs (str_var v "listen").
Proof.
  revert v; induction gs as [|g gs IH]; intros v; cbn [give_all forallb]; [by intros <-|].
  intros (v1 & (_ & u & Hl & Hs & _) & Hgs) [Hn Hns]%andb_prop. destruct (IH v1 Hgs Hns) as (-> & -> & ->).
  apply lookup_flag_In in Hl. apply Set_changes in Hs. destruct g as [name text double form].
  cbn [g_name g_text] in *. unfold server_flags in Hl.
  repeat (apply elem_of_cons in Hl as [[= -> ->]|Hl];
    [first [discriminate Hn | hnf in Hs; first [subst v1 | destruct Hs as [? ->]]; by split_and!]|]).
  by apply not_elem_of_nil in Hl.
Qed.

(** ** Properties *)

(** What a command line of the client means does not depend on how it is
    written: two lines whose flags say the same, one after the other, and whose
    arguments are the same, make [main] do the same, whatever number of dashes,
    equals signs or separate values, and whichever of two names of a flag
    ([-i] or [--identity], [-p] or [--port], [--tmux] or [--herdr], ...) they use. *)
Theorem command_line_spelling :
  forall Quote getenv gs1 gs2 v1 v2 rest1 rest2 args,
    give_all cli_flags gs1 (cli_defaults getenv) v1 -> give_all cli_flags gs2 (cli_defaults getenv) v2 ->
    map says gs1 = map says gs2 -> operands rest1 args -> operands rest2 args ->
    cli_main Quote getenv (print_line gs1 ++ rest1) = cli_main Quote getenv (print_line gs2 ++ rest2).
Proof.
  intros Quote getenv gs1 gs2 v1 v2 rest1 rest2 args H1 H2 Hm Hr1 Hr2. unfold cli_main.
  rewrite (Parse_line cli_flags gs1 rest1 args _ v1), (Parse_line cli_flags gs2 rest2 args _ v2) by done.
  pose proof (says_give_all _ _ _ _ _ Hm H1 H2) as <-. cbn [app]. f_equal.
  apply main_action_names; [| | |done].
  - rewrite !explicit_canonical by set_solver. by rewrite Hm.
  - rewrite !explicit_canonical by set_solver. by rewrite Hm.
  - by rewrite !explicit_port, Hm.
Qed.

Definition sample_line1 : list Given :=
  [mkGiven "i" "key" false Separate; mkGiven "port" "2222" true Joined; mkGiven "no-proxy" "true" false Alone].
Definition sample_line2 : list Given :=
  [mkGiven "identity" "key" true Joined; mkGiven "p" "2222" false Separate; mkGiven "no-proxy" "true" true Joined].

(** Flags of a concrete line are given by computation. *)
Ltac read_text :=
  repeat match goal with
    | |- context [ParseInt0 ?s] => let r := eval vm_compute in (ParseInt0 s) in change (ParseInt0 s) with r
    | |- context [ParseBool ?s] => let r := eval vm_compute in (ParseBool s) in change (ParseBool s) with r
    end.
Ltac give_flag :=
  split; [reflexivity|eexists; split_and!;
    [match goal with |- lookup_flag ?fs ?n = _ =>
       let r := eval lazy -[string_var boolean_var integer_var duration_var] in (lookup_flag fs n) in
       transitivity r; [reflexivity|]; reflexivity end
    |cbn [Set_ string_var boolean_var integer_var duration_var g_text]; read_text; cbn [res_bind map_err of_option]; reflexivity
    |by split_and?]].
Ltac give_flags := repeat (eexists; split; [give_flag|]); reflexivity.

Lemma command_line_spelling_witness :
  cli_main (fun s => s) (fun _ => "") ["-i"; "key"; "--port=2222"; "-no-proxy"; "root@host"]
  = cli_main (fun s => s) (fun _ => "") ["--identity=key"; "-p"; "2222"; "--no-proxy=true"; "--"; "root@host"].
Proof.
  eapply (command_line_spelling (fun s => s) (fun _ => "") sample_line1 sample_line2 _ _
    ["root@host"] ["--"; "root@host"] ["root@host"]); [give_flags|give_flags|reflexivity|by right|by left].
Defined.

(** OpenSSH's ProxyCommand: [go-webssh-cli options --stdio host port] opens a
    tunnel to that host and port with the options that were given, whatever the
    environment says about the mode and the target, if the host does not look
    like a flag and the private-connection setting can be read.  Options after the
    host are no options: the line is rejected. *)
Theorem proxy_command_tunnels :
  forall Quote getenv gs v host port private,
    give_all cli_flags gs (cli_defaults getenv) v ->
    forallb (fun g => negb (mode_flag (g_name g))) gs = true ->
    token host = Operand -> TrimSpace host <> "" -> 1 <= port <= 65535 ->
    resolvePrivateConnect getenv (mkFlagSet (map g_name gs) []) (bool_var v "privateConnect") = Ok private ->
    cli_main Quote getenv (print_line gs ++ ["--stdio"; host; Itoa port])
    = inr (StartTunnel (with_target (TrimSpace host) port (with_private private (cli_options getenv v))))
    /\ forall extra more,
         cli_main Quote getenv (print_line gs ++ ["--stdio"; host; Itoa port] ++ extra :: more)
         = inr (Exit 2 "go-webssh-cli: tunnel mode accepts a host and optional port").
Proof.
  intros Quote getenv gs v host port private Hg Hm Hh Hne Hp Hpriv.
  split; [|intros extra more]; cbn [app]; rewrite (cli_main_stdio _ _ gs v) by done; f_equal.
  - by apply main_action_tunnel.
  - by apply (main_action_crowded _ _ _ _ private).
Qed.

Lemma proxy_command_tunnels_witness :
  let env v := if v =?s "GOWEBSSH_STDIO" then "false" else "x" in
  let gs := [mkGiven "private-connect" "false" false Joined] in
  print_line gs = ["-private-connect=false"]
  /\ exists opt, cli_main (fun s => s) env (print_line gs ++ ["--stdio"; "host.example"; Itoa 2222]) = inr (StartTunnel opt)
       /\ o_Host opt = "host.example" /\ o_Port opt = 2222.
Proof.
  intros env gs. split; [reflexivity|]. eexists. split.
  - eapply (fun a b c d e f => proj1 (proxy_command_tunnels (fun s => s) env gs _ "host.example" 2222 false a b c d e f));
      [give_flags|reflexivity|reflexivity|vm_compute; discriminate|lia|reflexivity].
  - by split.
Defined.

(** The server's command line: of the flags the last value of each counts, what
    follows the flags is ignored, and unless the version is asked for the server
    starts with that path and that address. *)
Definition last_text (name : string) (gs : list Given) : string :=
  List.fold_left (fun acc g => if g_name g =?s name then g_text g else acc) gs "".

Theorem server_line_starts :
  forall R (start : string -> string -> R) gs v rest args,
    give_all server_flags gs server_defaults v -> operands rest args ->
    forallb (fun g => negb (g_name g =?s "version")) gs = true ->
    server_main start (print_line gs ++ rest) = inr (Some (start (last_text "config" gs) (last_text "listen" gs))).
Proof.
  intros R start gs v rest args Hg Hr Hv. unfold server_main.
  rewrite (Parse_line server_flags gs rest args _ v) by done.
  destruct (server_vars_from gs _ v Hg Hv) as (-> & -> & ->). done.
Qed.

Lemma server_line_starts_witness :
  server_main (fun path listen => (path, listen)) ["-config"; "a.yaml"; "--listen=:80"; "-listen"; ":8080"; "ignored"]
  = inr (Some ("a.yaml", ":8080")).
Proof.
  eapply (server_line_starts _ (fun path listen => (path, listen))
    [mkGiven "config" "a.yaml" false Separate; mkGiven "listen" ":80" true Joined; mkGiven "listen" ":8080" false Separate]
    _ ["ignored"] ["ignored"]); [give_flags|by right|reflexivity].
Defined.
