(* ===== verification/ServerLife.v ===== *)
(** * The life of the server's process (cmd/webssh/main.go, internal/httpserver/server.go)

    After its start-up (Main) [main] runs [Server.Start] in a goroutine, waits for
    a signal, calls [Server.Shutdown] with ten seconds of time and returns.  The
    model is this goroutine and [main]'s, with the listener and the connections
    as [net/http] documents them: [Shutdown] closes the listener and idle
    connections, waits for the others, and does neither close nor wait for
    hijacked ones, as every WebSocket is. *)

From S2P Require Import Prelude.

(** ** The state *)

(** How [Server.Start] returns. *)
Inductive StartEnd : Type := ListenFailed | AcceptFailed | ErrServerClosed.

Inductive StartPc : Type :=
| StListen                                     (* [net.Listen] *)
| StServe                                      (* [s.server.Serve] begins *)
| StAccept                                     (* its loop *)
| StReturned (e : StartEnd)                    (* the test of the error *)
| StEnd.

Inductive ProcPc : Type :=
| PStop                                        (* [<-stop], from [signal.Notify] on *)
| PShutdown                                    (* [Shutdown] begins *)
| PDrain                                       (* and waits *)
| PReturn.                                     (* the deferred calls, and the end of [main] *)

Inductive Listener : Type := Unbound | Bound | Released.

(** [lf_waiting] counts accepted connections without a request (new or idle),
    [lf_requests] those in the hands of a handler, [lf_sessions] those that a
    handler upgraded to a WebSocket; [lf_late] once the context of [Shutdown] is
    done, [lf_store] until the credential store is closed; [lf_status] once the
    process has ended. *)
Record Life : Type := mkLife {
  lf_start : StartPc; lf_main : ProcPc; lf_listener : Listener; lf_signalled : bool; lf_closing : bool;
  lf_waiting : nat; lf_requests : nat; lf_sessions : nat; lf_late : bool; lf_store : bool; lf_status : option Z }.

Definition at_start pc l := mkLife pc (lf_main l) (lf_listener l) (lf_signalled l) (lf_closing l)
  (lf_waiting l) (lf_requests l) (lf_sessions l) (lf_late l) (lf_store l) (lf_status l).
Definition at_main pc l := mkLife (lf_start l) pc (lf_listener l) (lf_signalled l) (lf_closing l)
  (lf_waiting l) (lf_requests l) (lf_sessions l) (lf_late l) (lf_store l) (lf_status l).
Definition with_listener b l := mkLife (lf_start l) (lf_main l) b (lf_signalled l) (lf_closing l)
  (lf_waiting l) (lf_requests l) (lf_sessions l) (lf_late l) (lf_store l) (lf_status l).
Definition with_signal l := mkLife (lf_start l) (lf_main l) (lf_listener l) true (lf_closing l)
  (lf_waiting l) (lf_requests l) (lf_sessions l) (lf_late l) (lf_store l) (lf_status l).
Definition with_closing l := mkLife (lf_start l) (lf_main l) (lf_listener l) (lf_signalled l) true
  (lf_waiting l) (lf_requests l) (lf_sessions l) (lf_late l) (lf_store l) (lf_status l).
Definition with_conns waiting requests sessions l := mkLife (lf_start l) (lf_main l) (lf_listener l) (lf_signalled l) (lf_closing l)
  waiting requests sessions (lf_late l) (lf_store l) (lf_status l).
Definition with_late l := mkLife (lf_start l) (lf_main l) (lf_listener l) (lf_signalled l) (lf_closing l)
  (lf_waiting l) (lf_requests l) (lf_sessions l) true (lf_store l) (lf_status l).
Definition store_closed l := mkLife (lf_start l) (lf_main l) (lf_listener l) (lf_signalled l) (lf_closing l)
  (lf_waiting l) (lf_requests l) (lf_sessions l) (lf_late l) false (lf_status l).
Definition exit_with code l := mkLife (lf_start l) (lf_main l) (lf_listener l) (lf_signalled l) (lf_closing l)
  (lf_waiting l) (lf_requests l) (lf_sessions l) (lf_late l) (lf_store l) (Some code).

Definition life_started : Life := mkLife StListen PStop Unbound false false 0 0 0 false true None.

(** ** The steps *)

Inductive LifeEvent : Type :=
| Starts (ok : bool)                           (* the goroutine of [Start]; whether its next call succeeds *)
| Connects                                     (* a connection is accepted *)
| Requests                                     (* a request comes in on one *)
| Answered (keep : bool)                       (* its handler returns; whether the connection stays *)
| Upgrades                                     (* or the handler takes the connection over *)
| Drops                                        (* a connection without a request is closed, by the client or
                                                  by [Shutdown] *)
| SessionEnds
| Signal
| Mains                                        (* [main] *)
| Deadline.                                    (* ten seconds after [Shutdown] began *)

(** [Start], and what [main] does with its result: [os.Exit] runs no deferred call. *)
Definition start_step (ok : bool) (l : Life) : option Life :=
  match lf_start l with
  | StListen => Some (if ok then at_start StServe (with_listener Bound l) else at_start (StReturned ListenFailed) l)
  | StServe =>
      Some (if lf_closing l then at_start (StReturned ErrServerClosed) (with_listener Released l)
            else at_start StAccept l)
  | StAccept =>
      match lf_listener l with
      | Bound => if ok then None else Some (at_start (StReturned AcceptFailed) (with_listener Released l))
      | _ => Some (at_start (StReturned ErrServerClosed) l)
      end
  | StReturned ErrServerClosed => Some (at_start StEnd l)
  | StReturned _ => Some (exit_with 1 l)
  | StEnd => None
  end.

(** The end of [main] from [signal.Notify] on. *)
Definition proc_step (l : Life) : option Life :=
  match lf_main l with
  | PStop => if lf_signalled l then Some (at_main PShutdown l) else None
  | PShutdown => Some (at_main PDrain (with_closing (match lf_start l with StAccept => with_listener Released l | _ => l end)))
  | PDrain => if (lf_requests l =? 0)%nat && (lf_waiting l =? 0)%nat || lf_late l then Some (at_main PReturn l) else None
  | PReturn => Some (exit_with 0 (store_closed l))
  end.

Definition life_step (e : LifeEvent) (l : Life) : option Life :=
  match lf_status l with
  | Some _ => None
  | None =>
      match e with
      | Starts ok => start_step ok l
      | Connects =>
          match lf_start l, lf_listener l with
          | StAccept, Bound => Some (with_conns (S (lf_waiting l)) (lf_requests l) (lf_sessions l) l)
          | _, _ => None
          end
      | Requests =>
          match lf_waiting l with O => None | S n => Some (with_conns n (S (lf_requests l)) (lf_sessions l) l) end
      | Answered keep =>
          match lf_requests l with
          | O => None
          | S n => Some (with_conns (if keep then S (lf_waiting l) else lf_waiting l) n (lf_sessions l) l)
          end
      | Upgrades =>
          match lf_requests l with O => None | S n => Some (with_conns (lf_waiting l) n (S (lf_sessions l)) l) end
      | Drops =>
          match lf_waiting l with O => None | S n => Some (with_conns n (lf_requests l) (lf_sessions l) l) end
      | SessionEnds =>
          match lf_sessions l with O => None | S n => Some (with_conns (lf_waiting l) (lf_requests l) n l) end
      | Signal => Some (with_signal l)
      | Mains => proc_step l
      | Deadline => match lf_main l with PDrain => Some (with_late l) | _ => None end
      end
  end.

Fixpoint life_run (es : list LifeEvent) (l : Life) : option Life :=
  match es with
  | [] => Some l
  | e :: es => l' ← life_step e l; life_run es l'
  end.

Definition lives (l : Life) : Prop := exists es, life_run es life_started = Some l.

(** ** Lemmas *)

Definition proc_phase (p : ProcPc) : nat := match p with PStop => 0 | PShutdown => 1 | PDrain => 2 | PReturn => 3 end.

Record life_inv (l : Life) : Prop := {
  lv_signal : (1 <= proc_phase (lf_main l))%nat -> lf_signalled l = true;
  lv_closing : lf_closing l = (2 <=? proc_phase (lf_main l))%nat;
  lv_late : lf_late l = true -> lf_closing l = true;
  lv_listener : lf_closing l = true -> lf_start l = StAccept -> lf_listener l = Released;
  lv_unserved : lf_start l = StListen \/ lf_start l = StServe -> lf_waiting l = O /\ lf_requests l = O /\ lf_sessions l = O;
  lv_drained : lf_main l = PReturn -> lf_status l <> Some 1 -> (lf_requests l = O /\ lf_waiting l = O) \/ lf_late l = true;
  lv_store : lf_store l = false <-> lf_status l = Some 0;
  lv_zero : lf_status l = Some 0 -> lf_main l = PReturn;
  lv_status : forall c, lf_status l = Some c -> c = 0 \/ c = 1 /\ (exists e, lf_start l = StReturned e /\ e <> ErrServerClosed) }.

(** Most clauses are as before, or about another point of the program. *)
Ltac life_auto := cbn in *; first [assumption | done | (intros; simplify_eq; eauto; done) | naive_solver].

Lemma life_step_inv e l l' : life_inv l -> life_step e l = Some l' -> life_inv l'.
Proof.
  intros [H1 H2 H3 H4 H5 H6 H7 H8 H9] Hs. unfold life_step in Hs. destruct l as [st mn li sg cl wt rq se la sto stat].
  cbn [lf_start lf_main lf_listener lf_signalled lf_closing lf_waiting lf_requests lf_sessions lf_late lf_store lf_status] in *.
  destruct stat as [c|]; [discriminate Hs|]. destruct e.
  - unfold start_step in Hs. cbn in Hs.
    destruct st as [| | |[]|], ok, li, cl; try discriminate Hs; injection Hs as <-;
      constructor; life_auto.
  - destruct st, li; try discriminate Hs. injection Hs as <-. constructor; life_auto.
  - destruct wt as [|n]; [discriminate Hs|]. injection Hs as <-. constructor; life_auto.
  - destruct rq as [|n]; [discriminate Hs|]. injection Hs as <-. destruct keep; constructor; life_auto.
  - destruct rq as [|n]; [discriminate Hs|]. injection Hs as <-. constructor; life_auto.
  - destruct wt as [|n]; [discriminate Hs|]. injection Hs as <-. constructor; life_auto.
  - destruct se as [|n]; [discriminate Hs|]. injection Hs as <-. constructor; life_auto.
  - injection Hs as <-. constructor; life_auto.
  - unfold proc_step in Hs. cbn in Hs. destruct mn; cbn in *.
    + destruct sg; [|discriminate Hs]. injection Hs as <-. constructor; life_auto.
    + injection Hs as <-. destruct st; constructor; life_auto.
    + destruct ((rq =? 0)%nat && (wt =? 0)%nat) eqn:E; cbn in Hs;
        [apply andb_true_iff in E as [E1%Nat.eqb_eq E2%Nat.eqb_eq]|]; [|destruct la; [|discriminate Hs]];
        injection Hs as <-; constructor; life_auto.
    + injection Hs as <-. constructor; life_auto.
  - destruct mn; try discriminate Hs. injection Hs as <-. constructor; life_auto.
Qed.

Lemma lives_inv l : lives l -> life_inv l.
Proof.
  intros [es Hs]. assert (life_inv life_started) as Hi.
  { constructor; cbn; try naive_solver; lia. }
  revert Hi Hs. generalize life_started. induction es as [|e es IH]; intros l0 Hi Hs; cbn [life_run] in Hs; [by simplify_eq|].
  apply bind_Some in Hs as (l1 & H1 & Hs). eauto using life_step_inv.
Qed.

Lemma life_run_app es1 es2 l : life_run (es1 ++ es2) l = life_run es1 l ≫= life_run es2.
Proof. revert l; induction es1 as [|e es IH]; intros l; [done|]. cbn [app life_run]. destruct (life_step e l); [apply IH|done]. Qed.

(** What [main] does alone once there is a signal. *)
Definition stopping (l : Life) : list LifeEvent :=
  match lf_main l with
  | PStop => [Mains; Mains; Deadline; Mains; Mains]
  | PShutdown => [Mains; Deadline; Mains; Mains]
  | PDrain => [Deadline; Mains; Mains]
  | PReturn => [Mains]
  end.

Lemma stopping_stops l :
  lf_status l = None -> lf_signalled l = true ->
  exists l', life_run (stopping l) l = Some l' /\ lf_status l' = Some 0 /\ lf_store l' = false
    /\ lf_requests l' = lf_requests l /\ lf_sessions l' = lf_sessions l.
Proof.
  destruct l as [st mn li sg cl wt rq se la sto stat]. cbn. intros -> ->. unfold stopping. cbn [lf_main].
  destruct mn, st; cbn; rewrite ?orb_true_r; cbn; eexists; by split_and!.
Qed.

(** Sessions open one after the other. *)
Definition opening (n : nat) : list LifeEvent := concat (replicate n [Connects; Requests; Upgrades]).

Lemma opening_opens n l :
  lf_status l = None -> lf_start l = StAccept -> lf_listener l = Bound -> lf_waiting l = O -> lf_requests l = O ->
  life_run (opening n) l = Some (with_conns 0 0 (n + lf_sessions l) l).
Proof.
  revert l; induction n as [|n IH]; intros l H1 H2 H3 Hw H4.
  { unfold opening. cbn. destruct l. cbn in *. by subst. }
  change (opening (S n)) with ([Connects; Requests; Upgrades] ++ opening n). rewrite life_run_app.
  destruct l as [st mn li sg cl wt rq se la sto stat]. cbn in *. subst. cbn.
  rewrite IH by done. cbn. by rewrite Nat.add_succ_r.
Qed.

Definition accepting (n : nat) : Life := mkLife StAccept PStop Bound false false 0 0 n false true None.
Definition stopped_with (n : nat) : Life := mkLife StAccept PReturn Released true true 0 0 n false false (Some 0).

Lemma sessions_cut n : exists l, lives l /\ lf_status l = Some 0 /\ lf_late l = false /\ lf_sessions l = n.
Proof.
  exists (stopped_with n). split; [|done].
  exists ([Starts true; Starts true] ++ opening n ++ [Signal; Mains; Mains; Mains; Mains]). rewrite life_run_app.
  assert (life_run [Starts true; Starts true] life_started = Some (accepting 0)) as -> by reflexivity.
  cbn [mbind option_bind]. rewrite life_run_app, opening_opens by reflexivity. cbn [accepting lf_sessions]. rewrite Nat.add_0_r. reflexivity.
Qed.

(** ** Properties *)

(** C29.  How the server's process ends, under every schedule.  Status 0 means that
    a signal came, that the credential store was closed, and that no request
    was being answered and no other connection open, or ten seconds had passed;
    status 1 that listening failed, and then the store was not closed.  After a
    signal the process can end whatever the handlers do, within five steps of
    [main] and its clock; once [Shutdown] has begun no connection is let in,
    though a request may still come on one that was.  But [Shutdown] does not
    wait for WebSockets: with any number of terminal sessions open the process
    ends at once, and their handlers' deferred calls never run. *)
Theorem server_stops :
  (forall l, lives l ->
     (lf_status l = Some 0 -> lf_signalled l = true /\ lf_store l = false
         /\ ((lf_requests l = O /\ lf_waiting l = O) \/ lf_late l = true))
     /\ (forall c, lf_status l = Some c -> c <> 0 -> c = 1 /\ lf_store l = true
           /\ (lf_start l = StReturned ListenFailed \/ lf_start l = StReturned AcceptFailed))
     /\ (lf_status l = None -> lf_signalled l = true ->
           exists es l', life_run es l = Some l' /\ lf_status l' = Some 0 /\ (length es <= 5)%nat
             /\ Forall (fun e => e = Mains \/ e = Deadline) es)
     /\ (lf_closing l = true -> life_step Connects l = None))
  /\ (forall n, exists l, lives l /\ lf_status l = Some 0 /\ lf_late l = false /\ lf_sessions l = n).
Proof.
  split.
  - intros l Hl. destruct (lives_inv l Hl) as [H1 H2 H3 H4 H5 H6 H7 H8 H9]. split_and!.
    + intros Hs. pose proof (H8 Hs) as Hm. split_and!; [apply H1; rewrite Hm; cbn; lia|by apply H7|].
      apply (H6 Hm). by rewrite Hs.
    + intros c Hc Hne. destruct (H9 c Hc) as [->|(-> & e & He & Hee)]; [done|]. split; [done|].
      split; [|destruct e; auto; by destruct Hee]. destruct (lf_store l) eqn:E; [done|].
      rewrite (proj1 H7 eq_refl) in Hc. discriminate Hc.
    + intros Hs Hsig. destruct (stopping_stops l Hs Hsig) as (l' & Hr & He & _).
      exists (stopping l), l'. split_and!; [done|done|unfold stopping; by destruct (lf_main l); cbn; lia|].
      unfold stopping. by destruct (lf_main l); repeat constructor; auto.
    + intros Hc. unfold life_step. destruct (lf_status l); [done|]. destruct (lf_start l) eqn:E; try done. by rewrite (H4 Hc eq_refl).
  - apply sessions_cut.
Qed.

Example life_sample :
  option_map (fun l => (lf_status l, lf_requests l))
    (life_run [Starts true; Starts true; Connects; Signal; Mains; Mains; Requests; Answered true; Drops; Mains;
               Starts true; Mains] life_started)
  = Some (Some 0, 0%nat).
Proof. reflexivity. Qed.

Lemma server_stops_witness :
  exists es l', life_run es (with_signal (accepting 7)) = Some l' /\ lf_status l' = Some 0 /\ (length es <= 5)%nat
    /\ Forall (fun e => e = Mains \/ e = Deadline) es.
Proof.
  destruct server_stops as [H _]. destruct (H (with_signal (accepting 7))) as (_ & _ & H3 & _).
  - exists ([Starts true; Starts true] ++ opening 7 ++ [Signal]). reflexivity.
  - apply H3; reflexivity.
Defined.
